(* ===== verification/_CoqProject ===== *)
-Q . S2P
Prelude.v
Bytes.v
Models.v
Sbe.v
Decimal.v
Text.v
FixedPoint.v
Json.v
Bitmap.v
Topic.v
Session.v
Router.v
WebSocket.v
Topology.v
Shm.v
Spsc.v
ConsumerQueue.v
OrderBook.v
U256.v
Amm.v
V4.v
JsonScan.v
Iso8601.v
FeedParser.v
SequenceTracker.v
LiveSession.v
Curve.v
KernelBypass.v
Onchain.v
Transport.v
SocketTransport.v
WaitStrategy.v
Scheduler.v
Simulator.v
FeedHarness.v
Records.v
Pipeline.v
Runner.v
Health.v
Calibrate.v
Benchmarks.v
BotClient.v
Testing.v
DistributionTests.v
IngestTests.v
PoolTests.v
EngineTests.v
RuntimeTests.v
RecordedFeed.v
SessionTests.v
