(* ===== verification/Prelude.v ===== *)
(** * Chain-Market-Price: a verification development

    The program (src/, Rust) is a market-data engine.  It takes quotes and trades from exchanges and
    from pools of automated market makers, normalizes them, keeps order books, and distributes the
    results to clients over WebSocket frames, a shared-memory ring and in-process queues.  This
    library embeds its logic in Rocq, file by file, as executable definitions that keep the source's
    names, and proves what makes each part correct.  File names below are relative to src/crates/.

    ** Conventions

    - A w-bit integer is a [Z]; [wrap t] reduces to the type [t] and [sat t] saturates (Prelude.v).
      [+[t]], [-[t]], [*[t]] are the wrapping operations: release builds set overflow-checks to
      false, so overflow wraps silently.  A panic is the value [Panic] of [outcome]; [Result] is
      [result]; [let!], [let?] and [let-] sequence outcomes, results and options.
    - Bytes and strings are [list Z] (Bytes.v, Text.v); [f64] is IEEE binary64 ([spec_float]).
    - Loops whose bound is not structural take fuel.  Each has a theorem that the fuel used is enough:
      129 turns for the integer square root ([integer_sqrt_exact]), 255 for the two Newton loops of
      Curve.v (the code's own bound; [get_y_converges] shows that [get_y] stops by itself before
      it), the length of the text for the parsers, the free buffers for the ring refill, the readings of the
      clock before the deadline for [pop_timeout], one attempt for each second of the limit for the exchange client
      ([stops_at_deadline]), 2n + 3 turns of each thread for n round trips of the ping-pong
      ([ping_pong_completes]).  Where a loop can run for ever (a blocking pop, the cooperative loop) the
      theorem says when it ends, for every larger fuel.
    - Concurrent code is a step relation.  Its steps are single memory accesses, under sequential
      consistency, in Spsc.v, ConsumerQueue.v and Shm.v, which state where Acquire and Release justify it, in
      FeedHarness.v and Benchmarks.v, whose threads run on those queues, and for the token bucket of Topic.v; they are
      the critical sections between two locks in Router.v, and the turns of the server's thread in Health.v.  A
      broadcast of WebSocket.v and the theorems of Pipeline.v are about one call that no other interrupts.
      Everything else is called by one thread at a time and is a function on its state.
    - Clocks, sockets, files, environment variables and the operating system are parameters: a clock is a
      function from readings to nanoseconds, a socket the list of results its calls will give.

    ** Parts, in dependency order

    Data and codecs.
    - Models.v: ingest-models/src/lib.rs, the normalized quote and trade.
    - Sbe.v: distribution/src/sbe.rs, the binary codec: decoding inverts encoding byte for byte.
    - Decimal.v, Text.v: decimal texts, and the string functions of the standard library used.
    - FixedPoint.v: core-engine/src/lib.rs, the fixed-point parser, on every decimal text: exact while the
      digits fit in 64 bits, and what it gives when they do not.
    - Json.v: distribution/src/fast_json.rs, the JSON writer, equal to its specification text.

    Distribution.
    - Bitmap.v: distribution/src/bitmap.rs, sets of clients and their iteration.
    - Topic.v, Session.v, Router.v: distribution/src/lib.rs, router.rs, session.rs: topic keys, client
      filters, the token bucket with its rate bound, sessions with their frame queue, and the
      router, whose dispatch reaches exactly the matching active clients within their rates, and whose
      index is described at every moment of any interleaving of its critical sections.
    - WebSocket.v: distribution/src/websocket.rs, frames in both directions and the engine.
    - Topology.v: core-engine/src/topology/mod.rs, hardware probing and the profile.
    - Shm.v: distribution/src/shm.rs, the ring for many readers, with torn reads.

    Engine.
    - Spsc.v, ConsumerQueue.v: core-engine/src/lib.rs and simulator.rs, the lock-free queues refined to
      bounded queues under every interleaving, and the race of the evicting policy.
    - OrderBook.v: core-engine/src/lib.rs, the price ladder and its best prices.
    - WaitStrategy.v: core-engine/src/sync/wait_strategy.rs and the blocking pops of lib.rs, which are proved
      against the class [BoundedWait] that each strategy implements.
    - Scheduler.v: core-engine/src/scheduler/, the execution plan and the cooperative loop.
    - KernelBypass.v: core-engine/src/kernel_bypass.rs, the simulated receive ring as a queue with
      credits.
    - Simulator.v: core-engine/src/simulator.rs, the random generator and the bursts, in a state
      monad with triples.
    - Health.v: core-engine/src/health.rs, the HTTP probes as an HTTP client reads them, and the life of
      the server's thread.
    - FeedHarness.v: core-engine/examples/feed_simulator.rs, the stress harness: a producer and two
      consumers, the slow one isolated from the fast one under every interleaving.
    - Calibrate.v, Benchmarks.v: core-engine/src/bin/cmp_calibrate.rs, the grade of a host and its
      configuration; the four benchmarks, their two interleaved threads, and the run of the tool.

    Pools.
    - U256.v, Amm.v, V4.v, Curve.v: amm-virtualizer/src/, 256-bit arithmetic, constant-product,
      concentrated, v4 and stableswap pools and their ladders.
    - Onchain.v: onchain-ingest/src/lib.rs, speculative swaps and the Raydium account.

    Ingestion.
    - JsonScan.v, Iso8601.v, FeedParser.v, SequenceTracker.v: cefi-ingest/src/lib.rs, the field
      extractors, time stamps, venue parsers and gap detection.
    - LiveSession.v: live-feed/src/session.rs, the exchange session.
    - Runner.v: live-feed/src/bin/live_feed.rs, the client that owns the socket: its arguments, the
      event loop of a connection, the reconnections and the summary it ends with.
    - Records.v: lemmas: the records of the venue parsers and of the session fit the types of Models.v.
    - Pipeline.v: an exchange's message, its record, the frames sent for it and what the program's readers find in them.
    - BotClient.v: examples/bot_client.rs (beside crates/), the demonstration of a binary client.
    - Transport.v, SocketTransport.v: cefi-ingest/src/transport/, the trait as a class with its contract
      [TransportLaws], four implementations, and the factory; a client's theorem is proved once,
      against the contract.

    The source's own tests.
    - Testing.v: assertions, and what it is for a test to pass.  DistributionTests.v, IngestTests.v, PoolTests.v,
      EngineTests.v, RuntimeTests.v: the unit tests of the crates and the integration tests of the
      distribution engine (distribution/tests/engine_tests.rs), run on the definitions above.
    - RecordedFeed.v, SessionTests.v: live-feed/tests/session_fixtures.rs, on its recording of the exchange's feed.

    ** How the parts meet

    FeedParser.v and LiveSession.v produce the records of Models.v; Router.v dispatches them to the sessions
    of Session.v through the sets of Bitmap.v, and WebSocket.v frames the texts of Json.v; Shm.v
    carries the same records in slots.  Amm.v, V4.v and Curve.v fill the ladders of OrderBook.v, and
    Onchain.v runs its swaps on the pool of Amm.v.  The factory of SocketTransport.v asks Topology.v for the
    tier, and its Solarflare adapter runs on KernelBypass.v.  The pops of WaitStrategy.v run on Spsc.v.
    Pipeline.v composes FeedParser.v, Router.v, WebSocket.v, Json.v and Sbe.v: each client of a topic is sent one frame in the
    protocol it chose, from which the program's header decoder and SBE decoder, or its field extractors, read
    the record that was parsed, and a client that subscribed gets it.
    Runner.v drives the session of LiveSession.v, moves each quote through the ring of Spsc.v and encodes it
    with Sbe.v; FeedHarness.v runs the simulator of Simulator.v into two queues of ConsumerQueue.v.

    ** What the theorems show

    Each file ends in a module with its properties: round trips of the codecs; equality of the fast
    paths (JSON writer, parsers, long division, bitmap iteration) with reference definitions; invariants
    of the stateful parts over every sequence of calls (order book, session, sequence
    tracker, simulator) or every interleaving of them (router, token bucket, queues); refinement of the rings, queues and transports to queues; exactness, bounds and
    termination of the pool arithmetic; and liveness of the loops.  The tests files show that the source's own tests
    pass on the model: those without an environment by computation, the others for every clock, socket, host or
    stop flag that does what the test relies on.  Where the code does not do what it
    means to, a theorem or example shows the case: among others [large_swap_wraps],
    [poll_loses_buffers], [eviction_race], [lost_subscription], [bucket_rate_attained], [quiet_loop_spins] and
    [regression_lowers_baseline].

    ** Not modelled

    What the programs print while they run (the final report of the exchange client and of the calibration tool
    is modelled), the one test of a slot's size and alignment, and the benchmarks under benches/, which
    time operations modelled here.  Code outside src/: tokio, tungstenite and the system calls appear as
    data or as parameters.  Weak memory beyond the Acquire and Release pairs, memory layout and padding, and
    the mapping of shared memory into a process.  The effect of priorities and affinity masks on the
    operating system.  The deployment files, the website and the clients in other languages. *)

From Stdlib Require Export ZArith Lia Bool.
From stdpp Require Export base tactics list gmap sets strings numbers.
Open Scope Z_scope.

(** ** Results, panics and their sequencing *)

(** Rust's [Result<A, E>]. *)
Inductive result (A E : Type) : Type :=
| Ok (a : A)
| Err (e : E).
Arguments Ok {A E} _.
Arguments Err {A E} _.

(** What running a Rust expression gives: a value, or a panic (an index out of
    range, a division by zero, an explicit [panic!]). *)
Inductive outcome (A : Type) : Type :=
| Done (a : A)
| Panic.
Arguments Done {A} _.
Arguments Panic {A}.

Definition result_bind {A B E} (r : result A E) (k : A -> result B E) : result B E :=
  match r with Ok a => k a | Err e => Err e end.

Definition outcome_bind {A B} (o : outcome A) (k : A -> outcome B) : outcome B :=
  match o with Done a => k a | Panic => Panic end.

Definition opt_bind {A B} (o : option A) (k : A -> option B) : option B :=
  match o with Some a => k a | None => None end.

(** Nanoseconds.  [Instant + Duration] panics when the seconds leave [i64]. *)
Definition SECOND : Z := 1000000000.
Definition instant_add (t d : Z) : outcome Z := if t + d <? 2 ^ 63 * SECOND then Done (t + d) else Panic.

(** [a / b] on unsigned integers: dividing by zero panics. *)
Definition udiv (a b : Z) : outcome Z := if b =? 0 then Panic else Done (a / b).

Definition is_ok {A E} (r : result A E) : bool :=
  match r with Ok _ => true | Err _ => false end.

Declare Scope rust_scope.
Delimit Scope rust_scope with rust.
Notation "'let?' x ':=' e 'in' k" := (result_bind e (fun x => k))
  (at level 10, x pattern, e at level 100, k at level 200) : rust_scope.
Notation "'let!' x ':=' e 'in' k" := (outcome_bind e (fun x => k))
  (at level 10, x pattern, e at level 100, k at level 200) : rust_scope.
Notation "'let-' x ':=' e 'in' k" := (opt_bind e (fun x => k))
  (at level 10, x pattern, e at level 100, k at level 200) : rust_scope.
Open Scope rust_scope.

#[global] Instance result_eq_dec {A E} `{EqDecision A, EqDecision E} : EqDecision (result A E).
Proof. solve_decision. Defined.
#[global] Instance outcome_eq_dec {A} `{EqDecision A} : EqDecision (outcome A).
Proof. solve_decision. Defined.

(** ** Machine integers *)

(** The integer types the code uses; [usize] is 64 bits wide. *)
Inductive ity := U8 | U16 | U32 | U64 | U128 | I16 | I32 | I64 | I128.
Abbreviation USIZE := U64.

Definition modulus (t : ity) : Z :=
  match t with
  | U8 => 256
  | U16 | I16 => 65536
  | U32 | I32 => 4294967296
  | U64 | I64 => 18446744073709551616
  | U128 | I128 => 340282366920938463463374607431768211456
  end.

Definition min_int (t : ity) : Z :=
  match t with
  | I16 => -32768
  | I32 => -2147483648
  | I64 => -9223372036854775808
  | I128 => -170141183460469231731687303715884105728
  | _ => 0
  end.

Definition max_int (t : ity) : Z := modulus t + min_int t - 1.

Definition in_range (t : ity) (z : Z) : Prop := min_int t <= z <= max_int t.

(** The value a [t]-typed location holds after [z] is stored in it: two's complement
    wrap-around. It is both Rust's [as] cast to [t] and the result of [+], [-] and [*]
    at type [t] with overflow checks off, which is what the release profile of the
    workspace's Cargo.toml sets. *)
Definition wrap (t : ity) (z : Z) : Z := (z - min_int t) mod modulus t + min_int t.

Definition sat (t : ity) (z : Z) : Z := Z.max (min_int t) (Z.min z (max_int t)).

Declare Scope mint_scope.
Delimit Scope mint_scope with mint.
Notation "x +[ t ] y" := (wrap t (x + y)) (at level 50, left associativity) : mint_scope.
Notation "x -[ t ] y" := (wrap t (x - y)) (at level 50, left associativity) : mint_scope.
Notation "x *[ t ] y" := (wrap t (x * y)) (at level 40, left associativity) : mint_scope.
Notation "x <<[ t ] y" := (wrap t (Z.shiftl x y)) (at level 60, no associativity) : mint_scope.
Open Scope mint_scope.

#[global] Instance in_range_dec t z : Decision (in_range t z).
Proof. unfold in_range; apply _. Defined.

(** [mint] decides linear goals about machine integers. *)
Ltac mint_unfold :=
  unfold wrap, sat, in_range, max_int in *; cbn [modulus min_int] in *.
(** [zdm] is [lia] with [/] and [mod] by constants turned into equations. *)
Ltac zdm := Z.to_euclidean_division_equations; lia.
Ltac mint := mint_unfold; first [lia | zdm].

Lemma wrap_range t z : in_range t (wrap t z).
Proof.
  unfold in_range, wrap, max_int.
  assert (0 < modulus t) by (destruct t; cbn; lia).
  pose proof (Z.mod_pos_bound (z - min_int t) (modulus t)). lia.
Qed.

Lemma wrap_id t z : in_range t z -> wrap t z = z.
Proof.
  unfold in_range, wrap, max_int. intros H.
  rewrite Z.mod_small by lia. lia.
Qed.

Lemma wrap_wrap t z : wrap t (wrap t z) = wrap t z.
Proof. apply wrap_id, wrap_range. Qed.

Lemma wrap_unsigned t z : min_int t = 0 -> wrap t z = z mod modulus t.
Proof. unfold wrap; intros ->. rewrite Z.sub_0_r. lia. Qed.

Lemma wrap_eq_mod t a b : a mod modulus t = b mod modulus t -> wrap t a = wrap t b.
Proof. unfold wrap. intros H. rewrite Zminus_mod, H, <- Zminus_mod. done. Qed.

Lemma wrap_mod t z : wrap t z mod modulus t = z mod modulus t.
Proof.
  unfold wrap. rewrite Zplus_mod_idemp_l. f_equal. lia.
Qed.

Lemma wrap_mul_l t a b : wrap t (wrap t a * b) = wrap t (a * b).
Proof. apply wrap_eq_mod. by rewrite Zmult_mod, wrap_mod, <- Zmult_mod. Qed.

Lemma wrap_add_l t a b : wrap t (wrap t a + b) = wrap t (a + b).
Proof. apply wrap_eq_mod. by rewrite Zplus_mod, wrap_mod, <- Zplus_mod. Qed.

Lemma wrap_opp t a : wrap t (- wrap t a) = wrap t (- a).
Proof.
  apply wrap_eq_mod. rewrite <- !(Z.sub_0_l), Zminus_mod, wrap_mod, <- Zminus_mod. done.
Qed.

(** Packing: a field [or]-ed below a shifted one is a sum. *)
Lemma lor_shift_add a b n :
  0 <= n -> 0 <= b < 2 ^ n -> Z.lor (Z.shiftl a n) b = a * 2 ^ n + b.
Proof.
  intros Hn Hb. rewrite <- Z.add_nocarry_lor; [by rewrite Z.shiftl_mul_pow2|].
  apply Z.bits_inj'. intros i Hi. rewrite Z.land_spec, Z.bits_0.
  destruct (Z.lt_ge_cases i n); [by rewrite Z.shiftl_spec_low by lia|].
  destruct (decide (b = 0)) as [->|]; [by rewrite Z.bits_0, andb_false_r|].
  rewrite (Z.bits_above_log2 b), andb_false_r; [done|lia|].
  apply Z.log2_lt_pow2; [lia|]. apply Z.lt_le_trans with (2 ^ n); [lia|].
  apply Z.pow_le_mono_r; lia.
Qed.

(** Masking the low [n] bits. *)
Lemma land_mask a m n : 0 <= n -> m = Z.ones n -> Z.land a m = a mod 2 ^ n.
Proof. intros ? ->. by apply Z.land_ones. Qed.

(** ** Decidable comparisons as booleans, with their reflection lemmas *)

Create HintDb mint discriminated.
Create Rewrite HintDb breflect.
Create Rewrite HintDb blen.
#[export] Hint Resolve wrap_range : mint.
#[export] Hint Rewrite Z.eqb_eq Z.eqb_neq Z.leb_le Z.leb_gt Z.ltb_lt Z.ltb_ge
  andb_true_iff andb_false_iff orb_true_iff orb_false_iff negb_true_iff negb_false_iff : breflect.

(** Turns every boolean comparison of the context into a proposition. *)
Ltac breflect := autorewrite with breflect in *.

(** Case analysis on the boolean or decision the goal (or a hypothesis) is stuck on. *)
Ltac split_if :=
  match goal with
  | |- context [if ?b then _ else _] => destruct b eqn:?
  | H : context [if ?b then _ else _] |- _ => destruct b eqn:?
  end; breflect.

Lemma fold_left_cons {A B} (f : B -> A -> B) x l b :
  fold_left f (x :: l) b = fold_left f l (f b x).
Proof. done. Qed.

(** Proves a closed decidable proposition by evaluating it. *)
Ltac by_eval :=
  first [ reflexivity
        | apply (bool_decide_unpack _); vm_compute; exact I
        | vm_compute; repeat split; congruence
        | left; congruence | right; congruence ].
