(* ===== verification/Bytes.v ===== *)
(** * Byte buffers, little- and big-endian integers, string literals

    The library the codecs share.  A byte is an integer of [0..255], a buffer a list of
    them; [slice] is [&buf[a..b]], [splice] is [buf[a..a+len].copy_from_slice(..)],
    [to_le]/[of_le] are [to_le_bytes]/[from_le_bytes] and [to_be]/[of_be] their
    big-endian counterparts. *)

From Stdlib Require Import Ascii.
From S2P Require Import Prelude.

Abbreviation bytes := (list Z).

Definition is_bytes (l : bytes) : Prop := Forall (in_range U8) l.

Definition slice {A} (l : list A) (a b : nat) : list A := take (b - a) (drop a l).

Definition splice {A} (buf : list A) (off : nat) (l : list A) : list A :=
  take off buf ++ l ++ drop (off + length l) buf.

(** [buf[i]]; every use is guarded by a length check that puts [i] in range. *)
Definition byte_at (l : bytes) (i : nat) : Z := nth i l 0.

Fixpoint to_le (n : nat) (z : Z) : bytes :=
  match n with
  | O => []
  | S n' => z mod 256 :: to_le n' (z / 256)
  end.

Fixpoint of_le (l : bytes) : Z :=
  match l with
  | [] => 0
  | b :: l' => b + 256 * of_le l'
  end.

Definition to_be (n : nat) (z : Z) : bytes := rev (to_le n z).
Definition of_be (l : bytes) : Z := of_le (rev l).

(** String literals.  [lit] gives the bytes of a string; [jlit] reads an apostrophe as the
    double quote, so that JSON fragments can be written without escapes. *)
Fixpoint lit (s : string) : bytes :=
  match s with
  | EmptyString => []
  | String a s' => Z.of_N (N_of_ascii a) :: lit s'
  end.

Definition jlit (s : string) : bytes := map (fun b => if b =? 39 then 34 else b) (lit s).

(** [str::find] and [contains]: the index of the first occurrence of [pat]. *)
Fixpoint is_prefix (pat l : bytes) : bool :=
  match pat, l with
  | [], _ => true
  | p :: pat, b :: l => (p =? b) && is_prefix pat l
  | _ :: _, [] => false
  end.

Fixpoint str_find (pat l : bytes) : option nat :=
  if is_prefix pat l then Some 0%nat
  else match l with [] => None | _ :: l => S <$> str_find pat l end.

(** ** Slices *)

Lemma length_slice {A} (l : list A) a b :
  (b <= length l)%nat -> length (slice l a b) = (b - a)%nat.
Proof. intros. unfold slice. rewrite length_take, length_drop. lia. Qed.

Lemma slice_app_l {A} (l1 l2 : list A) a b :
  (b <= length l1)%nat -> slice (l1 ++ l2) a b = slice l1 a b.
Proof.
  intros H. unfold slice. destruct (decide (a <= b)%nat).
  - rewrite drop_app_le by lia. rewrite take_app_le; [done|]. rewrite length_drop. lia.
  - replace (b - a)%nat with 0%nat by lia. done.
Qed.

Lemma slice_app_r {A} (l1 l2 : list A) a b n :
  length l1 = n -> (n <= a)%nat -> slice (l1 ++ l2) a b = slice l2 (a - n) (b - n).
Proof.
  intros <- H. unfold slice. rewrite drop_app_ge by lia. f_equal. lia.
Qed.

Lemma slice_full {A} (l : list A) n : length l = n -> slice l 0 n = l.
Proof. intros <-. unfold slice. rewrite drop_0, Nat.sub_0_r. apply take_ge. lia. Qed.

Lemma slice_slice {A} (l : list A) a b c d :
  (d <= b - a)%nat -> slice (slice l a b) c d = slice l (a + c) (a + d).
Proof.
  intros H. unfold slice. rewrite skipn_firstn_comm, drop_drop, take_take.
  f_equal; lia.
Qed.

Lemma is_bytes_slice l a b : is_bytes l -> is_bytes (slice l a b).
Proof. intros. unfold is_bytes, slice. by apply Forall_take, Forall_drop. Qed.

(** ** Writing into a buffer *)

Lemma length_splice {A} (buf l : list A) off :
  (off + length l <= length buf)%nat -> length (splice buf off l) = length buf.
Proof. intros. unfold splice. rewrite !length_app, length_take, length_drop. lia. Qed.

(** Writing right after the part of the buffer that is already filled. *)
Lemma splice_next {A} (pre out l : list A) n m :
  length pre = n -> (n + length l)%nat = m ->
  splice (pre ++ drop n out) n l = (pre ++ l) ++ drop m out.
Proof.
  intros <- <-. unfold splice. rewrite take_app_length, drop_app_ge by lia.
  rewrite drop_drop. rewrite <- app_assoc. repeat f_equal; lia.
Qed.

Lemma splice_first {A} (out l : list A) n :
  length l = n -> splice out 0 l = l ++ drop n out.
Proof. by intros <-. Qed.

Lemma splice_splice {A} (l l1 l2 : list A) p :
  (p + length l1 + length l2 <= length l)%nat ->
  splice (splice l p l1) (p + length l1) l2 = splice l p (l1 ++ l2).
Proof.
  intros H. unfold splice. rewrite (app_assoc (take p l) l1).
  set (pre := take p l ++ l1).
  assert (length pre = p + length l1)%nat as Hp.
  { unfold pre. rewrite length_app, length_take. lia. }
  rewrite take_app_length', drop_app_ge, drop_drop by lia.
  unfold pre. rewrite <- !app_assoc, !length_app, length_take. do 4 f_equal. lia.
Qed.

(** ** Endianness *)

Lemma length_to_le n z : length (to_le n z) = n.
Proof. revert z; induction n; simpl; auto. Qed.

Lemma length_to_be n z : length (to_be n z) = n.
Proof. unfold to_be. by rewrite length_rev, length_to_le. Qed.

Lemma to_le_bytes n z : is_bytes (to_le n z).
Proof.
  revert z; induction n as [|n IH]; intros z; simpl; [constructor|].
  constructor; [mint|apply IH].
Qed.

Lemma of_le_to_le n z : of_le (to_le n z) = z mod 256 ^ Z.of_nat n.
Proof.
  revert z; induction n as [|n IH]; intros z; simpl of_le; simpl to_le.
  - by rewrite Z.mod_1_r.
  - cbn [of_le]. rewrite IH, Nat2Z.inj_succ, Z.pow_succ_r by lia.
    rewrite Z.rem_mul_r; [done|lia|apply Z.pow_pos_nonneg; lia].
Qed.

Lemma of_le_range l : is_bytes l -> 0 <= of_le l < 256 ^ Z.of_nat (length l).
Proof.
  induction 1 as [|b l Hb _ IH]; cbn [of_le length]; [lia|].
  rewrite Nat2Z.inj_succ, Z.pow_succ_r by lia. mint_unfold. lia.
Qed.

Lemma to_le_of_le l n : is_bytes l -> length l = n -> to_le n (of_le l) = l.
Proof.
  intros H <-. induction H as [|b l Hb _ IH]; cbn [of_le length to_le]; [done|].
  mint_unfold. rewrite (Z.mul_comm 256), Z_mod_plus_full, Z.mod_small by lia.
  rewrite Z.div_add, (Z.div_small b), Z.add_0_l by lia. by rewrite IH.
Qed.

Lemma of_le_wrap n z t :
  modulus t = 256 ^ Z.of_nat n -> wrap t (of_le (to_le n z)) = wrap t z.
Proof. intros Ht. apply wrap_eq_mod. rewrite of_le_to_le, Ht, Zmod_mod. done. Qed.

Lemma of_be_to_be n z : of_be (to_be n z) = z mod 256 ^ Z.of_nat n.
Proof. unfold of_be, to_be. rewrite rev_involutive. apply of_le_to_le. Qed.

Lemma of_be_range l : is_bytes l -> 0 <= of_be l < 256 ^ Z.of_nat (length l).
Proof.
  intros H. unfold of_be. rewrite <- length_rev. apply of_le_range.
  by apply Forall_rev.
Qed.

(** An unsigned or signed integer of a given width survives the byte encoding. *)
Lemma of_le_id n z t :
  modulus t = 256 ^ Z.of_nat n -> in_range t z -> wrap t (of_le (to_le n z)) = z.
Proof. intros Ht Hz. rewrite of_le_wrap by done. by apply wrap_id. Qed.

Lemma is_bytes_app l1 l2 : is_bytes (l1 ++ l2) <-> is_bytes l1 /\ is_bytes l2.
Proof. apply Forall_app. Qed.

#[export] Hint Rewrite @length_app length_to_le length_to_be @length_take @length_drop : blen.
#[export] Hint Resolve to_le_bytes is_bytes_slice : mint.
