(* ===== verification/Models.v ===== *)
(** * crates/ingest-models: the normalized market-data records

    Prices and quantities are integers scaled by 10^8.  The [_ok] predicates say that every
    field fits the width of its Rust type; they are what a value of the Rust struct always
    satisfies. *)

From S2P Require Import Prelude.

Record TelemetryTimestamps := mkTelemetry {
  t0_exchange_ns : Z;
  t1_ingest_nic_ns : Z;
  t2_engine_proc_ns : Z;
  t3_egress_ns : Z;
}.

Definition internal_processing_latency_ns (t : TelemetryTimestamps) : Z :=
  sat U64 (t2_engine_proc_ns t - t1_ingest_nic_ns t).

Definition wire_to_egress_latency_ns (t : TelemetryTimestamps) : Z :=
  sat U64 (t3_egress_ns t - t1_ingest_nic_ns t).

Inductive VenueId :=
| Binance | Coinbase | Bybit | Okx
| UniswapV2 | UniswapV3 | UniswapV4 | Curve | Raydium | Orca.

(** [venue as u16]. *)
Definition VenueId_code (v : VenueId) : Z :=
  match v with
  | Binance => 1 | Coinbase => 2 | Bybit => 3 | Okx => 4
  | UniswapV2 => 101 | UniswapV3 => 102 | UniswapV4 => 104 | Curve => 103
  | Raydium => 201 | Orca => 202
  end.

Inductive ChainId :=
| OffChain | Ethereum | Optimism | Bsc | Solana | Base | Arbitrum.

(** [chain as u16]. *)
Definition ChainId_code (c : ChainId) : Z :=
  match c with
  | OffChain => 0 | Ethereum => 1 | Optimism => 10 | Bsc => 56 | Solana => 501
  | Base => 8453 | Arbitrum => 42161
  end.

Inductive Side := Buy | Sell | TwoSided.

Definition Side_code (s : Side) : Z :=
  match s with Buy => 1 | Sell => 2 | TwoSided => 3 end.

Record NormalizedBbo := mkBbo {
  bbo_telemetry : TelemetryTimestamps;
  bbo_market_id : Z;
  bbo_venue : Z;
  bbo_chain : Z;
  bbo_sequence : Z;
  bid_price : Z;
  bid_qty : Z;
  ask_price : Z;
  ask_qty : Z;
  spread_bps : Z;
  bbo_flags : Z;
}.

Record UnifiedTrade := mkTrade {
  tr_telemetry : TelemetryTimestamps;
  tr_market_id : Z;
  tr_venue : Z;
  tr_chain : Z;
  tr_sequence : Z;
  tr_trade_id : Z;
  tr_price : Z;
  tr_size : Z;
  tr_side : Z;
  tr_is_liquidation : bool;
}.

Definition Telemetry_default : TelemetryTimestamps := mkTelemetry 0 0 0 0.
Definition Bbo_default : NormalizedBbo := mkBbo Telemetry_default 0 0 0 0 0 0 0 0 0 0.
Definition Trade_default : UnifiedTrade :=
  mkTrade Telemetry_default 0 0 0 0 0 0 0 0 false.

#[global] Instance Telemetry_eq_dec : EqDecision TelemetryTimestamps.
Proof. solve_decision. Defined.
#[global] Instance Bbo_eq_dec : EqDecision NormalizedBbo.
Proof. solve_decision. Defined.
#[global] Instance Trade_eq_dec : EqDecision UnifiedTrade.
Proof. solve_decision. Defined.

Record Telemetry_ok (t : TelemetryTimestamps) : Prop := {
  t0_ok : in_range U64 (t0_exchange_ns t);
  t1_ok : in_range U64 (t1_ingest_nic_ns t);
  t2_ok : in_range U64 (t2_engine_proc_ns t);
  t3_ok : in_range U64 (t3_egress_ns t);
}.

Record Bbo_ok (b : NormalizedBbo) : Prop := {
  bbo_telemetry_ok : Telemetry_ok (bbo_telemetry b);
  bbo_market_id_ok : in_range U32 (bbo_market_id b);
  bbo_venue_ok : in_range U16 (bbo_venue b);
  bbo_chain_ok : in_range U16 (bbo_chain b);
  bbo_sequence_ok : in_range U64 (bbo_sequence b);
  bid_price_ok : in_range I64 (bid_price b);
  bid_qty_ok : in_range U64 (bid_qty b);
  ask_price_ok : in_range I64 (ask_price b);
  ask_qty_ok : in_range U64 (ask_qty b);
  spread_bps_ok : in_range U16 (spread_bps b);
  bbo_flags_ok : in_range U16 (bbo_flags b);
}.

Record Trade_ok (t : UnifiedTrade) : Prop := {
  tr_telemetry_ok : Telemetry_ok (tr_telemetry t);
  tr_market_id_ok : in_range U32 (tr_market_id t);
  tr_venue_ok : in_range U16 (tr_venue t);
  tr_chain_ok : in_range U16 (tr_chain t);
  tr_sequence_ok : in_range U64 (tr_sequence t);
  tr_trade_id_ok : in_range U64 (tr_trade_id t);
  tr_price_ok : in_range I64 (tr_price t);
  tr_size_ok : in_range U64 (tr_size t);
  tr_side_ok : in_range U8 (tr_side t);
}.

#[export] Hint Resolve t0_ok t1_ok t2_ok t3_ok bbo_telemetry_ok bbo_market_id_ok bbo_venue_ok
  bbo_chain_ok bbo_sequence_ok bid_price_ok bid_qty_ok ask_price_ok ask_qty_ok spread_bps_ok
  bbo_flags_ok tr_telemetry_ok tr_market_id_ok tr_venue_ok tr_chain_ok tr_sequence_ok
  tr_trade_id_ok tr_price_ok tr_size_ok tr_side_ok : mint.
