(* ===== verification/Sbe.v ===== *)
(** * distribution/src/sbe.rs: the Simple Binary Encoding codec

    [encode_bbo_sbe]/[encode_trade_sbe] return the output buffer after the call together
    with the Rust result; the [*_wire] definitions state the frame layout once, and the
    codec is proved to write exactly that layout and to be inverted by the decoder. *)

From S2P Require Import Prelude Bytes Models.

Definition SBE_HEADER_LEN : nat := 8.
Definition SBE_SCHEMA_ID : Z := 1.
Definition SBE_SCHEMA_VERSION : Z := 1.
Definition TEMPLATE_ID_BBO : Z := 101.
Definition BLOCK_LENGTH_BBO : Z := 84.
Definition TOTAL_SBE_BBO_LEN : nat := SBE_HEADER_LEN + Z.to_nat BLOCK_LENGTH_BBO.
Definition TEMPLATE_ID_TRADE : Z := 104.
Definition BLOCK_LENGTH_TRADE : Z := 85.
Definition TOTAL_SBE_TRADE_LEN : nat := SBE_HEADER_LEN + Z.to_nat BLOCK_LENGTH_TRADE + 2.

Inductive SbeError :=
| SbeBufferTooSmall (required provided : nat)
| InvalidHeader
| UnsupportedTemplateId (id : Z)
| InvalidSchemaId (id : Z)
| InvalidSchemaVersion (v : Z).

Record SbeMessageHeader := mkSbeHeader {
  block_length : Z;
  template_id : Z;
  schema_id : Z;
  version : Z;
}.

Definition SbeMessageHeader_new (block_length template_id : Z) : SbeMessageHeader :=
  mkSbeHeader block_length template_id SBE_SCHEMA_ID SBE_SCHEMA_VERSION.

Definition write_to (h : SbeMessageHeader) (buf : bytes) : bytes :=
  let buf := splice buf 0 (to_le 2 (block_length h)) in
  let buf := splice buf 2 (to_le 2 (template_id h)) in
  let buf := splice buf 4 (to_le 2 (schema_id h)) in
  splice buf 6 (to_le 2 (version h)).

Definition read_from (buf : bytes) : result SbeMessageHeader SbeError :=
  if (length buf <? SBE_HEADER_LEN)%nat
  then Err (SbeBufferTooSmall SBE_HEADER_LEN (length buf))
  else
    let block_length := of_le (slice buf 0 2) in
    let template_id := of_le (slice buf 2 4) in
    let schema_id := of_le (slice buf 4 6) in
    let version := of_le (slice buf 6 8) in
    if negb (schema_id =? SBE_SCHEMA_ID)
    then Err (InvalidSchemaId schema_id)
    else Ok (mkSbeHeader block_length template_id schema_id version).

(** [header.write_to(&mut out[0..8])]. *)
Definition write_header (h : SbeMessageHeader) (out : bytes) : bytes :=
  splice out 0 (write_to h (slice out 0 8)).

Definition encode_bbo_sbe (bbo : NormalizedBbo) (out : bytes) : bytes * result nat SbeError :=
  if (length out <? TOTAL_SBE_BBO_LEN)%nat
  then (out, Err (SbeBufferTooSmall TOTAL_SBE_BBO_LEN (length out)))
  else
    let out := write_header (SbeMessageHeader_new BLOCK_LENGTH_BBO TEMPLATE_ID_BBO) out in
    let out := splice out 8 (to_le 8 (t0_exchange_ns (bbo_telemetry bbo))) in
    let out := splice out 16 (to_le 8 (t1_ingest_nic_ns (bbo_telemetry bbo))) in
    let out := splice out 24 (to_le 8 (t2_engine_proc_ns (bbo_telemetry bbo))) in
    let out := splice out 32 (to_le 8 (t3_egress_ns (bbo_telemetry bbo))) in
    let out := splice out 40 (to_le 2 (bbo_venue bbo)) in
    let out := splice out 42 (to_le 2 (bbo_chain bbo)) in
    let out := splice out 44 (to_le 4 (bbo_market_id bbo)) in
    let out := splice out 48 (to_le 8 (bbo_sequence bbo)) in
    let out := splice out 56 (to_le 8 (bid_price bbo)) in
    let out := splice out 64 (to_le 8 (bid_qty bbo)) in
    let out := splice out 72 (to_le 8 (ask_price bbo)) in
    let out := splice out 80 (to_le 8 (ask_qty bbo)) in
    let out := splice out 88 (to_le 2 (spread_bps bbo)) in
    let out := splice out 90 (to_le 2 (bbo_flags bbo)) in
    (out, Ok TOTAL_SBE_BBO_LEN).

Definition decode_bbo_sbe (buf : bytes) : result NormalizedBbo SbeError :=
  if (length buf <? TOTAL_SBE_BBO_LEN)%nat
  then Err (SbeBufferTooSmall TOTAL_SBE_BBO_LEN (length buf))
  else
    let? header := read_from (slice buf 0 8) in
    if negb (template_id header =? TEMPLATE_ID_BBO)
    then Err (UnsupportedTemplateId (template_id header))
    else
      let t0 := of_le (slice buf 8 16) in
      let t1 := of_le (slice buf 16 24) in
      let t2 := of_le (slice buf 24 32) in
      let t3 := of_le (slice buf 32 40) in
      let venue := of_le (slice buf 40 42) in
      let chain := of_le (slice buf 42 44) in
      let market_id := of_le (slice buf 44 48) in
      let sequence := of_le (slice buf 48 56) in
      let bid_price := wrap I64 (of_le (slice buf 56 64)) in
      let bid_qty := of_le (slice buf 64 72) in
      let ask_price := wrap I64 (of_le (slice buf 72 80)) in
      let ask_qty := of_le (slice buf 80 88) in
      let spread_bps := of_le (slice buf 88 90) in
      let flags := of_le (slice buf 90 92) in
      Ok (mkBbo (mkTelemetry t0 t1 t2 t3) market_id venue chain sequence
            bid_price bid_qty ask_price ask_qty spread_bps flags).

(** [price * size / 10^8] in [u128], cast to [u64]. *)
Definition quote_qty (trade : UnifiedTrade) : Z :=
  if 0 <? tr_price trade
  then wrap U64 (wrap U128 (wrap U128 (tr_price trade) * wrap U128 (tr_size trade)) / 100000000)
  else 0.

Definition encode_trade_sbe (trade : UnifiedTrade) (out : bytes) : bytes * result nat SbeError :=
  if (length out <? TOTAL_SBE_TRADE_LEN)%nat
  then (out, Err (SbeBufferTooSmall TOTAL_SBE_TRADE_LEN (length out)))
  else
    let out := write_header (SbeMessageHeader_new BLOCK_LENGTH_TRADE TEMPLATE_ID_TRADE) out in
    let out := splice out 8 (to_le 8 (t0_exchange_ns (tr_telemetry trade))) in
    let out := splice out 16 (to_le 8 (t1_ingest_nic_ns (tr_telemetry trade))) in
    let out := splice out 24 (to_le 8 (t2_engine_proc_ns (tr_telemetry trade))) in
    let out := splice out 32 (to_le 8 (t3_egress_ns (tr_telemetry trade))) in
    let out := splice out 40 (to_le 2 (tr_venue trade)) in
    let out := splice out 42 (to_le 2 (tr_chain trade)) in
    let out := splice out 44 (to_le 4 (tr_market_id trade)) in
    let out := splice out 48 (to_le 8 (tr_sequence trade)) in
    let out := splice out 56 (to_le 8 (tr_trade_id trade)) in
    let out := splice out 64 [tr_side trade] in
    let out := splice out 65 (to_le 8 (tr_price trade)) in
    let out := splice out 73 (to_le 8 (tr_size trade)) in
    let out := splice out 81 (to_le 8 (quote_qty trade)) in
    let out := splice out 89 (to_le 2 0) in
    let out := splice out 91 [if tr_is_liquidation trade then 1 else 0] in
    let out := splice out 92 [1] in
    let out := splice out 93 (to_le 2 0) in
    (out, Ok TOTAL_SBE_TRADE_LEN).

Definition decode_trade_sbe (buf : bytes) : result UnifiedTrade SbeError :=
  if (length buf <? TOTAL_SBE_TRADE_LEN)%nat
  then Err (SbeBufferTooSmall TOTAL_SBE_TRADE_LEN (length buf))
  else
    let? header := read_from (slice buf 0 8) in
    if negb (template_id header =? TEMPLATE_ID_TRADE)
    then Err (UnsupportedTemplateId (template_id header))
    else
      let t0 := of_le (slice buf 8 16) in
      let t1 := of_le (slice buf 16 24) in
      let t2 := of_le (slice buf 24 32) in
      let t3 := of_le (slice buf 32 40) in
      let venue := of_le (slice buf 40 42) in
      let chain := of_le (slice buf 42 44) in
      let market_id := of_le (slice buf 44 48) in
      let sequence := of_le (slice buf 48 56) in
      let trade_id := of_le (slice buf 56 64) in
      let side := byte_at buf 64 in
      let price := wrap I64 (of_le (slice buf 65 73)) in
      let size := of_le (slice buf 73 81) in
      let is_liquidation := negb (byte_at buf 91 =? 0) in
      Ok (mkTrade (mkTelemetry t0 t1 t2 t3) market_id venue chain sequence trade_id
            price size side is_liquidation).

(** ** The wire layout *)

Definition header_wire (bl tid : Z) : bytes :=
  to_le 2 bl ++ to_le 2 tid ++ to_le 2 SBE_SCHEMA_ID ++ to_le 2 SBE_SCHEMA_VERSION.

Definition telemetry_wire (t : TelemetryTimestamps) : bytes :=
  to_le 8 (t0_exchange_ns t) ++ to_le 8 (t1_ingest_nic_ns t) ++
  to_le 8 (t2_engine_proc_ns t) ++ to_le 8 (t3_egress_ns t).

(** Message 101 of schemas/market_data.sbe.xml, field by field. *)
Definition bbo_wire (b : NormalizedBbo) : bytes :=
  header_wire BLOCK_LENGTH_BBO TEMPLATE_ID_BBO ++ telemetry_wire (bbo_telemetry b) ++
  to_le 2 (bbo_venue b) ++ to_le 2 (bbo_chain b) ++ to_le 4 (bbo_market_id b) ++
  to_le 8 (bbo_sequence b) ++ to_le 8 (bid_price b) ++ to_le 8 (bid_qty b) ++
  to_le 8 (ask_price b) ++ to_le 8 (ask_qty b) ++ to_le 2 (spread_bps b) ++
  to_le 2 (bbo_flags b).

(** Message 104, with quoteQty computed, feeBps 0, executionVenueType 1 (CLOB) and an
    empty protocolContext. *)
Definition trade_wire (t : UnifiedTrade) : bytes :=
  header_wire BLOCK_LENGTH_TRADE TEMPLATE_ID_TRADE ++ telemetry_wire (tr_telemetry t) ++
  to_le 2 (tr_venue t) ++ to_le 2 (tr_chain t) ++ to_le 4 (tr_market_id t) ++
  to_le 8 (tr_sequence t) ++ to_le 8 (tr_trade_id t) ++ [tr_side t] ++ to_le 8 (tr_price t) ++
  to_le 8 (tr_size t) ++ to_le 8 (quote_qty t) ++ to_le 2 0 ++
  [if tr_is_liquidation t then 1 else 0] ++ [1] ++ to_le 2 0.

(** ** The encoder writes the layout *)

(** One field write after the filled prefix of the buffer. *)
Ltac fill := erewrite splice_next by (rewrite ?length_app, ?length_to_le; cbn; reflexivity).
(** Writes after the header has been written. *)
Ltac fill_all := repeat fill; rewrite <- ?app_assoc; try reflexivity.

Lemma write_to_wire bl tid buf :
  length buf = 8%nat -> write_to (SbeMessageHeader_new bl tid) buf = header_wire bl tid.
Proof.
  intros H. unfold write_to, SbeMessageHeader_new; cbn [block_length template_id schema_id version].
  erewrite splice_first by apply length_to_le. fill_all.
  rewrite drop_ge, app_nil_r by (rewrite H; cbn; lia). done.
Qed.

Lemma write_header_wire bl tid out :
  (8 <= length out)%nat ->
  write_header (SbeMessageHeader_new bl tid) out = header_wire bl tid ++ drop 8 out.
Proof.
  intros H. unfold write_header. rewrite write_to_wire by (rewrite length_slice; lia). done.
Qed.

Lemma encode_bbo_sbe_wire bbo out :
  (TOTAL_SBE_BBO_LEN <= length out)%nat ->
  encode_bbo_sbe bbo out = (bbo_wire bbo ++ drop TOTAL_SBE_BBO_LEN out, Ok TOTAL_SBE_BBO_LEN).
Proof.
  intros H. unfold encode_bbo_sbe. rewrite (proj2 (Nat.ltb_ge _ _)) by done.
  rewrite write_header_wire by (cbn in H; lia). cbv zeta. f_equal.
  unfold bbo_wire, telemetry_wire. fill_all.
Qed.

Lemma encode_trade_sbe_wire t out :
  (TOTAL_SBE_TRADE_LEN <= length out)%nat ->
  encode_trade_sbe t out = (trade_wire t ++ drop TOTAL_SBE_TRADE_LEN out, Ok TOTAL_SBE_TRADE_LEN).
Proof.
  intros H. unfold encode_trade_sbe. rewrite (proj2 (Nat.ltb_ge _ _)) by done.
  rewrite write_header_wire by (cbn in H; lia). cbv zeta. f_equal.
  unfold trade_wire, telemetry_wire. fill_all.
Qed.

(** ** The decoder inverts the layout *)

Lemma length_bbo_wire b : length (bbo_wire b) = TOTAL_SBE_BBO_LEN.
Proof. reflexivity. Qed.

Lemma length_trade_wire t : length (trade_wire t) = TOTAL_SBE_TRADE_LEN.
Proof. reflexivity. Qed.

(** The unsigned fields come back as they were when they fit their width. *)
Lemma of_le_field n z t :
  min_int t = 0 -> modulus t = 256 ^ Z.of_nat n -> in_range t z -> of_le (to_le n z) = z.
Proof.
  intros Hm Ht Hz. rewrite of_le_to_le, <- Ht, <- wrap_unsigned by done. by apply wrap_id.
Qed.

(** [buf[a..b]] of a concrete layout holds the encoding of [v]: read it back. *)
Ltac field_u buf a b n t v :=
  change (slice buf a b) with (to_le n v);
  rewrite (of_le_field n v t) by (reflexivity || eauto with mint).
Ltac field_i buf a b n t v :=
  change (slice buf a b) with (to_le n v);
  rewrite (of_le_id n v t) by (reflexivity || eauto with mint).
(** The header and the timestamps, common to both messages. *)
Ltac field_prefix buf tm bl tid :=
  change (slice buf 0 8) with (header_wire bl tid);
  change (read_from (header_wire bl tid)) with (@Ok _ SbeError (SbeMessageHeader_new bl tid));
  cbv beta iota delta [result_bind];
  change (template_id (SbeMessageHeader_new bl tid) =? tid) with true; cbn [negb];
  field_u buf 8%nat 16%nat 8%nat U64 (t0_exchange_ns tm);
  field_u buf 16%nat 24%nat 8%nat U64 (t1_ingest_nic_ns tm);
  field_u buf 24%nat 32%nat 8%nat U64 (t2_engine_proc_ns tm);
  field_u buf 32%nat 40%nat 8%nat U64 (t3_egress_ns tm).

Lemma decode_bbo_wire b rest :
  Bbo_ok b -> decode_bbo_sbe (bbo_wire b ++ rest) = Ok b.
Proof.
  intros Hb. pose proof (bbo_telemetry_ok _ Hb) as Ht.
  unfold decode_bbo_sbe. rewrite (proj2 (Nat.ltb_ge _ _)) by
    (rewrite length_app, length_bbo_wire; lia).
  set (buf := bbo_wire b ++ rest).
  field_prefix buf (bbo_telemetry b) BLOCK_LENGTH_BBO TEMPLATE_ID_BBO.
  field_u buf 40%nat 42%nat 2%nat U16 (bbo_venue b).
  field_u buf 42%nat 44%nat 2%nat U16 (bbo_chain b).
  field_u buf 44%nat 48%nat 4%nat U32 (bbo_market_id b).
  field_u buf 48%nat 56%nat 8%nat U64 (bbo_sequence b).
  field_i buf 56%nat 64%nat 8%nat I64 (bid_price b).
  field_u buf 64%nat 72%nat 8%nat U64 (bid_qty b).
  field_i buf 72%nat 80%nat 8%nat I64 (ask_price b).
  field_u buf 80%nat 88%nat 8%nat U64 (ask_qty b).
  field_u buf 88%nat 90%nat 2%nat U16 (spread_bps b).
  field_u buf 90%nat 92%nat 2%nat U16 (bbo_flags b).
  by destruct b as [[] ].
Qed.

Lemma decode_trade_wire t rest :
  Trade_ok t -> decode_trade_sbe (trade_wire t ++ rest) = Ok t.
Proof.
  intros Hb. pose proof (tr_telemetry_ok _ Hb) as Ht.
  unfold decode_trade_sbe. rewrite (proj2 (Nat.ltb_ge _ _)) by
    (rewrite length_app, length_trade_wire; lia).
  set (buf := trade_wire t ++ rest).
  field_prefix buf (tr_telemetry t) BLOCK_LENGTH_TRADE TEMPLATE_ID_TRADE.
  field_u buf 40%nat 42%nat 2%nat U16 (tr_venue t).
  field_u buf 42%nat 44%nat 2%nat U16 (tr_chain t).
  field_u buf 44%nat 48%nat 4%nat U32 (tr_market_id t).
  field_u buf 48%nat 56%nat 8%nat U64 (tr_sequence t).
  field_u buf 56%nat 64%nat 8%nat U64 (tr_trade_id t).
  change (byte_at buf 64) with (tr_side t).
  field_i buf 65%nat 73%nat 8%nat I64 (tr_price t).
  field_u buf 73%nat 81%nat 8%nat U64 (tr_size t).
  change (byte_at buf 91) with (if tr_is_liquidation t then 1 else 0).
  by destruct t as [[] ? ? ? ? ? ? ? ? []].
Qed.

(** Conversely, a successful decode determines the bytes it looked at: re-encoding the
    decoded BBO gives the same frame, block length and version aside. *)
Lemma read_from_ok buf h :
  read_from buf = Ok h ->
  (8 <= length buf)%nat /\ h = mkSbeHeader (of_le (slice buf 0 2)) (of_le (slice buf 2 4))
    SBE_SCHEMA_ID (of_le (slice buf 6 8)).
Proof.
  unfold read_from. destruct (_ <? _)%nat eqn:Hl; [done|].
  apply Nat.ltb_ge in Hl. destruct (Z.eqb_spec (of_le (slice buf 4 6)) SBE_SCHEMA_ID) as [E|E];
    cbn [negb]; [|done].
  intros [= <-]. by rewrite E.
Qed.

(** What a frame must satisfy for the BBO decoder to accept it. *)
Definition bbo_frame (buf : bytes) : Prop :=
  (TOTAL_SBE_BBO_LEN <= length buf)%nat /\
  of_le (slice buf 4 6) = SBE_SCHEMA_ID /\ of_le (slice buf 2 4) = TEMPLATE_ID_BBO.

Definition trade_frame (buf : bytes) : Prop :=
  (TOTAL_SBE_TRADE_LEN <= length buf)%nat /\
  of_le (slice buf 4 6) = SBE_SCHEMA_ID /\ of_le (slice buf 2 4) = TEMPLATE_ID_TRADE.

(** The header check both decoders perform. *)
Lemma read_from_template buf tid :
  (8 <= length buf)%nat ->
  (exists h, read_from (slice buf 0 8) = Ok h /\ template_id h = tid) <->
  of_le (slice buf 4 6) = SBE_SCHEMA_ID /\ of_le (slice buf 2 4) = tid.
Proof.
  intros Hl. unfold read_from.
  rewrite length_slice by done. cbn [Nat.sub Nat.ltb Nat.leb SBE_HEADER_LEN].
  rewrite !slice_slice by lia. cbn [Nat.add].
  destruct (Z.eqb_spec (of_le (slice buf 4 6)) SBE_SCHEMA_ID) as [E|E]; cbn [negb].
  - split; [intros (h & [= <-] & H)|intros [_ H]; eexists; split]; done.
  - split; [by intros (h & ? & _)|by intros []].
Qed.

Module Sbe.

(** C5: a BBO quote encoded into any buffer that is long enough decodes, from that buffer, to
    the same quote; the encoder reports the 92 bytes it wrote and leaves the rest alone. *)
Theorem bbo_roundtrip (b : NormalizedBbo) (out : bytes)
    (Hb : Bbo_ok b) (Hl : (TOTAL_SBE_BBO_LEN <= length out)%nat) :
  let (out', r) := encode_bbo_sbe b out in
  r = Ok TOTAL_SBE_BBO_LEN /\ decode_bbo_sbe out' = Ok b /\
  drop TOTAL_SBE_BBO_LEN out' = drop TOTAL_SBE_BBO_LEN out.
Proof.
  rewrite encode_bbo_sbe_wire by done. split; [done|]. split; [by apply decode_bbo_wire|].
  by rewrite (drop_app_length' (bbo_wire b) _ _ eq_refl).
Qed.

Lemma bbo_roundtrip_witness :
  let b := mkBbo (mkTelemetry 1 2 3 4) 7 1 0 9 (-100) 5 101 6 12 3 in
  decode_bbo_sbe (encode_bbo_sbe b (replicate 100 255)).1 = Ok b.
Proof.
  assert (Bbo_ok (mkBbo (mkTelemetry 1 2 3 4) 7 1 0 9 (-100) 5 101 6 12 3)) as H
    by (repeat constructor; by_eval).
  pose proof (bbo_roundtrip _ (replicate 100 255) H ltac:(by_eval)) as E. cbv zeta.
  destruct (encode_bbo_sbe _ _). exact (proj1 (proj2 E)).
Defined.

(** A trade encoded into any buffer that is long enough decodes to the same trade; the
    derived quote quantity, the venue type and the empty context do not disturb it. *)
Theorem trade_roundtrip (t : UnifiedTrade) (out : bytes)
    (Ht : Trade_ok t) (Hl : (TOTAL_SBE_TRADE_LEN <= length out)%nat) :
  let (out', r) := encode_trade_sbe t out in
  r = Ok TOTAL_SBE_TRADE_LEN /\ decode_trade_sbe out' = Ok t /\
  drop TOTAL_SBE_TRADE_LEN out' = drop TOTAL_SBE_TRADE_LEN out.
Proof.
  rewrite encode_trade_sbe_wire by done. split; [done|]. split; [by apply decode_trade_wire|].
  by rewrite (drop_app_length' (trade_wire t) _ _ eq_refl).
Qed.

Lemma trade_roundtrip_witness :
  let t := mkTrade (mkTelemetry 1 2 3 4) 7 1 0 9 77 (-100) 5 2 true in
  decode_trade_sbe (encode_trade_sbe t (replicate 95 255)).1 = Ok t.
Proof.
  assert (Trade_ok (mkTrade (mkTelemetry 1 2 3 4) 7 1 0 9 77 (-100) 5 2 true)) as H
    by (repeat constructor; by_eval).
  pose proof (trade_roundtrip _ (replicate 95 255) H ltac:(by_eval)) as E. cbv zeta.
  destruct (encode_trade_sbe _ _). exact (proj1 (proj2 E)).
Defined.

(** The decoder accepts a frame exactly when its length, schema id and template id are right:
    the block length and the schema version of the header are never looked at. *)
Theorem decode_accepts (buf : bytes) :
  (is_ok (decode_bbo_sbe buf) = true <-> bbo_frame buf) /\
  (is_ok (decode_trade_sbe buf) = true <-> trade_frame buf).
Proof.
  split.
  - unfold decode_bbo_sbe, bbo_frame. destruct (_ <? _)%nat eqn:Hl.
    { apply Nat.ltb_lt in Hl. split; [done|lia]. }
    apply Nat.ltb_ge in Hl. rewrite <- (read_from_template buf) by (cbn in Hl; lia).
    destruct (read_from _) as [h|e]; cbn [result_bind is_ok].
    + destruct (Z.eqb_spec (template_id h) TEMPLATE_ID_BBO); cbn [negb is_ok]; naive_solver.
    + naive_solver.
  - unfold decode_trade_sbe, trade_frame. destruct (_ <? _)%nat eqn:Hl.
    { apply Nat.ltb_lt in Hl. split; [done|lia]. }
    apply Nat.ltb_ge in Hl. rewrite <- (read_from_template buf) by (cbn in Hl; lia).
    destruct (read_from _) as [h|e]; cbn [result_bind is_ok].
    + destruct (Z.eqb_spec (template_id h) TEMPLATE_ID_TRADE); cbn [negb is_ok]; naive_solver.
    + naive_solver.
Qed.

End Sbe.
