(* ===== verification/Decimal.v ===== *)
(** * Decimal numbers in ASCII

    [dec l] is the number a digit string denotes, [digits f n] the shortest digit string of
    [n] (with [f + 1] digits at most).  The parsers and printers of the program are specified with these
    two. *)

From S2P Require Import Prelude Bytes.

Definition is_digit (b : Z) : bool := (48 <=? b) && (b <=? 57).

(** The value of the digits [l] read after a number [acc]. *)
Definition dec_acc (acc : Z) (l : bytes) : Z := fold_left (fun a b => a * 10 + (b - 48)) l acc.
Definition dec (l : bytes) : Z := dec_acc 0 l.

Definition all_digits (l : bytes) : Prop := Forall (fun b => is_digit b = true) l.

#[global] Instance all_digits_dec l : Decision (all_digits l).
Proof.
  refine (cast_if (decide (forallb is_digit l = true))); abstract
    (unfold all_digits; rewrite forallb_forall, List.Forall_forall in *; done).
Defined.

(** The shortest decimal text of [n], for [0 <= n < 10^(f+1)]. *)
Fixpoint digits (f : nat) (n : Z) : bytes :=
  match f with
  | O => [48 + n mod 10]
  | S f' => if n <? 10 then [48 + n] else digits f' (n / 10) ++ [48 + n mod 10]
  end.

(** [n] with exactly [k] digits, zero-padded. *)
Fixpoint digits_pad (k : nat) (n : Z) : bytes :=
  match k with
  | O => []
  | S k' => digits_pad k' (n / 10) ++ [48 + n mod 10]
  end.

Lemma dec_acc_eq acc l : dec_acc acc l = acc * 10 ^ Z.of_nat (length l) + dec l.
Proof.
  unfold dec, dec_acc. revert acc. induction l as [|b l IH]; intros acc; cbn [fold_left length].
  - rewrite Z.mul_1_r. lia.
  - rewrite IH, (IH (0 * 10 + (b - 48))), Nat2Z.inj_succ, Z.pow_succ_r by lia. ring.
Qed.

Lemma dec_app l1 l2 : dec (l1 ++ l2) = dec l1 * 10 ^ Z.of_nat (length l2) + dec l2.
Proof. unfold dec, dec_acc. rewrite fold_left_app. apply dec_acc_eq. Qed.

Lemma dec_nonneg l : all_digits l -> 0 <= dec l < 10 ^ Z.of_nat (length l).
Proof.
  induction l as [|b l IH] using rev_ind; [done|].
  intros [Hl Hb]%Forall_app. specialize (IH Hl).
  apply Forall_inv in Hb. unfold is_digit in Hb. breflect.
  rewrite dec_app, length_app, Nat2Z.inj_add, Z.pow_add_r by lia.
  change (dec [b]) with (b - 48). change (10 ^ Z.of_nat (length [b])) with 10. lia.
Qed.

Lemma all_digits_app l1 l2 : all_digits (l1 ++ l2) <-> all_digits l1 /\ all_digits l2.
Proof. apply Forall_app. Qed.

Lemma digit_ok n : 0 <= n < 10 -> all_digits [48 + n].
Proof. intros. repeat constructor. unfold is_digit. breflect. lia. Qed.

Lemma digits_S f n :
  digits (S f) n = if n <? 10 then [48 + n] else digits f (n / 10) ++ [48 + n mod 10].
Proof. done. Qed.

Lemma all_digits_digits f n : 0 <= n -> all_digits (digits f n).
Proof.
  revert n; induction f as [|f IH]; intros n Hn; cbn [digits].
  - apply digit_ok. zdm.
  - destruct (Z.ltb_spec n 10); [apply digit_ok; lia|].
    apply all_digits_app. split; [apply IH; zdm | apply digit_ok; zdm].
Qed.

Lemma all_digits_pad k n : all_digits (digits_pad k n).
Proof.
  revert n; induction k as [|k IH]; intros n; cbn [digits_pad]; [constructor|].
  apply all_digits_app. split; [apply IH | apply digit_ok; zdm].
Qed.

Lemma dec_digits f n : 0 <= n < 10 ^ Z.of_nat (S f) -> dec (digits f n) = n.
Proof.
  revert n; induction f as [|f IH]; intros n Hn.
  - cbn in Hn |- *. rewrite Z.mod_small; lia.
  - rewrite digits_S. destruct (Z.ltb_spec n 10); [cbn; lia|].
    rewrite Nat2Z.inj_succ, Z.pow_succ_r in Hn by lia.
    rewrite dec_app, IH; [cbn; zdm|].
    split; [zdm | apply Z.div_lt_upper_bound; lia].
Qed.

Lemma dec_pad k n : 0 <= n < 10 ^ Z.of_nat k -> dec (digits_pad k n) = n.
Proof.
  revert n; induction k as [|k IH]; intros n Hn; cbn [digits_pad]; [cbn in *; lia|].
  rewrite Nat2Z.inj_succ, Z.pow_succ_r in Hn by lia.
  rewrite dec_app, IH; [cbn; zdm|].
  split; [zdm | apply Z.div_lt_upper_bound; lia].
Qed.

Lemma length_pad k n : length (digits_pad k n) = k.
Proof.
  revert n; induction k as [|k IH]; intros n; cbn [digits_pad]; [done|].
  rewrite length_app, IH. cbn. lia.
Qed.

Lemma length_digits f n : (1 <= length (digits f n) <= S f)%nat.
Proof.
  revert n; induction f as [|f IH]; intros n; cbn [digits]; [cbn; lia|].
  destruct (n <? 10); [cbn; lia|]. rewrite length_app. cbn [length]. specialize (IH (n / 10)). lia.
Qed.

(** A bound on the number gives a bound on the length of its text. *)
Lemma length_digits_bound k f n :
  n < 10 ^ Z.of_nat (S k) -> (k <= f)%nat -> (length (digits f n) <= S k)%nat.
Proof.
  revert n f; induction k as [|k IH]; intros n f Hn Hf.
  - destruct f; cbn [digits]; [cbn; lia|]. destruct (Z.ltb_spec n 10); [cbn; lia|]. cbn in Hn. lia.
  - destruct f as [|f]; [lia|]. rewrite digits_S. destruct (n <? 10); [cbn; lia|].
    rewrite length_app. cbn [length].
    assert (length (digits f (n / 10)) <= S k)%nat; [|lia].
    apply IH; [|lia]. apply Z.div_lt_upper_bound; [lia|].
    rewrite Nat2Z.inj_succ, Z.pow_succ_r in Hn by lia. lia.
Qed.

(** Two digits at a time, as the table-driven printers do. *)
Lemma digits_two f n :
  10 <= n / 10 -> digits (S (S f)) n = digits f (n / 100) ++ [48 + n mod 100 / 10; 48 + n mod 100 mod 10].
Proof.
  intros H. rewrite !digits_S.
  rewrite (proj2 (Z.ltb_ge _ _)) by zdm. rewrite (proj2 (Z.ltb_ge (n / 10) 10)) by lia.
  rewrite <- app_assoc, Z.div_div by lia. cbn [app]. change (10 * 10) with 100.
  replace (n mod 100 / 10) with (n / 10 mod 10) by zdm.
  by replace (n mod 100 mod 10) with (n mod 10) by zdm.
Qed.

(** More fuel than needed changes nothing. *)
Lemma digits_fuel f g n :
  0 <= n < 10 ^ Z.of_nat (S f) -> (f <= g)%nat -> digits g n = digits f n.
Proof.
  revert g n; induction f as [|f IH]; intros g n Hn Hg.
  - destruct g; [done|]. cbn [digits]. cbn in Hn. rewrite (proj2 (Z.ltb_lt _ _)) by lia.
    by rewrite Z.mod_small.
  - destruct g as [|g]; [lia|]. rewrite !digits_S. destruct (n <? 10); [done|]. f_equal.
    rewrite Nat2Z.inj_succ, Z.pow_succ_r in Hn by lia.
    apply IH; [|lia]. split; [zdm | apply Z.div_lt_upper_bound; lia].
Qed.
