(* ===== verification/Text.v ===== *)
(** * The string functions of the standard library the program uses

    Strings are their UTF-8 bytes. *)

From S2P Require Import Prelude Bytes Decimal.

(** [std::str::from_utf8(..).is_ok()]. *)
Definition cont_byte (b : Z) : bool := (128 <=? b) && (b <=? 191).
Fixpoint utf8_valid (l : bytes) : bool :=
  match l with
  | [] => true
  | b0 :: r =>
      if b0 <? 128 then utf8_valid r
      else if (194 <=? b0) && (b0 <=? 223) then
        match r with b1 :: r => cont_byte b1 && utf8_valid r | _ => false end
      else if (224 <=? b0) && (b0 <=? 239) then
        match r with
        | b1 :: b2 :: r =>
            (if b0 =? 224 then (160 <=? b1) && (b1 <=? 191)
             else if b0 =? 237 then (128 <=? b1) && (b1 <=? 159) else cont_byte b1)
            && cont_byte b2 && utf8_valid r
        | _ => false
        end
      else if (240 <=? b0) && (b0 <=? 244) then
        match r with
        | b1 :: b2 :: b3 :: r =>
            (if b0 =? 240 then (144 <=? b1) && (b1 <=? 191)
             else if b0 =? 244 then (128 <=? b1) && (b1 <=? 143) else cont_byte b1)
            && cont_byte b2 && cont_byte b3 && utf8_valid r
        | _ => false
        end
      else false
  end.

(** [str::trim_start]: Unicode White_Space, on the UTF-8 bytes. *)
Fixpoint trim_start (l : bytes) : bytes :=
  match l with
  | b0 :: r =>
      if ((9 <=? b0) && (b0 <=? 13)) || (b0 =? 32) then trim_start r
      else
        match r with
        | b1 :: r1 =>
            if (b0 =? 194) && ((b1 =? 133) || (b1 =? 160)) then trim_start r1
            else
              match r1 with
              | b2 :: r2 =>
                  if ((b0 =? 225) && (b1 =? 154) && (b2 =? 128))
                    || ((b0 =? 226) && (b1 =? 128) &&
                        (((128 <=? b2) && (b2 <=? 138)) || (b2 =? 168) || (b2 =? 169) || (b2 =? 175)))
                    || ((b0 =? 226) && (b1 =? 129) && (b2 =? 159))
                    || ((b0 =? 227) && (b1 =? 128) && (b2 =? 128))
                  then trim_start r2 else l
              | [] => l
              end
        | [] => l
        end
  | [] => []
  end.

(** [str::trim_end], by the reversed encodings of the same characters. *)
Fixpoint trim_end_rev (l : bytes) : bytes :=
  match l with
  | b0 :: r =>
      if ((9 <=? b0) && (b0 <=? 13)) || (b0 =? 32) then trim_end_rev r
      else
        match r with
        | b1 :: r1 =>
            if (b1 =? 194) && ((b0 =? 133) || (b0 =? 160)) then trim_end_rev r1
            else
              match r1 with
              | b2 :: r2 =>
                  if ((b2 =? 225) && (b1 =? 154) && (b0 =? 128))
                    || ((b2 =? 226) && (b1 =? 128) &&
                        (((128 <=? b0) && (b0 <=? 138)) || (b0 =? 168) || (b0 =? 169) || (b0 =? 175)))
                    || ((b2 =? 226) && (b1 =? 129) && (b0 =? 159))
                    || ((b2 =? 227) && (b1 =? 128) && (b0 =? 128))
                  then trim_end_rev r2 else l
              | [] => l
              end
        | [] => l
        end
  | [] => []
  end.
Definition trim_end (l : bytes) : bytes := rev (trim_end_rev (rev l)).
Definition trim (l : bytes) : bytes := trim_end (trim_start l).

(** The digits at the front ([end] in the code), and [parse::<u64>()]. *)
Fixpoint leading_digits (l : bytes) : bytes :=
  match l with
  | b :: r => if is_digit b then b :: leading_digits r else []
  | [] => []
  end.
Definition parse_u64 (l : bytes) : option Z :=
  if dec l <=? max_int U64 then Some (dec l) else None.


(** [parse::<u64>()] and [parse::<usize>()] on any string: an optional plus sign, digits only,
    at least one of them, and no overflow. *)
Definition parse_uint (l : bytes) : option Z :=
  let ds := match l with b :: r => if b =? 43 then r else l | [] => [] end in
  if (0 <? length ds)%nat && forallb is_digit ds then parse_u64 ds else None.

(** [str::to_lowercase], for comparisons with ASCII text: of the characters outside ASCII only
    the Kelvin sign and the dotted capital I have a lower case with ASCII in it; the others are
    kept as they are here. *)
Fixpoint to_lowercase (l : bytes) : bytes :=
  match l with
  | 226 :: 132 :: 170 :: r => 107 :: to_lowercase r
  | 196 :: 176 :: r => 105 :: 204 :: 135 :: to_lowercase r
  | b :: r => (if (65 <=? b) && (b <=? 90) then b + 32 else b) :: to_lowercase r
  | [] => []
  end.

(** [split(c)]: the pieces between occurrences of the ASCII character [c]. *)
Fixpoint split_char (c : Z) (l : bytes) : list bytes :=
  match l with
  | [] => [[]]
  | b :: r =>
      match split_char c r with
      | piece :: pieces => if b =? c then [] :: piece :: pieces else (b :: piece) :: pieces
      | [] => [[]]
      end
  end.

(** [lines()]: the pieces ended by a newline, without a carriage return before it, then the last piece
    unless it is empty. *)
Definition strip_cr (l : bytes) : bytes :=
  match rev l with 13 :: r => rev r | _ => l end.
Fixpoint lines_of (pieces : list bytes) : list bytes :=
  match pieces with
  | [] => []
  | [last] => match last with [] => [] | _ => [last] end
  | piece :: pieces => strip_cr piece :: lines_of pieces
  end.
Definition lines (l : bytes) : list bytes := lines_of (split_char 10 l).

(** [split_whitespace()]: trim, take up to the next white space, repeat. *)
Fixpoint word_end (l : bytes) : nat :=
  match l with
  | [] => 0
  | b :: r => if (length (trim_start l) <? length l)%nat then 0 else S (word_end r)
  end.
Fixpoint split_whitespace_fuel (fuel : nat) (l : bytes) : list bytes :=
  match fuel with
  | O => []
  | S fuel =>
      match trim_start l with
      | [] => []
      | l => take (word_end l) l :: split_whitespace_fuel fuel (drop (word_end l) l)
      end
  end.
Definition split_whitespace (l : bytes) : list bytes := split_whitespace_fuel (S (length l)) l.

(** [join]. *)
Fixpoint join (sep : bytes) (l : list bytes) : bytes :=
  match l with
  | [] => []
  | [x] => x
  | x :: l => x ++ sep ++ join sep l
  end.

Definition contains (l pat : bytes) : bool :=
  match str_find pat l with Some _ => true | None => false end.

#[global] Instance bytes_eq_dec : EqDecision bytes := _.

(** ** Splitting what was joined, parsing what was printed *)

Lemma split_char_cons c l : exists piece pieces, split_char c l = piece :: pieces.
Proof. induction l as [|b l (p & ps & IH)]; cbn; [by eexists _, _|]. rewrite IH. destruct (b =? c); by eexists _, _. Qed.

Lemma split_char_app c x r : Forall (fun b => b <> c) x -> split_char c (x ++ c :: r) = x :: split_char c r.
Proof.
  intros H. induction H as [|b x Hb _ IH]; cbn [app split_char].
  - destruct (split_char_cons c r) as (p & ps & ->). by rewrite Z.eqb_refl.
  - rewrite IH. by rewrite (proj2 (Z.eqb_neq _ _)) by done.
Qed.

Lemma split_char_none c x : Forall (fun b => b <> c) x -> split_char c x = [x].
Proof.
  intros H. induction H as [|b x Hb _ IH]; cbn [split_char]; [done|].
  rewrite IH. by rewrite (proj2 (Z.eqb_neq _ _)) by done.
Qed.

Lemma split_char_join c l : l <> [] -> Forall (Forall (fun b => b <> c)) l -> split_char c (join [c] l) = l.
Proof.
  intros Hne H. induction H as [|x l Hx H IH]; [done|]. destruct l as [|y l]; [by apply split_char_none|].
  change (join [c] (x :: y :: l)) with (x ++ c :: join [c] (y :: l)). rewrite split_char_app, IH by done. done.
Qed.

Lemma parse_uint_digits n : in_range U64 n -> parse_uint (digits 20 n) = Some n.
Proof.
  intros Hn. unfold parse_uint. pose proof (all_digits_digits 20 n ltac:(mint)) as Hd.
  pose proof (length_digits 20 n) as Hl. destruct (digits 20 n) as [|b r] eqn:E; [cbn in Hl; lia|].
  assert (b <> 43) as Hb by (apply Forall_inv in Hd; unfold is_digit in Hd; breflect; lia).
  rewrite (proj2 (Z.eqb_neq _ _)) by done. rewrite <- E in *.
  assert (forallb is_digit (digits 20 n) = true) as -> by (apply forallb_forall, List.Forall_forall; exact Hd).
  rewrite (proj2 (Nat.ltb_lt _ _)) by lia. cbn [andb]. unfold parse_u64. rewrite dec_digits by (mint_unfold; cbn; lia).
  by rewrite (proj2 (Z.leb_le _ _)) by mint.
Qed.

Example parse_uint_plus : parse_uint (lit "+12") = Some 12.
Proof. reflexivity. Qed.
Example lines_crlf : lines (lit "ab" ++ [13; 10; 10] ++ lit "c" ++ [10]) = [lit "ab"; []; lit "c"].
Proof. reflexivity. Qed.
Example split_whitespace_ex : split_whitespace (lit " max  100000 " ++ [10]) = [lit "max"; lit "100000"].
Proof. reflexivity. Qed.
Example to_lowercase_ex : to_lowercase (lit "KVM/Qemu") = lit "kvm/qemu".
Proof. reflexivity. Qed.
Example trim_ex : trim (lit "  a b" ++ [194; 160; 10]) = lit "a b".
Proof. reflexivity. Qed.
