(* ===== verification/FixedPoint.v ===== *)
(** * core-engine/src/lib.rs: [parse_fixed_point_8]

    The zero-allocation decimal parser: one left-to-right pass that accumulates every digit
    into an [i64] and counts the digits after the last dot, then scales to 10^8. *)

From S2P Require Import Prelude Bytes Decimal.

(** One iteration of the scanning loop on [(result, decimal_places)]. *)
Definition parse_step (st : Z * Z) (byte : Z) : Z * Z :=
  let '(result, decimal_places) := st in
  if byte =? 46 then (result, 0)
  else if (48 <=? byte) && (byte <=? 57)
  then (result *[I64] 10 +[I64] (byte - 48),
        if 0 <=? decimal_places then decimal_places +[I32] 1 else decimal_places)
  else (result, decimal_places).

Definition parse_fixed_point_8 (val : bytes) : Z :=
  let is_negative := negb (length val =? 0)%nat && (byte_at val 0 =? 45) in
  let i := if is_negative then 1%nat else 0%nat in
  let '(result, decimal_places) := fold_left parse_step (drop i val) (0, -1) in
  let shift := 8 -[I32] (if decimal_places <? 0 then 0 else decimal_places) in
  let result := Nat.iter (Z.to_nat shift) (fun r => r *[I64] 10) result in
  let result := Nat.iter (Z.to_nat (- shift)) (fun r => Z.quot r 10) result in
  if is_negative then wrap I64 (- result) else result.

(** ** The loops in closed form *)

Lemma is_digit_step r dp b :
  is_digit b = true ->
  parse_step (wrap I64 r, dp) b =
    (wrap I64 (r * 10 + (b - 48)), if 0 <=? dp then dp +[I32] 1 else dp).
Proof.
  unfold is_digit, parse_step. intros H. rewrite H. breflect.
  rewrite (proj2 (Z.eqb_neq _ _)) by lia. by rewrite wrap_mul_l, wrap_add_l.
Qed.

(** Digits before the dot. *)
Lemma scan_int l r :
  all_digits l -> fold_left parse_step l (wrap I64 r, -1) = (wrap I64 (dec_acc r l), -1).
Proof.
  intros H. revert r. induction H as [|b l Hb _ IH]; intros r; [done|].
  cbn [fold_left]. rewrite (is_digit_step _ _ _ Hb). cbn [Z.leb Z.compare]. apply IH.
Qed.

(** Digits after the dot: they are counted. *)
Lemma scan_frac l r dp :
  all_digits l -> 0 <= dp -> dp + Z.of_nat (length l) <= max_int I32 ->
  fold_left parse_step l (wrap I64 r, dp) =
    (wrap I64 (dec_acc r l), dp + Z.of_nat (length l)).
Proof.
  intros H. revert r dp. induction H as [|b l Hb _ IH]; intros r dp H0 Hm; cbn [fold_left length].
  - f_equal. lia.
  - rewrite (is_digit_step _ _ _ Hb), (proj2 (Z.leb_le 0 dp)) by lia. cbn [length] in Hm.
    rewrite (wrap_id I32) by mint. rewrite IH by lia. f_equal. lia.
Qed.

Lemma iter_mul10 n z :
  Nat.iter n (fun r => r *[I64] 10) (wrap I64 z) = wrap I64 (z * 10 ^ Z.of_nat n).
Proof.
  induction n as [|n IH]; cbn [Nat.iter nat_rect]; [by rewrite Z.mul_1_r|].
  change (nat_rect _ _ _ n) with (Nat.iter n (fun r => r *[I64] 10) (wrap I64 z)).
  rewrite IH, wrap_mul_l, Nat2Z.inj_succ, Z.pow_succ_r by lia. f_equal. ring.
Qed.

(** The text of an unsigned decimal: [di] alone, or [di.df]. *)
Definition decimal_text (di : bytes) (df : option bytes) : bytes :=
  match df with None => di | Some df => di ++ [46] ++ df end.
Definition frac_digits (df : option bytes) : bytes := default [] df.

(** What the scan leaves: all digits as one number, and how many follow the dot. *)
Lemma scan_text di df :
  all_digits di -> all_digits (frac_digits df) ->
  Z.of_nat (length (frac_digits df)) <= max_int I32 ->
  exists dp, fold_left parse_step (decimal_text di df) (0, -1) =
    (wrap I64 (dec (di ++ frac_digits df)), dp) /\
    (if dp <? 0 then 0 else dp) = Z.of_nat (length (frac_digits df)).
Proof.
  intros Hi Hf Hm. change (0, -1) with (wrap I64 0, -1). destruct df as [df|]; cbn [decimal_text].
  - exists (Z.of_nat (length df)). rewrite !fold_left_app, scan_int by done.
    cbn [fold_left parse_step Z.eqb Pos.eqb]. rewrite scan_frac by done || lia.
    unfold dec, dec_acc. rewrite <- fold_left_app. split; [done|].
    by rewrite (proj2 (Z.ltb_ge _ _)) by lia.
  - exists (-1). rewrite scan_int, app_nil_r by done. done.
Qed.

Definition sign_text (neg : bool) : bytes := if neg then [45] else [].
Definition with_sign (neg : bool) (z : Z) : Z := if neg then - z else z.

(** The parser on a well-formed decimal, before any range assumption. *)
Lemma parse_text neg di df :
  all_digits di -> all_digits (frac_digits df) ->
  Z.of_nat (length (frac_digits df)) <= max_int I32 ->
  (di <> [] \/ df <> None) ->
  parse_fixed_point_8 (sign_text neg ++ decimal_text di df) =
  let shift := 8 - Z.of_nat (length (frac_digits df)) in
  let r := Nat.iter (Z.to_nat (- shift)) (fun r => Z.quot r 10)
    (wrap I64 (dec (di ++ frac_digits df) * 10 ^ Z.max shift 0)) in
  if neg then wrap I64 (- r) else r.
Proof.
  intros Hi Hf Hm Hne. destruct (scan_text di df Hi Hf Hm) as (dp & Hs & Hdp).
  unfold parse_fixed_point_8.
  replace (negb _ && _) with neg.
  - replace (drop _ _) with (decimal_text di df) by by destruct neg.
    rewrite Hs, Hdp, (wrap_id I32) by mint. rewrite iter_mul10. cbv zeta.
    by replace (Z.of_nat (Z.to_nat _)) with (Z.max (8 - Z.of_nat (length (frac_digits df))) 0) by lia.
  - destruct neg; [done|]. cbn [sign_text app]. symmetry. apply andb_false_iff. right.
    destruct di as [|b di]; [destruct df; [done|naive_solver]|].
    apply Forall_inv in Hi. unfold is_digit in Hi.
    replace (byte_at _ 0) with b by by destruct df. breflect. lia.
Qed.

(** Up to eight decimals, the result is exact modulo 2^64, whatever the digits. *)
Lemma parse_short neg di df :
  all_digits di -> all_digits (frac_digits df) -> (length (frac_digits df) <= 8)%nat ->
  (di <> [] \/ df <> None) ->
  parse_fixed_point_8 (sign_text neg ++ decimal_text di df) =
  wrap I64 (with_sign neg
    (dec (di ++ frac_digits df) * 10 ^ (8 - Z.of_nat (length (frac_digits df))))).
Proof.
  intros Hi Hf Hl Hne. rewrite parse_text by (done || mint). cbv zeta.
  replace (Z.to_nat _) with 0%nat by lia. cbn [Nat.iter nat_rect].
  rewrite Z.max_l by lia. destruct neg; cbn [with_sign]; [apply wrap_opp | done].
Qed.

Lemma iter_quot n z : Nat.iter n (fun r => Z.quot r 10) z = Z.quot z (10 ^ Z.of_nat n).
Proof.
  induction n as [|n IH]; cbn [Nat.iter nat_rect]; [by rewrite Z.quot_1_r|].
  change (nat_rect _ _ _ n) with (Nat.iter n (fun r => Z.quot r 10) z).
  rewrite IH, Z.quot_quot, Nat2Z.inj_succ, Z.pow_succ_r by lia. f_equal. ring.
Qed.

Lemma quot_range t z n : in_range t z -> min_int t <= 0 <= max_int t -> 0 < n -> in_range t (Z.quot z n).
Proof.
  intros Hz Hm Hn. unfold in_range in *.
  destruct (Z.le_gt_cases 0 z).
  - rewrite Z.quot_div_nonneg by lia. assert (0 <= z / n <= z) by (split; [apply Z.div_pos; lia|apply Z.div_le_upper_bound; nia]). lia.
  - rewrite <- (Z.opp_involutive z), Z.quot_opp_l, Z.quot_div_nonneg by lia. assert (0 <= - z / n <= - z) by (split; [apply Z.div_pos; lia|apply Z.div_le_upper_bound; nia]). lia.
Qed.

(** Scaling when no digit is lost to the width. *)
Lemma scale_exact d k : 0 <= d -> 0 <= k ->
  (if k <=? 8 then d * 10 ^ (8 - k) else Z.quot d (10 ^ (k - 8))) = d * 10 ^ 8 / 10 ^ k.
Proof.
  intros Hd Hk. destruct (Z.leb_spec k 8).
  - replace (10 ^ 8) with (10 ^ (8 - k) * 10 ^ k) by (rewrite <- Z.pow_add_r by lia; f_equal; lia).
    by rewrite Z.mul_assoc, Z.div_mul by (apply Z.pow_nonzero; lia).
  - assert (0 < 10 ^ (k - 8)) by (apply Z.pow_pos_nonneg; lia).
    rewrite Z.quot_div_nonneg by lia. replace (10 ^ k) with (10 ^ (k - 8) * 10 ^ 8) by (rewrite <- Z.pow_add_r by lia; f_equal; lia).
    by rewrite Z.div_mul_cancel_r by lia.
Qed.

Module FixedPoint.

(** C10: a decimal with fewer than 2^31 digits after the dot, with or without a sign and a dot, is parsed to its digits
    as one number scaled to eight decimals, in 64-bit arithmetic: with up to eight decimals the exact
    scaled value modulo 2^64, with more the digits modulo 2^64 cut toward zero.  So when the digits, padded to eight
    decimals, are at most 2^63 - 1, the result is the value times 10^8, truncated toward zero. *)
Theorem parse_decimal (neg : bool) (di : bytes) (df : option bytes)
    (Hi : all_digits di) (Hf : all_digits (frac_digits df)) (Hne : di <> [] \/ df <> None)
    (Hl : Z.of_nat (length (frac_digits df)) <= max_int I32) :
  let d := dec (di ++ frac_digits df) in
  let k := Z.of_nat (length (frac_digits df)) in
  let result := parse_fixed_point_8 (sign_text neg ++ decimal_text di df) in
  result = wrap I64 (with_sign neg (if k <=? 8 then d * 10 ^ (8 - k) else Z.quot (wrap I64 d) (10 ^ (k - 8)))) /\
  (d * 10 ^ Z.max (8 - k) 0 <= max_int I64 -> result = with_sign neg (d * 10 ^ 8 / 10 ^ k)).
Proof.
  cbv zeta. assert (0 <= dec (di ++ frac_digits df)) as Hd by by apply dec_nonneg, all_digits_app.
  rewrite parse_text by done. cbv zeta. rewrite iter_quot.
  set (d := dec _) in *. set (k := Z.of_nat _) in *. assert (0 <= k) as Hk by (unfold k; lia).
  assert (Z.quot (wrap I64 (d * 10 ^ Z.max (8 - k) 0)) (10 ^ Z.of_nat (Z.to_nat (- (8 - k)))) =
    (if k <=? 8 then wrap I64 (d * 10 ^ (8 - k)) else Z.quot (wrap I64 d) (10 ^ (k - 8)))) as ->.
  { destruct (Z.leb_spec k 8).
    - rewrite Z.max_l by lia. replace (Z.to_nat _) with 0%nat by lia. apply Z.quot_1_r.
    - rewrite Z.max_r by lia. rewrite Z.mul_1_r. do 2 f_equal. lia. }
  split.
  - destruct (Z.leb_spec k 8); destruct neg; cbn [with_sign]; [apply wrap_opp|done|done|].
    symmetry. apply wrap_id, quot_range; [apply wrap_range|by_eval|apply Z.pow_pos_nonneg; lia].
  - intros Hr. rewrite <- scale_exact by done. assert (in_range I64 d /\ (k <= 8 -> in_range I64 (d * 10 ^ (8 - k)))) as [Hdr Hsr].
    { destruct (Z.le_gt_cases k 8); [rewrite Z.max_l in Hr by lia|rewrite Z.max_r in Hr by lia; mint].
      assert (0 < 10 ^ (8 - k)) by (apply Z.pow_pos_nonneg; lia). assert (0 <= d <= d * 10 ^ (8 - k)) by nia.
      split; [|intros _]; mint. }
    assert (in_range I64 (if k <=? 8 then d * 10 ^ (8 - k) else Z.quot d (10 ^ (k - 8))) /\
      0 <= (if k <=? 8 then d * 10 ^ (8 - k) else Z.quot d (10 ^ (k - 8)))) as [Hx H0].
    { rewrite (scale_exact d k) at 2 by done. split; [|apply Z.div_pos; [lia|apply Z.pow_pos_nonneg; lia]].
      destruct (Z.leb_spec k 8); [auto|]. apply quot_range; [done|by_eval|apply Z.pow_pos_nonneg; lia]. }
    rewrite (wrap_id I64 d) by done. destruct (Z.leb_spec k 8); rewrite ?(wrap_id I64 (d * _)) by auto;
      (destruct neg; cbn [with_sign]; [apply wrap_id; mint|done]).
Qed.

Lemma parse_decimal_witness :
  parse_fixed_point_8 (lit "-12.0000000199") = -1200000001.
Proof.
  change (lit "-12.0000000199") with
    (sign_text true ++ decimal_text [49; 50] (Some [48;48;48;48;48;48;48;49;57;57])).
  rewrite (proj2 (parse_decimal true [49; 50] (Some [48;48;48;48;48;48;48;49;57;57]) ltac:(by_eval) ltac:(by_eval) ltac:(by left) ltac:(by_eval))) by by_eval.
  reflexivity.
Defined.

End FixedPoint.
