(* ===== verification/Json.v ===== *)
(** * distribution/src/fast_json.rs: the zero-allocation JSON writer

    [FastJsonWriter] is a cursor over a caller-owned buffer; every operation threads the
    writer and returns a Rust result, so a failed write keeps the bytes already written.
    [emits m bs] is the contract of the operations: [m] appends exactly [bs] or fails because
    the buffer is too short.  The serializers are proved against the texts [bbo_json_text]
    and [trade_json_text]. *)

From S2P Require Import Prelude Bytes Models Decimal FixedPoint.

Inductive JsonError := JsonBufferTooSmall (required provided : nat).

Definition DEC_DIGITS_LUT : bytes :=
  lit "0001020304050607080910111213141516171819202122232425262728293031323334353637383940414243444546474849" ++
  lit "5051525354555657585960616263646566676869707172737475767778798081828384858687888990919293949596979899".

Record FastJsonWriter := mkWriter { buf : bytes; pos : nat }.

(** An operation on the writer that may fail. *)
Definition JW : Type := FastJsonWriter -> FastJsonWriter * result unit JsonError.

(** [a?; b]. *)
Definition jseq (m1 m2 : JW) : JW := fun w =>
  match m1 w with
  | (w, Ok _) => m2 w
  | (w, Err e) => (w, Err e)
  end.
Declare Scope json_scope.
Notation "m1 ;;; m2" := (jseq m1 m2) (at level 60, m2 at level 200, right associativity) : json_scope.
Open Scope json_scope.

Definition writer_new (out : bytes) : FastJsonWriter := mkWriter out 0.

Definition write_byte (b : Z) : JW := fun w =>
  if (length (buf w) <=? pos w)%nat
  then (w, Err (JsonBufferTooSmall (pos w + 1) (length (buf w))))
  else (mkWriter (<[pos w := b]> (buf w)) (pos w + 1), Ok tt).

Definition write_bytes (bs : bytes) : JW := fun w =>
  let needed := (pos w + length bs)%nat in
  if (length (buf w) <? needed)%nat
  then (w, Err (JsonBufferTooSmall needed (length (buf w))))
  else (mkWriter (splice (buf w) (pos w) bs) needed, Ok tt).

Definition write_str (s : bytes) : JW := write_bytes s.

(** The [while val >= 100] loop on the 20-byte scratch array. *)
Fixpoint u64_pairs (fuel : nat) (val : Z) (temp : bytes) (idx : nat) : Z * bytes * nat :=
  match fuel with
  | O => (val, temp, idx)
  | S fuel =>
      if 100 <=? val then
        let rem := Z.to_nat (val mod 100) in
        let val := val / 100 in
        let idx := (idx - 2)%nat in
        let temp := <[idx := byte_at DEC_DIGITS_LUT (rem * 2)]> temp in
        let temp := <[(idx + 1)%nat := byte_at DEC_DIGITS_LUT (rem * 2 + 1)]> temp in
        u64_pairs fuel val temp idx
      else (val, temp, idx)
  end.

Definition write_u64 (val : Z) : JW := fun w =>
  if val =? 0 then write_byte 48 w
  else
    let '(val, temp, idx) := u64_pairs 10 val (replicate 20 0) 20 in
    let '(temp, idx) :=
      if val <? 10 then
        let idx := (idx - 1)%nat in (<[idx := 48 + val]> temp, idx)
      else
        let rem := Z.to_nat val in
        let idx := (idx - 2)%nat in
        (<[(idx + 1)%nat := byte_at DEC_DIGITS_LUT (rem * 2 + 1)]>
          (<[idx := byte_at DEC_DIGITS_LUT (rem * 2)]> temp), idx) in
    write_bytes (slice temp idx 20) w.

Definition write_i64 (val : Z) : JW :=
  if val <? 0 then write_byte 45 ;;; write_u64 (Z.abs val)
  else write_u64 (wrap U64 val).

(** The [while frac > 0 && idx >= 2] loop. *)
Fixpoint frac_pairs (fuel : nat) (frac : Z) (frac_buf : bytes) (idx : nat) : Z * bytes * nat :=
  match fuel with
  | O => (frac, frac_buf, idx)
  | S fuel =>
      if (0 <? frac) && (2 <=? idx)%nat then
        let rem := Z.to_nat (frac mod 100) in
        let frac := frac / 100 in
        let idx := (idx - 2)%nat in
        let frac_buf := <[idx := byte_at DEC_DIGITS_LUT (rem * 2)]> frac_buf in
        let frac_buf := <[(idx + 1)%nat := byte_at DEC_DIGITS_LUT (rem * 2 + 1)]> frac_buf in
        frac_pairs fuel frac frac_buf idx
      else (frac, frac_buf, idx)
  end.

Definition frac_digits_buf (frac_part : Z) : bytes :=
  let '(frac, frac_buf, idx) := frac_pairs 4 frac_part (replicate 8 48) 8 in
  if (0 <? frac) && (idx =? 1)%nat
  then <[(idx - 1)%nat := 48 + wrap U8 frac]> frac_buf
  else frac_buf.

Definition write_fixed_point_8 (val : Z) : JW :=
  (if val <? 0 then write_byte 45 else fun w => (w, Ok tt)) ;;;
  let unsigned_val := Z.abs val in
  let integer_part := unsigned_val / 100000000 in
  let frac_part := unsigned_val mod 100000000 in
  write_u64 integer_part ;;;
  write_byte 46 ;;;
  write_bytes (frac_digits_buf frac_part).

(** Runs a serializer on a caller's buffer: the buffer after it, and [Ok(writer.pos())]. *)
Definition run_writer (m : JW) (out : bytes) : bytes * result nat JsonError :=
  let (w, r) := m (writer_new out) in
  (buf w, let? _ := r in Ok (pos w)).

Definition write_telemetry (t : TelemetryTimestamps) : JW :=
  write_str (jlit ",'telemetry':{'t0':") ;;; write_u64 (t0_exchange_ns t) ;;;
  write_str (jlit ",'t1':") ;;; write_u64 (t1_ingest_nic_ns t) ;;;
  write_str (jlit ",'t2':") ;;; write_u64 (t2_engine_proc_ns t) ;;;
  write_str (jlit ",'t3':") ;;; write_u64 (t3_egress_ns t) ;;;
  write_str (jlit "}}").

Definition serialize_bbo_json (bbo : NormalizedBbo) (out : bytes) : bytes * result nat JsonError :=
  run_writer (
    write_str (jlit "{'type':'bbo','market_id':") ;;; write_u64 (bbo_market_id bbo) ;;;
    write_str (jlit ",'venue':") ;;; write_u64 (bbo_venue bbo) ;;;
    write_str (jlit ",'chain':") ;;; write_u64 (bbo_chain bbo) ;;;
    write_str (jlit ",'sequence':") ;;; write_u64 (bbo_sequence bbo) ;;;
    write_str (jlit ",'bid_px':'") ;;; write_fixed_point_8 (bid_price bbo) ;;;
    write_str (jlit "','bid_qty':'") ;;; write_fixed_point_8 (wrap I64 (bid_qty bbo)) ;;;
    write_str (jlit "','ask_px':'") ;;; write_fixed_point_8 (ask_price bbo) ;;;
    write_str (jlit "','ask_qty':'") ;;; write_fixed_point_8 (wrap I64 (ask_qty bbo)) ;;;
    write_str (jlit "','spread_bps':") ;;; write_u64 (spread_bps bbo) ;;;
    write_str (jlit ",'flags':") ;;; write_u64 (bbo_flags bbo) ;;;
    write_telemetry (bbo_telemetry bbo)) out.

Definition serialize_trade_json (trade : UnifiedTrade) (out : bytes) : bytes * result nat JsonError :=
  run_writer (
    write_str (jlit "{'type':'trade','market_id':") ;;; write_u64 (tr_market_id trade) ;;;
    write_str (jlit ",'venue':") ;;; write_u64 (tr_venue trade) ;;;
    write_str (jlit ",'chain':") ;;; write_u64 (tr_chain trade) ;;;
    write_str (jlit ",'sequence':") ;;; write_u64 (tr_sequence trade) ;;;
    write_str (jlit ",'trade_id':") ;;; write_u64 (tr_trade_id trade) ;;;
    write_str (jlit ",'price':'") ;;; write_fixed_point_8 (tr_price trade) ;;;
    write_str (jlit "','size':'") ;;; write_fixed_point_8 (wrap I64 (tr_size trade)) ;;;
    write_str (jlit "','side':") ;;; write_u64 (tr_side trade) ;;;
    write_str (jlit ",'is_liquidation':") ;;;
    write_str (if tr_is_liquidation trade then lit "true" else lit "false") ;;;
    write_telemetry (tr_telemetry trade)) out.

(** ** The texts *)

Definition u64_text (n : Z) : bytes := digits 19 n.
Definition fixed_text (v : Z) : bytes :=
  sign_text (v <? 0) ++ u64_text (Z.abs v / 100000000) ++ [46] ++
  digits_pad 8 (Z.abs v mod 100000000).

Definition telemetry_json_text (t : TelemetryTimestamps) : bytes :=
  jlit ",'telemetry':{'t0':" ++ u64_text (t0_exchange_ns t) ++
  jlit ",'t1':" ++ u64_text (t1_ingest_nic_ns t) ++
  jlit ",'t2':" ++ u64_text (t2_engine_proc_ns t) ++
  jlit ",'t3':" ++ u64_text (t3_egress_ns t) ++ jlit "}}".

Definition bbo_json_text (b : NormalizedBbo) : bytes :=
  jlit "{'type':'bbo','market_id':" ++ u64_text (bbo_market_id b) ++
  jlit ",'venue':" ++ u64_text (bbo_venue b) ++
  jlit ",'chain':" ++ u64_text (bbo_chain b) ++
  jlit ",'sequence':" ++ u64_text (bbo_sequence b) ++
  jlit ",'bid_px':'" ++ fixed_text (bid_price b) ++
  jlit "','bid_qty':'" ++ fixed_text (wrap I64 (bid_qty b)) ++
  jlit "','ask_px':'" ++ fixed_text (ask_price b) ++
  jlit "','ask_qty':'" ++ fixed_text (wrap I64 (ask_qty b)) ++
  jlit "','spread_bps':" ++ u64_text (spread_bps b) ++
  jlit ",'flags':" ++ u64_text (bbo_flags b) ++ telemetry_json_text (bbo_telemetry b).

Definition trade_json_text (t : UnifiedTrade) : bytes :=
  jlit "{'type':'trade','market_id':" ++ u64_text (tr_market_id t) ++
  jlit ",'venue':" ++ u64_text (tr_venue t) ++
  jlit ",'chain':" ++ u64_text (tr_chain t) ++
  jlit ",'sequence':" ++ u64_text (tr_sequence t) ++
  jlit ",'trade_id':" ++ u64_text (tr_trade_id t) ++
  jlit ",'price':'" ++ fixed_text (tr_price t) ++
  jlit "','size':'" ++ fixed_text (wrap I64 (tr_size t)) ++
  jlit "','side':" ++ u64_text (tr_side t) ++
  jlit ",'is_liquidation':" ++ (if tr_is_liquidation t then lit "true" else lit "false") ++
  telemetry_json_text (tr_telemetry t).

(** ** The contract of a writer operation *)

(** [m] appends [bs], or fails with [BufferTooSmall] and leaves the buffer's length as it was. *)
Definition emits (m : JW) (bs : bytes) : Prop := forall w,
  (pos w <= length (buf w))%nat ->
  if (pos w + length bs <=? length (buf w))%nat
  then m w = (mkWriter (splice (buf w) (pos w) bs) (pos w + length bs), Ok tt)
  else exists w' required, m w = (w', Err (JsonBufferTooSmall required (length (buf w)))) /\
    (length (buf w) < required)%nat /\ length (buf w') = length (buf w).

Lemma emits_seq m1 m2 bs1 bs2 : emits m1 bs1 -> emits m2 bs2 -> emits (m1 ;;; m2) (bs1 ++ bs2).
Proof.
  intros H1 H2 w Hw. specialize (H1 w Hw). unfold jseq. rewrite length_app.
  destruct (pos w + length bs1 <=? length (buf w))%nat eqn:E1.
  - apply Nat.leb_le in E1. rewrite H1.
    set (w1 := mkWriter _ _). assert (length (buf w1) = length (buf w)) as El
      by by apply length_splice.
    specialize (H2 w1 ltac:(rewrite El; done)). rewrite El in H2. cbn [pos w1] in H2.
    rewrite Nat.add_assoc. destruct (_ <=? _)%nat eqn:E2; [|done].
    apply Nat.leb_le in E2. rewrite H2. cbn [buf w1]. by rewrite splice_splice.
  - rewrite (proj2 (Nat.leb_gt _ _)) by (apply Nat.leb_gt in E1; lia).
    destruct H1 as (w' & r & -> & ?). by exists w', r.
Qed.

Lemma emits_nil : emits (fun w => (w, Ok tt)) [].
Proof.
  intros [b p] Hw. cbn [buf pos length] in *. rewrite Nat.add_0_r, (proj2 (Nat.leb_le _ _)) by done.
  unfold splice. cbn [length app]. by rewrite Nat.add_0_r, take_drop.
Qed.

Lemma emits_bytes bs : emits (write_bytes bs) bs.
Proof.
  intros w Hw. unfold write_bytes. destruct (_ <=? _)%nat eqn:E.
  - apply Nat.leb_le in E. by rewrite (proj2 (Nat.ltb_ge _ _)) by done.
  - apply Nat.leb_gt in E. rewrite (proj2 (Nat.ltb_lt _ _)) by done. eauto.
Qed.

Lemma emits_byte b : emits (write_byte b) [b].
Proof.
  intros w Hw. unfold write_byte. cbn [length]. destruct (pos w + 1 <=? _)%nat eqn:E.
  - apply Nat.leb_le in E. rewrite (proj2 (Nat.leb_gt _ _)) by lia.
    unfold splice. rewrite insert_take_drop by lia. cbn [length app]. repeat f_equal; lia.
  - apply Nat.leb_gt in E. rewrite (proj2 (Nat.leb_le _ _)) by lia. eexists _, _. eauto with lia.
Qed.

(** ** Integers *)

(** The table holds the two digits of every number below 100. *)
Lemma lut_digits r :
  0 <= r < 100 -> byte_at DEC_DIGITS_LUT (Z.to_nat r * 2) = 48 + r / 10 /\
    byte_at DEC_DIGITS_LUT (Z.to_nat r * 2 + 1) = 48 + r mod 10.
Proof.
  intros Hr.
  assert (Forall (fun n => byte_at DEC_DIGITS_LUT (n * 2) = 48 + Z.of_nat n / 10 /\
    byte_at DEC_DIGITS_LUT (n * 2 + 1) = 48 + Z.of_nat n mod 10) (seq 0 100)) as H.
  { apply (bool_decide_unpack _). vm_compute. exact I. }
  rewrite Forall_forall in H. specialize (H (Z.to_nat r)).
  rewrite Z2Nat.id in H by lia. apply H, in_seq. lia.
Qed.

(** Two bytes written below [idx] come in front of what is there. *)
Lemma drop_insert2 (l : bytes) idx a b :
  (2 <= idx <= length l)%nat ->
  drop (idx - 2) (<[(idx - 2 + 1)%nat := b]> (<[(idx - 2)%nat := a]> l)) = a :: b :: drop idx l.
Proof.
  intros H. set (n := (idx - 2)%nat). replace idx with (n + 2)%nat by lia.
  assert (length (take n l) = n) as Hn by (rewrite length_take; lia).
  assert (exists x y post, l = take n l ++ x :: y :: post) as (x & y & post & E).
  { destruct (drop n l) as [|x [|y post]] eqn:E.
    1-2: apply (f_equal length) in E; rewrite length_drop in E; cbn in E; lia.
    exists x, y, post. by rewrite <- E, take_drop. }
  revert E Hn. generalize (take n l). intros pre -> <-.
  rewrite <- (Nat.add_0_r (length pre)) at 3. rewrite !insert_app_r. cbn [insert list_insert].
  rewrite drop_app_length, drop_app_ge by lia.
  by replace (length pre + 2 - length pre)%nat with 2%nat by lia.
Qed.

(** [u64_text] on any number of at most twenty digits. *)
Lemma u64_text_small n : 0 <= n < 10 -> u64_text n = [48 + n].
Proof. intros. unfold u64_text. rewrite digits_S, (proj2 (Z.ltb_lt _ _)) by lia. done. Qed.

Lemma u64_text_two n :
  100 <= n < 10 ^ 20 -> u64_text n = u64_text (n / 100) ++ [48 + n mod 100 / 10; 48 + n mod 100 mod 10].
Proof.
  intros H. unfold u64_text. change 19%nat with (S (S 17)) at 1. rewrite digits_two by zdm.
  rewrite (digits_fuel 17 19 (n / 100)); [done| |lia].
  split; [zdm|]. apply Z.div_lt_upper_bound; lia.
Qed.

Lemma u64_text_10_99 n : 10 <= n < 100 -> u64_text n = [48 + n / 10; 48 + n mod 10].
Proof.
  intros H. unfold u64_text. rewrite digits_S, (proj2 (Z.ltb_ge _ _)) by lia.
  rewrite digits_S, (proj2 (Z.ltb_lt _ _)) by zdm. done.
Qed.

Lemma pow10_step i : (2 <= i)%nat -> 10 ^ Z.of_nat i = 100 * 10 ^ Z.of_nat (i - 2).
Proof.
  intros H. replace (Z.of_nat i) with (2 + Z.of_nat (i - 2)) by lia.
  by rewrite Z.pow_add_r by lia.
Qed.

(** The loop moves digit pairs to the scratch array and leaves a number below 100. *)
Lemma u64_pairs_spec fuel val temp idx :
  (idx <= 2 * fuel)%nat -> 0 < val < 10 ^ Z.of_nat idx -> (idx <= 20)%nat -> length temp = 20%nat ->
  let '(v, t, i) := u64_pairs fuel val temp idx in
  0 < v < 100 /\ v < 10 ^ Z.of_nat i /\ (i <= 20)%nat /\ length t = 20%nat /\
  u64_text val ++ drop idx temp = u64_text v ++ drop i t.
Proof.
  revert val temp idx. induction fuel as [|fuel IH]; intros val temp idx Hf Hv Hi Ht.
  { replace idx with 0%nat in * by lia. cbn in Hv. lia. }
  cbn [u64_pairs]. destruct (Z.leb_spec 100 val) as [H|H].
  - assert (2 <= idx)%nat as Hi2.
    { destruct idx as [|[|]]; [cbn in Hv; lia..|lia]. }
    rewrite (pow10_step idx) in Hv by done.
    assert (10 ^ Z.of_nat (idx - 2) <= 10 ^ 18) by (apply Z.pow_le_mono_r; lia).
    destruct (lut_digits (val mod 100)) as [-> ->]; [zdm|]. cbv zeta.
    specialize (IH (val / 100)
      (<[(idx - 2 + 1)%nat:=48 + val mod 100 mod 10]> (<[(idx - 2)%nat:=48 + val mod 100 / 10]> temp))
      (idx - 2)%nat).
    destruct (u64_pairs fuel _ _ _) as [[v t] i].
    destruct IH as (? & ? & ? & ? & E); [lia| |lia|by rewrite !length_insert|].
    { split; [zdm|]. apply Z.div_lt_upper_bound; lia. }
    repeat split; try done; try lia.
    rewrite <- E, drop_insert2, u64_text_two by lia. by rewrite <- app_assoc.
  - repeat split; done || lia.
Qed.

Lemma emits_u64 val : in_range U64 val -> emits (write_u64 val) (u64_text val).
Proof.
  intros Hr w. unfold write_u64. destruct (Z.eqb_spec val 0) as [->|Hz]; [apply emits_byte|].
  pose proof (u64_pairs_spec 10 val (replicate 20 0) 20) as H.
  destruct (u64_pairs _ _ _ _) as [[v t] i].
  destruct H as (Hv & Hi & Hi20 & Ht & E); [lia|mint|lia|done|].
  change (drop 20 (replicate 20 0)) with (@nil Z) in E. rewrite app_nil_r in E. rewrite E.
  assert (0 < i)%nat by (destruct i; [cbn in Hi; lia|lia]).
  assert (forall l : bytes, length l = 20%nat -> forall k, slice l k 20 = drop k l) as Hsl.
  { intros l Hl k. unfold slice. apply take_ge. rewrite length_drop. lia. }
  destruct (Z.ltb_spec v 10).
  - rewrite Hsl by by rewrite length_insert.
    replace (drop (i - 1) _) with (u64_text v ++ drop i t); [apply emits_bytes|].
    rewrite u64_text_small by lia. rewrite insert_take_drop by lia.
    rewrite drop_app_length' by (rewrite length_take; lia).
    by replace (S (i - 1)) with i by lia.
  - assert (2 <= i)%nat by (destruct i as [|[|]]; [lia|cbn in Hi; lia|lia]).
    destruct (lut_digits v) as [-> ->]; [lia|].
    rewrite Hsl by by rewrite !length_insert.
    rewrite drop_insert2, u64_text_10_99 by lia. apply emits_bytes.
Qed.

(** ** The fraction *)

Lemma digits_pad_two k n :
  digits_pad (S (S k)) n = digits_pad k (n / 100) ++ [48 + n mod 100 / 10; 48 + n mod 100 mod 10].
Proof.
  cbn [digits_pad]. rewrite <- app_assoc, Z.div_div by lia. cbn [app]. change (10 * 10) with 100.
  replace (n mod 100 / 10) with (n / 10 mod 10) by zdm.
  by replace (n mod 100 mod 10) with (n mod 10) by zdm.
Qed.

Lemma digits_pad_zero k : digits_pad k 0 = replicate k 48.
Proof.
  induction k as [|k IH]; [done|]. cbn [digits_pad]. rewrite Z.div_0_l by lia.
  rewrite IH. by rewrite <- replicate_cons_app.
Qed.

Lemma take_insert2 (l : bytes) i a b :
  take i (<[(i + 1)%nat := b]> (<[i := a]> l)) = take i l.
Proof. rewrite !take_insert_ge by lia. done. Qed.

(** The loop ends with an exhausted fraction: the single-digit case after it never applies. *)
Lemma frac_pairs_spec fuel frac fb idx :
  idx = (2 * fuel)%nat -> 0 <= frac < 10 ^ Z.of_nat idx -> (idx <= length fb)%nat ->
  take idx fb = replicate idx 48 ->
  let '(f, b, i) := frac_pairs fuel frac fb idx in
  f = 0 /\ b = digits_pad idx frac ++ drop idx fb.
Proof.
  revert frac fb idx. induction fuel as [|fuel IH]; intros frac fb idx Hf Hv Hl Ht.
  { subst idx. cbn in Hv |- *. split; [lia|done]. }
  cbn [frac_pairs]. destruct (Z.ltb_spec 0 frac) as [H|H]; cbn [andb].
  - rewrite (proj2 (Nat.leb_le _ _)) by lia.
    destruct (lut_digits (frac mod 100)) as [-> ->]; [zdm|]. cbv zeta.
    rewrite (pow10_step idx) in Hv by lia.
    specialize (IH (frac / 100)
      (<[(idx - 2 + 1)%nat:=48 + frac mod 100 mod 10]> (<[(idx - 2)%nat:=48 + frac mod 100 / 10]> fb))
      (idx - 2)%nat).
    destruct (frac_pairs fuel _ _ _) as [[f b] i].
    destruct IH as (-> & ->); [lia| |rewrite !length_insert; lia| |].
    { split; [zdm|]. apply Z.div_lt_upper_bound; lia. }
    { rewrite take_insert2. replace (take (idx - 2) fb) with (take (idx - 2) (take idx fb))
        by (rewrite take_take; f_equal; lia).
      rewrite Ht, take_replicate. f_equal. lia. }
    split; [done|]. rewrite drop_insert2 by lia.
    destruct idx as [|[|k]]; [lia..|]. rewrite digits_pad_two.
    replace (S (S k) - 2)%nat with k by lia. by rewrite <- app_assoc.
  - split; [lia|]. replace frac with 0 by lia. rewrite digits_pad_zero, <- Ht.
    by rewrite take_drop.
Qed.

Lemma frac_digits_buf_eq frac :
  0 <= frac < 10 ^ 8 -> frac_digits_buf frac = digits_pad 8 frac.
Proof.
  intros H. unfold frac_digits_buf.
  pose proof (frac_pairs_spec 4 frac (replicate 8 48) 8) as Hs.
  destruct (frac_pairs _ _ _ _) as [[f b] i]. destruct Hs as (-> & ->); [done..|].
  by rewrite app_nil_r.
Qed.

Lemma abs_i64 v : in_range I64 v -> 0 <= Z.abs v <= 2 ^ 63.
Proof. mint. Qed.

Lemma emits_fixed v : in_range I64 v -> emits (write_fixed_point_8 v) (fixed_text v).
Proof.
  intros Hv%abs_i64. unfold write_fixed_point_8, fixed_text.
  rewrite frac_digits_buf_eq by zdm. cbv zeta.
  apply emits_seq; [destruct (v <? 0); [apply emits_byte | apply emits_nil]|].
  apply emits_seq; [apply emits_u64; mint|].
  apply emits_seq; [apply emits_byte | apply emits_bytes].
Qed.

#[export] Hint Resolve emits_seq emits_bytes emits_u64 emits_fixed : mint.

(** Widening a field to [u64], and the lossy [as i64] casts, stay in range. *)
Lemma u32_u64 z : in_range U32 z -> in_range U64 z.
Proof. mint. Qed.
Lemma u16_u64 z : in_range U16 z -> in_range U64 z.
Proof. mint. Qed.
Lemma u8_u64 z : in_range U8 z -> in_range U64 z.
Proof. mint. Qed.

Ltac emit :=
  repeat first
    [ assumption
    | apply emits_bytes
    | apply emits_fixed; eauto with mint
    | apply emits_u64; eauto using u32_u64, u16_u64, u8_u64 with mint
    | apply emits_seq ].

Lemma emits_telemetry t : Telemetry_ok t -> emits (write_telemetry t) (telemetry_json_text t).
Proof. intros Ht. unfold write_telemetry, telemetry_json_text, write_str. emit. Qed.

(** Running an operation with a contract on a fresh buffer. *)
Lemma run_writer_emits m bs out :
  emits m bs ->
  if (length bs <=? length out)%nat
  then run_writer m out = (bs ++ drop (length bs) out, Ok (length bs))
  else exists out' required, run_writer m out = (out', Err (JsonBufferTooSmall required (length out))) /\
    (length out < required)%nat /\ length out' = length out.
Proof.
  intros H. specialize (H (writer_new out)). cbn [writer_new pos buf] in H.
  specialize (H ltac:(lia)). rewrite Nat.add_0_l in H. unfold run_writer.
  destruct (_ <=? _)%nat.
  - by rewrite H.
  - destruct H as (w' & r & -> & ? & ?). by exists (buf w'), r.
Qed.

Lemma emits_bbo b : Bbo_ok b ->
  forall out, if (length (bbo_json_text b) <=? length out)%nat
  then serialize_bbo_json b out = (bbo_json_text b ++ drop (length (bbo_json_text b)) out,
         Ok (length (bbo_json_text b)))
  else exists out' required,
    serialize_bbo_json b out = (out', Err (JsonBufferTooSmall required (length out))) /\
    (length out < required)%nat /\ length out' = length out.
Proof.
  intros Hb out. apply run_writer_emits. pose proof (bbo_telemetry_ok _ Hb) as Ht.
  apply emits_telemetry in Ht. unfold write_str, bbo_json_text.
  emit.
Qed.

Lemma emits_trade t : Trade_ok t ->
  forall out, if (length (trade_json_text t) <=? length out)%nat
  then serialize_trade_json t out = (trade_json_text t ++ drop (length (trade_json_text t)) out,
         Ok (length (trade_json_text t)))
  else exists out' required,
    serialize_trade_json t out = (out', Err (JsonBufferTooSmall required (length out))) /\
    (length out < required)%nat /\ length out' = length out.
Proof.
  intros Hb out. apply run_writer_emits. pose proof (tr_telemetry_ok _ Hb) as Ht.
  apply emits_telemetry in Ht. unfold write_str, trade_json_text.
  emit.
Qed.

(** ** Lengths *)

Lemma length_u64_text t n k :
  in_range t n -> max_int t < 10 ^ Z.of_nat (S k) -> (k <= 19)%nat -> (length (u64_text n) <= S k)%nat.
Proof. unfold in_range. intros. apply length_digits_bound; lia. Qed.

Lemma length_u64_u64 n : in_range U64 n -> (length (u64_text n) <= 20)%nat.
Proof. intros. apply (length_u64_text U64); [done|done|lia]. Qed.
Lemma length_u64_u32 n : in_range U32 n -> (length (u64_text n) <= 10)%nat.
Proof. intros. apply (length_u64_text U32); [done|done|lia]. Qed.
Lemma length_u64_u16 n : in_range U16 n -> (length (u64_text n) <= 5)%nat.
Proof. intros. apply (length_u64_text U16); [done|done|lia]. Qed.
Lemma length_u64_u8 n : in_range U8 n -> (length (u64_text n) <= 3)%nat.
Proof. intros. apply (length_u64_text U8); [done|done|lia]. Qed.

Lemma length_fixed v : in_range I64 v -> (length (fixed_text v) <= 21)%nat.
Proof.
  intros Hv%abs_i64. unfold fixed_text. rewrite !length_app, length_pad.
  assert (length (u64_text (Z.abs v / 100000000)) <= 11)%nat.
  { apply length_digits_bound; [|lia]. apply Z.div_lt_upper_bound; [lia|]. cbn. lia. }
  assert (length (sign_text (v <? 0)%Z) <= 1)%nat by (destruct (v <? 0)%Z; cbn; lia).
  cbn [length]. lia.
Qed.

(** Evaluates the lengths of the literal fragments. *)
Ltac lit_lengths :=
  rewrite ?length_app;
  repeat match goal with
  | |- context [length (jlit ?s)] =>
      let n := eval vm_compute in (length (jlit s)) in change (length (jlit s)) with n
  end.

Lemma length_telemetry t : Telemetry_ok t -> (length (telemetry_json_text t) <= 119)%nat.
Proof.
  intros Ht. unfold telemetry_json_text. lit_lengths.
  pose proof (length_u64_u64 _ (t0_ok _ Ht)). pose proof (length_u64_u64 _ (t1_ok _ Ht)).
  pose proof (length_u64_u64 _ (t2_ok _ Ht)). pose proof (length_u64_u64 _ (t3_ok _ Ht)). lia.
Qed.

Lemma length_bbo_text b : Bbo_ok b -> (length (bbo_json_text b) <= 382)%nat.
Proof.
  intros Hb. unfold bbo_json_text. lit_lengths.
  pose proof (length_telemetry _ (bbo_telemetry_ok _ Hb)).
  pose proof (length_u64_u32 _ (bbo_market_id_ok _ Hb)).
  pose proof (length_u64_u16 _ (bbo_venue_ok _ Hb)).
  pose proof (length_u64_u16 _ (bbo_chain_ok _ Hb)).
  pose proof (length_u64_u64 _ (bbo_sequence_ok _ Hb)).
  pose proof (length_fixed _ (bid_price_ok _ Hb)). pose proof (length_fixed _ (ask_price_ok _ Hb)).
  pose proof (length_fixed _ (wrap_range I64 (bid_qty b))).
  pose proof (length_fixed _ (wrap_range I64 (ask_qty b))).
  pose proof (length_u64_u16 _ (spread_bps_ok _ Hb)).
  pose proof (length_u64_u16 _ (bbo_flags_ok _ Hb)). lia.
Qed.

Lemma length_trade_text t : Trade_ok t -> (length (trade_json_text t) <= 346)%nat.
Proof.
  intros Hb. unfold trade_json_text. lit_lengths.
  pose proof (length_telemetry _ (tr_telemetry_ok _ Hb)).
  pose proof (length_u64_u32 _ (tr_market_id_ok _ Hb)).
  pose proof (length_u64_u16 _ (tr_venue_ok _ Hb)).
  pose proof (length_u64_u16 _ (tr_chain_ok _ Hb)).
  pose proof (length_u64_u64 _ (tr_sequence_ok _ Hb)).
  pose proof (length_u64_u64 _ (tr_trade_id_ok _ Hb)).
  pose proof (length_fixed _ (tr_price_ok _ Hb)).
  pose proof (length_fixed _ (wrap_range I64 (tr_size t))).
  pose proof (length_u64_u8 _ (tr_side_ok _ Hb)).
  assert (length (if tr_is_liquidation t then lit "true" else lit "false") <= 5)%nat
    by (destruct (tr_is_liquidation t); cbn; lia).
  lia.
Qed.

(** [as i64] of a quantity is the quantity unless it is 2^63 or more. *)
Lemma fixed_parse v : in_range I64 v -> parse_fixed_point_8 (fixed_text v) = v.
Proof.
  intros Hv. pose proof (abs_i64 v Hv) as Ha. unfold fixed_text, u64_text.
  change (digits 19 ?n ++ [46] ++ ?df) with (decimal_text (digits 19 n) (Some df)).
  assert (0 <= Z.abs v / 100000000 < 10 ^ Z.of_nat 20) as Hq
    by (split; [zdm | apply Z.div_lt_upper_bound; lia]).
  rewrite parse_short; cbn [frac_digits default from_option id].
  - rewrite length_pad, dec_app, length_pad, dec_digits, dec_pad by (done || zdm).
    change (8 - Z.of_nat 8) with 0. rewrite Z.mul_1_r, Z.mul_comm.
    change (10 ^ Z.of_nat 8) with 100000000. rewrite <- Z.div_mod by lia.
    unfold with_sign. destruct (Z.ltb_spec v 0);
      [replace (- Z.abs v) with v by lia | replace (Z.abs v) with v by lia]; by apply wrap_id.
  - apply all_digits_digits. lia.
  - apply all_digits_pad.
  - rewrite length_pad. lia.
  - by right.
Qed.

Module Json.

(** An [i64] price printed by the JSON writer parses back to the same [i64], for every value
    including [i64::MIN], and the writer emits exactly that text. *)
Theorem fixed_point_roundtrip (v : Z) (Hv : in_range I64 v) :
  emits (write_fixed_point_8 v) (fixed_text v) /\ parse_fixed_point_8 (fixed_text v) = v.
Proof. split; [by apply emits_fixed | by apply fixed_parse]. Qed.

Lemma fixed_point_roundtrip_witness :
  parse_fixed_point_8 (fixed_text (-9223372036854775808)) = -9223372036854775808.
Proof. apply (fixed_point_roundtrip (-9223372036854775808)). by_eval. Defined.

(** C11: serializing a quote writes exactly its JSON text at the front of the buffer and
    reports its length, and fails only when the buffer is shorter than the text (then with the
    buffer's length kept and an honest [provided]); any buffer of 382 bytes is long enough. *)
Theorem serialize_bbo_text (b : NormalizedBbo) (out : bytes) (Hb : Bbo_ok b) :
  (length (bbo_json_text b) <= 382)%nat /\
  if (length (bbo_json_text b) <=? length out)%nat
  then serialize_bbo_json b out = (bbo_json_text b ++ drop (length (bbo_json_text b)) out,
         Ok (length (bbo_json_text b)))
  else exists out' required,
    serialize_bbo_json b out = (out', Err (JsonBufferTooSmall required (length out))) /\
    (length out < required)%nat /\ length out' = length out.
Proof. split; [by apply length_bbo_text | by apply emits_bbo]. Qed.

Lemma serialize_bbo_text_witness :
  serialize_bbo_json Bbo_default (replicate 300 0) =
  (bbo_json_text Bbo_default ++ drop 218 (replicate 300 0), Ok 218%nat).
Proof.
  assert (Bbo_ok Bbo_default) as H by (repeat constructor; by_eval).
  exact (proj2 (serialize_bbo_text Bbo_default (replicate 300 0) H)).
Defined.

Theorem serialize_trade_text (t : UnifiedTrade) (out : bytes) (Ht : Trade_ok t) :
  (length (trade_json_text t) <= 346)%nat /\
  if (length (trade_json_text t) <=? length out)%nat
  then serialize_trade_json t out = (trade_json_text t ++ drop (length (trade_json_text t)) out,
         Ok (length (trade_json_text t)))
  else exists out' required,
    serialize_trade_json t out = (out', Err (JsonBufferTooSmall required (length out))) /\
    (length out < required)%nat /\ length out' = length out.
Proof. split; [by apply length_trade_text | by apply emits_trade]. Qed.

(** A quantity of 2^63 or more is printed as a negative number (the [as i64] cast). *)
Theorem qty_printed_negative (q : Z) (Hq : in_range U64 q) :
  parse_fixed_point_8 (fixed_text (wrap I64 q)) = if q <? 2 ^ 63 then q else q - 2 ^ 64.
Proof.
  rewrite fixed_parse by apply wrap_range. destruct (Z.ltb_spec q (2 ^ 63)); mint.
Qed.

End Json.
