(* ===== verification/Bitmap.v ===== *)
(** * distribution/src/bitmap.rs: the client bitset of a topic

    [ClientBitmap] is sixteen 64-bit words; [client_ids] is the set it stands for, listed in
    ascending order, and every operation, the two ways of iterating included, is specified
    by it. *)

From Stdlib Require Import Sorted.
From S2P Require Import Prelude.

Definition DEFAULT_BITMAP_WORDS : nat := 16.
Definition MAX_CLIENT_CAPACITY : Z := Z.of_nat DEFAULT_BITMAP_WORDS * 64.

Record ClientBitmap := mkBitmap { words : list Z }.

#[global] Instance ClientBitmap_eq_dec : EqDecision ClientBitmap.
Proof. solve_decision. Defined.

Definition bitmap_new : ClientBitmap := mkBitmap (replicate DEFAULT_BITMAP_WORDS 0).

(** [self.words[i]]; every use is behind the guard [i < DEFAULT_BITMAP_WORDS]. *)
Definition word_at (b : ClientBitmap) (i : nat) : Z := nth i (words b) 0.

(** [!mask] on [u64]. *)
Definition not64 (mask : Z) : Z := wrap U64 (Z.lnot mask).

Definition bitmap_insert (b : ClientBitmap) (client_id : Z) : ClientBitmap * bool :=
  let idx := Z.to_nat client_id in
  let word_idx := (idx / 64)%nat in
  let bit_idx := Z.of_nat (idx mod 64) in
  if (word_idx <? DEFAULT_BITMAP_WORDS)%nat then
    let mask := Z.shiftl 1 bit_idx in
    let already_set := negb (Z.land (word_at b word_idx) mask =? 0) in
    (mkBitmap (<[word_idx := Z.lor (word_at b word_idx) mask]> (words b)), negb already_set)
  else (b, false).

Definition bitmap_remove (b : ClientBitmap) (client_id : Z) : ClientBitmap * bool :=
  let idx := Z.to_nat client_id in
  let word_idx := (idx / 64)%nat in
  let bit_idx := Z.of_nat (idx mod 64) in
  if (word_idx <? DEFAULT_BITMAP_WORDS)%nat then
    let mask := Z.shiftl 1 bit_idx in
    let was_set := negb (Z.land (word_at b word_idx) mask =? 0) in
    (mkBitmap (<[word_idx := Z.land (word_at b word_idx) (not64 mask)]> (words b)), was_set)
  else (b, false).

Definition bitmap_contains (b : ClientBitmap) (client_id : Z) : bool :=
  let idx := Z.to_nat client_id in
  let word_idx := (idx / 64)%nat in
  let bit_idx := Z.of_nat (idx mod 64) in
  if (word_idx <? DEFAULT_BITMAP_WORDS)%nat
  then negb (Z.land (word_at b word_idx) (Z.shiftl 1 bit_idx) =? 0)
  else false.

Definition bitmap_is_empty (b : ClientBitmap) : bool := forallb (fun w => w =? 0) (words b).

(** [u64::count_ones] and [u64::trailing_zeros]. *)
Fixpoint pop_pos (p : positive) : Z :=
  match p with
  | xH => 1
  | xO p => pop_pos p
  | xI p => 1 + pop_pos p
  end.
Definition count_ones (w : Z) : Z := match w with Z.pos p => pop_pos p | _ => 0 end.

Fixpoint ctz_pos (p : positive) : Z :=
  match p with xO p => 1 + ctz_pos p | _ => 0 end.
Definition trailing_zeros (w : Z) : Z := match w with Z.pos p => ctz_pos p | _ => 64 end.

Definition bitmap_count (b : ClientBitmap) : Z :=
  fold_left (fun n w => n +[USIZE] count_ones w) (words b) 0.

Definition bitmap_clear (b : ClientBitmap) : ClientBitmap :=
  mkBitmap (replicate DEFAULT_BITMAP_WORDS 0).

Definition bitmap_intersect (a b : ClientBitmap) : ClientBitmap :=
  mkBitmap (map (fun i => Z.land (word_at a i) (word_at b i)) (seq 0 DEFAULT_BITMAP_WORDS)).

Definition bitmap_union (a b : ClientBitmap) : ClientBitmap :=
  mkBitmap (map (fun i => Z.lor (word_at a i) (word_at b i)) (seq 0 DEFAULT_BITMAP_WORDS)).

(** The [while w != 0] loop of [for_each]: the closure [f] threads its captured state. *)
Fixpoint for_each_word {S} (f : S -> Z -> S) (fuel : nat) (base_id w : Z) (s : S) : S :=
  match fuel with
  | O => s
  | Datatypes.S fuel =>
      if w =? 0 then s
      else
        let bit := trailing_zeros w in
        for_each_word f fuel base_id (Z.land w (w - 1)) (f s (base_id +[U32] bit))
  end.

Definition bitmap_for_each {S} (f : S -> Z -> S) (b : ClientBitmap) (s : S) : S :=
  fold_left (fun s '(word_idx, w) => for_each_word f 64 (wrap U32 (Z.of_nat word_idx * 64)) w s)
    (imap pair (words b)) s.

Record ClientBitmapIter := mkIter { it_bitmap : ClientBitmap; word_idx : nat; current_word : Z }.

Definition bitmap_iter (b : ClientBitmap) : ClientBitmapIter := mkIter b 0 (word_at b 0).

(** The [while self.current_word == 0] loop; [None] is the iterator's [return None]. *)
Fixpoint skip_words (fuel : nat) (it : ClientBitmapIter) : ClientBitmapIter * bool :=
  match fuel with
  | O => (it, false)
  | S fuel =>
      if current_word it =? 0 then
        let word_idx := (word_idx it + 1)%nat in
        if (DEFAULT_BITMAP_WORDS <=? word_idx)%nat
        then (mkIter (it_bitmap it) word_idx (current_word it), false)
        else skip_words fuel (mkIter (it_bitmap it) word_idx (word_at (it_bitmap it) word_idx))
      else (it, true)
  end.

Definition iter_next (it : ClientBitmapIter) : ClientBitmapIter * option Z :=
  let (it, found) := skip_words (S DEFAULT_BITMAP_WORDS) it in
  if found then
    let bit := trailing_zeros (current_word it) in
    let client_id := wrap U32 (Z.of_nat (word_idx it) * 64) +[U32] bit in
    (mkIter (it_bitmap it) (word_idx it) (Z.land (current_word it) (current_word it - 1)),
     Some client_id)
  else (it, None).

(** [for id in bitmap.iter()], collecting the ids. *)
Fixpoint iter_collect (fuel : nat) (it : ClientBitmapIter) : list Z :=
  match fuel with
  | O => []
  | S fuel =>
      match iter_next it with
      | (it, Some id) => id :: iter_collect fuel it
      | (_, None) => []
      end
  end.

(** ** The set a bitmap stands for *)

Definition bitmap_ok (b : ClientBitmap) : Prop :=
  length (words b) = DEFAULT_BITMAP_WORDS /\ Forall (in_range U64) (words b).

Definition client_ids (b : ClientBitmap) : list Z :=
  List.filter (bitmap_contains b) (seqZ 0 MAX_CLIENT_CAPACITY).

(** The set bits of one word, ascending. *)
Definition word_bits_def (w : Z) : list Z := List.filter (Z.testbit w) (seqZ 0 64).
Definition word_bits_aux : seal word_bits_def.
Proof. by eexists. Qed.
(** Sealed, so that the 64 tests are never unfolded by conversion. *)
Definition word_bits : Z -> list Z := unseal word_bits_aux.
Lemma word_bits_eq w : word_bits w = List.filter (Z.testbit w) (seqZ 0 64).
Proof. unfold word_bits. by rewrite (seal_eq word_bits_aux). Qed.

(** ** Bits *)

Lemma land_pow2 a n : 0 <= n -> (Z.land a (Z.shiftl 1 n) =? 0) = negb (Z.testbit a n).
Proof.
  intros Hn. rewrite Z.shiftl_1_l. destruct (Z.testbit a n) eqn:E; cbn [negb].
  - apply Z.eqb_neq. intros H. apply (f_equal (fun z => Z.testbit z n)) in H.
    rewrite Z.land_spec, E, Z.pow2_bits_true, Z.bits_0 in H by done. done.
  - apply Z.eqb_eq, Z.bits_inj'. intros m Hm. rewrite Z.land_spec, Z.bits_0.
    destruct (decide (m = n)) as [->|Hne]; [by rewrite E|].
    rewrite Z.pow2_bits_false by done. apply andb_false_r.
Qed.

Lemma ctz_pos_spec p : exists k, 0 <= k /\ 0 <= ctz_pos p /\ Z.pos p = 2 ^ ctz_pos p * (2 * k + 1).
Proof.
  induction p as [p _|p IH|]; cbn [ctz_pos].
  - exists (Z.pos p). rewrite Z.pow_0_r. lia.
  - destruct IH as (k & Hk & Hc & E). exists k. repeat split; [done|lia|].
    rewrite Z.pow_add_r, Pos2Z.inj_xO, E by lia. ring.
  - exists 0. rewrite Z.pow_0_r. lia.
Qed.

Lemma trailing_zeros_spec w : 0 < w -> exists k, 0 <= k /\ 0 <= trailing_zeros w /\
  w = 2 ^ trailing_zeros w * (2 * k + 1).
Proof. destruct w; try lia. intros _. apply ctz_pos_spec. Qed.

(** [w & (w - 1)] clears the lowest set bit, which [trailing_zeros] names. *)
Lemma testbit_odd_part t k i :
  0 <= t -> 0 <= i -> Z.testbit (2 ^ t * (2 * k + 1)) i =
  if i <? t then false else if i =? t then true else Z.testbit k (i - t - 1).
Proof.
  intros Ht Hi. rewrite Z.mul_comm. destruct (Z.ltb_spec i t).
  - by rewrite Z.mul_pow2_bits_low by lia.
  - rewrite Z.mul_pow2_bits by lia. destruct (Z.eqb_spec i t) as [->|Hne].
    + rewrite Z.sub_diag. apply Z.testbit_odd_0.
    + replace (i - t) with (Z.succ (i - t - 1)) by lia.
      rewrite Z.testbit_odd_succ by lia. f_equal. lia.
Qed.

Lemma testbit_odd_part_pred t k i :
  0 <= t -> 0 <= i -> 0 <= k -> t < i ->
  Z.testbit (2 ^ t * (2 * k + 1) - 1) i = Z.testbit k (i - t - 1).
Proof.
  intros Ht Hi Hk Hlt.
  assert (0 < 2 ^ t) by (apply Z.pow_pos_nonneg; lia).
  assert (2 ^ (t + 1) = 2 * 2 ^ t) as E by (rewrite Z.pow_add_r by lia; ring).
  replace (2 ^ t * (2 * k + 1) - 1) with (k * 2 ^ (t + 1) + (2 ^ t - 1)) by (rewrite E; ring).
  replace i with ((i - t - 1) + (t + 1)) at 1 by lia.
  rewrite <- Z.div_pow2_bits, Z.div_add_l, Z.div_small, Z.add_0_r by lia. done.
Qed.

Lemma testbit_clear_lowest w i :
  0 < w -> 0 <= i ->
  Z.testbit (Z.land w (w - 1)) i = Z.testbit w i && negb (i =? trailing_zeros w).
Proof.
  intros Hw Hi. destruct (trailing_zeros_spec w Hw) as (k & Hk & Ht & E).
  set (t := trailing_zeros w) in *. rewrite E, Z.land_spec, testbit_odd_part by lia.
  destruct (Z.ltb_spec i t); [done|]. destruct (Z.eqb_spec i t) as [->|Hne]; cbn [negb].
  - rewrite andb_true_l, andb_false_r. replace (2 ^ t * (2 * k + 1) - 1)
      with ((2 * k) * 2 ^ t + (2 ^ t - 1)) by ring.
    assert (0 < 2 ^ t) by (apply Z.pow_pos_nonneg; lia).
    rewrite Z.testbit_eqb, Z.div_add_l, Z.div_small, Z.add_0_r by lia.
    by rewrite Z.mul_comm, Z_mod_mult.
  - rewrite testbit_odd_part_pred, andb_diag, andb_true_r by lia. done.
Qed.

Lemma testbit_lowest w : 0 < w -> Z.testbit w (trailing_zeros w) = true /\ 0 <= trailing_zeros w /\ forall i, 0 <= i < trailing_zeros w -> Z.testbit w i = false.
Proof.
  intros Hw. destruct (trailing_zeros_spec w Hw) as (k & Hk & Ht & E).
  set (t := trailing_zeros w) in *. rewrite E. repeat split; [|done|].
  - rewrite testbit_odd_part by lia. rewrite Z.ltb_irrefl. by rewrite Z.eqb_refl.
  - intros i Hi. rewrite testbit_odd_part by lia. by rewrite (proj2 (Z.ltb_lt _ _)) by lia.
Qed.

Lemma u64_high w i : in_range U64 w -> 64 <= i -> Z.testbit w i = false.
Proof.
  intros Hw Hi. destruct (decide (w = 0)) as [->|]; [apply Z.bits_0|].
  apply Z.bits_above_log2; [mint|]. apply Z.log2_lt_pow2; [mint|].
  apply Z.lt_le_trans with (2 ^ 64); [mint|]. apply Z.pow_le_mono_r; lia.
Qed.

Lemma trailing_zeros_lt w : in_range U64 w -> w <> 0 -> 0 <= trailing_zeros w < 64.
Proof.
  intros Hw Hz. destruct (testbit_lowest w) as (H1 & H2 & _); [mint|].
  split; [done|]. destruct (Z.lt_ge_cases (trailing_zeros w) 64); [done|].
  by rewrite u64_high in H1.
Qed.

Lemma u64_of_bits a : 0 <= a -> (forall i, 64 <= i -> Z.testbit a i = false) -> in_range U64 a.
Proof.
  intros Ha H. assert (a < 2 ^ 64) by (apply Z.bounded_iff_bits_nonneg; done || lia). mint.
Qed.

Lemma land_range a b : in_range U64 a -> 0 <= b -> in_range U64 (Z.land a b).
Proof.
  intros Ha Hb. apply u64_of_bits; [apply Z.land_nonneg; mint|].
  intros i Hi. rewrite Z.land_spec, u64_high by done. done.
Qed.

Lemma lor_range a b : in_range U64 a -> in_range U64 b -> in_range U64 (Z.lor a b).
Proof.
  intros Ha Hb. apply u64_of_bits; [apply Z.lor_nonneg; mint|].
  intros i Hi. rewrite Z.lor_spec, !u64_high by done. done.
Qed.

Lemma clear_lowest_range w : in_range U64 w -> w <> 0 -> in_range U64 (Z.land w (w - 1)).
Proof. intros. apply land_range; [done|mint]. Qed.

Lemma bit_range n : 0 <= n < 64 -> in_range U64 (Z.shiftl 1 n).
Proof.
  intros Hn. rewrite Z.shiftl_1_l. apply u64_of_bits; [lia|].
  intros i Hi. apply Z.pow2_bits_false. lia.
Qed.

#[export] Hint Resolve land_range lor_range bit_range : mint.

(** ** The set bits of a word *)

Lemma seqZ_split n b : 0 <= b < n -> seqZ 0 n = seqZ 0 b ++ b :: seqZ (b + 1) (n - b - 1).
Proof.
  intros Hb. replace n with (b + (n - b)) at 1 by lia. rewrite seqZ_app by lia.
  rewrite (seqZ_cons (0 + b)) by lia. repeat f_equal; lia.
Qed.

Lemma filter_none {A} (p : A -> bool) l : (forall x, In x l -> p x = false) -> List.filter p l = [].
Proof.
  intros H. induction l as [|x l IH]; [done|]. cbn [List.filter].
  rewrite H by by left. apply IH. intros y Hy. apply H. by right.
Qed.

Lemma filter_ext_in {A} (p q : A -> bool) l :
  (forall x, In x l -> p x = q x) -> List.filter p l = List.filter q l.
Proof.
  intros H. induction l as [|x l IH]; [done|]. cbn [List.filter].
  rewrite H by by left. rewrite IH; [done|]. intros y Hy. apply H. by right.
Qed.

Lemma in_seqZ x m n : In x (seqZ m n) <-> m <= x < m + n.
Proof. rewrite <- list_elem_of_In. apply elem_of_seqZ. Qed.

Lemma word_bits_0 : word_bits 0 = [].
Proof. rewrite word_bits_eq. apply filter_none. intros. apply Z.bits_0. Qed.

(** The lowest bit first, then the bits that remain once it is cleared. *)
Lemma word_bits_step w :
  in_range U64 w -> w <> 0 -> word_bits w = trailing_zeros w :: word_bits (Z.land w (w - 1)).
Proof.
  intros Hw Hz. assert (0 < w) as Hp by mint.
  destruct (testbit_lowest w Hp) as (Hb & _ & Hlow). pose proof (trailing_zeros_lt w Hw Hz) as Ht.
  rewrite !word_bits_eq, (seqZ_split 64 (trailing_zeros w)) by lia.
  rewrite !List.filter_app. cbn [List.filter]. rewrite Hb.
  rewrite testbit_clear_lowest, Z.eqb_refl, andb_false_r by lia.
  rewrite !(filter_none _ (seqZ 0 _)). 2: {
    intros x Hx%in_seqZ. rewrite testbit_clear_lowest by lia. rewrite Hlow by lia. done. }
  2: { intros x Hx%in_seqZ. apply Hlow. lia. }
  cbn [app]. f_equal. apply filter_ext_in. intros x Hx%in_seqZ.
  rewrite testbit_clear_lowest by lia. rewrite (proj2 (Z.eqb_neq _ _)), andb_true_r by lia. done.
Qed.

Lemma word_bits_nil w : in_range U64 w -> word_bits w = [] -> w = 0.
Proof.
  intros Hw H. destruct (decide (w = 0)); [done|]. by rewrite word_bits_step in H.
Qed.

Lemma length_word_bits w : (length (word_bits w) <= 64)%nat.
Proof.
  rewrite word_bits_eq. etransitivity; [apply List.filter_length_le|]. rewrite length_seqZ. lia.
Qed.

Lemma for_each_word_step {S} (f : S -> Z -> S) fuel base w s :
  in_range U64 w -> w <> 0 -> 0 <= base <= 960 ->
  for_each_word f (Datatypes.S fuel) base w s =
  for_each_word f fuel base (Z.land w (w - 1)) (f s (base + trailing_zeros w)).
Proof.
  intros Hw Hz Hb. cbn [for_each_word]. rewrite (proj2 (Z.eqb_neq w 0)) by done. cbv zeta.
  pose proof (trailing_zeros_lt w Hw Hz). rewrite (wrap_id U32) by mint. done.
Qed.

Lemma for_each_word_0 {S} (f : S -> Z -> S) fuel base s : for_each_word f fuel base 0 s = s.
Proof. by destruct fuel. Qed.

Lemma for_each_word_spec {S} (f : S -> Z -> S) fuel base w s :
  in_range U64 w -> (length (word_bits w) <= fuel)%nat -> 0 <= base <= 960 ->
  for_each_word f fuel base w s = fold_left (fun s bit => f s (base + bit)) (word_bits w) s.
Proof.
  revert w s. induction fuel as [|fuel IH]; intros w s Hw Hf Hb.
  - rewrite (word_bits_nil w Hw), word_bits_0, for_each_word_0; [done|].
    apply length_zero_iff_nil. lia.
  - destruct (decide (w = 0)) as [->|Hz]; [by rewrite word_bits_0, for_each_word_0|].
    rewrite for_each_word_step by done.
    rewrite (word_bits_step w), length_cons in Hf by done.
    rewrite (word_bits_step w), fold_left_cons by done.
    apply (IH _ _ (clear_lowest_range w Hw Hz)); lia.
Qed.

(** ** The ids of a bitmap, word by word *)

Lemma bitmap_contains_testbit b id :
  0 <= id < MAX_CLIENT_CAPACITY ->
  bitmap_contains b id = Z.testbit (word_at b (Z.to_nat (id / 64))) (id mod 64).
Proof.
  intros Hid. change MAX_CLIENT_CAPACITY with 1024 in Hid. unfold bitmap_contains.
  assert (Z.to_nat id / 64 = Z.to_nat (id / 64))%nat as -> by (rewrite Z2Nat.inj_div by lia; done).
  assert (Z.of_nat (Z.to_nat id mod 64) = id mod 64) as ->
    by (rewrite Nat2Z.inj_mod, Z2Nat.id by lia; done).
  rewrite (proj2 (Nat.ltb_lt _ _)) by (change DEFAULT_BITMAP_WORDS with 16%nat; zdm).
  rewrite land_pow2 by zdm. apply negb_involutive.
Qed.

Definition word_ids (b : ClientBitmap) (i : nat) : list Z :=
  map (fun bit => Z.of_nat i * 64 + bit) (word_bits (word_at b i)).

Definition ids_from (b : ClientBitmap) (i : nat) : list Z :=
  concat (map (word_ids b) (seq i (DEFAULT_BITMAP_WORDS - i))).

Lemma filter_map_comm {A B} (p : B -> bool) (q : A -> bool) (g : A -> B) l :
  (forall x, In x l -> p (g x) = q x) -> List.filter p (map g l) = map g (List.filter q l).
Proof.
  intros H. induction l as [|x l IH]; [done|]. cbn [map List.filter].
  rewrite H by by left. rewrite IH by (intros y Hy; apply H; by right). by destruct (q x).
Qed.

Lemma client_ids_words b : client_ids b = ids_from b 0.
Proof.
  unfold client_ids, ids_from.
  replace (seqZ 0 MAX_CLIENT_CAPACITY) with
    (concat (map (fun i => map (fun bit => Z.of_nat i * 64 + bit) (seqZ 0 64))
      (seq 0 DEFAULT_BITMAP_WORDS))) by (vm_compute; reflexivity).
  rewrite <- concat_filter_map, map_map, Nat.sub_0_r. f_equal. apply map_ext_in.
  intros i Hi%in_seq. change (0 + DEFAULT_BITMAP_WORDS)%nat with 16%nat in Hi.
  unfold word_ids. rewrite word_bits_eq. apply filter_map_comm. intros bit Hb%in_seqZ.
  rewrite bitmap_contains_testbit by (change MAX_CLIENT_CAPACITY with 1024; lia).
  f_equal; [|zdm]. f_equal. rewrite Z.div_add_l, Z.div_small by lia. lia.
Qed.

Lemma ids_from_step b i :
  (i < DEFAULT_BITMAP_WORDS)%nat -> ids_from b i = word_ids b i ++ ids_from b (S i).
Proof.
  intros Hi. unfold ids_from.
  replace (DEFAULT_BITMAP_WORDS - i)%nat with (S (DEFAULT_BITMAP_WORDS - S i)) by lia. done.
Qed.

Lemma ids_from_end b i : (DEFAULT_BITMAP_WORDS <= i)%nat -> ids_from b i = [].
Proof. intros. unfold ids_from. by replace (_ - _)%nat with 0%nat by lia. Qed.

Lemma word_at_ok b i : bitmap_ok b -> in_range U64 (word_at b i).
Proof.
  intros [_ H]. unfold word_at. destruct (nth_in_or_default i (words b) 0) as [Hin| ->]; [|by_eval].
  by eapply List.Forall_forall in H.
Qed.
#[export] Hint Resolve word_at_ok : mint.

Lemma words_map b :
  length (words b) = DEFAULT_BITMAP_WORDS ->
  words b = map (word_at b) (seq 0 DEFAULT_BITMAP_WORDS).
Proof.
  destruct b as [ws]. unfold word_at. cbn [words]. intros H.
  do 16 (destruct ws as [|? ws]; [done|]). by destruct ws.
Qed.

Lemma imap_pair_words b :
  length (words b) = DEFAULT_BITMAP_WORDS ->
  imap pair (words b) = map (fun i => (i, word_at b i)) (seq 0 DEFAULT_BITMAP_WORDS).
Proof.
  destruct b as [ws]. unfold word_at. cbn [words]. intros H.
  do 16 (destruct ws as [|? ws]; [done|]). by destruct ws.
Qed.

Lemma fold_left_concat {A B} (f : B -> A -> B) ls b :
  fold_left f (concat ls) b = fold_left (fun b l => fold_left f l b) ls b.
Proof.
  revert b. induction ls as [|l ls IH]; intros b; [done|].
  cbn [concat fold_left]. by rewrite fold_left_app, IH.
Qed.

Lemma fold_left_map_l {A B C} (f : B -> C -> B) (g : A -> C) l b :
  fold_left f (map g l) b = fold_left (fun b x => f b (g x)) l b.
Proof. revert b. induction l as [|x l IH]; intros b; [done|]. apply IH. Qed.

Lemma fold_left_ext_in {A B} (f g : B -> A -> B) l b :
  (forall b x, In x l -> f b x = g b x) -> fold_left f l b = fold_left g l b.
Proof.
  revert b. induction l as [|x l IH]; intros b H; [done|].
  rewrite !fold_left_cons, H by by left. apply IH. intros b' y Hy. apply H. by right.
Qed.

Lemma for_each_ids {S} (f : S -> Z -> S) b s :
  bitmap_ok b -> bitmap_for_each f b s = fold_left f (client_ids b) s.
Proof.
  intros Hb. unfold bitmap_for_each. rewrite imap_pair_words by apply Hb.
  rewrite client_ids_words. unfold ids_from. rewrite fold_left_concat, !fold_left_map_l.
  rewrite Nat.sub_0_r. apply fold_left_ext_in. intros s' i Hi%in_seq.
  change (0 + DEFAULT_BITMAP_WORDS)%nat with 16%nat in Hi.
  rewrite wrap_id by mint. rewrite for_each_word_spec; [|by apply word_at_ok|apply length_word_bits|lia].
  unfold word_ids. by rewrite fold_left_map_l.
Qed.

(** ** The iterator *)

(** What a [ClientBitmapIter] still has to produce. *)
Definition iter_rem (it : ClientBitmapIter) : list Z :=
  map (fun bit => Z.of_nat (word_idx it) * 64 + bit) (word_bits (current_word it)) ++
  ids_from (it_bitmap it) (S (word_idx it)).

Definition iter_ok (it : ClientBitmapIter) : Prop :=
  bitmap_ok (it_bitmap it) /\ in_range U64 (current_word it) /\
  (word_idx it < DEFAULT_BITMAP_WORDS)%nat.

Lemma skip_words_spec fuel it :
  iter_ok it -> (DEFAULT_BITMAP_WORDS < fuel + word_idx it)%nat ->
  let (it', found) := skip_words fuel it in
  if found then iter_ok it' /\ current_word it' <> 0 /\ iter_rem it' = iter_rem it
  else iter_rem it = [].
Proof.
  revert it. induction fuel as [|fuel IH]; intros [b i w] (Hb & Hw & Hi) Hf;
    cbn [it_bitmap word_idx current_word] in *; [lia|].
  cbn [skip_words it_bitmap word_idx current_word]. destruct (Z.eqb_spec w 0) as [->|Hz]; [|done].
  destruct (DEFAULT_BITMAP_WORDS <=? i + 1)%nat eqn:E.
  - apply Nat.leb_le in E. unfold iter_rem. cbn [it_bitmap word_idx current_word].
    by rewrite word_bits_0, ids_from_end by lia.
  - apply Nat.leb_gt in E. specialize (IH (mkIter b (i + 1) (word_at b (i + 1)))).
    destruct (skip_words fuel _) as [it' found].
    assert (iter_rem (mkIter b i 0) = iter_rem (mkIter b (i + 1) (word_at b (i + 1)))) as ->.
    { unfold iter_rem. cbn [it_bitmap word_idx current_word].
      rewrite word_bits_0, ids_from_step, Nat.add_1_r by lia. unfold word_ids.
      cbn [map app]. reflexivity. }
    apply IH; cbn [it_bitmap word_idx current_word]; [|lia].
    repeat split; [apply Hb|apply Hb|by apply word_at_ok..|done].
Qed.

(** [next] yields the first of the remaining ids. *)
Lemma iter_next_spec it :
  iter_ok it ->
  match iter_next it with
  | (it', Some id) => iter_ok it' /\ iter_rem it = id :: iter_rem it'
  | (_, None) => iter_rem it = []
  end.
Proof.
  intros Hok. pose proof (skip_words_spec (S DEFAULT_BITMAP_WORDS) it Hok ltac:(lia)) as H.
  unfold iter_next. destruct (skip_words _ it) as [[b i w] []]; [|done].
  destruct H as ((Hb & Hw & Hi) & Hz & <-). cbn [it_bitmap word_idx current_word] in *.
  pose proof (trailing_zeros_lt w Hw Hz). change DEFAULT_BITMAP_WORDS with 16%nat in Hi.
  split; [repeat split; cbn [it_bitmap word_idx current_word];
    [apply Hb|apply Hb|by apply clear_lowest_range..|done]|].
  unfold iter_rem. cbn [it_bitmap word_idx current_word].
  rewrite (word_bits_step w) by done. rewrite map_cons, <- app_comm_cons. f_equal.
  rewrite (wrap_id U32 (Z.of_nat i * 64)) by mint. rewrite wrap_id by mint. done.
Qed.

Lemma iter_collect_spec fuel it :
  iter_ok it -> (length (iter_rem it) < fuel)%nat -> iter_collect fuel it = iter_rem it.
Proof.
  revert it. induction fuel as [|fuel IH]; intros it Hok Hf; [lia|].
  pose proof (iter_next_spec it Hok) as H. cbn [iter_collect].
  destruct (iter_next it) as [it' [id|]]; [|done].
  destruct H as [Hok' E]. rewrite E in Hf |- *. rewrite length_cons in Hf.
  rewrite IH; [exact eq_refl | exact Hok' | lia].
Qed.

(** ** Counting *)

Lemma word_bits_half (f : Z -> bool) n :
  0 <= n -> List.filter f (seqZ 0 (n + 1)) =
  (if f 0 then [0] else []) ++ map Z.succ (List.filter (fun i => f (Z.succ i)) (seqZ 0 n)).
Proof.
  intros Hn. rewrite seqZ_cons by lia. replace (Z.pred (n + 1)) with n by lia.
  rewrite <- (fmap_add_seqZ 1 0). cbn [List.filter].
  rewrite <- (filter_map_comm f _ Z.succ _ (fun x _ => eq_refl)).
  replace (Z.add 1 <$> seqZ 0 n) with (map Z.succ (seqZ 0 n)); [by destruct (f 0)|].
  apply map_ext. intros. lia.
Qed.

Lemma pop_pos_spec p n :
  0 <= n -> Z.pos p < 2 ^ n ->
  Z.of_nat (length (List.filter (Z.testbit (Z.pos p)) (seqZ 0 n))) = pop_pos p.
Proof.
  revert n. induction p as [p IH|p IH|]; intros n Hn Hp.
  all: destruct (decide (n = 0)) as [->|Hne]; [cbn in Hp; lia|].
  all: replace n with ((n - 1) + 1) in * by lia; rewrite Z.pow_add_r in Hp by lia; change (2 ^ 1) with 2 in Hp.
  all: rewrite word_bits_half, length_app, length_map by lia.
  - rewrite (filter_ext_in _ (Z.testbit (Z.pos p))).
    2: { intros i Hi%in_seqZ. rewrite Pos2Z.inj_xI. apply Z.testbit_odd_succ. lia. }
    rewrite Nat2Z.inj_add, IH by lia. done.
  - rewrite (filter_ext_in _ (Z.testbit (Z.pos p))).
    2: { intros i Hi%in_seqZ. rewrite Pos2Z.inj_xO. apply Z.testbit_even_succ. lia. }
    rewrite Nat2Z.inj_add, IH by lia. done.
  - rewrite filter_none; [done|]. intros i Hi%in_seqZ. cbn.
    rewrite Z.bits_above_log2; [done|lia|cbn; lia].
Qed.

Lemma count_ones_spec w : in_range U64 w -> count_ones w = Z.of_nat (length (word_bits w)).
Proof.
  intros Hw. destruct w as [|p|p]; [by rewrite word_bits_0| |mint].
  symmetry. rewrite word_bits_eq. apply pop_pos_spec; mint.
Qed.

Lemma count_words_spec ws n :
  Forall (in_range U64) ws -> 0 <= n -> n + 64 * Z.of_nat (length ws) <= max_int U64 ->
  fold_left (fun n w => n +[USIZE] count_ones w) ws n =
  n + Z.of_nat (length (concat (map word_bits ws))).
Proof.
  intros H. revert n. induction H as [|w ws Hw _ IH]; intros n Hn Hl; [cbn; lia|].
  rewrite length_cons in Hl. rewrite fold_left_cons, count_ones_spec by done.
  pose proof (length_word_bits w). rewrite wrap_id by mint.
  rewrite IH by lia. cbn [map concat]. rewrite length_app. lia.
Qed.

Lemma bitmap_count_ids b : bitmap_ok b -> bitmap_count b = Z.of_nat (length (client_ids b)).
Proof.
  intros [Hl Hw]. unfold bitmap_count. rewrite count_words_spec by (done || rewrite Hl; by_eval).
  rewrite client_ids_words. unfold ids_from. rewrite Z.add_0_l, Nat.sub_0_r. f_equal.
  rewrite length_concat, map_map, (words_map b) at 1 by done.
  rewrite length_concat, !map_map. f_equal. apply map_ext. intros i.
  unfold word_ids. by rewrite length_map.
Qed.

(** ** Updates *)

Lemma word_at_update b k v m :
  (k < length (words b))%nat ->
  word_at (mkBitmap (<[k := v]> (words b))) m = if (m =? k)%nat then v else word_at b m.
Proof.
  intros Hk. unfold word_at. cbn [words]. rewrite !nth_lookup.
  destruct (Nat.eqb_spec m k) as [->|Hne].
  - by rewrite list_lookup_insert_eq by done.
  - by rewrite list_lookup_insert_ne by done.
Qed.

Lemma bitmap_ok_update b k v :
  bitmap_ok b -> in_range U64 v -> bitmap_ok (mkBitmap (<[k := v]> (words b))).
Proof.
  intros [Hl Hw] Hv. split; cbn [words]; [by rewrite length_insert|]. by apply Forall_insert.
Qed.

Lemma testbit_not64 mask m :
  0 <= m < 64 -> Z.testbit (not64 mask) m = negb (Z.testbit mask m).
Proof.
  intros Hm. unfold not64. rewrite wrap_unsigned by done. change (modulus U64) with (2 ^ 64).
  rewrite Z.mod_pow2_bits_low, Z.lnot_spec by lia. done.
Qed.

Lemma testbit_mask n m : 0 <= n -> 0 <= m -> Z.testbit (Z.shiftl 1 n) m = (m =? n).
Proof. intros. rewrite Z.shiftl_1_l, Z.pow2_bits_eqb by done. apply Z.eqb_sym. Qed.

(** The word and bit of an id within the capacity. *)
Lemma id_word id :
  0 <= id < MAX_CLIENT_CAPACITY ->
  (Z.to_nat id / 64)%nat = Z.to_nat (id / 64) /\ Z.of_nat (Z.to_nat id mod 64) = id mod 64 /\
  (Z.to_nat (id / 64) < DEFAULT_BITMAP_WORDS)%nat /\ 0 <= id mod 64 < 64.
Proof.
  intros H. change MAX_CLIENT_CAPACITY with 1024 in H. change DEFAULT_BITMAP_WORDS with 16%nat.
  repeat split; [by rewrite Z2Nat.inj_div by lia|by rewrite Nat2Z.inj_mod, Z2Nat.id by lia|zdm..].
Qed.

Lemma same_word i j :
  0 <= i -> 0 <= j -> ((Z.to_nat (j / 64) =? Z.to_nat (i / 64))%nat && (j mod 64 =? i mod 64)) = (j =? i).
Proof.
  intros. apply eq_true_iff_eq. rewrite andb_true_iff, Nat.eqb_eq, !Z.eqb_eq. split; [zdm|by intros ->].
Qed.

Lemma insert_spec b i :
  bitmap_ok b -> 0 <= i < MAX_CLIENT_CAPACITY ->
  bitmap_ok (bitmap_insert b i).1 /\ (bitmap_insert b i).2 = negb (bitmap_contains b i) /\
  forall j, 0 <= j < MAX_CLIENT_CAPACITY ->
    bitmap_contains (bitmap_insert b i).1 j = (j =? i) || bitmap_contains b j.
Proof.
  intros Hb Hi. destruct (id_word i Hi) as (E1 & E2 & Hw & Hbit). unfold bitmap_insert.
  rewrite E1, E2, (proj2 (Nat.ltb_lt _ _)) by done. cbn [fst snd]. repeat apply conj.
  - apply bitmap_ok_update; eauto with mint.
  - apply bitmap_ok_update; eauto with mint.
  - rewrite bitmap_contains_testbit, land_pow2 by lia. by rewrite !negb_involutive.
  - intros j Hj. rewrite !bitmap_contains_testbit by done.
    destruct (id_word j Hj) as (_ & _ & _ & Hjb).
    rewrite word_at_update by (rewrite (proj1 Hb); done). rewrite <- same_word by lia.
    destruct (Nat.eqb_spec (Z.to_nat (j / 64)) (Z.to_nat (i / 64))) as [->|]; [|done].
    rewrite Z.lor_spec, testbit_mask by lia. apply orb_comm.
Qed.

Lemma remove_spec b i :
  bitmap_ok b -> 0 <= i < MAX_CLIENT_CAPACITY ->
  bitmap_ok (bitmap_remove b i).1 /\ (bitmap_remove b i).2 = bitmap_contains b i /\
  forall j, 0 <= j < MAX_CLIENT_CAPACITY ->
    bitmap_contains (bitmap_remove b i).1 j = negb (j =? i) && bitmap_contains b j.
Proof.
  intros Hb Hi. destruct (id_word i Hi) as (E1 & E2 & Hw & Hbit). unfold bitmap_remove.
  rewrite E1, E2, (proj2 (Nat.ltb_lt _ _)) by done. cbn [fst snd].
  assert (in_range U64 (not64 (Z.shiftl 1 (i mod 64)))) as Hn by apply wrap_range.
  repeat apply conj.
  - apply bitmap_ok_update; [done|]. apply land_range; [eauto with mint|mint].
  - apply bitmap_ok_update; [done|]. apply land_range; [eauto with mint|mint].
  - rewrite bitmap_contains_testbit, land_pow2 by lia. by rewrite !negb_involutive.
  - intros j Hj. rewrite !bitmap_contains_testbit by done.
    destruct (id_word j Hj) as (_ & _ & _ & Hjb).
    rewrite word_at_update by (rewrite (proj1 Hb); done). rewrite <- same_word by lia.
    destruct (Nat.eqb_spec (Z.to_nat (j / 64)) (Z.to_nat (i / 64))) as [->|]; [|done].
    rewrite Z.land_spec, testbit_not64, testbit_mask by lia. apply andb_comm.
Qed.

Lemma out_of_capacity b i :
  MAX_CLIENT_CAPACITY <= i ->
  bitmap_insert b i = (b, false) /\ bitmap_remove b i = (b, false) /\ bitmap_contains b i = false.
Proof.
  intros H. change MAX_CLIENT_CAPACITY with 1024 in H.
  assert ((Z.to_nat i / 64 <? DEFAULT_BITMAP_WORDS)%nat = false) as E.
  { apply Nat.ltb_ge. change DEFAULT_BITMAP_WORDS with 16%nat.
    apply Nat.div_le_lower_bound; lia. }
  unfold bitmap_insert, bitmap_remove, bitmap_contains. by rewrite E.
Qed.

Lemma word_at_map f i :
  (i < DEFAULT_BITMAP_WORDS)%nat -> word_at (mkBitmap (map f (seq 0 DEFAULT_BITMAP_WORDS))) i = f i.
Proof.
  intros Hi. unfold word_at. cbn [words]. rewrite (nth_indep _ _ (f 0%nat)).
  - by rewrite map_nth, seq_nth by done.
  - by rewrite length_map, length_seq.
Qed.

Lemma bitmap_ok_map f :
  (forall i, in_range U64 (f i)) -> bitmap_ok (mkBitmap (map f (seq 0 DEFAULT_BITMAP_WORDS))).
Proof.
  intros H. split; cbn [words]; [done|]. apply List.Forall_map, List.Forall_forall. auto.
Qed.

Lemma bitmap_ok_new : bitmap_ok bitmap_new.
Proof. split; [done|]. by apply Forall_replicate. Qed.

Lemma seqZ_sorted m n : StronglySorted Z.lt (seqZ m n).
Proof.
  destruct (Z.le_gt_cases 0 n) as [Hn|Hn]; [|by rewrite seqZ_nil by lia; constructor].
  revert m. pattern n. apply natlike_ind; [constructor| |done].
  clear. intros n Hn IH m. rewrite seqZ_cons by lia. rewrite Z.pred_succ.
  constructor; [apply IH|]. apply List.Forall_forall. intros x Hx%in_seqZ. lia.
Qed.

Lemma filter_sorted {A} (R : A -> A -> Prop) p l :
  StronglySorted R l -> StronglySorted R (List.filter p l).
Proof.
  induction 1 as [|x l _ IH Hx]; cbn [List.filter]; [constructor|].
  destruct (p x); [|done]. constructor; [done|].
  apply List.Forall_forall. intros y [Hy _]%List.filter_In. by eapply List.Forall_forall in Hx.
Qed.

Module Bitmap.

(** C9: Iterating over a bitmap, with [for_each] or with the iterator, visits exactly the
    client ids it contains, each once and in ascending order; [count] is their number. *)
Theorem iteration_is_client_ids (b : ClientBitmap) (Hb : bitmap_ok b) :
  (forall {S} (f : S -> Z -> S) s, bitmap_for_each f b s = fold_left f (client_ids b) s) /\
  iter_collect (S (length (client_ids b))) (bitmap_iter b) = client_ids b /\
  bitmap_count b = Z.of_nat (length (client_ids b)) /\
  StronglySorted Z.lt (client_ids b).
Proof.
  split; [intros; by apply for_each_ids|]. split.
  - assert (iter_rem (bitmap_iter b) = client_ids b) as E.
    { rewrite client_ids_words, ids_from_step by (change DEFAULT_BITMAP_WORDS with 16%nat; lia). done. }
    rewrite iter_collect_spec; [done| |rewrite E; lia].
    repeat split; [apply Hb..|by apply word_at_ok|by apply word_at_ok|]. 
    cbn. change DEFAULT_BITMAP_WORDS with 16%nat. lia.
  - split; [by apply bitmap_count_ids|]. apply filter_sorted, seqZ_sorted.
Qed.

Lemma iteration_is_client_ids_witness :
  let b := (bitmap_insert (bitmap_insert bitmap_new 700).1 3).1 in
  bitmap_for_each (fun l id => l ++ [id]) b [] = [3; 700] /\ bitmap_count b = 2.
Proof.
  assert (bitmap_ok (bitmap_insert (bitmap_insert bitmap_new 700).1 3).1) as H.
  { apply insert_spec; [|by_eval]. apply insert_spec; [apply bitmap_ok_new|by_eval]. }
  destruct (iteration_is_client_ids _ H) as (H1 & _ & H2 & _).
  split; [rewrite H1|rewrite H2]; vm_compute; reflexivity.
Defined.

(** For ids below the capacity of 1024, the operations are those of a set: [insert] adds
    exactly one id and reports whether it was new, [remove] deletes exactly one and reports
    whether it was there, [intersect] and [union] are pointwise; an id at or above the capacity is
    refused by [insert] and [remove] and is never contained. *)
Theorem set_operations (a b : ClientBitmap) (i : Z) (Ha : bitmap_ok a) (Hb : bitmap_ok b)
    (Hi : in_range U32 i) :
  if i <? MAX_CLIENT_CAPACITY
  then
    (bitmap_insert b i).2 = negb (bitmap_contains b i) /\
    (bitmap_remove b i).2 = bitmap_contains b i /\
    bitmap_ok (bitmap_insert b i).1 /\ bitmap_ok (bitmap_remove b i).1 /\
    bitmap_contains (bitmap_intersect a b) i = bitmap_contains a i && bitmap_contains b i /\
    bitmap_contains (bitmap_union a b) i = bitmap_contains a i || bitmap_contains b i /\
    (forall j, 0 <= j < MAX_CLIENT_CAPACITY ->
      bitmap_contains (bitmap_insert b i).1 j = (j =? i) || bitmap_contains b j /\
      bitmap_contains (bitmap_remove b i).1 j = negb (j =? i) && bitmap_contains b j)
  else bitmap_insert b i = (b, false) /\ bitmap_remove b i = (b, false) /\
    bitmap_contains b i = false.
Proof.
  destruct (Z.ltb_spec i MAX_CLIENT_CAPACITY) as [H|H]; [|by apply out_of_capacity].
  assert (0 <= i < MAX_CLIENT_CAPACITY) as Hi' by (split; [mint|done]).
  destruct (insert_spec b i Hb Hi') as (? & ? & Hc1).
  destruct (remove_spec b i Hb Hi') as (? & ? & Hc2).
  destruct (id_word i Hi') as (_ & _ & Hw & Hbit).
  do 4 (split; [done|]). split; [|split; [|auto]].
  - rewrite !bitmap_contains_testbit by done. unfold bitmap_intersect.
    by rewrite word_at_map, Z.land_spec by done.
  - rewrite !bitmap_contains_testbit by done. unfold bitmap_union.
    by rewrite word_at_map, Z.lor_spec by done.
Qed.

Lemma set_operations_witness :
  (bitmap_insert bitmap_new 5).2 = true /\ bitmap_insert bitmap_new 2000 = (bitmap_new, false).
Proof.
  split.
  - destruct (set_operations bitmap_new bitmap_new 5) as (H & _);
      [apply bitmap_ok_new..|by_eval|]. rewrite H. reflexivity.
  - apply (set_operations bitmap_new bitmap_new 2000); [apply bitmap_ok_new..|by_eval].
Defined.

End Bitmap.
