(* ===== verification/Topic.v ===== *)
(** * distribution/src/lib.rs: topic keys, filter predicates and the token bucket

    [TopicKey] packs (venue, market, stream type, flags) in 64 bits.  The token bucket packs
    its last refill time and its balance in one atomic word: [bucket_attempt] is what one turn
    of the compare-and-swap loop computes from the word it loaded, [try_consume] the loop
    without contention, and the step relation of [TokenBucket] the loop run by any number of
    threads. *)

From Stdlib Require Import SpecFloat.
From S2P Require Import Prelude.

(** ** Topic keys *)

Definition TopicKey_new (venue_id market_id stream_type flags : Z) : Z :=
  Z.lor (Z.lor (Z.lor
    (venue_id <<[U64] 56)
    (Z.land market_id 16777215 <<[U64] 32))
    (stream_type <<[U64] 24))
    (Z.land flags 16777215).

Definition topic_venue_id (key : Z) : Z := wrap U8 (Z.shiftr key 56).
Definition topic_market_id (key : Z) : Z := wrap U32 (Z.land (Z.shiftr key 32) 16777215).
Definition topic_stream_type (key : Z) : Z := wrap U8 (Z.land (Z.shiftr key 24) 255).
Definition topic_flags (key : Z) : Z := wrap U32 (Z.land key 16777215).

(** ** Filter predicates *)

(** [f64]: IEEE binary64. *)
Abbreviation f64 := spec_float.

Record ClientFilterPredicate := mkFilter {
  min_notional_usd : f64;
  max_spread_bps : Z;
  min_gas_priority_gwei : Z;
  target_prefix : Z;
}.

Definition Filter_default : ClientFilterPredicate := mkFilter (S754_zero false) 0 0 0.

Definition matches_trade (f : ClientFilterPredicate) (notional_usd : f64) : bool :=
  SFleb (min_notional_usd f) notional_usd.

Definition matches_mempool (f : ClientFilterPredicate) (priority_fee_gwei : Z) : bool :=
  min_gas_priority_gwei f <=? priority_fee_gwei.

(** ** The token bucket *)

Record LockFreeTokenBucket := mkBucket {
  tb_state : Z;
  refill_rate_per_sec : Z;
  burst_capacity : Z;
}.

Definition bucket_new (rate_per_sec capacity initial_time_ms : Z) : LockFreeTokenBucket :=
  mkBucket (Z.lor (initial_time_ms <<[U64] 24) (Z.land capacity 16777215)) rate_per_sec capacity.

(** One turn of the loop on the loaded word [curr]: [None] is [return false], [Some next] the
    word to swap in. *)
Definition bucket_attempt (rate capacity curr tokens now_ms : Z) : option Z :=
  let last_refill_ms := Z.shiftr curr 24 in
  let available_tokens := Z.land curr 16777215 in
  let '(available_tokens, next_ts) :=
    if last_refill_ms <? now_ms then
      let elapsed_ms := now_ms -[U64] last_refill_ms in
      let refilled := wrap U32 (elapsed_ms *[U64] rate / 1000) in
      if 0 <? refilled then
        let available_tokens := Z.min (available_tokens +[U32] refilled) capacity in
        if capacity <=? available_tokens then (available_tokens, now_ms)
        else
          let refilled_ms := refilled *[U64] 1000 / rate in
          (available_tokens, Z.min (last_refill_ms +[U64] refilled_ms) now_ms)
      else (available_tokens, last_refill_ms)
    else (available_tokens, last_refill_ms) in
  if available_tokens <? tokens then None
  else
    let new_tokens := available_tokens -[U32] tokens in
    Some (Z.lor (next_ts <<[U64] 24) (Z.land new_tokens 16777215)).

(** The call without contention: the first swap succeeds. *)
Definition try_consume (b : LockFreeTokenBucket) (tokens now_ms : Z) : LockFreeTokenBucket * bool :=
  match bucket_attempt (refill_rate_per_sec b) (burst_capacity b) (tb_state b) tokens now_ms with
  | None => (b, false)
  | Some next => (mkBucket next (refill_rate_per_sec b) (burst_capacity b), true)
  end.

(** ** The packed word *)

Definition tb_last (w : Z) : Z := Z.shiftr w 24.
Definition tb_avail (w : Z) : Z := Z.land w 16777215.

Lemma tb_avail_mod w : tb_avail w = w mod 2 ^ 24.
Proof. by apply land_mask. Qed.

Lemma tb_last_div w : tb_last w = w / 2 ^ 24.
Proof. unfold tb_last. by rewrite Z.shiftr_div_pow2. Qed.

(** A time below 2^40 ms and a balance are read back, the balance modulo 2^24. *)
Lemma tb_pack ts n :
  0 <= ts < 2 ^ 40 ->
  let w := Z.lor (ts <<[U64] 24) (Z.land n 16777215) in
  0 <= w < 2 ^ 64 /\ tb_last w = ts /\ tb_avail w = n mod 2 ^ 24.
Proof.
  intros Hts w. unfold w. rewrite (land_mask n _ 24) by done.
  rewrite wrap_id by (rewrite Z.shiftl_mul_pow2 by lia; mint).
  rewrite lor_shift_add by zdm. rewrite tb_last_div, tb_avail_mod. zdm.
Qed.

Lemma mul_u64 a b : 0 <= a < 2 ^ 40 -> 0 <= b <= 1000 -> in_range U64 (a * b).
Proof.
  intros. assert (0 <= a * b <= 2 ^ 40 * 1000); [|mint].
  split; [apply Z.mul_nonneg_nonneg | apply Z.mul_le_mono_nonneg]; lia.
Qed.

(** [r] tokens credited for [d] milliseconds. *)
Lemma tb_credit q a r a' d :
  0 <= q -> a' <= a + r -> q * r <= d -> q * a' <= q * a + d.
Proof.
  intros Hq Ha Hd. assert (q * a' <= q * (a + r)) by (apply Z.mul_le_mono_nonneg_l; lia). lia.
Qed.

(** What one successful turn does to the word, for a rate of at most 1000 tokens per second:
    the tokens taken and left never exceed those there before plus one per [q = 1000 / rate]
    milliseconds by which the recorded time advances. *)
Lemma bucket_attempt_bound rate cap w tokens now next q :
  1 <= rate <= 1000 -> q = 1000 / rate -> 0 <= w < 2 ^ 64 -> 0 <= now < 2 ^ 40 ->
  0 <= tokens < 2 ^ 32 -> 0 <= cap < 2 ^ 32 ->
  bucket_attempt rate cap w tokens now = Some next ->
  0 <= next < 2 ^ 64 /\ tb_last w <= tb_last next <= Z.max (tb_last w) now /\
  q * (tokens + tb_avail next) <= q * tb_avail w + (tb_last next - tb_last w).
Proof.
  intros Hr Hq Hw Hn Ht Hc. unfold bucket_attempt.
  change (Z.shiftr w 24) with (tb_last w). change (Z.land w 16777215) with (tb_avail w).
  assert (0 <= tb_last w < 2 ^ 40) as Hl by (rewrite tb_last_div; zdm).
  assert (0 <= tb_avail w < 2 ^ 24) as Ha by (rewrite tb_avail_mod; zdm).
  assert (0 < q /\ q * rate <= 1000) as [Hq0 Hqr].
  { subst q. split; [apply Z.div_str_pos; lia|]. rewrite Z.mul_comm. apply Z.mul_div_le. lia. }
  match goal with |- (let '(_, _) := ?e in _) = _ -> _ =>
    assert (exists a ts, e = (a, ts) /\ 0 <= a < 2 ^ 32 /\
      tb_last w <= ts <= Z.max (tb_last w) now /\
      q * a <= q * tb_avail w + (ts - tb_last w)) as (a & ts & -> & Ha' & Hts & Hb) end.
  { destruct (Z.ltb_spec (tb_last w) now) as [Hlt|]; [|eexists _, _; repeat split; lia].
    rewrite (wrap_id U64 (now - _)) by mint. rewrite (wrap_id U64 (_ * rate)) by (apply mul_u64; lia).
    cbv zeta. remember (now - tb_last w) as e eqn:He. remember (wrap U32 (e * rate / 1000)) as r eqn:Er.
    assert (0 <= r <= e * rate / 1000 /\ r < 2 ^ 32) as Hrr.
    { assert (0 <= e * rate / 1000) by (apply Z.div_pos; [apply Z.mul_nonneg_nonneg|]; lia).
      rewrite Er, wrap_unsigned by done. change (modulus U32) with (2 ^ 32).
      split; [split; [apply Z.mod_pos_bound; lia|apply Z.mod_le; lia]|apply Z.mod_pos_bound; lia]. }
    assert (r * 1000 <= e * rate) by (pose proof (Z.mul_div_le (e * rate) 1000); lia).
    destruct (Z.ltb_spec 0 r); [|eexists _, _; repeat split; lia].
    assert (0 <= wrap U32 (tb_avail w + r) <= tb_avail w + r /\ wrap U32 (tb_avail w + r) < 2 ^ 32) as Hs.
    { rewrite wrap_unsigned by done. change (modulus U32) with (2 ^ 32).
      split; [split; [apply Z.mod_pos_bound; lia|apply Z.mod_le; lia]|apply Z.mod_pos_bound; lia]. }
    destruct (cap <=? _); eexists _, _; (split; [reflexivity|]).
    - repeat split; try lia. apply (tb_credit _ _ r); try lia.
      apply (Z.mul_le_mono_pos_r _ _ 1000); [lia|].
      transitivity (q * (e * rate)); [rewrite <- Z.mul_assoc; apply Z.mul_le_mono_nonneg_l; lia|].
      transitivity (e * (q * rate)); [lia|]. rewrite <- He. apply Z.mul_le_mono_nonneg_l; lia.
    - rewrite (wrap_id U64 (r * 1000)) by mint.
      assert (q * r <= r * 1000 / rate).
      { apply Z.div_le_lower_bound; [lia|]. rewrite Z.mul_comm, <- Z.mul_assoc, (Z.mul_comm r).
        transitivity (q * rate * r); [lia|]. rewrite (Z.mul_comm r). apply Z.mul_le_mono_nonneg_r; lia. }
      assert (r * 1000 / rate <= e) by (apply Z.div_le_upper_bound; lia).
      rewrite (wrap_id U64) by mint. rewrite (Z.min_l (tb_last w + _)) by lia.
      assert (0 <= r * 1000 / rate) by (apply Z.div_pos; lia).
      repeat split; try lia. apply (tb_credit _ _ r); lia. }
  destruct (Z.ltb_spec a tokens); [done|]. intros [= <-].
  rewrite (wrap_id U32) by mint.
  destruct (tb_pack ts (a - tokens)) as (H1 & H2 & H3); [lia|]. cbv zeta in *.
  rewrite H2, H3. split; [done|]. split; [done|].
  assert ((a - tokens) mod 2 ^ 24 <= a - tokens) by (apply Z.mod_le; lia).
  etransitivity; [|exact Hb]. apply Z.mul_le_mono_nonneg_l; lia.
Qed.

(** ** Sequences of calls and the concurrent loop *)

(** The calls [(tokens, now_ms)] in order; the word after them and the tokens granted. *)
Fixpoint run_calls (rate cap w : Z) (calls : list (Z * Z)) : Z * Z :=
  match calls with
  | [] => (w, 0)
  | (tokens, now) :: calls =>
      match bucket_attempt rate cap w tokens now with
      | None => run_calls rate cap w calls
      | Some next =>
          let (w', granted) := run_calls rate cap next calls in (w', tokens + granted)
      end
  end.

Definition call_ok (tmax : Z) (c : Z * Z) : Prop :=
  0 <= c.1 < 2 ^ 32 /\ 0 <= c.2 <= tmax.

Lemma run_calls_bound rate cap q tmax w calls :
  1 <= rate <= 1000 -> q = 1000 / rate -> 0 <= cap < 2 ^ 32 -> tmax < 2 ^ 40 ->
  0 <= w < 2 ^ 64 -> Forall (call_ok tmax) calls ->
  let (w', granted) := run_calls rate cap w calls in
  0 <= w' < 2 ^ 64 /\ tb_last w' <= Z.max (tb_last w) tmax /\
  q * (granted + tb_avail w') <= q * tb_avail w + (tb_last w' - tb_last w).
Proof.
  intros Hr Hq Hc Ht Hw H. revert w Hw. induction H as [|[tokens now] calls [H1 H2] _ IH]; intros w Hw.
  - cbn [run_calls]. lia.
  - cbn [run_calls fst snd] in *. destruct (bucket_attempt _ _ _ _ _) as [next|] eqn:E; [|by apply IH].
    destruct (bucket_attempt_bound rate cap w tokens now next q) as (B1 & B2 & B3); try done; [lia|].
    specialize (IH next B1). destruct (run_calls _ _ next calls) as [w' granted].
    destruct IH as (? & ? & ?). split; [done|]. split; lia.
Qed.

(** The loop run by many threads.  A thread is idle, or holds the word it loaded last. *)
Inductive tb_pc := TbIdle | TbLoaded (tokens now_ms curr : Z).

Record tb_conf := mkTbConf { tb_word : Z; tb_threads : list tb_pc; tb_granted : Z }.

(** [req] restricts the requests [(tokens, now_ms)] the threads make. *)
Inductive tb_step (rate cap : Z) (req : Z * Z -> Prop) : tb_conf -> tb_conf -> Prop :=
| TbLoad c i tokens now :
    tb_threads c !! i = Some TbIdle -> req (tokens, now) ->
    tb_step rate cap req c (mkTbConf (tb_word c)
      (<[i := TbLoaded tokens now (tb_word c)]> (tb_threads c)) (tb_granted c))
| TbReject c i tokens now curr :
    tb_threads c !! i = Some (TbLoaded tokens now curr) ->
    bucket_attempt rate cap curr tokens now = None ->
    tb_step rate cap req c (mkTbConf (tb_word c) (<[i := TbIdle]> (tb_threads c)) (tb_granted c))
| TbSwap c i tokens now curr next :
    tb_threads c !! i = Some (TbLoaded tokens now curr) ->
    bucket_attempt rate cap curr tokens now = Some next -> curr = tb_word c ->
    tb_step rate cap req c (mkTbConf next (<[i := TbIdle]> (tb_threads c)) (tb_granted c + tokens))
| TbRetry c i tokens now curr next :
    (* compare_exchange_weak fails, possibly spuriously, and returns the word it saw *)
    tb_threads c !! i = Some (TbLoaded tokens now curr) ->
    bucket_attempt rate cap curr tokens now = Some next ->
    tb_step rate cap req c (mkTbConf (tb_word c)
      (<[i := TbLoaded tokens now (tb_word c)]> (tb_threads c)) (tb_granted c)).

Lemma run_calls_cons rate cap w tokens now next l :
  bucket_attempt rate cap w tokens now = Some next ->
  run_calls rate cap w ((tokens, now) :: l) =
  ((run_calls rate cap next l).1, tokens + (run_calls rate cap next l).2).
Proof. intros E. cbn [run_calls]. rewrite E. by destruct (run_calls _ _ next l). Qed.

(** Every thread that has loaded holds an admissible request. *)
Definition tb_pending (req : Z * Z -> Prop) (c : tb_conf) : Prop :=
  forall i tokens now curr, tb_threads c !! i = Some (TbLoaded tokens now curr) -> req (tokens, now).

Lemma tb_pending_insert req c w g i pc :
  tb_pending req c -> (forall tokens now curr, pc = TbLoaded tokens now curr -> req (tokens, now)) ->
  tb_pending req (mkTbConf w (<[i := pc]> (tb_threads c)) g).
Proof.
  intros H Hpc j tokens now curr. cbn [tb_threads].
  intros [(_ & -> & _)|[_ E]]%list_lookup_insert_Some; eauto.
Qed.

Lemma tb_step_pending rate cap req c1 c2 :
  tb_step rate cap req c1 c2 -> tb_pending req c1 -> tb_pending req c2.
Proof.
  intros H Hp. destruct H; apply tb_pending_insert; try done; intros ??? [= <- <- <-]; eauto.
Qed.

(** A step either leaves the word alone or performs one call atomically. *)
Lemma tb_step_cases rate cap req c1 c2 :
  tb_step rate cap req c1 c2 -> tb_pending req c1 ->
  (tb_word c2 = tb_word c1 /\ tb_granted c2 = tb_granted c1) \/
  exists tokens now, req (tokens, now) /\ tb_granted c2 = tb_granted c1 + tokens /\
    bucket_attempt rate cap (tb_word c1) tokens now = Some (tb_word c2).
Proof.
  intros H Hp. destruct H as [| |c i tokens now curr next Hi Ha ->|]; [by left..| |by left].
  right. exists tokens, now. eauto.
Qed.

(** The compare-and-swap loop is linearizable. *)
Lemma tb_linearizable rate cap req c1 c2 :
  rtc (tb_step rate cap req) c1 c2 -> tb_pending req c1 ->
  exists calls, Forall req calls /\
    run_calls rate cap (tb_word c1) calls = (tb_word c2, tb_granted c2 - tb_granted c1).
Proof.
  induction 1 as [c|c1 c2 c3 Hs _ IH]; intros Hp.
  - exists []. split; [constructor|]. cbn [run_calls]. f_equal. lia.
  - destruct IH as (l & Hl & E); [by eapply tb_step_pending|].
    destruct (tb_step_cases _ _ _ _ _ Hs Hp) as [[Hw Hg]|(tokens & now & Hr & Hg & Ha)].
    + exists l. rewrite <- Hw, <- Hg. done.
    + exists ((tokens, now) :: l). split; [by constructor|].
      rewrite (run_calls_cons _ _ _ _ _ _ _ Ha), E. cbn [fst snd]. f_equal. lia.
Qed.

(** A fixed request repeated [n] times. *)
Definition repeat_call (n : nat) (tokens now : Z) : list (Z * Z) := replicate n (tokens, now).

(** One token per [1000 / rate] whole milliseconds, as a rate per second. *)
Lemma rate_of_interval rate g b d : 1 <= rate <= 1000 -> 0 <= d ->
  (1000 / rate) * g <= (1000 / rate) * b + d ->
  (1000 / rate) * g <= (1000 / rate) * b + d /\
  (1000 mod rate = 0 -> 1000 * g <= 1000 * b + rate * d) /\ 1000 * g <= 1000 * b + 2 * (rate * d).
Proof.
  intros Hr Hd H. split; [done|]. pose proof (Z.div_mod 1000 rate ltac:(lia)) as E.
  pose proof (Z.mod_pos_bound 1000 rate ltac:(lia)) as Hm.
  assert (0 < 1000 / rate) as Hq by (apply Z.div_str_pos; lia).
  assert (0 <= rate * d) by (apply Z.mul_nonneg_nonneg; lia).
  assert (rate * (1000 / rate * (g - b)) <= rate * d) as Hg by (apply Z.mul_le_mono_nonneg_l; lia).
  split; [intros Hdiv; nia|]. destruct (Z.le_gt_cases g b); [lia|].
  assert (1000 mod rate * (g - b) <= rate * (1000 / rate) * (g - b)) by (apply Z.mul_le_mono_nonneg_r; nia).
  nia.
Qed.

(** An empty bucket polled every [1000 / rate] milliseconds, once the first refill is due, gives a token each time. *)
Lemma empty_bucket_grants rate cap ts : 1 <= rate <= 1000 -> 2 <= cap -> 0 <= ts -> ts + 2000 < 2 ^ 40 ->
  bucket_attempt rate cap (Z.shiftl ts 24) 1 (ts + (999 + rate) / rate) = Some (Z.shiftl (ts + 1000 / rate) 24).
Proof.
  intros Hr Hc Ht Hm. unfold bucket_attempt. set (e := (999 + rate) / rate).
  assert (Z.shiftr (Z.shiftl ts 24) 24 = ts) as -> by (rewrite Z.shiftr_shiftl_l, Z.sub_diag by lia; apply Z.shiftl_0_r).
  assert (Z.land (Z.shiftl ts 24) 16777215 = 0) as ->.
  { rewrite (land_mask _ 16777215 24), Z.shiftl_mul_pow2 by done. by apply Z.mod_mul. }
  assert (1000 <= e * rate < 1000 + rate) as He.
  { unfold e. pose proof (Z.div_mod (999 + rate) rate ltac:(lia)). pose proof (Z.mod_pos_bound (999 + rate) rate ltac:(lia)). lia. }
  assert (1 <= e <= 1000) by nia.
  rewrite (proj2 (Z.ltb_lt ts (ts + e))) by lia. replace (ts + e - ts) with e by ring.
  rewrite (wrap_id U64 e) by mint. rewrite (wrap_id U64 (e * rate)) by mint.
  assert (e * rate / 1000 = 1) as -> by (symmetry; apply (Z.div_unique _ _ _ (e * rate - 1000)); lia).
  rewrite (wrap_id U32 1) by by_eval. change (0 <? 1) with true. cbv iota. rewrite (wrap_id U32 (0 + 1)), (wrap_id U64 (1 * 1000)) by by_eval.
  rewrite (Z.min_l (0 + 1)) by lia. rewrite (proj2 (Z.leb_gt cap (0 + 1))) by lia.
  assert (0 < 1000 / rate <= e) as Hq.
  { split; [apply Z.div_str_pos; lia|]. apply Z.div_le_upper_bound; lia. }
  change (1 * 1000) with 1000. rewrite (wrap_id U64 (ts + _)) by mint. rewrite Z.min_l by lia. change (0 + 1 <? 1) with false. cbv iota.
  f_equal. rewrite (wrap_id U32 (0 + 1 - 1)) by by_eval. change (Z.land (0 + 1 - 1) 16777215) with 0. rewrite Z.lor_0_r.
  apply wrap_id. rewrite Z.shiftl_mul_pow2 by lia. mint.
Qed.

Module Topic.

(** A topic key gives back the venue and the stream type it was built from, and the market
    and the flags modulo 2^24, so that distinct topics of small markets have distinct keys. *)
Theorem topic_key_roundtrip (v m s f : Z)
    (Hv : in_range U8 v) (Hm : in_range U32 m) (Hs : in_range U8 s) (Hf : in_range U32 f) :
  let key := TopicKey_new v m s f in
  in_range U64 key /\ topic_venue_id key = v /\ topic_market_id key = m mod 2 ^ 24 /\
  topic_stream_type key = s /\ topic_flags key = f mod 2 ^ 24.
Proof.
  cbv zeta. unfold TopicKey_new, topic_venue_id, topic_market_id, topic_stream_type, topic_flags.
  rewrite !(land_mask _ 16777215 24) by done. rewrite !(land_mask _ 255 8) by done.
  assert (forall a n, 0 <= n -> in_range U64 (a * 2 ^ n) -> a <<[U64] n = Z.shiftl a n) as Hsh.
  { intros a n Hn Hr. rewrite Z.shiftl_mul_pow2 by done. by apply wrap_id. }
  rewrite !Hsh by (mint_unfold; zdm).
  set (m' := m mod 2 ^ 24). set (f' := f mod 2 ^ 24).
  assert (0 <= m' < 2 ^ 24 /\ 0 <= f' < 2 ^ 24) as [Hm' Hf'] by (split; apply Z.mod_pos_bound; lia).
  assert (Z.lor (Z.lor (Z.lor (Z.shiftl v 56) (Z.shiftl m' 32)) (Z.shiftl s 24)) f'
    = v * 2 ^ 56 + m' * 2 ^ 32 + s * 2 ^ 24 + f') as ->.
  { replace (Z.shiftl v 56) with (Z.shiftl (Z.shiftl v 24) 32) by (by rewrite Z.shiftl_shiftl).
    rewrite <- Z.shiftl_lor, (lor_shift_add v m' 24) by lia.
    replace (Z.shiftl (v * 2 ^ 24 + m') 32) with (Z.shiftl (Z.shiftl (v * 2 ^ 24 + m') 8) 24)
      by (by rewrite Z.shiftl_shiftl).
    rewrite <- Z.shiftl_lor, (lor_shift_add _ s 8) by mint.
    rewrite (lor_shift_add _ f' 24) by lia. ring. }
  rewrite !Z.shiftr_div_pow2 by lia. mint_unfold. repeat split; zdm.
Qed.

Lemma topic_key_roundtrip_witness :
  topic_market_id (TopicKey_new 101 77 3 9) = 77.
Proof. apply (topic_key_roundtrip 101 77 3 9); by_eval. Defined.

(** C7: for a refill rate of 1 to 1000 tokens per second, any number of threads calling
    [try_consume] concurrently with times below 2^40 ms (and at most [tmax]) are together granted
    at most the initial balance plus one token per [1000 / rate] whole milliseconds
    elapsed since the bucket was created.  For a rate that divides 1000 this is the configured rate; for any other
    it can be more ([bucket_rate_attained]), but never twice the configured rate. *)
Theorem bucket_rate_bound (rate cap t0 tmax : Z) (threads : list tb_pc) (c : tb_conf)
    (Hr : 1 <= rate <= 1000) (Hc : in_range U32 cap) (Ht0 : 0 <= t0 <= tmax) (Ht : tmax < 2 ^ 40)
    (Hidle : Forall (fun pc => pc = TbIdle) threads)
    (Hreach : rtc (tb_step rate cap (call_ok tmax))
      (mkTbConf (tb_state (bucket_new rate cap t0)) threads 0) c) :
  (1000 / rate) * tb_granted c <= (1000 / rate) * (cap mod 2 ^ 24) + (tmax - t0) /\
  (1000 mod rate = 0 -> 1000 * tb_granted c <= 1000 * (cap mod 2 ^ 24) + rate * (tmax - t0)) /\
  1000 * tb_granted c <= 1000 * (cap mod 2 ^ 24) + 2 * (rate * (tmax - t0)).
Proof.
  apply rate_of_interval; [done|lia|]. apply tb_linearizable in Hreach as (calls & Hcalls & E).
  2: { intros i tokens now curr Hi. cbn in Hi.
       by apply (Forall_lookup_1 _ _ _ _ Hidle) in Hi. }
  cbn [tb_word tb_granted] in E. destruct (tb_pack t0 cap) as (Hw & Hl & Ha); [lia|]. cbv zeta in *.
  pose proof (run_calls_bound rate cap (1000 / rate) tmax (tb_state (bucket_new rate cap t0)) calls) as H.
  rewrite E in H. cbn [bucket_new tb_state] in *. rewrite Hl, Ha in H.
  destruct H as (H1 & H2 & H3); [done|done|mint|lia|done|done|].
  assert (0 <= tb_avail (tb_word c)) by (rewrite tb_avail_mod; zdm).
  assert (0 <= (1000 / rate) * tb_avail (tb_word c)) by (apply Z.mul_nonneg_nonneg; [apply Z.div_pos|]; lia).
  lia.
Qed.

Lemma bucket_rate_bound_witness :
  1000 * 1 <= 1000 * (10 mod 2 ^ 24) + 100 * (2000 - 1000).
Proof.
  apply (bucket_rate_bound 100 10 1000 2000 [TbIdle]
    (mkTbConf (Z.lor (1000 <<[U64] 24) 9) [TbIdle] 1)); [lia|by_eval|lia|lia|by repeat constructor|].
  eapply rtc_l; [apply (TbLoad _ _ _ _ 0 1 1000); [reflexivity|by_eval]|].
  eapply rtc_l; [eapply (TbSwap _ _ _ _ 0 1 1000); [reflexivity|vm_compute; reflexivity|reflexivity]|].
  match goal with |- rtc _ ?a ?b => replace a with b by (vm_compute; reflexivity) end.
  apply rtc_refl.
Defined.

(** The bound is attained: an empty bucket polled every [1000 / rate] whole milliseconds, from the first refill on, is granted
    every token.  At 600 tokens per second this is one token per millisecond. *)
Theorem bucket_rate_attained (rate cap t0 : Z) (n : nat)
    (Hr : 1 <= rate <= 1000) (Hc : 2 <= cap) (Ht : 0 <= t0) (Hn : t0 + Z.of_nat n * 1000 + 2000 < 2 ^ 40) :
  (run_calls rate cap (Z.shiftl t0 24)
    (map (fun i => (1, t0 + (999 + rate) / rate + Z.of_nat i * (1000 / rate))) (seq 0 n))).2 = Z.of_nat n.
Proof.
  revert t0 Ht Hn. induction n as [|n IH]; intros t0 Ht Hn; [done|].
  assert (0 <= 1000 / rate <= 1000) as Hq by (split; [apply Z.div_pos|apply Z.div_le_upper_bound]; nia).
  cbn [seq map]. rewrite (run_calls_cons _ _ _ _ _ (Z.shiftl (t0 + 1000 / rate) 24)).
  2: { rewrite Z.add_0_r. apply empty_bucket_grants; lia. }
  cbn [snd]. rewrite <- seq_shift, map_map.
  rewrite (map_ext _ (fun i => (1, (t0 + 1000 / rate) + (999 + rate) / rate + Z.of_nat i * (1000 / rate)))).
  2: { intros i. f_equal. rewrite Nat2Z.inj_succ. ring. }
  rewrite IH by lia. lia.
Qed.

Lemma bucket_rate_attained_witness :
  (run_calls 600 10 (tb_state (bucket_new 600 0 1000))
    (map (fun i => (1, 1002 + Z.of_nat i)) (seq 0 1000))).2 = 1000.
Proof.
  rewrite (map_ext _ (fun i => (1, 1000 + (999 + 600) / 600 + Z.of_nat i * (1000 / 600)))).
  2: { intros i. change ((999 + 600) / 600) with 2. change (1000 / 600) with 1. f_equal. lia. }
  change (tb_state (bucket_new 600 0 1000)) with (Z.shiftl 1000 24).
  exact (bucket_rate_attained 600 10 1000 1000 ltac:(lia) ltac:(lia) ltac:(lia) ltac:(lia)).
Defined.

(** The bound does not hold for every rate: at 1500 tokens per second a refill of one token
    does not advance the recorded time, and any number of calls made in the same
    millisecond are all granted. *)
Theorem bucket_unlimited_above_1000 (n : nat) :
  let w := tb_state (bucket_new 1500 0 1000) in
  run_calls 1500 10 w (repeat_call n 1 1001) = (w, Z.of_nat n).
Proof.
  cbv zeta. induction n as [|n IH]; [done|]. cbn [repeat_call replicate].
  rewrite (run_calls_cons _ _ _ _ _ (tb_state (bucket_new 1500 0 1000))) by (vm_compute; reflexivity).
  unfold repeat_call in IH. rewrite IH. cbn [fst snd]. f_equal. lia.
Qed.

(** With Unix-epoch milliseconds (2^40 and above) the recorded time is truncated, and a bucket of
    capacity one refills completely at every call of the same instant. *)
Theorem bucket_unlimited_epoch (n : nat) :
  let now := 1700000000000 in
  let w := Z.land (tb_state (bucket_new 1 1 now)) (Z.lnot 1) in
  run_calls 1 1 w (repeat_call n 1 now) = (w, Z.of_nat n).
Proof.
  cbv zeta. set (w := Z.land _ _).
  assert (bucket_attempt 1 1 w 1 1700000000000 = Some w) as E by (vm_compute; reflexivity).
  clearbody w. induction n as [|n IH]; [done|]. cbn [repeat_call replicate].
  rewrite (run_calls_cons _ _ _ _ _ _ _ E). unfold repeat_call in IH. rewrite IH.
  cbn [fst snd]. f_equal. lia.
Qed.

End Topic.
