(* ===== verification/Session.v ===== *)
(** * distribution/src/session.rs: per-client session state *)

From S2P Require Import Prelude Topic.

Inductive WireProtocol := ProtoSbe | ProtoJson.

Inductive SessionState := Disconnected | Connected | Subscribed | Closed.

#[global] Instance WireProtocol_eq_dec : EqDecision WireProtocol.
Proof. solve_decision. Defined.
#[global] Instance SessionState_eq_dec : EqDecision SessionState.
Proof. solve_decision. Defined.

(** [state as u8] and [From<u8>]. *)
Definition SessionState_code (s : SessionState) : Z :=
  match s with Disconnected => 0 | Connected => 1 | Subscribed => 2 | Closed => 3 end.

Definition SessionState_from (val : Z) : SessionState :=
  if val =? 1 then Connected
  else if val =? 2 then Subscribed
  else if val =? 3 then Closed
  else Disconnected.

Record ClientSession := mkSession {
  cs_id : Z;
  protocol : WireProtocol;
  cs_state : Z;
  rate_limiter : LockFreeTokenBucket;
  filter : ClientFilterPredicate;
  last_ping_ts_ns : Z;
  last_pong_ts_ns : Z;
  messages_sent : Z;
  bytes_sent : Z;
  dropped_rate_limit : Z;
}.

Definition ClientSession_new (id : Z) (protocol : WireProtocol)
    (rate_per_sec burst_capacity now_ms : Z) : ClientSession :=
  mkSession id protocol (SessionState_code Connected)
    (bucket_new rate_per_sec burst_capacity now_ms) Filter_default 0 0 0 0 0.

Definition with_filter (s : ClientSession) (f : ClientFilterPredicate) : ClientSession :=
  mkSession (cs_id s) (protocol s) (cs_state s) (rate_limiter s) f (last_ping_ts_ns s)
    (last_pong_ts_ns s) (messages_sent s) (bytes_sent s) (dropped_rate_limit s).

Definition session_state (s : ClientSession) : SessionState := SessionState_from (cs_state s).

Definition set_state (s : ClientSession) (new_state : SessionState) : ClientSession :=
  mkSession (cs_id s) (protocol s) (SessionState_code new_state) (rate_limiter s) (filter s)
    (last_ping_ts_ns s) (last_pong_ts_ns s) (messages_sent s) (bytes_sent s) (dropped_rate_limit s).

Definition is_active (s : ClientSession) : bool :=
  bool_decide (session_state s = Connected) || bool_decide (session_state s = Subscribed).

Definition record_ping (s : ClientSession) (ts_ns : Z) : ClientSession :=
  mkSession (cs_id s) (protocol s) (cs_state s) (rate_limiter s) (filter s)
    ts_ns (last_pong_ts_ns s) (messages_sent s) (bytes_sent s) (dropped_rate_limit s).

Definition record_pong (s : ClientSession) (ts_ns : Z) : ClientSession :=
  mkSession (cs_id s) (protocol s) (cs_state s) (rate_limiter s) (filter s)
    (last_ping_ts_ns s) ts_ns (messages_sent s) (bytes_sent s) (dropped_rate_limit s).

Definition is_heartbeat_healthy (s : ClientSession) (now_ns timeout_ns : Z) : bool :=
  let last_pong := last_pong_ts_ns s in
  if last_pong =? 0 then
    let last_ping := last_ping_ts_ns s in
    (last_ping =? 0) || (sat U64 (now_ns - last_ping) <=? timeout_ns)
  else sat U64 (now_ns - last_pong) <=? timeout_ns.

Definition try_consume_token (s : ClientSession) (tokens now_ms : Z) : ClientSession * bool :=
  let (rl, allowed) := try_consume (rate_limiter s) tokens now_ms in
  (mkSession (cs_id s) (protocol s) (cs_state s) rl (filter s) (last_ping_ts_ns s)
     (last_pong_ts_ns s) (messages_sent s) (bytes_sent s)
     (if negb allowed then dropped_rate_limit s +[U64] 1 else dropped_rate_limit s),
   allowed).

Definition record_delivery (s : ClientSession) (nbytes : Z) : ClientSession :=
  mkSession (cs_id s) (protocol s) (cs_state s) (rate_limiter s) (filter s)
    (last_ping_ts_ns s) (last_pong_ts_ns s) (messages_sent s +[U64] 1)
    (bytes_sent s +[U64] nbytes) (dropped_rate_limit s).

Lemma session_state_roundtrip st : SessionState_from (SessionState_code st) = st.
Proof. by destruct st. Qed.

Lemma session_state_set s st : session_state (set_state s st) = st.
Proof. unfold session_state, set_state; cbn [cs_state]. apply session_state_roundtrip. Qed.

Lemma is_active_set s st :
  is_active (set_state s st) = bool_decide (st = Connected) || bool_decide (st = Subscribed).
Proof. unfold is_active. by rewrite session_state_set. Qed.

Lemma try_consume_token_protocol s tokens now :
  protocol (try_consume_token s tokens now).1 = protocol s /\
  cs_id (try_consume_token s tokens now).1 = cs_id s.
Proof. unfold try_consume_token. by destruct (try_consume _ _ _). Qed.

Module Session.

(** A client that never answered a ping is healthy until a ping is older than the timeout; one
    that did answer is judged on its last pong alone; a clock behind the recorded time never
    makes a client unhealthy. *)
Theorem heartbeat_spec (s : ClientSession) (now timeout : Z)
    (Hn : in_range U64 now) (Ht : in_range U64 timeout)
    (Hpi : in_range U64 (last_ping_ts_ns s)) (Hpo : in_range U64 (last_pong_ts_ns s)) :
  is_heartbeat_healthy s now timeout = true <->
  (last_pong_ts_ns s = 0 /\ last_ping_ts_ns s = 0) \/
  (exists last, last = (if last_pong_ts_ns s =? 0 then last_ping_ts_ns s else last_pong_ts_ns s) /\
    last <> 0 /\ now <= last + timeout).
Proof.
  unfold is_heartbeat_healthy. destruct (Z.eqb_spec (last_pong_ts_ns s) 0) as [E|E].
  - breflect. split.
    + intros [H|H]; [by left|]. destruct (decide (last_ping_ts_ns s = 0)); [by left|].
      right. eexists. repeat split; [done|]. mint.
    + intros [[_ H]|(l & -> & Hl & H)]; [by left|]. right. mint.
  - rewrite Z.leb_le. split.
    + intros H. right. eexists. repeat split; [done|]. mint.
    + intros [[? _]|(l & -> & Hl & H)]; [done|]. mint.
Qed.

End Session.
