(* ===== verification/Router.v ===== *)
(** * distribution/src/router.rs: the inverted topic router

    State: the subscription index (topic to client bitmap) and the registered sessions.  The
    two maps are behind two locks; [subscribe] and [unregister_client] take them one after
    the other and are composed of one definition per critical section.  A dispatch is one
    [for_each] over the candidate bitmap whose closure is [dispatch_client].

    [router_step] is what any number of threads can do: a step is one critical section, or one
    client's turn of a dispatch, and between two sections of one call any other call can run.  [alone]
    shows that the calls of a single caller are the methods as they are composed. *)

From Stdlib Require Import SpecFloat.
From S2P Require Import Prelude Bytes Models Sbe Decimal Json Bitmap Topic Session.

Definition STREAM_TYPE_BBO : Z := 1.
Definition STREAM_TYPE_DEPTH : Z := 2.
Definition STREAM_TYPE_TRADE : Z := 3.
Definition STREAM_TYPE_MEMPOOL : Z := 4.

Inductive RouterError :=
| ClientAlreadyExists (id : Z)
| ClientNotFound (id : Z)
| CapacityExceeded
| LockPoisoned.

Record DispatchMetrics := mkMetrics {
  matched_clients : Z;
  delivered_clients : Z;
  filtered_clients : Z;
  rate_limited_clients : Z;
  sbe_bytes_dispatched : Z;
  json_bytes_dispatched : Z;
}.

Definition Metrics_default : DispatchMetrics := mkMetrics 0 0 0 0 0 0.

Record InvertedTopicRouter := mkRouter {
  topics : gmap Z ClientBitmap;
  clients : gmap Z ClientSession;
}.

Definition router_new : InvertedTopicRouter := mkRouter ∅ ∅.

Definition register_client (r : InvertedTopicRouter) (session : ClientSession) :
    InvertedTopicRouter * result Z RouterError :=
  let id := cs_id session in
  match clients r !! id with
  | Some _ => (r, Err (ClientAlreadyExists id))
  | None => (mkRouter (topics r) (<[id := session]> (clients r)), Ok id)
  end.

(** The critical section on [clients]; the removed session is set to Closed and dropped. *)
Definition unregister_clients (r : InvertedTopicRouter) (client_id : Z) :
    InvertedTopicRouter * result unit RouterError :=
  match clients r !! client_id with
  | None => (r, Err (ClientNotFound client_id))
  | Some _ => (mkRouter (topics r) (delete client_id (clients r)), Ok tt)
  end.

(** The critical section on [topics]. *)
Definition unregister_topics (r : InvertedTopicRouter) (client_id : Z) : InvertedTopicRouter :=
  mkRouter
    (base.filter (fun p => bitmap_is_empty p.2 = false)
      ((fun b => (bitmap_remove b client_id).1) <$> topics r))
    (clients r).

Definition unregister_client (r : InvertedTopicRouter) (client_id : Z) :
    InvertedTopicRouter * result unit RouterError :=
  match unregister_clients r client_id with
  | (r, Ok _) => (unregister_topics r client_id, Ok tt)
  | (r, Err e) => (r, Err e)
  end.

Definition subscribe_clients (r : InvertedTopicRouter) (client_id : Z) :
    InvertedTopicRouter * result unit RouterError :=
  match clients r !! client_id with
  | None => (r, Err (ClientNotFound client_id))
  | Some session =>
      (mkRouter (topics r) (<[client_id := set_state session Subscribed]> (clients r)), Ok tt)
  end.

Definition subscribe_topics (r : InvertedTopicRouter) (client_id topic : Z) : InvertedTopicRouter :=
  let bitmap := default bitmap_new (topics r !! topic) in
  mkRouter (<[topic := (bitmap_insert bitmap client_id).1]> (topics r)) (clients r).

Definition subscribe (r : InvertedTopicRouter) (client_id topic : Z) :
    InvertedTopicRouter * result unit RouterError :=
  match subscribe_clients r client_id with
  | (r, Ok _) => (subscribe_topics r client_id topic, Ok tt)
  | (r, Err e) => (r, Err e)
  end.

Definition unsubscribe (r : InvertedTopicRouter) (client_id topic : Z) :
    InvertedTopicRouter * result unit RouterError :=
  match topics r !! topic with
  | Some bitmap =>
      (mkRouter (<[topic := (bitmap_remove bitmap client_id).1]> (topics r)) (clients r), Ok tt)
  | None => (r, Ok tt)
  end.

Definition update_filter (r : InvertedTopicRouter) (client_id : Z) (f : ClientFilterPredicate) :
    InvertedTopicRouter * result unit RouterError :=
  match clients r !! client_id with
  | None => (r, Err (ClientNotFound client_id))
  | Some session => (mkRouter (topics r) (<[client_id := with_filter session f]> (clients r)), Ok tt)
  end.

Definition client_count (r : InvertedTopicRouter) : nat := size (clients r).
Definition topic_count (r : InvertedTopicRouter) : nat := size (topics r).

(** A frame buffer that is filled on first use. *)
Record LazyBuf := mkLazy { lz_buf : bytes; lz_encoded : bool; lz_len : nat }.

(** What the closure of a dispatch captures: the metrics, the two lazy buffers, the sessions
    and what the sink received. *)
Record DispatchState := mkDispatch {
  ds_metrics : DispatchMetrics;
  ds_sbe : LazyBuf;
  ds_json : LazyBuf;
  ds_clients : gmap Z ClientSession;
  ds_sink : list (Z * WireProtocol * bytes);
}.

Definition bump_matched (m : DispatchMetrics) : DispatchMetrics :=
  mkMetrics (matched_clients m +[USIZE] 1) (delivered_clients m) (filtered_clients m)
    (rate_limited_clients m) (sbe_bytes_dispatched m) (json_bytes_dispatched m).
Definition bump_filtered (m : DispatchMetrics) : DispatchMetrics :=
  mkMetrics (matched_clients m) (delivered_clients m) (filtered_clients m +[USIZE] 1)
    (rate_limited_clients m) (sbe_bytes_dispatched m) (json_bytes_dispatched m).
Definition bump_limited (m : DispatchMetrics) : DispatchMetrics :=
  mkMetrics (matched_clients m) (delivered_clients m) (filtered_clients m)
    (rate_limited_clients m +[USIZE] 1) (sbe_bytes_dispatched m) (json_bytes_dispatched m).
Definition bump_delivered (m : DispatchMetrics) (p : WireProtocol) (len : nat) : DispatchMetrics :=
  match p with
  | ProtoSbe =>
      mkMetrics (matched_clients m) (delivered_clients m +[USIZE] 1) (filtered_clients m)
        (rate_limited_clients m) (sbe_bytes_dispatched m +[USIZE] Z.of_nat len)
        (json_bytes_dispatched m)
  | ProtoJson =>
      mkMetrics (matched_clients m) (delivered_clients m +[USIZE] 1) (filtered_clients m)
        (rate_limited_clients m) (sbe_bytes_dispatched m)
        (json_bytes_dispatched m +[USIZE] Z.of_nat len)
  end.

(** [if !encoded { if let Ok(len) = encode(.., &mut buf) { .. } }]. *)
Definition lazy_encode {E} (encode : bytes -> bytes * result nat E) (lz : LazyBuf) : LazyBuf :=
  if lz_encoded lz then lz
  else
    match encode (lz_buf lz) with
    | (out, Ok len) => mkLazy out true len
    | (out, Err _) => mkLazy out false (lz_len lz)
    end.

(** The closure given to [for_each], for a filter test and the two encoders of the message. *)
Definition dispatch_client {E1 E2} (passes : ClientFilterPredicate -> bool)
    (encode_sbe : bytes -> bytes * result nat E1) (encode_json : bytes -> bytes * result nat E2)
    (now_ms : Z) (st : DispatchState) (client_id : Z) : DispatchState :=
  let st := mkDispatch (bump_matched (ds_metrics st)) (ds_sbe st) (ds_json st) (ds_clients st)
    (ds_sink st) in
  match ds_clients st !! client_id with
  | None => st
  | Some session =>
      if negb (is_active session) then st
      else if negb (passes (filter session)) then
        mkDispatch (bump_filtered (ds_metrics st)) (ds_sbe st) (ds_json st) (ds_clients st) (ds_sink st)
      else
        let (session, allowed) := try_consume_token session 1 now_ms in
        let cs := <[client_id := session]> (ds_clients st) in
        if negb allowed then
          mkDispatch (bump_limited (ds_metrics st)) (ds_sbe st) (ds_json st) cs (ds_sink st)
        else
          match protocol session with
          | ProtoSbe =>
              let lz := lazy_encode encode_sbe (ds_sbe st) in
              if lz_encoded lz then
                mkDispatch (bump_delivered (ds_metrics st) ProtoSbe (lz_len lz)) lz (ds_json st)
                  (<[client_id := record_delivery session (Z.of_nat (lz_len lz))]> cs)
                  (ds_sink st ++ [(client_id, ProtoSbe, take (lz_len lz) (lz_buf lz))])
              else mkDispatch (ds_metrics st) lz (ds_json st) cs (ds_sink st)
          | ProtoJson =>
              let lz := lazy_encode encode_json (ds_json st) in
              if lz_encoded lz then
                mkDispatch (bump_delivered (ds_metrics st) ProtoJson (lz_len lz)) (ds_sbe st) lz
                  (<[client_id := record_delivery session (Z.of_nat (lz_len lz))]> cs)
                  (ds_sink st ++ [(client_id, ProtoJson, take (lz_len lz) (lz_buf lz))])
              else mkDispatch (ds_metrics st) (ds_sbe st) lz cs (ds_sink st)
          end
  end.

Definition bbo_candidates (r : InvertedTopicRouter) (bbo : NormalizedBbo) : ClientBitmap :=
  let exact_topic := TopicKey_new (wrap U8 (bbo_venue bbo)) (bbo_market_id bbo) STREAM_TYPE_BBO
    (bbo_flags bbo) in
  let default_topic := TopicKey_new (wrap U8 (bbo_venue bbo)) (bbo_market_id bbo) STREAM_TYPE_BBO 0 in
  let exact := default bitmap_new (topics r !! exact_topic) in
  if negb (exact_topic =? default_topic)
  then bitmap_union exact (default bitmap_new (topics r !! default_topic))
  else exact.

(** [filter.max_spread_bps > 0 && (bbo.spread_bps as u32) > filter.max_spread_bps] rejects. *)
Definition bbo_passes (bbo : NormalizedBbo) (f : ClientFilterPredicate) : bool :=
  negb ((0 <? max_spread_bps f) && (max_spread_bps f <? spread_bps bbo)).

Definition dispatch_bbo (r : InvertedTopicRouter) (bbo : NormalizedBbo) (now_ms : Z) :
    InvertedTopicRouter * DispatchMetrics * list (Z * WireProtocol * bytes) :=
  let candidate_bitmap := bbo_candidates r bbo in
  if bitmap_is_empty candidate_bitmap then (r, Metrics_default, [])
  else
    let st := bitmap_for_each
      (dispatch_client (bbo_passes bbo) (encode_bbo_sbe bbo) (serialize_bbo_json bbo) now_ms)
      candidate_bitmap
      (mkDispatch Metrics_default (mkLazy (replicate TOTAL_SBE_BBO_LEN 0) false 0)
        (mkLazy (replicate 512 0) false 0) (clients r) []) in
    (mkRouter (topics r) (ds_clients st), ds_metrics st, ds_sink st).

Definition trade_candidates (r : InvertedTopicRouter) (trade : UnifiedTrade) : ClientBitmap :=
  let topic := TopicKey_new (wrap U8 (tr_venue trade)) (tr_market_id trade) STREAM_TYPE_TRADE 0 in
  default bitmap_new (topics r !! topic).

Definition dispatch_trade (r : InvertedTopicRouter) (trade : UnifiedTrade) (notional_usd : f64)
    (now_ms : Z) : InvertedTopicRouter * DispatchMetrics * list (Z * WireProtocol * bytes) :=
  let candidate_bitmap := trade_candidates r trade in
  if bitmap_is_empty candidate_bitmap then (r, Metrics_default, [])
  else
    let st := bitmap_for_each
      (dispatch_client (fun f => matches_trade f notional_usd) (encode_trade_sbe trade)
        (serialize_trade_json trade) now_ms)
      candidate_bitmap
      (mkDispatch Metrics_default (mkLazy (replicate TOTAL_SBE_TRADE_LEN 0) false 0)
        (mkLazy (replicate 512 0) false 0) (clients r) []) in
    (mkRouter (topics r) (ds_clients st), ds_metrics st, ds_sink st).

(** ** What a dispatch promises *)

(** Why a matched client does or does not receive the message. *)
Inductive verdict := Unregistered | Inactive | Filtered | Limited | Delivered (p : WireProtocol).

#[global] Instance verdict_eq_dec : EqDecision verdict.
Proof. solve_decision. Defined.

Section Spec.
Context (passes : ClientFilterPredicate -> bool) (sbe_text json_text : bytes) (now_ms : Z).

Definition payload (p : WireProtocol) : bytes :=
  match p with ProtoSbe => sbe_text | ProtoJson => json_text end.

Definition classify (cs : gmap Z ClientSession) (id : Z) : verdict :=
  match cs !! id with
  | None => Unregistered
  | Some s =>
      if negb (is_active s) then Inactive
      else if negb (passes (filter s)) then Filtered
      else if (try_consume_token s 1 now_ms).2 then Delivered (protocol s) else Limited
  end.

(** What the sink receives for the ids [ids]. *)
Definition deliveries (cs : gmap Z ClientSession) (ids : list Z) : list (Z * WireProtocol * bytes) :=
  omap (fun id => match classify cs id with
                  | Delivered p => Some (id, p, payload p)
                  | _ => None
                  end) ids.

(** The session of a matched client after the dispatch. *)
Definition session_after (s : ClientSession) (v : verdict) : ClientSession :=
  match v with
  | Limited => (try_consume_token s 1 now_ms).1
  | Delivered p => record_delivery (try_consume_token s 1 now_ms).1 (Z.of_nat (length (payload p)))
  | _ => s
  end.

Definition count_verdict (f : verdict -> bool) (cs : gmap Z ClientSession) (ids : list Z) : Z :=
  Z.of_nat (length (List.filter (fun id => f (classify cs id)) ids)).

Definition is_delivered (v : verdict) : bool := match v with Delivered _ => true | _ => false end.

Definition metrics_spec (cs : gmap Z ClientSession) (ids : list Z) : DispatchMetrics :=
  let n p := count_verdict (fun v => bool_decide (v = p)) cs ids in
  mkMetrics (Z.of_nat (length ids)) (count_verdict is_delivered cs ids) (n Filtered) (n Limited)
    (n (Delivered ProtoSbe) * Z.of_nat (length sbe_text))
    (n (Delivered ProtoJson) * Z.of_nat (length json_text)).
End Spec.

(** ** The dispatch loop *)

Section Loop.
Context {E1 E2 : Type} (passes : ClientFilterPredicate -> bool)
  (encode_sbe : bytes -> bytes * result nat E1) (encode_json : bytes -> bytes * result nat E2)
  (sbe_text json_text : bytes) (n1 n2 : nat) (now_ms : Z)
  (Hsbe : forall out, length out = n1 ->
    encode_sbe out = (sbe_text ++ drop (length sbe_text) out, Ok (length sbe_text)))
  (Hjson : forall out, length out = n2 ->
    encode_json out = (json_text ++ drop (length json_text) out, Ok (length json_text)))
  (Hn1 : (length sbe_text <= n1)%nat) (Hn2 : (length json_text <= n2)%nat)
  (Hsize : (n1 <= 512 /\ n2 <= 512)%nat).

Definition lazy_ok (text : bytes) (n : nat) (lz : LazyBuf) : Prop :=
  length (lz_buf lz) = n /\
  (lz_encoded lz = true -> lz_len lz = length text /\ take (length text) (lz_buf lz) = text).

Lemma lazy_encode_spec {E} (encode : bytes -> bytes * result nat E) text n lz :
  (forall out, length out = n -> encode out = (text ++ drop (length text) out, Ok (length text))) ->
  (length text <= n)%nat -> lazy_ok text n lz ->
  let lz' := lazy_encode encode lz in
  lazy_ok text n lz' /\ lz_encoded lz' = true /\ lz_len lz' = length text /\
  take (lz_len lz') (lz_buf lz') = text.
Proof.
  intros He Hn [Hl Henc]. unfold lazy_encode. destruct (lz_encoded lz) eqn:El.
  - destruct (Henc eq_refl) as [H1 H2]. rewrite El, H1. done.
  - rewrite He by done. cbn [lz_encoded lz_len lz_buf]. unfold lazy_ok. cbn [lz_encoded lz_len lz_buf].
    rewrite take_app_length. repeat split. rewrite length_app, length_drop. lia.
Qed.

Local Abbreviation cls := (classify passes now_ms).
Local Abbreviation after := (session_after sbe_text json_text now_ms).
Local Abbreviation spec := (metrics_spec passes sbe_text json_text now_ms).

Definition loop_inv (c0 : gmap Z ClientSession) (done : list Z) (st : DispatchState) : Prop :=
  ds_metrics st = spec c0 done /\
  lazy_ok sbe_text n1 (ds_sbe st) /\ lazy_ok json_text n2 (ds_json st) /\
  ds_sink st = deliveries passes sbe_text json_text now_ms c0 done /\
  (forall id, ds_clients st !! id =
    if decide (id ∈ done) then (fun s => after s (cls c0 id)) <$> c0 !! id else c0 !! id).

Lemma count_verdict_snoc f c0 l id :
  count_verdict passes now_ms f c0 (l ++ [id]) =
  count_verdict passes now_ms f c0 l + (if f (cls c0 id) then 1 else 0).
Proof.
  unfold count_verdict. rewrite List.filter_app, length_app. cbn [List.filter].
  destruct (f _); cbn [length]; lia.
Qed.

Lemma count_verdict_le f c0 l :
  0 <= count_verdict passes now_ms f c0 l <= Z.of_nat (length l).
Proof.
  unfold count_verdict. pose proof (List.filter_length_le (fun id => f (cls c0 id)) l). lia.
Qed.

Lemma deliveries_snoc c0 l id :
  deliveries passes sbe_text json_text now_ms c0 (l ++ [id]) =
  deliveries passes sbe_text json_text now_ms c0 l ++
  match cls c0 id with Delivered p => [(id, p, payload sbe_text json_text p)] | _ => [] end.
Proof.
  unfold deliveries. rewrite omap_app. f_equal. cbn. by destruct (classify _ _ _ _).
Qed.

(** The metrics after one more client. *)
Lemma metrics_spec_snoc c0 l id :
  (length l < 1024)%nat ->
  spec c0 (l ++ [id]) =
  match cls c0 id with
  | Unregistered | Inactive => bump_matched (spec c0 l)
  | Filtered => bump_filtered (bump_matched (spec c0 l))
  | Limited => bump_limited (bump_matched (spec c0 l))
  | Delivered p =>
      bump_delivered (bump_matched (spec c0 l)) p (length (payload sbe_text json_text p))
  end.
Proof.
  intros Hl. unfold metrics_spec. rewrite !count_verdict_snoc, length_app. cbn [length].
  pose proof (fun f => count_verdict_le f c0 l) as Hc.
  assert (forall p, bool_decide (Delivered p = Filtered) = false) as Hd1 by (intros; by case_bool_decide).
  assert (forall p, bool_decide (Delivered p = Limited) = false) as Hd2 by (intros; by case_bool_decide).
  unfold bump_matched, bump_filtered, bump_limited, bump_delivered.
  pose proof (Hc is_delivered). pose proof (Hc (fun v => bool_decide (v = Filtered))).
  pose proof (Hc (fun v => bool_decide (v = Limited))).
  pose proof (Hc (fun v => bool_decide (v = Delivered ProtoSbe))) as Hs.
  pose proof (Hc (fun v => bool_decide (v = Delivered ProtoJson))) as Hj.
  clear Hc. cbv beta in *.
  set (nd := count_verdict _ _ is_delivered _ _) in *.
  set (nf := count_verdict _ _ (fun v => bool_decide (v = Filtered)) _ _) in *.
  set (nl := count_verdict _ _ (fun v => bool_decide (v = Limited)) _ _) in *.
  set (ns := count_verdict _ _ (fun v => bool_decide (v = Delivered ProtoSbe)) _ _) in *.
  set (nj := count_verdict _ _ (fun v => bool_decide (v = Delivered ProtoJson)) _ _) in *.
  assert (0 <= ns * Z.of_nat (length sbe_text) <= 1024 * 512) by (clear Hj; nia).
  assert (0 <= nj * Z.of_nat (length json_text) <= 1024 * 512) by (clear Hs; nia).
  destruct (cls c0 id) as [| | | |[]]; cbn [matched_clients delivered_clients filtered_clients
    rate_limited_clients sbe_bytes_dispatched json_bytes_dispatched is_delivered payload];
    rewrite ?Hd1, ?Hd2; repeat (case_bool_decide; [try discriminate|try done]);
    f_equal; rewrite ?wrap_id by mint; lia.
Qed.

(** The goal when the client's session is left as it was. *)
Ltac untouched :=
  cbn [ds_metrics ds_sbe ds_json ds_clients ds_sink];
  match goal with
  | Hm : ds_metrics _ = _, Hcs : context [_ -> _], Hcid : ds_clients _ !! _ = _ |- _ =>
      rewrite app_nil_r, Hm; do 4 (split; [done|]); apply Hcs; [done|]; by rewrite Hcid
  end.

(** One client more in the loop. *)
Lemma dispatch_client_step c0 l id st :
  (length l < 1024)%nat -> id ∉ l -> loop_inv c0 l st ->
  loop_inv c0 (l ++ [id]) (dispatch_client passes encode_sbe encode_json now_ms st id).
Proof.
  intros Hl Hid (Hm & Hs & Hj & Hk & Hc). unfold loop_inv.
  rewrite deliveries_snoc, metrics_spec_snoc by done.
  assert (forall cs : gmap Z ClientSession, (forall j, j <> id -> cs !! j = ds_clients st !! j) ->
    cs !! id = (fun s => after s (cls c0 id)) <$> c0 !! id ->
    forall j, cs !! j = if decide (j ∈ l ++ [id])
      then (fun s => after s (cls c0 j)) <$> c0 !! j else c0 !! j) as Hcs.
  { intros cs H1 H2 j. destruct (decide (j = id)) as [->|Hne].
    - rewrite H2, decide_True; [done|]. set_solver.
    - rewrite H1, Hc by done. repeat case_decide; try done; set_solver. }
  pose proof (Hc id) as Hcid. rewrite decide_False in Hcid by done.
  unfold dispatch_client. cbn [ds_metrics ds_sbe ds_json ds_clients ds_sink].
  rewrite Hcid. revert Hcs. unfold classify at 1 2 3 4.
  destruct (c0 !! id) as [s|] eqn:E; intros Hcs.
  2: { untouched. }
  destruct (is_active s) eqn:Ea; cbn [negb].
  2: { untouched. }
  destruct (passes (filter s)) eqn:Ep; cbn [negb].
  2: { untouched. }
  pose proof (try_consume_token_protocol s 1 now_ms) as [Hp _].
  destruct (try_consume_token s 1 now_ms) as [s' [|]] eqn:Et; cbn [negb fst snd] in *.
  2: { cbn [ds_metrics ds_sbe ds_json ds_clients ds_sink]. rewrite app_nil_r, Hm.
       do 4 (split; [done|]). apply Hcs.
       - intros j Hne. by rewrite lookup_insert_ne.
       - rewrite lookup_insert_eq. cbn. by rewrite Et. }
  rewrite Hp. destruct (protocol s) eqn:Epr.
  - destruct (lazy_encode_spec encode_sbe sbe_text n1 (ds_sbe st)) as (H1 & H2 & H3 & H4);
      [done..|]. cbv zeta in *. rewrite H2, H4, H3.
    cbn [ds_metrics ds_sbe ds_json ds_clients ds_sink]. rewrite Hm, Hk. do 4 (split; [done|]).
    apply Hcs.
    + intros j Hne. by rewrite !lookup_insert_ne.
    + rewrite lookup_insert_eq. cbn. by rewrite Et.
  - destruct (lazy_encode_spec encode_json json_text n2 (ds_json st)) as (H1 & H2 & H3 & H4);
      [done..|]. cbv zeta in *. rewrite H2, H4, H3.
    cbn [ds_metrics ds_sbe ds_json ds_clients ds_sink]. rewrite Hm, Hk. do 4 (split; [done|]).
    apply Hcs.
    + intros j Hne. by rewrite !lookup_insert_ne.
    + rewrite lookup_insert_eq. cbn. by rewrite Et.
Qed.

Lemma dispatch_loop c0 ids st :
  (length ids <= 1024)%nat -> NoDup ids -> loop_inv c0 [] st ->
  loop_inv c0 ids (fold_left (dispatch_client passes encode_sbe encode_json now_ms) ids st).
Proof.
  intros Hlen Hnd H0. induction ids as [|id ids IH] using rev_ind; [done|].
  rewrite length_app in Hlen. cbn [length] in Hlen. apply list.NoDup_app in Hnd as (Hnd & Hdis & _).
  rewrite fold_left_app. cbn [fold_left]. apply dispatch_client_step; [lia| |apply IH; done || lia].
  intros Hin. apply (Hdis id Hin). set_solver.
Qed.
End Loop.

(** ** The index invariant *)

(** Every bitmap is well formed and names registered clients only, and a session is stored
    under its own id. *)
Record router_ok (r : InvertedTopicRouter) : Prop := {
  topics_ok : map_Forall (fun _ b => bitmap_ok b) (topics r);
  index_ok : map_Forall (fun _ b => forall id, 0 <= id < MAX_CLIENT_CAPACITY ->
    bitmap_contains b id = true -> is_Some (clients r !! id)) (topics r);
  clients_ok : map_Forall (fun id s => cs_id s = id /\ in_range U32 id) (clients r);
}.

(** The part that no interleaving of calls breaks: well-formed bitmaps, sessions under their own ids. *)
Record router_wf (r : InvertedTopicRouter) : Prop := {
  wf_topics : map_Forall (fun _ b => bitmap_ok b) (topics r);
  wf_clients : map_Forall (fun id s => cs_id s = id /\ in_range U32 id) (clients r);
}.

Lemma router_ok_wf r : router_ok r -> router_wf r.
Proof. by intros [H1 _ H3]. Qed.

Lemma default_some {A} (d x : A) : default d (Some x) = x.
Proof. done. Qed.
Lemma default_none {A} (d : A) : default d None = d.
Proof. done. Qed.

Lemma topic_bitmap_ok r t : router_wf r -> bitmap_ok (default bitmap_new (topics r !! t)).
Proof.
  intros Hr. destruct (topics r !! t) as [b|] eqn:E; [|apply bitmap_ok_new].
  by apply (wf_topics _ Hr t).
Qed.

Lemma bitmap_new_contains id : bitmap_contains bitmap_new id = false.
Proof.
  unfold bitmap_contains. destruct (_ <? _)%nat; [|done].
  unfold word_at, bitmap_new. cbn [words]. rewrite nth_lookup.
  by destruct (replicate _ 0 !! _) eqn:E; [apply lookup_replicate in E as [-> _]|].
Qed.

Lemma bitmap_contains_spec b id :
  bitmap_ok b -> In id (client_ids b) <-> 0 <= id < MAX_CLIENT_CAPACITY /\ bitmap_contains b id = true.
Proof.
  intros Hb. unfold client_ids. rewrite List.filter_In, in_seqZ. by rewrite Z.add_0_l.
Qed.

Lemma bitmap_is_empty_ids b : bitmap_ok b -> bitmap_is_empty b = true <-> client_ids b = [].
Proof.
  intros Hb. split.
  - intros He. unfold client_ids. apply filter_none. intros id Hid%in_seqZ.
    rewrite bitmap_contains_testbit by lia. unfold word_at.
    destruct (nth_in_or_default (Z.to_nat (id / 64)) (words b) 0) as [Hin| ->]; [|apply Z.bits_0].
    unfold bitmap_is_empty in He. rewrite forallb_forall in He. apply He, Z.eqb_eq in Hin.
    rewrite Hin. apply Z.bits_0.
  - intros He. unfold bitmap_is_empty. rewrite (words_map b) by apply Hb.
    apply forallb_forall. intros w (i & <- & Hi)%in_map_iff. apply Z.eqb_eq.
    apply word_bits_nil; [by apply word_at_ok|].
    rewrite client_ids_words in He. unfold ids_from in He. rewrite Nat.sub_0_r in He.
    assert (word_ids b i = []) as Hnil.
    { assert (In (word_ids b i) (map (word_ids b) (seq 0 DEFAULT_BITMAP_WORDS))) as Hin by by apply in_map.
      apply in_split in Hin as (l1 & l2 & E). rewrite E, concat_app in He. cbn [concat] in He.
      apply app_eq_nil in He as [_ He]. by apply app_eq_nil in He as [He _]. }
    unfold word_ids in Hnil. by apply map_eq_nil in Hnil.
Qed.

Lemma client_ids_NoDup b : NoDup (client_ids b).
Proof.
  unfold client_ids. apply NoDup_ListNoDup, List.NoDup_filter, NoDup_ListNoDup, NoDup_seqZ.
Qed.

Lemma length_client_ids b : (length (client_ids b) <= 1024)%nat.
Proof.
  unfold client_ids. etransitivity; [apply List.filter_length_le|]. rewrite length_seqZ.
  change MAX_CLIENT_CAPACITY with 1024. lia.
Qed.

Lemma union_ok a b : bitmap_ok a -> bitmap_ok b -> bitmap_ok (bitmap_union a b).
Proof. intros Ha Hb. apply bitmap_ok_map. eauto with mint. Qed.

Lemma bbo_candidates_ok r bbo : router_wf r -> bitmap_ok (bbo_candidates r bbo).
Proof.
  intros Hr. unfold bbo_candidates. cbv zeta. destruct (negb _).
  - apply union_ok; by apply topic_bitmap_ok.
  - by apply topic_bitmap_ok.
Qed.

(** ** The two dispatches against their specification *)

Definition dispatch_result : Type :=
  InvertedTopicRouter * DispatchMetrics * list (Z * WireProtocol * bytes).

(** [res] is what delivering to the clients [ids] must give. *)
Definition dispatch_spec (passes : ClientFilterPredicate -> bool) (sbe_text json_text : bytes)
    (now_ms : Z) (r : InvertedTopicRouter) (ids : list Z) (res : dispatch_result) : Prop :=
  let '(r', metrics, sink) := res in
  sink = deliveries passes sbe_text json_text now_ms (clients r) ids /\
  metrics = metrics_spec passes sbe_text json_text now_ms (clients r) ids /\
  topics r' = topics r /\
  forall id, clients r' !! id =
    if decide (id ∈ ids)
    then (fun s => session_after sbe_text json_text now_ms s (classify passes now_ms (clients r) id))
      <$> clients r !! id
    else clients r !! id.

(** The part common to both dispatches: an early return on an empty bitmap, or the loop. *)
Lemma dispatch_common {E1 E2} passes (enc1 : bytes -> bytes * result nat E1)
    (enc2 : bytes -> bytes * result nat E2) t1 t2 n1 now r b :
  (forall out, length out = n1 -> enc1 out = (t1 ++ drop (length t1) out, Ok (length t1))) ->
  (forall out, length out = 512%nat -> enc2 out = (t2 ++ drop (length t2) out, Ok (length t2))) ->
  (length t1 <= n1)%nat -> (length t2 <= 512)%nat -> (n1 <= 512)%nat -> bitmap_ok b ->
  dispatch_spec passes t1 t2 now r (client_ids b)
    (if bitmap_is_empty b then (r, Metrics_default, [])
     else
       let st := bitmap_for_each (dispatch_client passes enc1 enc2 now) b
         (mkDispatch Metrics_default (mkLazy (replicate n1 0) false 0)
           (mkLazy (replicate 512 0) false 0) (clients r) []) in
       (mkRouter (topics r) (ds_clients st), ds_metrics st, ds_sink st)).
Proof.
  intros H1 H2 Hl1 Hl2 Hn Hb. destruct (bitmap_is_empty b) eqn:E.
  - apply bitmap_is_empty_ids in E as ->; [|done]. by repeat split.
  - rewrite for_each_ids by done. cbv zeta.
    destruct (dispatch_loop passes enc1 enc2 t1 t2 n1 512 now H1 H2 Hl1 Hl2 ltac:(lia) (clients r)
      (client_ids b) (mkDispatch Metrics_default (mkLazy (replicate n1 0) false 0)
           (mkLazy (replicate 512 0) false 0) (clients r) []))
      as (Hm & _ & _ & Hk & Hc); [apply length_client_ids|apply client_ids_NoDup| |].
    + repeat split; cbn [lz_buf lz_encoded ds_sbe ds_json]; try done; by rewrite length_replicate.
    + by rewrite Hm, Hk.
Qed.

Lemma encode_bbo_92 bbo out :
  length out = TOTAL_SBE_BBO_LEN ->
  encode_bbo_sbe bbo out =
    (bbo_wire bbo ++ drop (length (bbo_wire bbo)) out, Ok (length (bbo_wire bbo))).
Proof. intros H. rewrite length_bbo_wire. apply encode_bbo_sbe_wire. lia. Qed.

Lemma encode_trade_95 t out :
  length out = TOTAL_SBE_TRADE_LEN ->
  encode_trade_sbe t out =
    (trade_wire t ++ drop (length (trade_wire t)) out, Ok (length (trade_wire t))).
Proof. intros H. rewrite length_trade_wire. apply encode_trade_sbe_wire. lia. Qed.

Lemma serialize_bbo_512 b out :
  Bbo_ok b -> length out = 512%nat ->
  serialize_bbo_json b out = (bbo_json_text b ++ drop (length (bbo_json_text b)) out,
    Ok (length (bbo_json_text b))).
Proof.
  intros Hb Hl. pose proof (emits_bbo b Hb out) as H. pose proof (length_bbo_text b Hb).
  by rewrite (proj2 (Nat.leb_le _ _)) in H by lia.
Qed.

Lemma serialize_trade_512 t out :
  Trade_ok t -> length out = 512%nat ->
  serialize_trade_json t out = (trade_json_text t ++ drop (length (trade_json_text t)) out,
    Ok (length (trade_json_text t))).
Proof.
  intros Hb Hl. pose proof (emits_trade t Hb out) as H. pose proof (length_trade_text t Hb).
  by rewrite (proj2 (Nat.leb_le _ _)) in H by lia.
Qed.

Lemma dispatch_bbo_correct r bbo now :
  router_wf r -> Bbo_ok bbo ->
  dispatch_spec (bbo_passes bbo) (bbo_wire bbo) (bbo_json_text bbo) now r
    (client_ids (bbo_candidates r bbo)) (dispatch_bbo r bbo now).
Proof.
  intros Hr Hb. unfold dispatch_bbo. apply dispatch_common.
  - intros out. apply encode_bbo_92.
  - intros out. by apply serialize_bbo_512.
  - by rewrite length_bbo_wire.
  - pose proof (length_bbo_text bbo Hb). lia.
  - change TOTAL_SBE_BBO_LEN with 92%nat. lia.
  - by apply bbo_candidates_ok.
Qed.

Lemma dispatch_trade_correct r trade notional now :
  router_wf r -> Trade_ok trade ->
  dispatch_spec (fun f => matches_trade f notional) (trade_wire trade) (trade_json_text trade) now r
    (client_ids (trade_candidates r trade)) (dispatch_trade r trade notional now).
Proof.
  intros Hr Hb. unfold dispatch_trade. apply dispatch_common.
  - intros out. apply encode_trade_95.
  - intros out. by apply serialize_trade_512.
  - by rewrite length_trade_wire.
  - pose proof (length_trade_text trade Hb). lia.
  - change TOTAL_SBE_TRADE_LEN with 95%nat. lia.
  - by apply topic_bitmap_ok.
Qed.

(** ** Every operation keeps the invariant *)

(** A change of sessions that keeps the ids keeps the invariant. *)
Lemma router_ok_clients r cs :
  router_ok r ->
  (forall id, match cs !! id, clients r !! id with
   | Some s', Some s => cs_id s' = cs_id s
   | None, None => True
   | _, _ => False
   end) -> router_ok (mkRouter (topics r) cs).
Proof.
  intros [H1 H2 H3] Hcs. split; cbn [topics clients]; [done| |].
  - intros t b Hb id Hid Hc. destruct (H2 t b Hb id Hid Hc) as [s Hs]. specialize (Hcs id).
    rewrite Hs in Hcs. by destruct (cs !! id).
  - intros id s Hs. specialize (Hcs id). rewrite Hs in Hcs.
    destruct (clients r !! id) as [s0|] eqn:E; [|done]. rewrite Hcs. by apply (H3 id).
Qed.

Lemma router_ok_update r id s s' :
  router_ok r -> clients r !! id = Some s -> cs_id s' = cs_id s ->
  router_ok (mkRouter (topics r) (<[id := s']> (clients r))).
Proof.
  intros Hr Hs He. apply router_ok_clients; [done|]. intros j. destruct (decide (j = id)) as [->|].
  - by rewrite lookup_insert_eq, Hs.
  - rewrite lookup_insert_ne by done. by destruct (clients r !! j).
Qed.

(** Removing an id from a bitmap removes it, whatever the id. *)
Lemma remove_any b id :
  bitmap_ok b -> 0 <= id ->
  bitmap_ok (bitmap_remove b id).1 /\
  forall j, 0 <= j < MAX_CLIENT_CAPACITY ->
    bitmap_contains (bitmap_remove b id).1 j = negb (j =? id) && bitmap_contains b j.
Proof.
  intros Hb Hid. destruct (Z.lt_ge_cases id MAX_CLIENT_CAPACITY) as [Hlt|Hge].
  - destruct (remove_spec b id Hb) as (? & _ & ?); [lia|]. done.
  - destruct (out_of_capacity b id Hge) as (_ & -> & _). split; [done|]. intros j Hj.
    rewrite (proj2 (Z.eqb_neq _ _)) by lia. done.
Qed.

Lemma unregister_topics_lookup r id t b :
  topics (unregister_topics r id) !! t = Some b <->
  exists b0, topics r !! t = Some b0 /\ b = (bitmap_remove b0 id).1 /\ bitmap_is_empty b = false.
Proof.
  unfold unregister_topics. cbn [topics]. rewrite map_lookup_filter_Some, lookup_fmap_Some.
  cbn [snd]. naive_solver.
Qed.

(** The bit of a client in the bitmap of a topic. *)
Definition subscribed (r : InvertedTopicRouter) (t id : Z) : bool :=
  bitmap_contains (default bitmap_new (topics r !! t)) id.

Lemma router_new_ok : router_ok router_new.
Proof. split; apply map_Forall_empty. Qed.

Lemma router_ok_subscribed r :
  router_wf r ->
  (forall t id, 0 <= id < MAX_CLIENT_CAPACITY -> subscribed r t id = true -> is_Some (clients r !! id)) ->
  router_ok r.
Proof.
  intros [H1 H2] H. split; [done| |done]. intros t b Hb id Hid Hc. apply (H t id Hid).
  unfold subscribed. by rewrite Hb.
Qed.

Lemma register_wf r s : router_wf r -> in_range U32 (cs_id s) -> router_wf (register_client r s).1.
Proof.
  intros [H1 H2] Hid. unfold register_client. destruct (clients r !! cs_id s); [done|].
  split; [done|]. by apply map_Forall_insert_2.
Qed.

Lemma unregister_clients_wf r id : router_wf r -> router_wf (unregister_clients r id).1.
Proof.
  intros [H1 H2]. unfold unregister_clients. destruct (clients r !! id); [|done].
  split; [done|]. by apply map_Forall_delete.
Qed.

Lemma unregister_topics_wf r id : router_wf r -> in_range U32 id -> router_wf (unregister_topics r id).
Proof.
  intros [H1 H2] Hid. split; [|done]. intros t b (b0 & Hb0 & -> & _)%unregister_topics_lookup.
  apply remove_any; [by apply (H1 t)|mint].
Qed.

Lemma subscribe_topics_wf r id t : router_wf r -> in_range U32 id -> router_wf (subscribe_topics r id t).
Proof.
  intros Hr Hid. split; [|apply Hr]. apply map_Forall_insert_2; [|apply Hr].
  destruct (Z.lt_ge_cases id MAX_CLIENT_CAPACITY) as [Hlt|Hge].
  - apply insert_spec; [by apply topic_bitmap_ok|mint].
  - destruct (out_of_capacity (default bitmap_new (topics r !! t)) id Hge) as (-> & _). by apply topic_bitmap_ok.
Qed.

Lemma unsubscribe_wf r id t : router_wf r -> in_range U32 id -> router_wf (unsubscribe r id t).1.
Proof.
  intros [H1 H2] Hid. unfold unsubscribe. destruct (topics r !! t) as [b|] eqn:E; [|done].
  split; [|done]. apply map_Forall_insert_2; [|done]. apply remove_any; [by apply (H1 t)|mint].
Qed.

(** [r2] has the sessions of [r1], under the same ids. *)
Definition same_sessions (r1 r2 : InvertedTopicRouter) : Prop :=
  topics r2 = topics r1 /\ forall id, cs_id <$> clients r2 !! id = cs_id <$> clients r1 !! id.

Lemma same_sessions_refl r : same_sessions r r.
Proof. done. Qed.

Lemma same_sessions_update r id s s' : clients r !! id = Some s -> cs_id s' = cs_id s ->
  same_sessions r (mkRouter (topics r) (<[id := s']> (clients r))).
Proof.
  intros Hs He. split; [done|]. intros j. cbn [clients]. destruct (decide (j = id)) as [->|].
  - rewrite lookup_insert_eq, Hs. cbn. by rewrite He.
  - by rewrite lookup_insert_ne.
Qed.

Lemma same_sessions_wf r1 r2 : same_sessions r1 r2 -> router_wf r1 -> router_wf r2.
Proof.
  intros [Ht Hc] [H1 H2]. split; [by rewrite Ht|]. intros id s Hs. specialize (Hc id). rewrite Hs in Hc.
  destruct (clients r1 !! id) as [s1|] eqn:E; [|done]. cbn in Hc. injection Hc as ->. by apply (H2 id).
Qed.

Lemma same_sessions_registered r1 r2 id : same_sessions r1 r2 -> is_Some (clients r1 !! id) -> is_Some (clients r2 !! id).
Proof. intros [_ Hc] [s Hs]. specialize (Hc id). rewrite Hs in Hc. by destruct (clients r2 !! id). Qed.

Lemma same_sessions_subscribed r1 r2 t id : same_sessions r1 r2 -> subscribed r2 t id = subscribed r1 t id.
Proof. intros [Ht _]. unfold subscribed. by rewrite Ht. Qed.

Lemma subscribe_clients_same r id : same_sessions r (subscribe_clients r id).1.
Proof. unfold subscribe_clients. destruct (clients r !! id) eqn:E; [|done]. by eapply same_sessions_update. Qed.

Lemma update_filter_same r id f : same_sessions r (update_filter r id f).1.
Proof. unfold update_filter. destruct (clients r !! id) eqn:E; [|done]. by eapply same_sessions_update. Qed.

(** One client's turn in a dispatch. *)
Lemma dispatch_client_same {E1 E2} passes (e1 : bytes -> bytes * result nat E1) (e2 : bytes -> bytes * result nat E2)
    now ts st id :
  same_sessions (mkRouter ts (ds_clients st)) (mkRouter ts (ds_clients (dispatch_client passes e1 e2 now st id))).
Proof.
  unfold dispatch_client. cbn [ds_clients]. destruct (ds_clients st !! id) as [s|] eqn:E; [|done].
  destruct (negb (is_active s)); [done|]. destruct (negb (passes (filter s))); [done|].
  destruct (try_consume_token_protocol s 1 now) as [_ Hid].
  destruct (try_consume_token s 1 now) as [s' ok]. cbn [fst] in Hid.
  assert (forall n, same_sessions (mkRouter ts (ds_clients st))
    (mkRouter ts (<[id := record_delivery s' n]> (<[id := s']> (ds_clients st))))) as Hd.
  { intros n. rewrite insert_insert_eq. exact (same_sessions_update (mkRouter ts (ds_clients st)) id s (record_delivery s' n) E Hid). }
  assert (same_sessions (mkRouter ts (ds_clients st)) (mkRouter ts (<[id := s']> (ds_clients st)))) as Hc
    by exact (same_sessions_update (mkRouter ts (ds_clients st)) id s _ E Hid).
  destruct (negb ok); [exact Hc|]. destruct (protocol s'); cbn [ds_clients];
    [destruct (lz_encoded (lazy_encode e1 _))|destruct (lz_encoded (lazy_encode e2 _))]; solve [exact (Hd _) | exact Hc].
Qed.

(** What the sections on the topics do to the subscriptions. *)
Lemma subscribed_subscribe r id t t' j : router_wf r -> in_range U32 id -> 0 <= j < MAX_CLIENT_CAPACITY ->
  subscribed (subscribe_topics r id t) t' j = bool_decide (t' = t) && (j =? id) || subscribed r t' j.
Proof.
  intros Hr Hid Hj. unfold subscribed, subscribe_topics. cbn [topics].
  case_bool_decide as Ht; [subst t'|by rewrite lookup_insert_ne]. rewrite lookup_insert_eq, default_some.
  destruct (Z.lt_ge_cases id MAX_CLIENT_CAPACITY) as [Hlt|Hge].
  - destruct (insert_spec _ id (topic_bitmap_ok r t Hr)) as (_ & _ & Hin); [mint|]. by rewrite Hin.
  - destruct (out_of_capacity (default bitmap_new (topics r !! t)) id Hge) as (-> & _).
    by rewrite (proj2 (Z.eqb_neq _ _)) by lia.
Qed.

Lemma subscribed_unsubscribe r id t t' j : router_wf r -> in_range U32 id -> 0 <= j < MAX_CLIENT_CAPACITY ->
  subscribed (unsubscribe r id t).1 t' j = negb (bool_decide (t' = t) && (j =? id)) && subscribed r t' j.
Proof.
  intros [H1 _] Hid Hj. unfold subscribed, unsubscribe. destruct (topics r !! t) as [b|] eqn:E; cbn [fst topics].
  - case_bool_decide as Ht; [subst t'|by rewrite lookup_insert_ne]. rewrite lookup_insert_eq, E, !default_some.
    apply remove_any; [by apply (H1 t)|mint|done].
  - case_bool_decide as Ht; [subst t'|done]. by rewrite E, default_none, bitmap_new_contains, andb_false_r.
Qed.

Lemma subscribed_unregister r id t j : router_wf r -> in_range U32 id -> 0 <= j < MAX_CLIENT_CAPACITY ->
  subscribed (unregister_topics r id) t j = negb (j =? id) && subscribed r t j.
Proof.
  intros [H1 _] Hid Hj. unfold subscribed.
  destruct (topics (unregister_topics r id) !! t) as [b|] eqn:E.
  - apply unregister_topics_lookup in E as (b0 & Hb0 & -> & _).
    rewrite Hb0, !default_some. apply remove_any; [by apply (H1 t)|mint|done].
  - rewrite default_none, bitmap_new_contains. symmetry.
    destruct (topics r !! t) as [b0|] eqn:E0; rewrite ?default_some, ?default_none;
      [|by rewrite bitmap_new_contains, andb_false_r].
    destruct (remove_any b0 id) as [Hok Hrm]; [by apply (H1 t)|mint|].
    rewrite <- Hrm by done. apply not_true_is_false. intros Hc.
    assert (In j (client_ids (bitmap_remove b0 id).1)) as Hin by by apply bitmap_contains_spec.
    assert (topics (unregister_topics r id) !! t = Some (bitmap_remove b0 id).1) as E1; [|congruence].
    apply unregister_topics_lookup. exists b0. split; [done|]. split; [done|].
    apply not_true_is_false. intros He. apply bitmap_is_empty_ids in He; [|done].
    by rewrite He in Hin.
Qed.

(** ** Callers at the same time

    Every method takes [&self], so any number of threads are between the critical sections of their calls.  A step
    is one critical section on one of the two maps, or the turn of one client in a dispatch, which holds the read
    lock of the sessions for its whole loop: sessions are then neither added nor removed, while other readers go
    on.  (What a turn reads and changes of a session are its atomics and its filter, never the maps.) *)

(** The two dispatches. *)
Inductive dispatch_call := DispatchBbo (bbo : NormalizedBbo) (now_ms : Z)
  | DispatchTrade (trade : UnifiedTrade) (notional_usd : f64) (now_ms : Z).

Definition call_candidates (r : InvertedTopicRouter) (d : dispatch_call) : ClientBitmap :=
  match d with DispatchBbo bbo _ => bbo_candidates r bbo | DispatchTrade trade _ _ => trade_candidates r trade end.
Definition call_buffer (d : dispatch_call) : nat :=
  match d with DispatchBbo _ _ => TOTAL_SBE_BBO_LEN | DispatchTrade _ _ _ => TOTAL_SBE_TRADE_LEN end.
Definition call_client (d : dispatch_call) : DispatchState -> Z -> DispatchState :=
  match d with
  | DispatchBbo bbo now => dispatch_client (bbo_passes bbo) (encode_bbo_sbe bbo) (serialize_bbo_json bbo) now
  | DispatchTrade trade notional now =>
      dispatch_client (fun f => matches_trade f notional) (encode_trade_sbe trade) (serialize_trade_json trade) now
  end.
Definition call_start (d : dispatch_call) (cs : gmap Z ClientSession) : DispatchState :=
  mkDispatch Metrics_default (mkLazy (replicate (call_buffer d) 0) false 0) (mkLazy (replicate 512 0) false 0) cs [].

(** Where a thread is: outside any call, after the first section of a call of two, or in a dispatch's loop with
    the clients still to be served. *)
Inductive call_state :=
| Idle
| SubscribeTopics (id topic : Z)
| UnregisterTopics (id : Z)
| DispatchClients (d : dispatch_call) (candidate_bitmap : ClientBitmap)
| DispatchLoop (d : dispatch_call) (st : DispatchState) (ids : list Z).

(** A router and its callers.  [raced] is not in the code: it collects the clients that were unregistered while a
    subscription of theirs was between its two sections. *)
Record router_conf := mkConf {
  cf_router : InvertedTopicRouter;
  cf_callers : list call_state;
  cf_raced : gset Z;
}.

Definition conf_new (callers : nat) : router_conf := mkConf router_new (replicate callers Idle) ∅.

Definition in_loop (c : call_state) : bool := match c with DispatchLoop _ _ _ => true | _ => false end.
Definition in_subscribe (id : Z) (c : call_state) : bool :=
  match c with SubscribeTopics j _ => j =? id | _ => false end.

Inductive router_step : router_conf -> router_conf -> Prop :=
| StepRegister r ts rc i s :
    ts !! i = Some Idle -> existsb in_loop ts = false -> in_range U32 (cs_id s) ->
    router_step (mkConf r ts rc) (mkConf (register_client r s).1 ts rc)
| StepUnregister r ts rc i id r' res :
    ts !! i = Some Idle -> existsb in_loop ts = false -> in_range U32 id ->
    unregister_clients r id = (r', res) ->
    router_step (mkConf r ts rc)
      (match res with
       | Ok _ => mkConf r' (<[i := UnregisterTopics id]> ts)
           (if existsb (in_subscribe id) ts then {[id]} ∪ rc else rc)
       | Err _ => mkConf r' ts rc
       end)
| StepUnregisterTopics r ts rc i id :
    ts !! i = Some (UnregisterTopics id) ->
    router_step (mkConf r ts rc) (mkConf (unregister_topics r id) (<[i := Idle]> ts) rc)
| StepSubscribe r ts rc i id t r' res :
    ts !! i = Some Idle -> in_range U32 id -> subscribe_clients r id = (r', res) ->
    router_step (mkConf r ts rc)
      (mkConf r' (match res with Ok _ => <[i := SubscribeTopics id t]> ts | Err _ => ts end) rc)
| StepSubscribeTopics r ts rc i id t :
    ts !! i = Some (SubscribeTopics id t) ->
    router_step (mkConf r ts rc) (mkConf (subscribe_topics r id t) (<[i := Idle]> ts) rc)
| StepUnsubscribe r ts rc i id t :
    ts !! i = Some Idle -> in_range U32 id ->
    router_step (mkConf r ts rc) (mkConf (unsubscribe r id t).1 ts rc)
| StepFilter r ts rc i id f :
    ts !! i = Some Idle -> router_step (mkConf r ts rc) (mkConf (update_filter r id f).1 ts rc)
| StepDispatch r ts rc i d :
    ts !! i = Some Idle ->
    router_step (mkConf r ts rc)
      (mkConf r (if bitmap_is_empty (call_candidates r d) then ts
                 else <[i := DispatchClients d (call_candidates r d)]> ts) rc)
| StepDispatchClients r ts rc i d b :
    ts !! i = Some (DispatchClients d b) ->
    router_step (mkConf r ts rc)
      (mkConf r (<[i := DispatchLoop d (call_start d (clients r)) (client_ids b)]> ts) rc)
| StepTurn r ts rc i d st id ids st' :
    ts !! i = Some (DispatchLoop d st (id :: ids)) ->
    call_client d (mkDispatch (ds_metrics st) (ds_sbe st) (ds_json st) (clients r) (ds_sink st)) id = st' ->
    router_step (mkConf r ts rc)
      (mkConf (mkRouter (topics r) (ds_clients st')) (<[i := DispatchLoop d st' ids]> ts) rc)
| StepReturn r ts rc i d st :
    ts !! i = Some (DispatchLoop d st []) ->
    router_step (mkConf r ts rc) (mkConf r (<[i := Idle]> ts) rc).

(** Which clients a subscription bit can name at any moment, and which a subscription under way. *)
Record conf_ok (c : router_conf) : Prop := {
  conf_wf : router_wf (cf_router c);
  conf_ids : forall i id, (cf_callers c !! i = Some (UnregisterTopics id) \/
    exists t, cf_callers c !! i = Some (SubscribeTopics id t)) -> in_range U32 id;
  conf_subscribing : forall i id t, cf_callers c !! i = Some (SubscribeTopics id t) ->
    is_Some (clients (cf_router c) !! id) \/ id ∈ cf_raced c;
  conf_index : forall t id, 0 <= id < MAX_CLIENT_CAPACITY -> subscribed (cf_router c) t id = true ->
    is_Some (clients (cf_router c) !! id) \/ UnregisterTopics id ∈ cf_callers c \/ id ∈ cf_raced c;
}.

(** A caller that is not between two sections. *)
Definition settled (c : call_state) : Prop :=
  match c with SubscribeTopics _ _ | UnregisterTopics _ => False | _ => True end.

Lemma callers_insert (ts : list call_state) i j old new c : ts !! i = Some old ->
  <[i := new]> ts !! j = Some c -> (j = i /\ c = new) \/ (j <> i /\ ts !! j = Some c).
Proof.
  intros Hi Hj. destruct (decide (j = i)) as [->|Hne]; [|by rewrite list_lookup_insert_ne in Hj; [right|]].
  rewrite list_lookup_insert_eq in Hj by by eapply lookup_lt_Some. left. by injection Hj as <-.
Qed.

Lemma callers_keep (ts : list call_state) i old new c : ts !! i = Some old -> old <> c ->
  c ∈ ts -> c ∈ <[i := new]> ts.
Proof.
  intros Hi Hne [j Hj]%list_elem_of_lookup. apply list_elem_of_lookup. exists j.
  rewrite list_lookup_insert_ne; [done|]. intros ->. congruence.
Qed.

(** A step that adds no subscription and takes no session away. *)
Lemma conf_ok_frame r r' ts ts' rc :
  conf_ok (mkConf r ts rc) -> router_wf r' ->
  (forall id, is_Some (clients r !! id) -> is_Some (clients r' !! id)) ->
  (forall t id, 0 <= id < MAX_CLIENT_CAPACITY -> subscribed r' t id = true -> subscribed r t id = true) ->
  (forall j c, ts' !! j = Some c -> ts !! j = Some c \/ settled c) ->
  (forall id, UnregisterTopics id ∈ ts -> UnregisterTopics id ∈ ts') ->
  conf_ok (mkConf r' ts' rc).
Proof.
  intros [H1 H2 H3 H4] Hw Hc Hs Ht Hu. split; cbn [cf_router cf_callers cf_raced] in *; [done|..].
  - intros i id [Hi|[t Hi]]; destruct (Ht _ _ Hi) as [Hi'|[]]; eauto.
  - intros i id t Hi. destruct (Ht _ _ Hi) as [Hi'|[]]. destruct (H3 _ _ _ Hi'); auto.
  - intros t id Hid Hb. destruct (H4 t id Hid (Hs t id Hid Hb)) as [?|[?|?]]; auto.
Qed.

(** The same for a caller that moves on without being between two sections. *)
Lemma conf_ok_move r r' ts rc i old new :
  conf_ok (mkConf r ts rc) -> same_sessions r r' -> ts !! i = Some old -> settled old -> settled new ->
  conf_ok (mkConf r' (<[i := new]> ts) rc).
Proof.
  intros H Hr Hi Ho Hn. apply (conf_ok_frame r r' ts); [done| | | | |].
  - exact (same_sessions_wf _ _ Hr (conf_wf _ H)).
  - intros id. by apply same_sessions_registered.
  - intros t id _. by rewrite (same_sessions_subscribed r r').
  - intros j c [[-> ->]|[_ Hj]]%(callers_insert _ _ _ old); auto.
  - intros id. apply (callers_keep _ _ old); [done|]. by intros ->.
Qed.

Lemma conf_ok_stay r r' ts rc : conf_ok (mkConf r ts rc) -> same_sessions r r' -> conf_ok (mkConf r' ts rc).
Proof.
  intros H Hr. apply (conf_ok_frame r r' ts); auto.
  - exact (same_sessions_wf _ _ Hr (conf_wf _ H)).
  - intros id. by apply same_sessions_registered.
  - intros t id _. by rewrite (same_sessions_subscribed r r').
Qed.

(** The four sections of the two calls that take both locks. *)
Lemma conf_ok_unregister_clients r ts rc i id s :
  conf_ok (mkConf r ts rc) -> ts !! i = Some Idle -> in_range U32 id -> clients r !! id = Some s ->
  conf_ok (mkConf (mkRouter (topics r) (delete id (clients r))) (<[i := UnregisterTopics id]> ts)
    (if existsb (in_subscribe id) ts then {[id]} ∪ rc else rc)).
Proof.
  intros [H1 H2 H3 H4] Hi Hid Hs. cbn [cf_router cf_callers cf_raced] in *.
  assert (forall j, j ∈ rc -> j ∈ (if existsb (in_subscribe id) ts then {[id]} ∪ rc else rc)) as Hrc
    by (intros j Hj; destruct (existsb _ _); set_solver).
  pose proof (unregister_clients_wf r id H1) as Hw. unfold unregister_clients in Hw. rewrite Hs in Hw.
  split; cbn [cf_router cf_callers cf_raced clients fst] in *; [done|..].
  - intros j k [Hj|[t Hj]]; apply (callers_insert _ _ _ Idle) in Hj as [[_ E]|[_ Hj]]; [|eauto..| |eauto|]; try done.
    by injection E as ->.
  - intros j k t [[_ E]|[_ Hj]]%(callers_insert _ _ _ Idle); [done| |done].
    destruct (decide (k = id)) as [->|Hne].
    + right. rewrite (proj2 (existsb_exists _ _)); [set_solver|]. exists (SubscribeTopics id t).
      split; [by apply list_elem_of_In, list_elem_of_lookup; exists j|]. cbn. apply Z.eqb_refl.
    + rewrite lookup_delete_ne by done. destruct (H3 _ _ _ Hj); auto.
  - intros t k Hk Hb. destruct (decide (k = id)) as [->|Hne].
    + right. left. apply list_elem_of_lookup. exists i. apply list_lookup_insert_eq. by eapply lookup_lt_Some.
    + rewrite lookup_delete_ne by done. destruct (H4 t k Hk Hb) as [?|[?|?]]; auto.
      right. left. by apply (callers_keep _ _ Idle).
Qed.

Lemma conf_ok_unregister_topics r ts rc i id :
  conf_ok (mkConf r ts rc) -> ts !! i = Some (UnregisterTopics id) ->
  conf_ok (mkConf (unregister_topics r id) (<[i := Idle]> ts) rc).
Proof.
  intros [H1 H2 H3 H4] Hi. cbn [cf_router cf_callers cf_raced] in *.
  assert (in_range U32 id) as Hid by eauto.
  split; cbn [cf_router cf_callers cf_raced]; [by apply unregister_topics_wf|..].
  - intros j k [Hj|[t Hj]]; eapply callers_insert in Hj as [[_ E]|[_ Hj]]; eauto; done.
  - intros j k t Hj. eapply callers_insert in Hj as [[_ E]|[_ Hj]]; [done|eauto|done].
  - intros t k Hk. rewrite subscribed_unregister by done. intros [Hne Hb]%andb_true_iff.
    destruct (H4 t k Hk Hb) as [?|[?|?]]; auto. right. left. eapply callers_keep; [done| |done].
    intros E. injection E as ->. by rewrite Z.eqb_refl in Hne.
Qed.

Lemma conf_ok_subscribe_clients r ts rc i id t s :
  conf_ok (mkConf r ts rc) -> ts !! i = Some Idle -> in_range U32 id -> clients r !! id = Some s ->
  conf_ok (mkConf (mkRouter (topics r) (<[id := set_state s Subscribed]> (clients r)))
    (<[i := SubscribeTopics id t]> ts) rc).
Proof.
  intros H Hi Hid Hs. assert (conf_ok (mkConf (mkRouter (topics r) (<[id := set_state s Subscribed]> (clients r))) ts rc)) as H'
    by (eapply conf_ok_stay; [done|by eapply same_sessions_update]).
  destruct H' as [H1 H2 H3 H4]. split; cbn [cf_router cf_callers cf_raced] in *; [done|..].
  - intros j k [Hj|[t' Hj]]; apply (callers_insert _ _ _ Idle) in Hj as [[_ E]|[_ Hj]]; eauto; [done|].
    by injection E as -> ->.
  - intros j k t' [[_ E]|[_ Hj]]%(callers_insert _ _ _ Idle); eauto. injection E as -> ->. left.
    cbn [clients]. by rewrite lookup_insert_eq.
  - intros t' k Hk Hb. destruct (H4 t' k Hk Hb) as [?|[?|?]]; auto.
    right. left. by apply (callers_keep _ _ Idle).
Qed.

Lemma conf_ok_subscribe_topics r ts rc i id t :
  conf_ok (mkConf r ts rc) -> ts !! i = Some (SubscribeTopics id t) ->
  conf_ok (mkConf (subscribe_topics r id t) (<[i := Idle]> ts) rc).
Proof.
  intros [H1 H2 H3 H4] Hi. cbn [cf_router cf_callers cf_raced] in *.
  assert (in_range U32 id) as Hid by eauto.
  split; cbn [cf_router cf_callers cf_raced]; [by apply subscribe_topics_wf|..].
  - intros j k [Hj|[t' Hj]]; eapply callers_insert in Hj as [[_ E]|[_ Hj]]; eauto; done.
  - intros j k t' Hj. eapply callers_insert in Hj as [[_ E]|[_ Hj]]; [done|by eapply H3|done].
  - intros t' k Hk. rewrite subscribed_subscribe by done. intros [Hn|Hb]%orb_true_iff.
    + breflect. destruct Hn as [_ ->]. destruct (H3 _ _ _ Hi); auto.
    + destruct (H4 t' k Hk Hb) as [?|[?|?]]; auto. right. left. by eapply callers_keep.
Qed.

Lemma call_client_same d st id ts :
  same_sessions (mkRouter ts (ds_clients st)) (mkRouter ts (ds_clients (call_client d st id))).
Proof. destruct d; apply dispatch_client_same. Qed.

Lemma router_step_ok c1 c2 : router_step c1 c2 -> conf_ok c1 -> conf_ok c2.
Proof.
  destruct 1 as [r ts rc i s Hi _ Hs|r ts rc i id r' res Hi _ Hid E|r ts rc i id Hi|r ts rc i id t r' res Hi Hid E
    |r ts rc i id t Hi|r ts rc i id t Hi Hid|r ts rc i id f Hi|r ts rc i d Hi|r ts rc i d b Hi|r ts rc i d st id ids st' Hi E
    |r ts rc i d st Hi]; intros H.
  - apply (conf_ok_frame r _ ts); auto.
    + by apply register_wf; [apply (conf_wf _ H)|].
    + intros j. unfold register_client. destruct (clients r !! cs_id s); [done|]. cbn. rewrite lookup_insert_is_Some. 
      destruct (decide (cs_id s = j)); auto.
    + intros t j _. unfold register_client. by destruct (clients r !! cs_id s).
  - unfold unregister_clients in E. destruct (clients r !! id) as [s|] eqn:Es; injection E as <- <-; [|done].
    by eapply conf_ok_unregister_clients.
  - by apply conf_ok_unregister_topics.
  - unfold subscribe_clients in E. destruct (clients r !! id) as [s|] eqn:Es; injection E as <- <-; [|done].
    by eapply conf_ok_subscribe_clients.
  - by apply conf_ok_subscribe_topics.
  - apply (conf_ok_frame r _ ts); auto.
    + by apply unsubscribe_wf; [apply (conf_wf _ H)|].
    + intros j. unfold unsubscribe. by destruct (topics r !! t).
    + intros t' j Hj. rewrite subscribed_unsubscribe by (try apply (conf_wf _ H); done). by intros [_ ?]%andb_true_iff.
  - eapply conf_ok_stay; [done|]. apply update_filter_same.
  - destruct (bitmap_is_empty _); [done|]. by eapply conf_ok_move.
  - by eapply conf_ok_move.
  - eapply conf_ok_move; [done| |done..]. subst st'.
    exact (call_client_same d (mkDispatch _ _ _ (clients r) _) id (topics r)).
  - by eapply conf_ok_move.
Qed.

Lemma conf_new_ok n : conf_ok (conf_new n).
Proof.
  split; cbn [cf_router cf_callers cf_raced conf_new].
  - apply router_ok_wf, router_new_ok.
  - intros i id [H|[t H]]; by apply lookup_replicate in H as [? _].
  - intros i id t H. by apply lookup_replicate in H as [? _].
  - intros t id _. unfold subscribed. cbn [topics router_new]. rewrite lookup_empty, default_none. by rewrite bitmap_new_contains.
Qed.

Lemma confs_ok c1 c2 : rtc router_step c1 c2 -> conf_ok c1 -> conf_ok c2.
Proof. induction 1; eauto using router_step_ok. Qed.

(** Between calls, and when no unregistration overtook a subscription, only registered clients are subscribed. *)
Lemma conf_ok_quiet c : conf_ok c -> Forall (fun t => t = Idle) (cf_callers c) -> cf_raced c = ∅ -> router_ok (cf_router c).
Proof.
  intros [H1 _ _ H4] Hi Hr. apply router_ok_subscribed; [done|]. intros t id Hid Hb.
  destruct (H4 t id Hid Hb) as [?|[Hu|Hu]]; [done| |rewrite Hr in Hu; set_solver].
  rewrite list.Forall_forall in Hi. by apply Hi in Hu.
Qed.

(** One caller never races with itself. *)
Lemma single_caller_step c1 c2 : router_step c1 c2 -> length (cf_callers c1) = 1%nat -> cf_raced c1 = ∅ ->
  length (cf_callers c2) = 1%nat /\ cf_raced c2 = ∅.
Proof.
  destruct 1 as [| r ts rc i id r' res Hi _ _ _| | r ts rc i id t r' [] | | | | r ts rc i d | | |];
    cbn [cf_callers cf_raced]; intros Hl Hr; rewrite ?length_insert; try done.
  - destruct res; [|done]. cbn [cf_callers cf_raced]. rewrite length_insert. split; [done|].
    destruct ts as [|c [|]]; try done. destruct i as [|i]; [|done]. by injection Hi as ->.
  - destruct (bitmap_is_empty _); rewrite ?length_insert; done.
Qed.
Lemma single_caller c1 c2 : rtc router_step c1 c2 -> length (cf_callers c1) = 1%nat -> cf_raced c1 = ∅ ->
  length (cf_callers c2) = 1%nat /\ cf_raced c2 = ∅.
Proof.
  induction 1 as [|c1 c2 c3 Hs _ IH]; [done|]. intros Hl Hr.
  destruct (single_caller_step c1 c2 Hs Hl Hr). by apply IH.
Qed.

(** The calls of one caller, each run to its end, are the methods. *)
Definition alone (r1 r2 : InvertedTopicRouter) : Prop :=
  rtc router_step (mkConf r1 [Idle] ∅) (mkConf r2 [Idle] ∅).

Lemma alone_register r s : in_range U32 (cs_id s) -> alone r (register_client r s).1.
Proof. intros Hs. apply rtc_once. by eapply (StepRegister _ _ _ 0). Qed.

Lemma alone_subscribe r id t : in_range U32 id -> alone r (subscribe r id t).1.
Proof.
  intros Hid. unfold subscribe. destruct (subscribe_clients r id) as [r' res] eqn:E.
  eapply rtc_l; [by eapply (StepSubscribe _ _ _ 0 id t)|]. destruct res; [|apply rtc_refl].
  apply rtc_once. exact (StepSubscribeTopics r' [SubscribeTopics id t] ∅ 0 id t eq_refl).
Qed.

Lemma alone_unregister r id : in_range U32 id -> alone r (unregister_client r id).1.
Proof.
  intros Hid. unfold unregister_client. destruct (unregister_clients r id) as [r' res] eqn:E.
  eapply rtc_l; [by eapply (StepUnregister _ _ _ 0 id)|]. destruct res; [|apply rtc_refl].
  apply rtc_once. exact (StepUnregisterTopics r' [UnregisterTopics id] ∅ 0 id eq_refl).
Qed.

(** The turns of a loop that nobody interrupts. *)
Lemma alone_turns d ids : forall r st, ds_clients st = clients r ->
  rtc router_step (mkConf r [DispatchLoop d st ids] ∅)
    (mkConf (mkRouter (topics r) (ds_clients (fold_left (call_client d) ids st))) [Idle] ∅).
Proof.
  induction ids as [|id ids IH]; intros [ts cs] st Hst; cbn [fold_left clients topics] in *; subst cs.
  - apply rtc_once. exact (StepReturn (mkRouter ts (ds_clients st)) [DispatchLoop d st []] ∅ 0 d st eq_refl).
  - eapply rtc_l; [exact (StepTurn (mkRouter ts (ds_clients st)) [DispatchLoop d st (id :: ids)] ∅ 0 d st id ids _ eq_refl eq_refl)|]. cbn [clients topics].
    destruct st as [m sb js cs k]. exact (IH (mkRouter ts _) _ eq_refl).
Qed.

(** A dispatch run to its end without interruption is [dispatch_bbo] or [dispatch_trade]. *)
Lemma alone_dispatch r d : router_wf r -> bitmap_ok (call_candidates r d) ->
  alone r (match d with
           | DispatchBbo bbo now => (dispatch_bbo r bbo now).1.1
           | DispatchTrade trade notional now => (dispatch_trade r trade notional now).1.1
           end).
Proof.
  intros Hr Hb. unfold alone. destruct r as [tps cs].
  set (r := mkRouter tps cs) in *. assert (router_step (mkConf r [Idle] ∅)
    (mkConf r (if bitmap_is_empty (call_candidates r d) then [Idle] else [DispatchClients d (call_candidates r d)]) ∅)) as H0
    by exact (StepDispatch r [Idle] ∅ 0 d eq_refl).
  destruct (bitmap_is_empty (call_candidates r d)) eqn:E.
  - destruct d; unfold dispatch_bbo, dispatch_trade; cbn [call_candidates] in E; rewrite E; apply rtc_refl.
  - eapply rtc_l; [exact H0|]. eapply rtc_l; [exact (StepDispatchClients r [DispatchClients d (call_candidates r d)] ∅ 0 d _ eq_refl)|].
    pose proof (alone_turns d (client_ids (call_candidates r d)) r (call_start d cs) eq_refl) as H.
    rewrite <- for_each_ids in H by done.
    destruct d; unfold dispatch_bbo, dispatch_trade; cbn [call_candidates] in *; rewrite E; exact H.
Qed.

Lemma bbo_candidates_contains r bbo id :
  0 <= id < MAX_CLIENT_CAPACITY -> router_wf r ->
  let key f := TopicKey_new (wrap U8 (bbo_venue bbo)) (bbo_market_id bbo) STREAM_TYPE_BBO f in
  bitmap_contains (bbo_candidates r bbo) id =
  subscribed r (key (bbo_flags bbo)) id || subscribed r (key 0) id.
Proof.
  intros Hid Hr key. unfold bbo_candidates, subscribed. fold (key (bbo_flags bbo)). fold (key 0).
  cbv zeta. destruct (Z.eqb_spec (key (bbo_flags bbo)) (key 0)) as [E|E]; cbn [negb].
  - by rewrite E, orb_diag.
  - rewrite !bitmap_contains_testbit by done. unfold bitmap_union.
    destruct (id_word id Hid) as (_ & _ & Hw & Hb). by rewrite word_at_map, Z.lor_spec by done.
Qed.

(** A router with one registered SBE client subscribed to the quotes of market 7 on Binance. *)
Definition demo_bbo : NormalizedBbo := mkBbo Telemetry_default 7 1 0 1 100 1 101 1 5 0.
Definition demo_key : Z := TopicKey_new 1 7 STREAM_TYPE_BBO 0.
Definition demo_router : InvertedTopicRouter :=
  (subscribe (register_client router_new (ClientSession_new 3 ProtoSbe 1000 10 0)).1 3 demo_key).1.

Lemma demo_router_alone : alone router_new demo_router.
Proof.
  unfold alone, demo_router. etransitivity; [apply (alone_register _ (ClientSession_new 3 ProtoSbe 1000 10 0)); by_eval|].
  apply alone_subscribe. by_eval.
Qed.

Lemma alone_ok r : alone router_new r -> router_ok r.
Proof.
  intros H. apply (conf_ok_quiet (mkConf r [Idle] ∅)); [|by apply list.Forall_singleton|done].
  exact (confs_ok _ _ H (conf_new_ok 1)).
Qed.

Lemma demo_router_ok : router_ok demo_router.
Proof. apply alone_ok, demo_router_alone. Qed.

Lemma demo_bbo_ok : Bbo_ok demo_bbo.
Proof. repeat constructor; by_eval. Qed.

Module Router.

(** C2: dispatching a quote sends exactly one SBE or JSON frame of that quote to each client
    that is in the exact-flags or the default topic, registered, active, within its spread filter and
    granted a token, in ascending id order, and nothing to anyone else; the metrics are the
    exact counts, and only the matched sessions change. *)
Theorem dispatch_bbo_exact (r : InvertedTopicRouter) (bbo : NormalizedBbo) (now : Z)
    (Hr : router_ok r) (Hb : Bbo_ok bbo) :
  let ids := client_ids (bbo_candidates r bbo) in
  let key f := TopicKey_new (wrap U8 (bbo_venue bbo)) (bbo_market_id bbo) STREAM_TYPE_BBO f in
  dispatch_spec (bbo_passes bbo) (bbo_wire bbo) (bbo_json_text bbo) now r ids (dispatch_bbo r bbo now) /\
  forall id, In id ids <-> 0 <= id < MAX_CLIENT_CAPACITY /\
    (subscribed r (key (bbo_flags bbo)) id || subscribed r (key 0) id) = true.
Proof.
  apply router_ok_wf in Hr. cbv zeta. split; [by apply dispatch_bbo_correct|]. intros id.
  rewrite bitmap_contains_spec by by apply bbo_candidates_ok. split; intros [H1 H2].
  - by rewrite bbo_candidates_contains in H2.
  - by rewrite bbo_candidates_contains.
Qed.

Lemma dispatch_bbo_exact_witness :
  (dispatch_bbo demo_router demo_bbo 0).2 = [(3, ProtoSbe, bbo_wire demo_bbo)].
Proof.
  destruct (dispatch_bbo_exact demo_router demo_bbo 0 demo_router_ok demo_bbo_ok) as [H _].
  destruct (dispatch_bbo demo_router demo_bbo 0) as [[r' m] k]. destruct H as [-> _].
  vm_compute. reflexivity.
Defined.

(** The same for a trade, with the client's minimum notional as the filter. *)
Theorem dispatch_trade_exact (r : InvertedTopicRouter) (trade : UnifiedTrade) (notional : f64)
    (now : Z) (Hr : router_ok r) (Ht : Trade_ok trade) :
  let ids := client_ids (trade_candidates r trade) in
  dispatch_spec (fun f => matches_trade f notional) (trade_wire trade) (trade_json_text trade) now r
    ids (dispatch_trade r trade notional now) /\
  forall id, In id ids <-> 0 <= id < MAX_CLIENT_CAPACITY /\
    subscribed r (TopicKey_new (wrap U8 (tr_venue trade)) (tr_market_id trade) STREAM_TYPE_TRADE 0) id
      = true.
Proof.
  apply router_ok_wf in Hr. cbv zeta. split; [by apply dispatch_trade_correct|]. intros id.
  apply bitmap_contains_spec. by apply topic_bitmap_ok.
Qed.

Lemma dispatch_trade_exact_witness :
  (dispatch_trade demo_router Trade_default (S754_zero false) 0).2 = [].
Proof.
  assert (Trade_ok Trade_default) as Ht by (repeat constructor; by_eval).
  destruct (dispatch_trade_exact demo_router Trade_default (S754_zero false) 0 demo_router_ok Ht)
    as [H _].
  destruct (dispatch_trade _ _ _ _) as [[r' m] k]. destruct H as [-> _]. vm_compute. reflexivity.
Defined.

(** C8: whatever calls any number of threads make on a new router, and however their critical sections interleave,
    every bitmap stays well formed, every session is stored under its own id, and a subscription bit names a
    client that is registered, or is being unregistered, or was unregistered while a subscription of it
    was under way.  So between calls, unless such a race happened, only registered clients are subscribed; with
    one caller it cannot happen. *)
Theorem reachable_ok (callers : nat) (c : router_conf) (Hc : rtc router_step (conf_new callers) c) :
  router_wf (cf_router c) /\
  (forall t id, 0 <= id < MAX_CLIENT_CAPACITY -> subscribed (cf_router c) t id = true ->
    is_Some (clients (cf_router c) !! id) \/ UnregisterTopics id ∈ cf_callers c \/ id ∈ cf_raced c) /\
  (Forall (fun t => t = Idle) (cf_callers c) -> cf_raced c = ∅ -> router_ok (cf_router c)) /\
  (callers = 1%nat -> cf_raced c = ∅).
Proof.
  pose proof (confs_ok _ _ Hc (conf_new_ok callers)) as H. split; [apply (conf_wf _ H)|]. split; [apply (conf_index _ H)|].
  split; [by apply conf_ok_quiet|]. intros ->. by apply (single_caller _ _ Hc).
Qed.

(** Two callers: the second unregisters client 3 while the first is between the sections of its subscription. *)
Lemma reachable_ok_witness :
  exists c, rtc router_step (conf_new 2) c /\ cf_callers c = [Idle; Idle] /\ clients (cf_router c) !! 3 = None /\
    subscribed (cf_router c) demo_key 3 = true /\ 3 ∈ cf_raced c.
Proof.
  assert (exists c, rtc router_step (conf_new 2) c /\ cf_callers c = [Idle; Idle] /\ clients (cf_router c) !! 3 = None /\
    subscribed (cf_router c) demo_key 3 = true) as (c & Hc & Hi & H3 & Hs).
  { eexists. split; [|split; [|split]].
    - eapply rtc_l; [by apply (StepRegister _ _ _ 0 (ClientSession_new 3 ProtoSbe 1000 10 0)); by_eval|].
      eapply rtc_l; [eapply (StepSubscribe _ _ _ 0 3 demo_key); [done|by_eval|reflexivity]|].
      eapply rtc_l; [eapply (StepUnregister _ _ _ 1 3); [done|done|by_eval|reflexivity]|].
      eapply rtc_l; [by apply (StepUnregisterTopics _ _ _ 1 3)|].
      eapply rtc_l; [by apply (StepSubscribeTopics _ _ _ 0 3 demo_key)|]. apply rtc_refl.
    - reflexivity.
    - vm_compute. reflexivity.
    - vm_compute. reflexivity. }
  exists c. repeat (split; [done|]). destruct (reachable_ok 2 c Hc) as (_ & Hx & _).
  destruct (Hx demo_key 3 ltac:(by_eval) Hs) as [[s E]|[E|E]]; [congruence| |exact E].
  rewrite Hi in E. set_solver.
Defined.

(** Unregistering a registered client leaves it in no bitmap and no session map, keeps
    every other subscription of the topics, and removes the topics left without clients;
    unregistering an unknown client is an error and changes nothing. *)
Theorem unregister_erases (r : InvertedTopicRouter) (id : Z) (Hr : router_ok r) (Hid : in_range U32 id) :
  let (r', res) := unregister_client r id in
  match clients r !! id with
  | None => r' = r /\ res = Err (ClientNotFound id)
  | Some _ =>
      res = Ok tt /\ clients r' = delete id (clients r) /\
      (forall t j, 0 <= j < MAX_CLIENT_CAPACITY ->
        subscribed r' t j = negb (j =? id) && subscribed r t j) /\
      (forall t b, topics r' !! t = Some b -> client_ids b <> [])
  end.
Proof.
  unfold unregister_client, unregister_clients. destruct (clients r !! id) as [s|]; [|done].
  split; [done|]. split; [done|]. split.
  - intros t j Hj. assert (router_wf (mkRouter (topics r) (delete id (clients r)))) as Hw
      by (split; [apply Hr|apply map_Forall_delete, Hr]).
    by rewrite subscribed_unregister.
  - intros t b (b0 & Hb0 & -> & He)%unregister_topics_lookup Hnil.
    apply bitmap_is_empty_ids in Hnil; [congruence|]. apply remove_any; [by apply (topics_ok _ Hr t)|mint].
Qed.

Lemma unregister_erases_witness :
  clients (unregister_client demo_router 3).1 = delete 3 (clients demo_router).
Proof.
  pose proof (unregister_erases demo_router 3 demo_router_ok ltac:(by_eval)) as H.
  destruct (unregister_client demo_router 3) as [r' res].
  destruct (clients demo_router !! 3) eqn:E; [exact (proj1 (proj2 H))|vm_compute in E; discriminate].
Defined.

(** [subscribe] and [unregister_client] are not atomic together: a subscription that has
    passed its client check while the client is unregistered leaves a bit behind, and the next
    client registered under the same id receives quotes it never subscribed to. *)
Theorem stale_subscription :
  let r0 := (register_client router_new (ClientSession_new 3 ProtoSbe 1000 10 0)).1 in
  let (r1, ok1) := subscribe_clients r0 3 in
  let (r2, ok2) := unregister_clients r1 3 in
  let r3 := unregister_topics r2 3 in
  let r4 := subscribe_topics r3 3 demo_key in
  let r5 := (register_client r4 (ClientSession_new 3 ProtoJson 1000 10 0)).1 in
  ok1 = Ok tt /\ ok2 = Ok tt /\ clients r4 !! 3 = None /\ subscribed r4 demo_key 3 = true /\
  (dispatch_bbo r5 demo_bbo 0).2 = [(3, ProtoJson, bbo_json_text demo_bbo)].
Proof. vm_compute. done. Qed.

(** And the other way round: a client that registers again and subscribes between the two sections of its
    unregistration keeps its session but loses its subscription, although both calls returned without an error. *)
Theorem lost_subscription :
  exists c, rtc router_step (conf_new 2) c /\ cf_callers c = [Idle; Idle] /\ cf_raced c = ∅ /\
    session_state <$> clients (cf_router c) !! 3 = Some Subscribed /\
    subscribed (cf_router c) demo_key 3 = false.
Proof.
  eexists. split; [|split; [|split; [|split]]].
  - eapply rtc_l; [by apply (StepRegister _ _ _ 0 (ClientSession_new 3 ProtoSbe 1000 10 0)); by_eval|].
    eapply rtc_l; [eapply (StepUnregister _ _ _ 1 3); [done|done|by_eval|reflexivity]|].
    eapply rtc_l; [by apply (StepRegister _ _ _ 0 (ClientSession_new 3 ProtoSbe 1000 10 0)); by_eval|].
    eapply rtc_l; [eapply (StepSubscribe _ _ _ 0 3 demo_key); [done|by_eval|reflexivity]|].
    eapply rtc_l; [by apply (StepSubscribeTopics _ _ _ 0 3 demo_key)|].
    eapply rtc_l; [by apply (StepUnregisterTopics _ _ _ 1 3)|]. apply rtc_refl.
  - reflexivity.
  - reflexivity.
  - vm_compute. reflexivity.
  - vm_compute. reflexivity.
Qed.

(** A client whose id is at or above the bitmap capacity can register and subscribe without an
    error, but is in no candidate set. *)
Theorem capacity_silently_exceeded (r : InvertedTopicRouter) (id t : Z) (s : ClientSession)
    (Hs : clients r !! id = Some s) (Hid : MAX_CLIENT_CAPACITY <= id) :
  (subscribe r id t).2 = Ok tt /\ subscribed (subscribe r id t).1 t id = false.
Proof.
  unfold subscribe, subscribe_clients. rewrite Hs. cbn [fst snd]. split; [done|].
  unfold subscribed. apply (out_of_capacity _ id Hid).
Qed.

End Router.
