(* ===== verification/WebSocket.v ===== *)
(** * distribution/src/websocket.rs: RFC 6455 framing and the server engine

    Lengths that come off the wire are 64-bit integers, so that the wrap-around of
    [header_len + payload_len] is visible; slicing with such a length is what can panic.  A call
    returns the router after it and the frames given to [send_response]/[send_fn], in order. *)

From Stdlib Require Import SpecFloat.
From S2P Require Import Prelude Bytes Models Sbe Decimal Text Json Bitmap Topic Session Router.

Inductive WsOpcode := OpContinuation | OpText | OpBinary | OpClose | OpPing | OpPong.

#[global] Instance WsOpcode_eq_dec : EqDecision WsOpcode.
Proof. solve_decision. Defined.

(** [opcode as u8]. *)
Definition WsOpcode_code (o : WsOpcode) : Z :=
  match o with
  | OpContinuation => 0 | OpText => 1 | OpBinary => 2 | OpClose => 8 | OpPing => 9 | OpPong => 10
  end.

Definition from_u8 (val : Z) : option WsOpcode :=
  let v := Z.land val 15 in
  if v =? 0 then Some OpContinuation
  else if v =? 1 then Some OpText
  else if v =? 2 then Some OpBinary
  else if v =? 8 then Some OpClose
  else if v =? 9 then Some OpPing
  else if v =? 10 then Some OpPong
  else None.

Inductive WsError :=
| WsBufferTooSmall (required provided : nat)
| IncompleteFrame
| InvalidOpcode (op : Z)
| MaskingRequired
| InvalidPayloadLength
| InvalidCommand
| WsClientNotFound (id : Z).

Record WsFrameHeader := mkWsHeader {
  fin : bool;
  opcode : WsOpcode;
  masked : bool;
  payload_len : Z;
  mask_key : bytes;
  header_len : nat;
}.

(** The [chunks_exact_mut(8)] loop: the unmasked chunks and the remainder. *)
Fixpoint unmask_chunks (mask_u64 : Z) (payload : bytes) : bytes * bytes :=
  match payload with
  | b0 :: b1 :: b2 :: b3 :: b4 :: b5 :: b6 :: b7 :: rest =>
      let val := of_le [b0; b1; b2; b3; b4; b5; b6; b7] in
      let (chunks, rem) := unmask_chunks mask_u64 rest in
      (to_le 8 (Z.lxor val mask_u64) ++ chunks, rem)
  | rem => ([], rem)
  end.

Definition unmask_payload (payload : bytes) (mask : bytes) : bytes :=
  let mask_u32 := of_le mask in
  let mask_u64 := Z.lor (mask_u32 <<[U64] 32) mask_u32 in
  let (chunks, rem) := unmask_chunks mask_u64 payload in
  let offset := (length payload - length rem)%nat in
  chunks ++ imap (fun i byte => Z.lxor byte (byte_at mask ((offset + i) mod 4))) rem.

Definition decode_ws_frame_header (buf : bytes) : result WsFrameHeader WsError :=
  if (length buf <? 2)%nat then Err IncompleteFrame
  else
    let b0 := byte_at buf 0 in
    let fin := negb (Z.land b0 128 =? 0) in
    match from_u8 b0 with
    | None => Err (InvalidOpcode (Z.land b0 15))
    | Some opcode =>
        let b1 := byte_at buf 1 in
        let masked := negb (Z.land b1 128 =? 0) in
        let len_byte := Z.land b1 127 in
        let? (payload_len, header_len) :=
          (if len_byte =? 126 then
             if (length buf <? 4)%nat then Err IncompleteFrame
             else Ok (of_be (slice buf 2 4), 4%nat)
           else if len_byte =? 127 then
             if (length buf <? 10)%nat then Err IncompleteFrame
             else Ok (of_be (slice buf 2 10), 10%nat)
           else Ok (len_byte, 2%nat)) in
        if masked then
          if (length buf <? header_len + 4)%nat then Err IncompleteFrame
          else Ok (mkWsHeader fin opcode masked payload_len
                 (slice buf header_len (header_len + 4)) (header_len + 4))
        else Ok (mkWsHeader fin opcode masked payload_len [0; 0; 0; 0] header_len)
    end.

Definition encode_ws_frame (opcode : WsOpcode) (payload out : bytes) : bytes * result nat WsError :=
  let payload_len := length payload in
  let header_len :=
    (if payload_len <? 126 then 2 else if payload_len <=? Z.to_nat 65535 then 4 else 10)%nat in
  let total_len := (header_len + payload_len)%nat in
  if (length out <? total_len)%nat
  then (out, Err (WsBufferTooSmall total_len (length out)))
  else
    let out := <[0%nat := Z.lor 128 (WsOpcode_code opcode)]> out in
    let out :=
      if (payload_len <? 126)%nat then <[1%nat := wrap U8 (Z.of_nat payload_len)]> out
      else if (payload_len <=? Z.to_nat 65535)%nat then
        splice (<[1%nat := 126]> out) 2 (to_be 2 (wrap U16 (Z.of_nat payload_len)))
      else splice (<[1%nat := 127]> out) 2 (to_be 8 (Z.of_nat payload_len)) in
    (splice out header_len payload, Ok total_len).

(** ** Client commands *)

Inductive ClientCommand :=
| CmdSubscribe (topic : Z)
| CmdUnsubscribe (topic : Z)
| CmdFilter (f : ClientFilterPredicate)
| CmdPing
| CmdPong.

Definition extract_json_u64 (s key : bytes) : option Z :=
  let pattern1 := [34] ++ key ++ [34; 58] in
  let pattern2 := [34] ++ key ++ [34; 32; 58] in
  let- pos := match str_find pattern1 s with Some p => Some p | None => str_find pattern2 s end in
  let start := (pos + length pattern1)%nat in
  let sl := trim_start (drop start s) in
  let ds := leading_digits sl in
  if (0 <? length ds)%nat then parse_u64 ds else None.

Definition parse_client_command (s : bytes) : option ClientCommand :=
  let contains p := contains s p in
  let action a := contains (jlit "'action':'" ++ a ++ [34]) || contains (jlit "'action': '" ++ a ++ [34]) in
  if negb (utf8_valid s) then None
  else if action (lit "ping") then Some CmdPing
  else if action (lit "pong") then Some CmdPong
  else if action (lit "subscribe") then
    let- venue := extract_json_u64 s (lit "venue") in
    let- market_id := extract_json_u64 s (lit "market_id") in
    let- stream_type := extract_json_u64 s (lit "stream_type") in
    let flags := default 0 (extract_json_u64 s (lit "flags")) in
    Some (CmdSubscribe (TopicKey_new (wrap U8 venue) (wrap U32 market_id) (wrap U8 stream_type)
      (wrap U32 flags)))
  else if action (lit "unsubscribe") then
    let- venue := extract_json_u64 s (lit "venue") in
    let- market_id := extract_json_u64 s (lit "market_id") in
    let- stream_type := extract_json_u64 s (lit "stream_type") in
    Some (CmdUnsubscribe (TopicKey_new (wrap U8 venue) (wrap U32 market_id) (wrap U8 stream_type) 0))
  else None.

(** ** The server engine *)

(** The engine's only field is its router. *)
Definition WebSocketServerEngine : Type := InvertedTopicRouter.

Definition engine_new : WebSocketServerEngine := router_new.

Definition handle_client_connect (e : WebSocketServerEngine) (client_id : Z) (p : WireProtocol)
    (rate_per_sec burst_capacity now_ms : Z) : WebSocketServerEngine * result Z WsError :=
  let session := ClientSession_new client_id p rate_per_sec burst_capacity now_ms in
  match register_client e session with
  | (e, Ok id) => (e, Ok id)
  | (e, Err _) => (e, Err (WsClientNotFound client_id))
  end.

Definition handle_client_disconnect (e : WebSocketServerEngine) (client_id : Z) : WebSocketServerEngine :=
  (unregister_client e client_id).1.

(** [let _ = writer.op(..)]. *)
Definition ignore (m : JW) (w : FastJsonWriter) : FastJsonWriter := (m w).1.

(** The three writes of a reply; the JSON text that was written. *)
Definition write_reply (size : nat) (prefix : bytes) (n : Z) : bytes :=
  let w := writer_new (replicate size 0) in
  let w := ignore (write_str prefix) w in
  let w := ignore (write_u64 n) w in
  let w := ignore (write_str (jlit "}")) w in
  take (pos w) (buf w).

(** [encode_ws_frame(op, payload, &mut [0; size])?; send_response(&buf[..len])]. *)
Definition respond (op : WsOpcode) (payload : bytes) (size : nat) : result (list bytes) WsError :=
  let (out, r) := encode_ws_frame op payload (replicate size 0) in
  let? len := r in Ok [take len out].

(** The router, the responses sent and the returned result. *)
Definition inbound_result : Type := WebSocketServerEngine * list bytes * result unit WsError.

Definition answer (e : WebSocketServerEngine) (r : result (list bytes) WsError) : inbound_result :=
  match r with
  | Ok frames => (e, frames, Ok tt)
  | Err err => (e, [], Err err)
  end.

Definition handle_command (e : WebSocketServerEngine) (client_id : Z) (cmd : ClientCommand)
    (now_ms : Z) : inbound_result :=
  match cmd with
  | CmdSubscribe topic =>
      match subscribe e client_id topic with
      | (e, Err _) => (e, [], Err (WsClientNotFound client_id))
      | (e, Ok _) =>
          answer e (respond OpText (write_reply 128 (jlit "{'type':'subscribed','topic':") topic) 256)
      end
  | CmdUnsubscribe topic =>
      match unsubscribe e client_id topic with
      | (e, Err _) => (e, [], Err (WsClientNotFound client_id))
      | (e, Ok _) => (e, [], Ok tt)
      end
  | CmdPing => answer e (respond OpText (write_reply 64 (jlit "{'type':'pong','ts':") now_ms) 128)
  | _ => (e, [], Ok tt)
  end.

Definition handle_payload (e : WebSocketServerEngine) (client_id : Z) (op : WsOpcode)
    (payload : bytes) (now_ms : Z) : inbound_result :=
  match op with
  | OpPing => answer e (respond OpPong payload 256)
  | OpPong => (e, [], Ok tt)
  | OpClose => answer (handle_client_disconnect e client_id) (respond OpClose [] 16)
  | OpText =>
      match parse_client_command payload with
      | Some cmd => handle_command e client_id cmd now_ms
      | None => (e, [], Ok tt)
      end
  | _ => (e, [], Ok tt)
  end.

Definition handle_inbound_frame (e : WebSocketServerEngine) (client_id : Z) (frame_bytes : bytes)
    (now_ms : Z) : outcome inbound_result :=
  match decode_ws_frame_header frame_bytes with
  | Err err => Done (e, [], Err err)
  | Ok header =>
      let total_required := Z.of_nat (header_len header) +[USIZE] payload_len header in
      if Z.of_nat (length frame_bytes) <? total_required then Done (e, [], Err IncompleteFrame)
      else if total_required <? Z.of_nat (header_len header) then Panic
      else
        let payload := slice frame_bytes (header_len header) (Z.to_nat total_required) in
        let payload :=
          if masked header then unmask_payload payload (mask_key header) else payload in
        Done (handle_payload e client_id (opcode header) payload now_ms)
  end.

(** The closures of [broadcast_bbo] and [broadcast_trade]: two cached frames. *)
Record FrameCache := mkCache { framed_sbe : bytes; sbe_cached_len : nat;
  framed_json : bytes; json_cached_len : nat; sent : list (Z * bytes) }.

Definition cache_new : FrameCache := mkCache (replicate 256 0) 0 (replicate 1024 0) 0 [].

Definition cache_frame (op : WsOpcode) (raw buf : bytes) (len : nat) : bytes * nat :=
  if (len =? 0)%nat then
    match encode_ws_frame op raw buf with
    | (out, Ok n) => (out, n)
    | (out, Err _) => (out, len)
    end
  else (buf, len).

Definition broadcast_sink (c : FrameCache) (d : Z * WireProtocol * bytes) : FrameCache :=
  let '(client_id, p, raw_payload) := d in
  match p with
  | ProtoSbe =>
      let (out, len) := cache_frame OpBinary raw_payload (framed_sbe c) (sbe_cached_len c) in
      mkCache out len (framed_json c) (json_cached_len c)
        (if (0 <? len)%nat then sent c ++ [(client_id, take len out)] else sent c)
  | ProtoJson =>
      let (out, len) := cache_frame OpText raw_payload (framed_json c) (json_cached_len c) in
      mkCache (framed_sbe c) (sbe_cached_len c) out len
        (if (0 <? len)%nat then sent c ++ [(client_id, take len out)] else sent c)
  end.

(** The sink is called during the dispatch, in delivery order. *)
Definition broadcast_bbo (e : WebSocketServerEngine) (bbo : NormalizedBbo) (now_ms : Z) :
    WebSocketServerEngine * DispatchMetrics * list (Z * bytes) :=
  let '(e, metrics, deliveries) := dispatch_bbo e bbo now_ms in
  (e, metrics, sent (fold_left broadcast_sink deliveries cache_new)).

Definition broadcast_trade (e : WebSocketServerEngine) (trade : UnifiedTrade) (notional_usd : f64)
    (now_ms : Z) : WebSocketServerEngine * DispatchMetrics * list (Z * bytes) :=
  let '(e, metrics, deliveries) := dispatch_trade e trade notional_usd now_ms in
  (e, metrics, sent (fold_left broadcast_sink deliveries cache_new)).

(** ** Masking is a bytewise exclusive or *)

Lemma testbit_byte_cons b x n :
  in_range U8 b -> 0 <= n ->
  Z.testbit (b + 256 * x) n = if n <? 8 then Z.testbit b n else Z.testbit x (n - 8).
Proof.
  intros Hb Hn. destruct (Z.ltb_spec n 8).
  - rewrite <- (Z.mod_pow2_bits_low (b + 256 * x) 8) by lia. f_equal.
    change (2 ^ 8) with 256. rewrite Z.mul_comm, Z_mod_plus_full. apply Z.mod_small. mint.
  - replace n with ((n - 8) + 8) at 1 by lia. rewrite <- Z.div_pow2_bits by lia. f_equal.
    change (2 ^ 8) with 256. rewrite Z.mul_comm, Z.div_add, Z.div_small by mint. lia.
Qed.

Lemma lxor_byte a b : in_range U8 a -> in_range U8 b -> in_range U8 (Z.lxor a b).
Proof.
  intros Ha Hb. assert (0 <= Z.lxor a b) as H by (apply Z.lxor_nonneg; mint_unfold; lia).
  assert (Z.lxor a b < 2 ^ 8); [|mint].
  apply Z.bounded_iff_bits_nonneg; [lia|done|]. intros k Hk. rewrite Z.lxor_spec.
  rewrite (proj1 (Z.bounded_iff_bits_nonneg 8 a ltac:(lia) ltac:(mint))) by mint.
  rewrite (proj1 (Z.bounded_iff_bits_nonneg 8 b ltac:(lia) ltac:(mint))) by mint. done.
Qed.

Lemma lxor_byte_cons b1 b2 x y :
  in_range U8 b1 -> in_range U8 b2 ->
  Z.lxor (b1 + 256 * x) (b2 + 256 * y) = Z.lxor b1 b2 + 256 * Z.lxor x y.
Proof.
  intros H1 H2. apply Z.bits_inj'. intros n Hn.
  rewrite Z.lxor_spec, !testbit_byte_cons by (done || by apply lxor_byte).
  by destruct (n <? 8); rewrite Z.lxor_spec.
Qed.

Lemma of_le_lxor l1 l2 :
  is_bytes l1 -> is_bytes l2 -> length l1 = length l2 ->
  Z.lxor (of_le l1) (of_le l2) = of_le (zip_with Z.lxor l1 l2).
Proof.
  intros H1. revert l2. induction H1 as [|b1 l1 Hb1 _ IH]; intros [|b2 l2] H2 Hl; try done.
  inversion H2; subst. cbn [of_le zip_with]. rewrite lxor_byte_cons by done. rewrite IH; auto.
Qed.

Lemma zip_lxor_bytes l1 l2 : is_bytes l1 -> is_bytes l2 -> is_bytes (zip_with Z.lxor l1 l2).
Proof.
  intros H1. revert l2. induction H1 as [|b1 l1 Hb1 _ IH]; intros [|b2 l2] H2; try constructor.
  - inversion H2; subst. by apply lxor_byte.
  - inversion H2; subst. by apply IH.
Qed.

(** The payload exclusive-or'ed with the mask repeated from its first byte. *)
Definition xor_mask (mask payload : bytes) : bytes :=
  imap (fun i byte => Z.lxor byte (byte_at mask (i mod 4))) payload.

Lemma mask_u64_eq m0 m1 m2 m3 :
  is_bytes [m0; m1; m2; m3] ->
  Z.lor (of_le [m0; m1; m2; m3] <<[U64] 32) (of_le [m0; m1; m2; m3]) =
  of_le [m0; m1; m2; m3; m0; m1; m2; m3].
Proof.
  intros H. pose proof (of_le_range _ H) as Hr. change (256 ^ Z.of_nat _) with (2 ^ 32) in Hr.
  rewrite wrap_id by (rewrite Z.shiftl_mul_pow2 by lia; mint).
  rewrite lor_shift_add by lia. cbn [of_le]. lia.
Qed.

Lemma unmask_chunks_spec m0 m1 m2 m3 n payload :
  is_bytes [m0; m1; m2; m3] -> is_bytes payload -> (length payload <= n)%nat ->
  let (chunks, rem) := unmask_chunks (of_le [m0; m1; m2; m3; m0; m1; m2; m3]) payload in
  length payload = (length chunks + length rem)%nat /\ (length chunks mod 4 = 0)%nat /\
  chunks ++ imap (fun i byte => Z.lxor byte (byte_at [m0; m1; m2; m3] (i mod 4))) rem =
  xor_mask [m0; m1; m2; m3] payload.
Proof.
  intros Hm. revert payload. induction n as [n IH] using lt_wf_ind. intros payload Hp Hn.
  do 8 (destruct payload as [|? payload]; [done|]). cbn [unmask_chunks].
  set (l := [z; z0; z1; z2; z3; z4; z5; z6]).
  assert (is_bytes l /\ is_bytes payload) as [Hl Hrest].
  { apply (Forall_app _ l payload). done. }
  specialize (IH (length payload)). cbn [length] in Hn.
  specialize (IH ltac:(lia) payload Hrest ltac:(lia)).
  destruct (unmask_chunks _ payload) as [chunks rem]. destruct IH as (H1 & H2 & H3).
  assert (is_bytes [m0; m1; m2; m3; m0; m1; m2; m3]) as Hm8.
  { apply (Forall_app _ [m0; m1; m2; m3] [m0; m1; m2; m3]). done. }
  rewrite of_le_lxor by done. rewrite to_le_of_le by (done || by apply zip_lxor_bytes).
  split; [rewrite length_app; cbn [length] in *; cbn; lia|].
  split.
  - rewrite length_app. change (length (zip_with _ _ _)) with (2 * 4)%nat.
    by rewrite Nat.add_comm, Nat.Div0.mod_add.
  - rewrite <- app_assoc, H3. unfold xor_mask. cbn [imap zip_with l app compose].
    do 8 f_equal. apply imap_ext. intros i x _. cbn [compose].
    f_equal. f_equal. change (S (S (S (S (S (S (S (S i)))))))) with (2 * 4 + i)%nat.
    by rewrite Nat.add_comm, Nat.Div0.mod_add.
Qed.

Lemma unmask_payload_spec mask payload :
  is_bytes mask -> length mask = 4%nat -> is_bytes payload ->
  unmask_payload payload mask = xor_mask mask payload.
Proof.
  intros Hm Hl Hp. destruct mask as [|m0 [|m1 [|m2 [|m3 [|]]]]]; try done.
  unfold unmask_payload. rewrite mask_u64_eq by done.
  pose proof (unmask_chunks_spec m0 m1 m2 m3 (length payload) payload Hm Hp ltac:(lia)) as H.
  destruct (unmask_chunks _ payload) as [chunks rem]. destruct H as (H1 & H2 & <-).
  f_equal. apply imap_ext. intros i x _. do 2 f_equal.
  replace (length payload - length rem)%nat with (length chunks) by lia.
  rewrite <- Nat.Div0.add_mod_idemp_l, H2. done.
Qed.

Lemma xor_mask_involutive mask payload : xor_mask mask (xor_mask mask payload) = payload.
Proof.
  apply list_eq. intros i. unfold xor_mask. rewrite !list_lookup_imap.
  destruct (payload !! i) as [x|]; cbn; [|done].
  by rewrite Z.lxor_assoc, Z.lxor_nilpotent, Z.lxor_0_r.
Qed.

Lemma xor_mask_bytes mask payload :
  is_bytes mask -> is_bytes payload -> is_bytes (xor_mask mask payload).
Proof.
  intros Hm Hp. unfold xor_mask, is_bytes. apply Forall_lookup. intros i x.
  rewrite list_lookup_imap. generalize (i mod 4)%nat as k. intros k.
  destruct (payload !! i) as [y|] eqn:E; [|done]. intros [= <-].
  apply lxor_byte; [by apply (Forall_lookup_1 _ _ _ _ Hp E)|].
  unfold byte_at. destruct (nth_in_or_default k mask 0) as [Hin| ->]; [|by_eval].
  unfold is_bytes in Hm. by eapply List.Forall_forall in Hm.
Qed.

Lemma length_xor_mask mask payload : length (xor_mask mask payload) = length payload.
Proof. apply length_imap. Qed.

(** ** Frames *)

(** The length field of RFC 6455, with the mask bit [mb] (0 or 128). *)
Definition len_field (mb n : Z) : bytes :=
  if n <? 126 then [mb + n]
  else if n <=? 65535 then (mb + 126) :: to_be 2 n
  else (mb + 127) :: to_be 8 n.

(** An unmasked server frame and a masked client frame. *)
Definition server_frame (op : WsOpcode) (payload : bytes) : bytes :=
  Z.lor 128 (WsOpcode_code op) :: len_field 0 (Z.of_nat (length payload)) ++ payload.
Definition client_header (op : WsOpcode) (mask : bytes) (n : Z) : bytes :=
  Z.lor 128 (WsOpcode_code op) :: len_field 128 n ++ mask.
Definition client_frame (op : WsOpcode) (mask payload : bytes) : bytes :=
  client_header op mask (Z.of_nat (length payload)) ++ xor_mask mask payload.

Lemma first_byte op :
  from_u8 (Z.lor 128 (WsOpcode_code op)) = Some op /\
  negb (Z.land (Z.lor 128 (WsOpcode_code op)) 128 =? 0) = true.
Proof. by destruct op. Qed.

Lemma second_byte mb l :
  (mb = 0 \/ mb = 128) -> 0 <= l < 128 ->
  negb (Z.land (mb + l) 128 =? 0) = (mb =? 128) /\ Z.land (mb + l) 127 = l.
Proof.
  intros Hmb Hl.
  assert (Forall (fun l => Forall (fun mb => negb (Z.land (mb + l) 128 =? 0) = (mb =? 128) /\
    Z.land (mb + l) 127 = l) [0; 128]) (seqZ 0 128)) as H.
  { apply (bool_decide_unpack _). vm_compute. exact I. }
  rewrite List.Forall_forall in H. specialize (H l (proj2 (in_seqZ _ _ _) Hl)).
  rewrite List.Forall_forall in H. apply H. destruct Hmb as [-> | ->]; cbn; auto.
Qed.

Lemma length_len_field mb n :
  length (len_field mb n) = if n <? 126 then 1%nat else if n <=? 65535 then 3%nat else 9%nat.
Proof. unfold len_field. by repeat split_if. Qed.

Lemma slice_cons {A} (x : A) l a b : slice (x :: l) (S a) (S b) = slice l a b.
Proof. done. Qed.

Lemma slice_prefix {A} (l1 l2 : list A) n : length l1 = n -> slice (l1 ++ l2) 0 n = l1.
Proof. intros <-. rewrite slice_app_l by lia. by apply slice_full. Qed.

(** The header decoder on the first bytes of a frame, masked or not, whatever follows. *)
Lemma decode_header_spec op mb n rest :
  (mb = 0 \/ mb = 128) -> 0 <= n < 2 ^ 64 ->
  (mb = 128 -> (4 <= length rest)%nat) ->
  let hl := S (length (len_field mb n)) in
  decode_ws_frame_header (Z.lor 128 (WsOpcode_code op) :: len_field mb n ++ rest) =
  Ok (if mb =? 128 then mkWsHeader true op true n (take 4 rest) (hl + 4)
      else mkWsHeader true op false n [0; 0; 0; 0] hl).
Proof.
  intros Hmb Hn Hrest hl. unfold decode_ws_frame_header.
  destruct (first_byte op) as [Hop Hfin].
  assert (exists l2, len_field mb n ++ rest = (mb + (if n <? 126 then n else if n <=? 65535 then 126
    else 127)) :: l2) as [l2 El].
  { unfold len_field. repeat split_if; eexists; reflexivity. }
  assert (0 <= (if n <? 126 then n else if n <=? 65535 then 126 else 127) < 128) as Hb by (repeat split_if; lia).
  destruct (second_byte mb _ Hmb Hb) as [Hm Hl].
  assert (length (len_field mb n) + length rest = S (length l2))%nat as Hlen
    by (rewrite <- length_app, El; done).
  change (byte_at (?a :: ?l) 0) with a. change (byte_at (?a :: ?l) 1) with (byte_at l 0).
  rewrite Hop, Hfin, length_cons, length_app. 
  replace (byte_at (len_field mb n ++ rest) 0) with (mb + (if n <? 126 then n else if n <=? 65535 then 126
    else 127)) by (by rewrite El).
  rewrite Hm, Hl, Hlen, (proj2 (Nat.ltb_ge _ 2)) by lia. rewrite (slice_cons _ _ 1), (slice_cons _ _ 1).
  assert (slice (Z.lor 128 (WsOpcode_code op) :: len_field mb n ++ rest) hl (hl + 4) = take 4 rest) as Hmask.
  { unfold hl. cbn [Nat.add]. rewrite slice_cons. rewrite (slice_app_r _ _ _ _ _ eq_refl) by lia.
    unfold slice. rewrite Nat.sub_diag, drop_0. f_equal. lia. }
  subst hl. rewrite length_len_field in *. unfold len_field in *.
  destruct (Z.ltb_spec n 126); [|destruct (Z.leb_spec n 65535)].
  - rewrite (proj2 (Z.eqb_neq n 126)), (proj2 (Z.eqb_neq n 127)) by lia. cbn [result_bind].
    destruct (Z.eqb_spec mb 128) as [E|E]; [|done]. specialize (Hrest E).
    rewrite (proj2 (Nat.ltb_ge _ _)) by lia. by rewrite Hmask.
  - cbn [Z.eqb Pos.eqb]. rewrite (proj2 (Nat.ltb_ge _ _)) by lia.
    cbn [app] in Hmask |- *. rewrite slice_cons, slice_prefix by apply length_to_be.
    rewrite of_be_to_be, Z.mod_small by (cbn; lia). cbn [result_bind].
    destruct (Z.eqb_spec mb 128) as [E|E]; [|done]. specialize (Hrest E).
    rewrite (proj2 (Nat.ltb_ge _ _)) by lia. by rewrite Hmask.
  - cbn [Z.eqb Pos.eqb]. rewrite (proj2 (Nat.ltb_ge _ _)) by lia.
    cbn [app] in Hmask |- *. rewrite slice_cons, slice_prefix by apply length_to_be.
    rewrite of_be_to_be, Z.mod_small by (cbn; lia). cbn [result_bind].
    destruct (Z.eqb_spec mb 128) as [E|E]; [|done]. specialize (Hrest E).
    rewrite (proj2 (Nat.ltb_ge _ _)) by lia. by rewrite Hmask.
Qed.

(** ** The encoder *)

Lemma insert_first {A} (x : A) l : (0 < length l)%nat -> <[0%nat := x]> l = x :: drop 1 l.
Proof. by destruct l; [cbn; lia|]. Qed.

Lemma insert_second {A} (x y : A) l : (1 < length l)%nat -> <[1%nat := y]> (x :: drop 1 l) = [x; y] ++ drop 2 l.
Proof. by destruct l as [|? [|]]; cbn; try lia. Qed.

Lemma encode_ws_frame_spec op payload out :
  Z.of_nat (length payload) < 2 ^ 63 ->
  let f := server_frame op payload in
  encode_ws_frame op payload out =
  if (length out <? length f)%nat then (out, Err (WsBufferTooSmall (length f) (length out)))
  else (f ++ drop (length f) out, Ok (length f)).
Proof.
  intros Hp f. set (n := Z.of_nat (length payload)) in *.
  assert (length f = (if (n <? 126)%Z then 2 else if (n <=? 65535)%Z then 4 else 10) + length payload)%nat as Hf.
  { unfold f, server_frame. cbn [length]. rewrite length_app, length_len_field. fold n. by repeat split_if. }
  unfold encode_ws_frame.
  replace (length payload <? 126)%nat with (n <? 126)
    by (unfold n; destruct (Z.ltb_spec (Z.of_nat (length payload)) 126);
        [rewrite (proj2 (Nat.ltb_lt _ _)) by lia|rewrite (proj2 (Nat.ltb_ge _ _)) by lia]; done).
  replace (length payload <=? Z.to_nat 65535)%nat with (n <=? 65535)
    by (unfold n; destruct (Z.leb_spec (Z.of_nat (length payload)) 65535);
        [rewrite (proj2 (Nat.leb_le _ _)) by lia|rewrite (proj2 (Nat.leb_gt _ _)) by lia]; done).
  rewrite <- Hf. cbv zeta. destruct (Nat.ltb_spec (length out) (length f)) as [|Hl]; [done|].
  fold n. f_equal. unfold f, server_frame. fold n. unfold len_field.
  rewrite insert_first by (destruct (n <? 126), (n <=? 65535); lia).
  destruct (Z.ltb_spec n 126); [|destruct (Z.leb_spec n 65535)].
  - rewrite insert_second by lia. rewrite wrap_id by mint.
    rewrite (splice_next [_; _]) with (m := length f) by (done || lia). cbn [app]. 
    rewrite Hf. done.
  - rewrite insert_second by lia. rewrite wrap_id by mint.
    rewrite (splice_next [_; _]) with (m := 4%nat) by (done || by rewrite length_to_be).
    rewrite (splice_next (_ ++ to_be 2 n)) with (m := length f)
      by (rewrite ?length_app, ?length_to_be; done || lia). by rewrite Hf.
  - rewrite insert_second by lia.
    rewrite (splice_next [_; _]) with (m := 10%nat) by (done || by rewrite length_to_be).
    rewrite (splice_next (_ ++ to_be 8 n)) with (m := length f)
      by (rewrite ?length_app, ?length_to_be; done || lia). by rewrite Hf.
Qed.

(** ** Client frames *)

Lemma length_client_header op mask n :
  length mask = 4%nat -> length (client_header op mask n) = (S (length (len_field 128 n)) + 4)%nat.
Proof. intros H. unfold client_header. rewrite length_cons, length_app, H. lia. Qed.

Lemma decode_client_header op mask n rest :
  length mask = 4%nat -> 0 <= n < 2 ^ 64 ->
  decode_ws_frame_header (client_header op mask n ++ rest) =
  Ok (mkWsHeader true op true n mask (length (client_header op mask n))).
Proof.
  intros Hm Hn. rewrite length_client_header by done. unfold client_header.
  rewrite <- app_comm_cons, <- app_assoc.
  rewrite decode_header_spec; [|by right|done|rewrite length_app; lia].
  cbn [Z.eqb Pos.eqb]. by rewrite <- Hm, take_app_length.
Qed.

(** A complete client frame at the front of the bytes received is handled as its payload. *)
Lemma inbound_complete e id op mask payload rest now :
  is_bytes mask -> length mask = 4%nat -> is_bytes payload ->
  Z.of_nat (length payload) < 2 ^ 63 ->
  handle_inbound_frame e id (client_frame op mask payload ++ rest) now =
  Done (handle_payload e id op payload now).
Proof.
  intros Hm Hl Hp Hlen. unfold handle_inbound_frame, client_frame. rewrite <- app_assoc.
  set (n := Z.of_nat (length payload)). set (h := client_header op mask n).
  unfold h at 1. rewrite decode_client_header by lia. fold h.
  cbn [header_len payload_len masked mask_key opcode].
  assert (length h <= 14)%nat as Hh.
  { unfold h. rewrite length_client_header, length_len_field by done.
    destruct (n <? 126), (n <=? 65535); lia. }
  rewrite wrap_id by (unfold n; mint).
  rewrite !length_app, length_xor_mask. unfold n.
  rewrite (proj2 (Z.ltb_ge _ _)) by lia. rewrite (proj2 (Z.ltb_ge _ _)) by lia. fold n.
  assert (slice (h ++ xor_mask mask payload ++ rest) (length h)
    (Z.to_nat (Z.of_nat (length h) + n)) = xor_mask mask payload) as ->.
  { rewrite (slice_app_r _ _ _ _ _ eq_refl), Nat.sub_diag by lia.
    apply slice_prefix. rewrite length_xor_mask. unfold n. lia. }
  rewrite unmask_payload_spec by (done || by apply xor_mask_bytes).
  by rewrite xor_mask_involutive.
Qed.

(** A header cut short. *)
Lemma decode_header_short buf :
  (length buf < 2)%nat -> decode_ws_frame_header buf = Err IncompleteFrame.
Proof. intros H. unfold decode_ws_frame_header. by rewrite (proj2 (Nat.ltb_lt _ _)) by done. Qed.

Lemma take_client_header op mask n k :
  length mask = 4%nat -> 0 <= n < 2 ^ 64 -> (2 <= k < length (client_header op mask n))%nat ->
  decode_ws_frame_header (take k (client_header op mask n)) = Err IncompleteFrame.
Proof.
  intros Hm Hn Hk. pose proof (length_client_header op mask n Hm) as Hlen.
  assert (length (take k (client_header op mask n)) = k) as Hk' by (rewrite length_take; lia).
  unfold decode_ws_frame_header. rewrite Hk', (proj2 (Nat.ltb_ge _ _)) by lia.
  destruct (first_byte op) as [Hop Hfin].
  assert (exists l2, take k (client_header op mask n) = Z.lor 128 (WsOpcode_code op) ::
    (128 + (if n <? 126 then n else if n <=? 65535 then 126 else 127)) :: l2) as [l2 E].
  { destruct k as [|[|k]]; [lia..|]. unfold client_header, len_field.
    repeat split_if; cbn [take app firstn]; eexists; reflexivity. }
  rewrite E. change (byte_at (?a :: ?b :: ?l) 0) with a. change (byte_at (?a :: ?b :: ?l) 1) with b.
  assert (0 <= (if n <? 126 then n else if n <=? 65535 then 126 else 127) < 128) as Hb by (repeat split_if; lia).
  destruct (second_byte 128 _ (or_intror eq_refl) Hb) as [Hmk Hl].
  rewrite Hop, Hmk, Hl. change (128 =? 128) with true. rewrite length_len_field in Hlen.
  destruct (Z.ltb_spec n 126); [|destruct (Z.leb_spec n 65535)].
  - rewrite (proj2 (Z.eqb_neq n 126)), (proj2 (Z.eqb_neq n 127)) by lia. cbn [result_bind].
    by rewrite (proj2 (Nat.ltb_lt _ _)) by lia.
  - cbn [Z.eqb Pos.eqb]. destruct (k <? 4)%nat; [done|]. cbn [result_bind].
    by rewrite (proj2 (Nat.ltb_lt _ _)) by lia.
  - cbn [Z.eqb Pos.eqb]. destruct (k <? 10)%nat; [done|]. cbn [result_bind].
    by rewrite (proj2 (Nat.ltb_lt _ _)) by lia.
Qed.

Lemma inbound_truncated e id op mask payload k now :
  length mask = 4%nat -> Z.of_nat (length payload) < 2 ^ 63 ->
  (k < length (client_frame op mask payload))%nat ->
  handle_inbound_frame e id (take k (client_frame op mask payload)) now =
  Done (e, [], Err IncompleteFrame).
Proof.
  intros Hl Hlen Hk. unfold client_frame in *. set (n := Z.of_nat (length payload)) in *.
  set (h := client_header op mask n) in *. rewrite length_app, length_xor_mask in Hk.
  unfold handle_inbound_frame. destruct (Nat.lt_ge_cases k (length h)) as [Hkh|Hkh].
  - rewrite take_app_le by lia. destruct (Nat.lt_ge_cases k 2).
    + by rewrite decode_header_short by (rewrite length_take; lia).
    + unfold h in *. by rewrite take_client_header by (done || lia).
  - rewrite take_app_ge by done. unfold h at 1. rewrite decode_client_header by lia. fold h.
    cbn [header_len payload_len].
    assert (length h <= 14)%nat.
    { unfold h. rewrite length_client_header, length_len_field by done.
      destruct (n <? 126), (n <=? 65535); lia. }
    rewrite wrap_id by (unfold n; mint). rewrite length_app, length_take, length_xor_mask.
    by rewrite (proj2 (Z.ltb_lt _ _)) by (unfold n; lia).
Qed.

(** ** Broadcasting *)

(** The frame a client of each protocol receives. *)
Definition broadcast_frame (p : WireProtocol) (raw : bytes) : bytes :=
  server_frame (match p with ProtoSbe => OpBinary | ProtoJson => OpText end) raw.

(** The two payloads of one broadcast, small enough for the frame buffers. *)
Definition cache_ok (sbe json : bytes) (c : FrameCache) : Prop :=
  (if (sbe_cached_len c =? 0)%nat then length (framed_sbe c) = 256%nat
   else sbe_cached_len c = length (broadcast_frame ProtoSbe sbe) /\
     take (sbe_cached_len c) (framed_sbe c) = broadcast_frame ProtoSbe sbe) /\
  (if (json_cached_len c =? 0)%nat then length (framed_json c) = 1024%nat
   else json_cached_len c = length (broadcast_frame ProtoJson json) /\
     take (json_cached_len c) (framed_json c) = broadcast_frame ProtoJson json).

Lemma length_server_frame op raw :
  (length raw + 2 <= length (server_frame op raw) <= length raw + 10)%nat.
Proof.
  unfold server_frame. rewrite length_cons, length_app, length_len_field.
  destruct (Z.of_nat (length raw) <? 126), (Z.of_nat (length raw) <=? 65535); lia.
Qed.

Lemma cache_frame_spec op raw size out len :
  (length raw + 10 <= size)%nat -> Z.of_nat size < 2 ^ 62 ->
  (if (len =? 0)%nat then length out = size
   else len = length (server_frame op raw) /\ take len out = server_frame op raw) ->
  let (out', len') := cache_frame op raw out len in
  len' = length (server_frame op raw) /\ (0 < len')%nat /\ take len' out' = server_frame op raw.
Proof.
  intros Hraw Hs H. pose proof (length_server_frame op raw). unfold cache_frame.
  destruct (Nat.eqb_spec len 0) as [->|Hne].
  - rewrite encode_ws_frame_spec by lia. cbv zeta. rewrite (proj2 (Nat.ltb_ge _ _)) by lia.
    rewrite take_app_length. repeat split; lia.
  - destruct H as [-> E]. rewrite E. repeat split; lia.
Qed.

Lemma broadcast_sink_spec sbe json c id p :
  (length sbe + 10 <= 256)%nat -> (length json + 10 <= 1024)%nat -> cache_ok sbe json c ->
  let c' := broadcast_sink c (id, p, payload sbe json p) in
  cache_ok sbe json c' /\ sent c' = sent c ++ [(id, broadcast_frame p (payload sbe json p))].
Proof.
  intros H1 H2 [Hc1 Hc2]. unfold broadcast_sink, cache_ok, broadcast_frame in *. destruct p; cbn [payload].
  - pose proof (cache_frame_spec OpBinary sbe 256 (framed_sbe c) (sbe_cached_len c) H1
      ltac:(lia) Hc1) as H.
    destruct (cache_frame _ _ _ _) as [out len]. destruct H as (E1 & E2 & E3).
    cbn [sbe_cached_len framed_sbe json_cached_len framed_json sent].
    rewrite (proj2 (Nat.eqb_neq len 0)), (proj2 (Nat.ltb_lt 0 len)) by lia. by rewrite E3.
  - pose proof (cache_frame_spec OpText json 1024 (framed_json c) (json_cached_len c) H2
      ltac:(lia) Hc2) as H.
    destruct (cache_frame _ _ _ _) as [out len]. destruct H as (E1 & E2 & E3).
    cbn [sbe_cached_len framed_sbe json_cached_len framed_json sent].
    rewrite (proj2 (Nat.eqb_neq len 0)), (proj2 (Nat.ltb_lt 0 len)) by lia. by rewrite E3.
Qed.

Lemma broadcast_all sbe json c ds :
  (length sbe + 10 <= 256)%nat -> (length json + 10 <= 1024)%nat -> cache_ok sbe json c ->
  Forall (fun d => d.2 = payload sbe json d.1.2) ds ->
  sent (fold_left broadcast_sink ds c) =
  sent c ++ map (fun d => (d.1.1, broadcast_frame d.1.2 d.2)) ds.
Proof.
  intros H1 H2 Hc Hds. revert c Hc. induction Hds as [|[[id p] raw] ds Hd _ IH]; intros c Hc.
  - by rewrite app_nil_r.
  - cbn [fst snd] in Hd. subst raw.
    destruct (broadcast_sink_spec sbe json c id p H1 H2 Hc) as [Hc' Hs].
    rewrite fold_left_cons, IH by done. rewrite Hs, <- app_assoc. done.
Qed.

Lemma cache_new_ok sbe json : cache_ok sbe json cache_new.
Proof. done. Qed.

Lemma deliveries_payload passes sbe json now cs ids :
  Forall (fun d => d.2 = payload sbe json d.1.2) (deliveries passes sbe json now cs ids).
Proof.
  unfold deliveries. induction ids as [|id ids IH]; [constructor|]. cbn.
  destruct (classify _ _ _ id); cbn; auto.
Qed.

Module WebSocket.

(** C12: a server frame written into a buffer that is long enough decodes to a final,
    unmasked header of the same opcode and payload length (in the shortest of the three
    length forms), followed by the payload; a shorter buffer is refused untouched. *)
Theorem server_frame_roundtrip (op : WsOpcode) (payload out : bytes)
    (Hp : Z.of_nat (length payload) < 2 ^ 63) :
  let f := server_frame op payload in
  if (length f <=? length out)%nat then
    exists out' h, encode_ws_frame op payload out = (out', Ok (length f)) /\
      decode_ws_frame_header out' = Ok h /\ fin h = true /\ opcode h = op /\ masked h = false /\
      payload_len h = Z.of_nat (length payload) /\
      slice out' (header_len h) (length f) = payload /\ drop (length f) out' = drop (length f) out
  else encode_ws_frame op payload out = (out, Err (WsBufferTooSmall (length f) (length out))).
Proof.
  intros f. rewrite encode_ws_frame_spec by done. fold f.
  destruct (Nat.leb_spec (length f) (length out)) as [Hl|Hl].
  - rewrite (proj2 (Nat.ltb_ge _ _)) by done. eexists _, _. split; [reflexivity|].
    set (lf := len_field 0 (Z.of_nat (length payload))).
    assert (f ++ drop (length f) out = Z.lor 128 (WsOpcode_code op) :: lf ++ payload ++ drop (length f) out)
      as Ef by (unfold f at 1, server_frame; rewrite <- app_comm_cons, <- app_assoc; done).
    split; [rewrite Ef; apply decode_header_spec; [by left|lia|done]|].
    cbn [Z.eqb fin opcode masked payload_len header_len]. repeat split.
    + rewrite Ef. fold lf. rewrite app_comm_cons.
      rewrite (slice_app_r (_ :: lf) _ _ _ (S (length lf)) eq_refl) by lia. rewrite Nat.sub_diag.
      apply slice_prefix. unfold f, server_frame. fold lf. rewrite length_cons, length_app. lia.
    + by rewrite drop_app_length.
  - by rewrite (proj2 (Nat.ltb_lt _ _)).
Qed.

Lemma server_frame_roundtrip_witness :
  (encode_ws_frame OpText (lit "hi") (replicate 6 0)).2 = Ok 4%nat.
Proof.
  destruct (server_frame_roundtrip OpText (lit "hi") (replicate 6 0) eq_refl) as (o & h & -> & _).
  reflexivity.
Defined.

(** C13: whatever follows it in the buffer, a masked client frame is unmasked to its payload and
    handled as that payload, for every opcode, payload and mask. *)
Theorem client_frame_handled (e : WebSocketServerEngine) (id : Z) (op : WsOpcode)
    (mask payload rest : bytes) (now : Z) (Hm : is_bytes mask) (Hl : length mask = 4%nat)
    (Hp : is_bytes payload) (Hlen : Z.of_nat (length payload) < 2 ^ 63) :
  handle_inbound_frame e id (client_frame op mask payload ++ rest) now =
  Done (handle_payload e id op payload now).
Proof. by apply inbound_complete. Qed.

Definition subscribe_text : bytes :=
  jlit "{'action':'subscribe','venue':1,'market_id':7,'stream_type':1}".

Lemma client_frame_handled_witness :
  exists reply, handle_inbound_frame (register_client router_new (ClientSession_new 3 ProtoSbe 1000 10 0)).1
    3 (client_frame OpText [1; 2; 3; 4] subscribe_text ++ [9]) 0 = Done (demo_router, [reply], Ok tt).
Proof.
  eexists. rewrite client_frame_handled; [vm_compute; reflexivity|by_eval..].
Defined.

(** C14: a client frame cut anywhere is reported incomplete, changes nothing and sends
    nothing. *)
Theorem truncated_frame (e : WebSocketServerEngine) (id : Z) (op : WsOpcode) (mask payload : bytes)
    (k : nat) (now : Z) (Hl : length mask = 4%nat) (Hlen : Z.of_nat (length payload) < 2 ^ 63)
    (Hk : (k < length (client_frame op mask payload))%nat) :
  handle_inbound_frame e id (take k (client_frame op mask payload)) now =
  Done (e, [], Err IncompleteFrame).
Proof. by apply inbound_truncated. Qed.

Lemma truncated_frame_witness :
  handle_inbound_frame router_new 3 (take 7 (client_frame OpText [1; 2; 3; 4] subscribe_text)) 0 =
  Done (router_new, [], Err IncompleteFrame).
Proof. apply truncated_frame; by_eval. Defined.

(** Broadcasting a quote sends to each client the dispatch delivers to, in the same order,
    one frame holding that client's payload; the cached frames are the right ones for every
    client. *)
Theorem broadcast_bbo_frames (e : WebSocketServerEngine) (bbo : NormalizedBbo) (now : Z)
    (He : router_wf e) (Hb : Bbo_ok bbo) :
  broadcast_bbo e bbo now =
  ((dispatch_bbo e bbo now).1.1, (dispatch_bbo e bbo now).1.2,
   map (fun d => (d.1.1, broadcast_frame d.1.2 d.2)) (dispatch_bbo e bbo now).2).
Proof.
  pose proof (dispatch_bbo_correct e bbo now He Hb) as H. unfold broadcast_bbo.
  destruct (dispatch_bbo e bbo now) as [[e' m] ds]. destruct H as (-> & _). cbn [fst snd].
  f_equal. pose proof (length_bbo_text bbo Hb).
  rewrite (broadcast_all (bbo_wire bbo) (bbo_json_text bbo));
    [done|rewrite length_bbo_wire; by_eval|lia|apply cache_new_ok|apply deliveries_payload].
Qed.

Lemma broadcast_bbo_frames_witness :
  (broadcast_bbo demo_router demo_bbo 0).2 = [(3, server_frame OpBinary (bbo_wire demo_bbo))].
Proof.
  rewrite (broadcast_bbo_frames demo_router demo_bbo 0 (router_ok_wf _ demo_router_ok) demo_bbo_ok).
  vm_compute. reflexivity.
Defined.

Theorem broadcast_trade_frames (e : WebSocketServerEngine) (trade : UnifiedTrade) (notional : f64)
    (now : Z) (He : router_wf e) (Ht : Trade_ok trade) :
  broadcast_trade e trade notional now =
  ((dispatch_trade e trade notional now).1.1, (dispatch_trade e trade notional now).1.2,
   map (fun d => (d.1.1, broadcast_frame d.1.2 d.2)) (dispatch_trade e trade notional now).2).
Proof.
  pose proof (dispatch_trade_correct e trade notional now He Ht) as H. unfold broadcast_trade.
  destruct (dispatch_trade e trade notional now) as [[e' m] ds]. destruct H as (-> & _). cbn [fst snd].
  f_equal. pose proof (length_trade_text trade Ht).
  rewrite (broadcast_all (trade_wire trade) (trade_json_text trade));
    [done|rewrite length_trade_wire; by_eval|lia|apply cache_new_ok|apply deliveries_payload].
Qed.

(** A 14-byte frame that announces 2^64 - 1 payload bytes passes the length check, because
    [header_len + payload_len] wraps around, and slicing the buffer then panics. *)
Theorem huge_length_panics (e : WebSocketServerEngine) (id now : Z) :
  handle_inbound_frame e id
    ([130; 255] ++ replicate 8 255 ++ [1; 2; 3; 4]) now = Panic.
Proof. vm_compute. reflexivity. Qed.

(** A ping whose payload is longer than 252 bytes is not answered: the pong does not fit the
    256-byte buffer of the handler, although RFC 6455 requires an identical payload. *)
Theorem long_ping_unanswered (e : WebSocketServerEngine) (id now : Z) (payload : bytes)
    (Hp : (252 < length payload)%nat) (Hl : Z.of_nat (length payload) < 2 ^ 63) :
  exists n, handle_payload e id OpPing payload now = (e, [], Err (WsBufferTooSmall n 256)).
Proof.
  exists (length (server_frame OpPong payload)). unfold handle_payload, respond.
  rewrite encode_ws_frame_spec by done. cbv zeta. rewrite length_replicate.
  rewrite (proj2 (Nat.ltb_lt _ _)); [done|].
  unfold server_frame. rewrite length_cons, length_app, length_len_field.
  rewrite (proj2 (Z.ltb_ge _ _)) by lia. destruct (Z.of_nat (length payload) <=? 65535); lia.
Qed.

(** A key separated from its colon by a space is looked for (the second pattern) but its value
    is never found, because the offset is that of the first pattern. *)
Theorem spaced_colon_not_parsed :
  extract_json_u64 (jlit "{'venue' : 5}") (lit "venue") = None /\
  extract_json_u64 (jlit "{'venue': 5}") (lit "venue") = Some 5.
Proof. vm_compute. done. Qed.

End WebSocket.
