(* ===== verification/Topology.v ===== *)
(** * core-engine/src/topology/mod.rs: hardware tiers and profile negotiation

    The probe of the running system reads files and one environment variable of the host: the
    host is the parameter [Host].  The Linux build is modelled. *)

From S2P Require Import Prelude Bytes Decimal Text.

Inductive HardwareTier := Tier1MidRange | Tier2CloudVirtualized | Tier3EnterpriseBareMetal.

#[global] Instance HardwareTier_eq_dec : EqDecision HardwareTier.
Proof. solve_decision. Defined.

Definition tier_as_str (t : HardwareTier) : bytes :=
  match t with
  | Tier1MidRange => lit "Tier1_MidRange"
  | Tier2CloudVirtualized => lit "Tier2_CloudVirtualized"
  | Tier3EnterpriseBareMetal => lit "Tier3_EnterpriseBareMetal"
  end.

Inductive HypervisorKind :=
| HvNone | AwsNitro | Kvm | Xen | HyperV | GcpCompute | DockerContainer | HvUnknown (name : bytes).

#[global] Instance HypervisorKind_eq_dec : EqDecision HypervisorKind.
Proof. solve_decision. Defined.

Definition is_virtualized (h : HypervisorKind) : bool :=
  match h with HvNone => false | _ => true end.

Definition hypervisor_as_str (h : HypervisorKind) : bytes :=
  match h with
  | HvNone => lit "BareMetal(None)"
  | AwsNitro => lit "AwsNitro"
  | Kvm => lit "KVM"
  | Xen => lit "Xen"
  | HyperV => lit "HyperV"
  | GcpCompute => lit "GcpCompute"
  | DockerContainer => lit "DockerContainer"
  | HvUnknown name => name
  end.

Record CpuTopology := mkCpu {
  total_logical_cores : Z;
  total_physical_cores : Z;
  numa_nodes : Z;
  is_hybrid : bool;
  performance_cores : list Z;
  efficiency_cores : list Z;
  l1d_cache_bytes : Z;
  l2_cache_bytes : Z;
  l3_cache_bytes : Z;
  has_invariant_tsc : bool;
}.

Definition Cpu_default : CpuTopology :=
  mkCpu 4 4 1 false (seqZ 0 4) [] (32 * 1024) (512 * 1024) (8 * 1024 * 1024) false.

Record EnvironmentCapabilities := mkCaps {
  has_hugetlb : bool;
  has_mlock : bool;
  has_sched_fifo : bool;
  has_raw_sockets : bool;
  cgroup_cpu_quota_us : option Z;
  cgroup_cpu_period_us : option Z;
  max_locked_memory_bytes : Z;
}.

Definition Caps_default : EnvironmentCapabilities := mkCaps false false false false None None 0.

Record RuntimeProfile := mkProfile {
  rp_tier : HardwareTier;
  hypervisor : HypervisorKind;
  cpu : CpuTopology;
  caps : EnvironmentCapabilities;
  auto_detected : bool;
  override_reason : option bytes;
}.

(** [RuntimeProfile::summary], the texts of the fields between bars. *)
Definition show_bool (b : bool) : bytes := if b then lit "true" else lit "false".
Definition profile_fields (p : RuntimeProfile) : list bytes :=
  [lit "Tier: " ++ tier_as_str (rp_tier p);
   lit "Hypervisor: " ++ hypervisor_as_str (hypervisor p);
   lit "Cores: " ++ digits 20 (total_physical_cores (cpu p)) ++ lit "P/" ++ digits 20 (total_logical_cores (cpu p)) ++ lit "L";
   lit "NUMA: " ++ digits 20 (numa_nodes (cpu p));
   lit "InvariantTSC: " ++ show_bool (has_invariant_tsc (cpu p));
   lit "HugeTLB: " ++ show_bool (has_hugetlb (caps p));
   lit "FIFO: " ++ show_bool (has_sched_fifo (caps p))].
Definition profile_summary (p : RuntimeProfile) : bytes := join (lit " | ") (profile_fields p).

(** The host the process runs on: [fs::read_to_string(path).ok()], [Path::exists], the names in
    a directory ([fs::read_dir], entries that fail left out), [env::var(name).ok()], and whether
    [sched_setscheduler(0, SCHED_FIFO, 1)] returns 0. *)
Record Host := mkHost {
  read_to_string : bytes -> option bytes;
  path_exists : bytes -> bool;
  read_dir : bytes -> option (list bytes);
  env_var : bytes -> option bytes;
  sched_fifo_allowed : bool;
}.

(** ** Negotiation: the provided method of the trait *)

(** The trait [HardwareProbe]. *)
Class HardwareProbe (P : Type) := {
  detect_hypervisor : P -> HypervisorKind;
  detect_cpu_topology : P -> CpuTopology;
  detect_capabilities : P -> EnvironmentCapabilities;
}.

Definition parse_tier (val : bytes) : option HardwareTier :=
  let val_is s := bool_decide (to_lowercase val = lit s) in
  if val_is "tier1"%string || val_is "midrange"%string || val_is "1"%string then Some Tier1MidRange
  else if val_is "tier2"%string || val_is "cloud"%string || val_is "virtualized"%string || val_is "2"%string
  then Some Tier2CloudVirtualized
  else if val_is "tier3"%string || val_is "baremetal"%string || val_is "enterprise"%string || val_is "3"%string
  then Some Tier3EnterpriseBareMetal
  else None.

Definition env_override (env : bytes -> option bytes) : option HardwareTier :=
  let- val :=
    match env (lit "CMP_HARDWARE_PROFILE") with
    | Some val => Some val
    | None => env (lit "CMP_PROFILE")
    end in
  parse_tier val.

Definition negotiate_profile {P} `{HardwareProbe P} (probe : P) (env : bytes -> option bytes)
    (override_tier : option HardwareTier) : RuntimeProfile :=
  let hypervisor := detect_hypervisor probe in
  let cpu := detect_cpu_topology probe in
  let caps := detect_capabilities probe in
  let chosen_override :=
    match override_tier with Some t => Some t | None => env_override env end in
  match chosen_override with
  | Some tier =>
      mkProfile tier hypervisor cpu caps false
        (Some (lit "Operator override set to " ++ tier_as_str tier))
  | None =>
      let tier :=
        if negb (is_virtualized hypervisor) && (16 <=? total_physical_cores cpu)
          && has_hugetlb caps && has_sched_fifo caps
        then Tier3EnterpriseBareMetal
        else if is_virtualized hypervisor || bool_decide (is_Some (cgroup_cpu_quota_us caps))
        then Tier2CloudVirtualized
        else Tier1MidRange in
      mkProfile tier hypervisor cpu caps true None
  end.

(** ** The probe of the running system (Linux) *)

Definition SystemHardwareProbe : Type := Host.

Definition system_detect_hypervisor (h : SystemHardwareProbe) : HypervisorKind :=
  let fallback :=
    match read_to_string h (lit "/proc/cpuinfo") with
    | Some cpuinfo => if contains cpuinfo (lit "hypervisor") then Kvm else HvNone
    | None => HvNone
    end in
  let by_vendor :=
    match read_to_string h (lit "/sys/class/dmi/id/sys_vendor") with
    | Some vendor =>
        let v := to_lowercase (trim vendor) in
        if contains v (lit "amazon") then AwsNitro
        else if contains v (lit "google") then GcpCompute
        else if contains v (lit "qemu") then Kvm
        else if contains v (lit "xen") then Xen
        else fallback
    | None => fallback
    end in
  if path_exists h (lit "/.dockerenv") || path_exists h (lit "/run/.containerenv")
  then DockerContainer
  else
    match read_to_string h (lit "/sys/class/dmi/id/product_name") with
    | Some product =>
        let p := to_lowercase (trim product) in
        if contains p (lit "amazon ec2") || contains p (lit "nitro") then AwsNitro
        else if contains p (lit "google") || contains p (lit "compute engine") then GcpCompute
        else if contains p (lit "kvm") || contains p (lit "qemu") then Kvm
        else if contains p (lit "vmware") then HvUnknown (lit "VMware")
        else if contains p (lit "hyper-v") || contains p (lit "virtual machine") then HyperV
        else by_vendor
    | None => by_vendor
    end.

(** [HashSet::insert] of every core id, then [len()]: the number of distinct ids. *)
Definition core_ids (cpuinfo : bytes) : gset bytes :=
  list_to_set (omap (fun line =>
    if is_prefix (lit "core id") line
    then trim <$> (split_char 58 line !! 1%nat)
    else None) (lines cpuinfo)).

Definition system_detect_cpu_topology (h : SystemHardwareProbe) : CpuTopology :=
  let cpuinfo := read_to_string h (lit "/proc/cpuinfo") in
  let logical_cores :=
    match cpuinfo with
    | Some cpuinfo =>
        let count := length (List.filter (is_prefix (lit "processor")) (lines cpuinfo)) in
        if (0 <? count)%nat then Z.of_nat count else 4
    | None => 4
    end in
  let numa_nodes :=
    match read_dir h (lit "/sys/devices/system/node") with
    | Some entries =>
        let count := length (List.filter (is_prefix (lit "node")) entries) in
        if (0 <? count)%nat then Z.of_nat count else 1
    | None => 1
    end in
  let has_invariant_tsc :=
    match cpuinfo with
    | Some cpuinfo => contains cpuinfo (lit "constant_tsc") && contains cpuinfo (lit "nonstop_tsc")
    | None => false
    end in
  let physical_cores :=
    match cpuinfo with
    | Some cpuinfo =>
        let n := size (core_ids cpuinfo) in
        if (0 <? n)%nat then Z.of_nat n *[USIZE] Z.max numa_nodes 1 else logical_cores
    | None => logical_cores
    end in
  mkCpu logical_cores (Z.max physical_cores 1) (Z.max numa_nodes 1) false
    (seqZ 0 logical_cores) [] (32 * 1024) (512 * 1024) (16 * 1024 * 1024) has_invariant_tsc.

Definition system_detect_capabilities (h : SystemHardwareProbe) : EnvironmentCapabilities :=
  let (quota, period) :=
    match read_to_string h (lit "/sys/fs/cgroup/cpu.max") with
    | Some quota_str =>
        match split_whitespace quota_str with
        | [p0; p1] =>
            if negb (bool_decide (p0 = lit "max")) then (parse_uint p0, parse_uint p1)
            else (None, None)
        | _ => (None, None)
        end
    | None => (None, None)
    end in
  let hugetlb :=
    path_exists h (lit "/sys/kernel/mm/hugepages/hugepages-2048kB") &&
    match read_to_string h (lit "/sys/kernel/mm/hugepages/hugepages-2048kB/nr_hugepages") with
    | Some nr =>
        match parse_uint (trim nr) with Some count => 0 <? count | None => false end
    | None => false
    end in
  mkCaps hugetlb false (sched_fifo_allowed h) false quota period 0.

#[global] Instance system_probe : HardwareProbe SystemHardwareProbe := {
  detect_hypervisor := system_detect_hypervisor;
  detect_cpu_topology := system_detect_cpu_topology;
  detect_capabilities := system_detect_capabilities;
}.

(** ** The mock probe *)

Record MockHardwareProbe := mkMock {
  mock_hypervisor : HypervisorKind;
  mock_cpu : CpuTopology;
  mock_caps : EnvironmentCapabilities;
}.

Definition new_tier1_laptop : MockHardwareProbe :=
  mkMock HvNone
    (mkCpu 8 4 1 false [0; 1; 2; 3] [] (32 * 1024) (512 * 1024) (8 * 1024 * 1024) false)
    Caps_default.

Definition new_tier2_aws_nitro : MockHardwareProbe :=
  mkMock AwsNitro
    (mkCpu 8 4 1 false (seqZ 0 8) [] (32 * 1024) (1024 * 1024) (32 * 1024 * 1024) true)
    (mkCaps true true false false (Some 400000) (Some 100000) (64 * 1024 * 1024)).

Definition new_tier3_bare_metal : MockHardwareProbe :=
  mkMock HvNone
    (mkCpu 128 64 2 false (seqZ 0 128) [] (32 * 1024) (1024 * 1024) (256 * 1024 * 1024) true)
    (mkCaps true true true true None None (128 * 1024 * 1024 * 1024)).

#[global] Instance mock_probe : HardwareProbe MockHardwareProbe := {
  detect_hypervisor := mock_hypervisor;
  detect_cpu_topology := mock_cpu;
  detect_capabilities := mock_caps;
}.

(** ** Properties *)

(** What the automated rules say. *)
Definition negotiated (hv : HypervisorKind) (c : CpuTopology) (cp : EnvironmentCapabilities)
    (t : HardwareTier) : Prop :=
  match t with
  | Tier3EnterpriseBareMetal => hv = HvNone /\ 16 <= total_physical_cores c /\
      has_hugetlb cp = true /\ has_sched_fifo cp = true
  | Tier2CloudVirtualized => (hv <> HvNone \/ is_Some (cgroup_cpu_quota_us cp)) /\
      ~ (hv = HvNone /\ 16 <= total_physical_cores c /\ has_hugetlb cp = true /\ has_sched_fifo cp = true)
  | Tier1MidRange => hv = HvNone /\ cgroup_cpu_quota_us cp = None /\
      ~ (16 <= total_physical_cores c /\ has_hugetlb cp = true /\ has_sched_fifo cp = true)
  end.

Lemma is_virtualized_none hv : is_virtualized hv = false <-> hv = HvNone.
Proof. by destruct hv. Qed.

Lemma negotiated_rule hv c cp :
  negotiated hv c cp
    (if negb (is_virtualized hv) && (16 <=? total_physical_cores c) && has_hugetlb cp && has_sched_fifo cp
     then Tier3EnterpriseBareMetal
     else if is_virtualized hv || bool_decide (is_Some (cgroup_cpu_quota_us cp))
     then Tier2CloudVirtualized else Tier1MidRange).
Proof.
  destruct (is_virtualized hv) eqn:Ev; cbn [negb andb orb].
  - split; [left|]; [intros ->|intros [-> _]]; done.
  - apply is_virtualized_none in Ev. destruct (_ && _ && _) eqn:E.
    + breflect. cbn. naive_solver.
    + assert (~ (16 <= total_physical_cores c /\ has_hugetlb cp = true /\ has_sched_fifo cp = true)) as Hn.
      { intros (H1 & H2 & H3). rewrite H2, H3, (proj2 (Z.leb_le _ _) H1) in E. done. }
      case_bool_decide as Eq; cbn; [naive_solver|].
      split; [done|]. split; [|done]. by apply eq_None_not_Some.
Qed.

Lemma negotiated_unique hv c cp t1 t2 :
  negotiated hv c cp t1 -> negotiated hv c cp t2 -> t1 = t2.
Proof.
  destruct t1, t2; cbn; try done; intros H1 H2; exfalso;
    destruct (cgroup_cpu_quota_us cp) eqn:E;
    repeat match goal with H : is_Some None |- _ => destruct H; done end; intuition (congruence || eauto);
    match goal with H : is_Some None |- _ => by destruct H end.
Qed.

Module Topology.

(** For every probe, the argument override wins, then the environment variable, and
    only without either the tier follows the rules: tier 3 exactly on bare metal with 16 cores,
    huge pages and SCHED_FIFO, else tier 2 exactly when virtualized or under a CPU quota,
    else tier 1. *)
Theorem negotiate_profile_rules {P} `{HardwareProbe P} (probe : P) (env : bytes -> option bytes)
    (override_tier : option HardwareTier) :
  let p := negotiate_profile probe env override_tier in
  hypervisor p = detect_hypervisor probe /\ cpu p = detect_cpu_topology probe /\
  caps p = detect_capabilities probe /\
  match override_tier, env_override env with
  | Some t, _ | None, Some t => rp_tier p = t /\ auto_detected p = false
  | None, None => auto_detected p = true /\ override_reason p = None /\
      forall t, rp_tier p = t <-> negotiated (hypervisor p) (cpu p) (caps p) t
  end.
Proof.
  cbv zeta. unfold negotiate_profile.
  destruct override_tier as [t|]; [done|]. destruct (env_override env) as [t|]; [done|].
  cbn [hypervisor cpu caps auto_detected override_reason rp_tier]. do 5 (split; [done|]).
  intros t. match goal with |- ?e = _ <-> negotiated ?hv ?c ?cp _ =>
    assert (negotiated hv c cp e) as He by apply negotiated_rule end.
  split; [by intros <-|]. intros Ht. by eapply negotiated_unique.
Qed.

Lemma negotiate_profile_rules_witness :
  rp_tier (negotiate_profile new_tier3_bare_metal (fun _ => None) None) = Tier3EnterpriseBareMetal.
Proof.
  destruct (negotiate_profile_rules new_tier3_bare_metal (fun _ => None) None)
    as (_ & _ & _ & _ & _ & H).
  apply H. cbn. repeat split; by_eval.
Defined.

(** Whatever the host's files contain, the detected topology has at least one logical core,
    one physical core and one NUMA node, and its performance cores are all logical cores. *)
Theorem detected_topology_sane (h : Host) :
  let c := system_detect_cpu_topology h in
  1 <= total_logical_cores c /\ 1 <= total_physical_cores c /\ 1 <= numa_nodes c /\
  performance_cores c = seqZ 0 (total_logical_cores c) /\ performance_cores c <> [].
Proof.
  cbv zeta. unfold system_detect_cpu_topology.
  cbn [total_logical_cores total_physical_cores numa_nodes performance_cores].
  match goal with |- 1 <= ?e /\ _ => assert (1 <= e) as Hl end.
  { destruct (read_to_string h _); [|lia]. cbv zeta.
    destruct (0 <? _)%nat eqn:E; [apply Nat.ltb_lt in E|]; lia. }
  split; [done|]. split; [lia|]. split; [lia|]. split; [done|].
  intros E. apply (f_equal length) in E. rewrite length_seqZ in E. cbn [length] in E. lia.
Qed.


(** The summary of a negotiated laptop. *)
Example laptop_summary :
  profile_summary (negotiate_profile new_tier1_laptop (fun _ => None) None) =
  lit "Tier: Tier1_MidRange | Hypervisor: BareMetal(None) | Cores: 4P/8L | NUMA: 1 | InvariantTSC: false | HugeTLB: false | FIFO: false".
Proof. vm_compute. reflexivity. Qed.
End Topology.
