(* ===== verification/Shm.v ===== *)
(** * distribution/src/shm.rs: the single-writer multi-reader message ring

    A publication is a sequence of stores (slot fields, then the slot's sequence number, then
    the heartbeat and the head); [publish_stores] lists them, so that a reader can be run
    between any two of them.  [ring_rep] relates a ring to the log of everything published.
    [ShmRingBuffer] is the same protocol with a compile-time capacity. *)

From S2P Require Import Prelude Bytes Models Bitmap Topology.

Definition SHM_MAGIC : Z := 1129140273.
Definition SHM_VERSION : Z := 1.
Definition DEFAULT_SHM_PATH : bytes := lit "/dev/shm/cmp_market_data.shm".
Definition DEFAULT_SHM_SLOTS : Z := 16384.

Inductive ShmMsgKind := KindBbo | KindTrade | KindHeartbeat.
Definition ShmMsgKind_code (k : ShmMsgKind) : Z :=
  match k with KindBbo => 1 | KindTrade => 2 | KindHeartbeat => 3 end.
Definition ShmMsgKind_default : ShmMsgKind := KindBbo.

Record ShmMessageSlot := mkSlot {
  sl_sequence : Z;
  sl_kind : Z;
  sl_flags : Z;
  sl_venue_id : Z;
  sl_market_id : Z;
  sl_telemetry : TelemetryTimestamps;
  sl_price : Z;
  sl_qty : Z;
}.

Definition Slot_default : ShmMessageSlot := mkSlot 0 0 0 0 0 Telemetry_default 0 0.

#[global] Instance Slot_eq_dec : EqDecision ShmMessageSlot.
Proof. solve_decision. Defined.

Record ShmHeader := mkShmHeader {
  magic : Z;
  shm_version : Z;
  slot_capacity : Z;
  slot_size_bytes : Z;
  writer_pid : Z;
  writer_heartbeat_ns : Z;
  head_sequence : Z;
}.

Inductive ShmReadStatus := ReadOk | ReadEmpty | ReadOverrun (missed_messages : Z).

#[global] Instance ShmReadStatus_eq_dec : EqDecision ShmReadStatus.
Proof. solve_decision. Defined.

Inductive ShmBackendKind :=
| HugeTLB (page_size_bytes : Z) (path : bytes)
| PosixShm (path : bytes)
| AnonymousOrTmpfs (path : bytes)
| UnixDomainSocket (path : bytes)
| InMemory.

Definition backend_as_str (b : ShmBackendKind) : bytes :=
  match b with
  | HugeTLB _ _ => lit "HugeTLB"
  | PosixShm _ => lit "PosixShm"
  | AnonymousOrTmpfs _ => lit "AnonymousOrTmpfs"
  | UnixDomainSocket _ => lit "UnixDomainSocket"
  | InMemory => lit "InMemory"
  end.

Record ElasticShmConfig := mkShmConfig {
  shm_tier : HardwareTier;
  cfg_capacity : Z;
  preferred_path : option bytes;
  enable_hugetlb : bool;
  enable_mlock : bool;
}.

Definition for_tier (tier : HardwareTier) : ElasticShmConfig :=
  match tier with
  | Tier3EnterpriseBareMetal =>
      mkShmConfig tier 65536 (Some (lit "/dev/hugepages/cmp_market_data.shm")) true true
  | Tier2CloudVirtualized =>
      mkShmConfig tier 16384 (Some (lit "/dev/shm/cmp_market_data.shm")) false false
  | Tier1MidRange => mkShmConfig tier 4096 None false false
  end.

Record ElasticShmRing := mkRing {
  backend : ShmBackendKind;
  capacity : Z;
  mask : Z;
  header : ShmHeader;
  slots : list ShmMessageSlot;
}.

Definition init_memory_backed (backend : ShmBackendKind) (capacity mask writer_pid : Z) : ElasticShmRing :=
  mkRing backend capacity mask
    (mkShmHeader SHM_MAGIC SHM_VERSION (wrap U32 capacity) 64 writer_pid 0 0)
    (replicate (Z.to_nat capacity) Slot_default).

(** [usize::is_power_of_two] and [next_power_of_two]. *)
Definition is_power_of_two (n : Z) : bool := (0 <? n) && (Z.land n (n - 1) =? 0).
Definition next_power_of_two (n : Z) : Z := if n <=? 1 then 1 else 2 ^ Z.log2_up n.

Section Cascade.
(** The operating system: is the path a directory, does opening the file for writing and setting
    its length succeed, and the path of [temp_dir().join("cmp_market_data.shm")]. *)
Context (is_dir : bytes -> bool) (open_and_set_len : bytes -> Z -> bool) (tmp_path : bytes).

Definition create_or_fallback (config : ElasticShmConfig) (writer_pid : Z) : ElasticShmRing :=
  let capacity :=
    if is_power_of_two (cfg_capacity config) then cfg_capacity config
    else next_power_of_two (cfg_capacity config) in
  let mask := capacity -[USIZE] 1 in
  let total_bytes := 64 +[USIZE] (capacity *[USIZE] 64) in
  let huge_path := default (lit "/dev/hugepages/cmp_market_data.shm") (preferred_path config) in
  if enable_hugetlb config && (is_dir (lit "/dev/hugepages") && open_and_set_len huge_path total_bytes)
  then init_memory_backed (HugeTLB (2 * 1024 * 1024) huge_path) capacity mask writer_pid
  else
    let posix_path := default DEFAULT_SHM_PATH (preferred_path config) in
    if is_dir (lit "/dev/shm") && open_and_set_len posix_path total_bytes
    then init_memory_backed (PosixShm posix_path) capacity mask writer_pid
    else if open_and_set_len tmp_path total_bytes
    then init_memory_backed (AnonymousOrTmpfs tmp_path) capacity mask writer_pid
    else init_memory_backed InMemory capacity mask writer_pid.
End Cascade.

(** ** Publishing *)

Definition set_kind (k : Z) (s : ShmMessageSlot) : ShmMessageSlot :=
  mkSlot (sl_sequence s) k (sl_flags s) (sl_venue_id s) (sl_market_id s) (sl_telemetry s) (sl_price s) (sl_qty s).
Definition set_venue (v : Z) (s : ShmMessageSlot) : ShmMessageSlot :=
  mkSlot (sl_sequence s) (sl_kind s) (sl_flags s) v (sl_market_id s) (sl_telemetry s) (sl_price s) (sl_qty s).
Definition set_market (m : Z) (s : ShmMessageSlot) : ShmMessageSlot :=
  mkSlot (sl_sequence s) (sl_kind s) (sl_flags s) (sl_venue_id s) m (sl_telemetry s) (sl_price s) (sl_qty s).
Definition set_telemetry (t : TelemetryTimestamps) (s : ShmMessageSlot) : ShmMessageSlot :=
  mkSlot (sl_sequence s) (sl_kind s) (sl_flags s) (sl_venue_id s) (sl_market_id s) t (sl_price s) (sl_qty s).
Definition set_price (p : Z) (s : ShmMessageSlot) : ShmMessageSlot :=
  mkSlot (sl_sequence s) (sl_kind s) (sl_flags s) (sl_venue_id s) (sl_market_id s) (sl_telemetry s) p (sl_qty s).
Definition set_qty (q : Z) (s : ShmMessageSlot) : ShmMessageSlot :=
  mkSlot (sl_sequence s) (sl_kind s) (sl_flags s) (sl_venue_id s) (sl_market_id s) (sl_telemetry s) (sl_price s) q.
Definition set_flags (f : Z) (s : ShmMessageSlot) : ShmMessageSlot :=
  mkSlot (sl_sequence s) (sl_kind s) f (sl_venue_id s) (sl_market_id s) (sl_telemetry s) (sl_price s) (sl_qty s).
Definition set_sequence (n : Z) (s : ShmMessageSlot) : ShmMessageSlot :=
  mkSlot n (sl_kind s) (sl_flags s) (sl_venue_id s) (sl_market_id s) (sl_telemetry s) (sl_price s) (sl_qty s).

(** The stores into the slot, in program order. *)
Definition bbo_stores (bbo : NormalizedBbo) (next_seq : Z) : list (ShmMessageSlot -> ShmMessageSlot) :=
  [set_kind (ShmMsgKind_code KindBbo); set_venue (bbo_venue bbo); set_market (bbo_market_id bbo);
   set_telemetry (bbo_telemetry bbo); set_price (bid_price bbo); set_qty (bid_qty bbo);
   set_flags (wrap U8 (bbo_flags bbo)); set_sequence next_seq].

Definition trade_stores (trade : UnifiedTrade) (next_seq : Z) : list (ShmMessageSlot -> ShmMessageSlot) :=
  [set_kind (ShmMsgKind_code KindTrade); set_venue (tr_venue trade); set_market (tr_market_id trade);
   set_telemetry (tr_telemetry trade); set_price (tr_price trade); set_qty (tr_size trade);
   set_flags (if tr_is_liquidation trade then 1 else 0); set_sequence next_seq].

Definition store_slot (idx : Z) (f : ShmMessageSlot -> ShmMessageSlot) (r : ElasticShmRing) : ElasticShmRing :=
  mkRing (backend r) (capacity r) (mask r) (header r) (alter f (Z.to_nat idx) (slots r)).

Definition store_heartbeat (now_ns : Z) (r : ElasticShmRing) : ElasticShmRing :=
  let h := header r in
  mkRing (backend r) (capacity r) (mask r)
    (mkShmHeader (magic h) (shm_version h) (slot_capacity h) (slot_size_bytes h) (writer_pid h) now_ns
      (head_sequence h)) (slots r).

Definition store_head (seq : Z) (r : ElasticShmRing) : ElasticShmRing :=
  let h := header r in
  mkRing (backend r) (capacity r) (mask r)
    (mkShmHeader (magic h) (shm_version h) (slot_capacity h) (slot_size_bytes h) (writer_pid h)
      (writer_heartbeat_ns h) seq) (slots r).

(** All the stores of a publication, in program order. *)
Definition publish_stores (r : ElasticShmRing) (stores : Z -> list (ShmMessageSlot -> ShmMessageSlot))
    (now_ns : Z) : list (ElasticShmRing -> ElasticShmRing) :=
  let next_seq := head_sequence (header r) +[U64] 1 in
  let slot_idx := Z.land next_seq (mask r) in
  map (store_slot slot_idx) (stores next_seq) ++ [store_heartbeat now_ns; store_head next_seq].

Definition run_stores (fs : list (ElasticShmRing -> ElasticShmRing)) (r : ElasticShmRing) : ElasticShmRing :=
  fold_left (fun r f => f r) fs r.

Definition publish_bbo (r : ElasticShmRing) (bbo : NormalizedBbo) (now_ns : Z) : ElasticShmRing * Z :=
  (run_stores (publish_stores r (bbo_stores bbo) now_ns) r, head_sequence (header r) +[U64] 1).

Definition publish_trade (r : ElasticShmRing) (trade : UnifiedTrade) (now_ns : Z) : ElasticShmRing * Z :=
  (run_stores (publish_stores r (trade_stores trade) now_ns) r, head_sequence (header r) +[U64] 1).

(** ** Reading *)

(** The reader's cursor, its output slot, and the status. *)
Definition try_read (r : ElasticShmRing) (reader_cursor : Z) (out : ShmMessageSlot) :
    Z * ShmMessageSlot * ShmReadStatus :=
  let head := head_sequence (header r) in
  if head <=? reader_cursor then (reader_cursor, out, ReadEmpty)
  else if reader_cursor +[U64] capacity r <? head then
    let missed := head -[U64] (reader_cursor +[U64] capacity r) in
    (head -[U64] capacity r, out, ReadOverrun missed)
  else
    let next_cursor := reader_cursor +[U64] 1 in
    let slot_idx := Z.land next_cursor (mask r) in
    let out := default Slot_default (slots r !! Z.to_nat slot_idx) in
    if sl_sequence out =? next_cursor then (next_cursor, out, ReadOk)
    else (head, out, ReadEmpty).

(** ** ShmRingBuffer<N> *)

Record ShmRingBuffer := mkRingBuffer { rb_header : ShmHeader; rb_slots : list ShmMessageSlot }.

Definition ring_new (N writer_pid : Z) : outcome ShmRingBuffer :=
  if negb (is_power_of_two N) then Panic
  else Done (mkRingBuffer
    (mkShmHeader SHM_MAGIC SHM_VERSION (wrap U32 N) 64 writer_pid 0 0)
    (replicate (Z.to_nat N) Slot_default)).

Definition ring_publish (N : Z) (r : ShmRingBuffer) (stores : Z -> list (ShmMessageSlot -> ShmMessageSlot))
    (now_ns : Z) : ShmRingBuffer * Z :=
  let h := rb_header r in
  let next_seq := head_sequence h +[U64] 1 in
  let slot_idx := Z.land next_seq (N - 1) in
  let slots := fold_left (fun sl f => alter f (Z.to_nat slot_idx) sl) (stores next_seq) (rb_slots r) in
  (mkRingBuffer (mkShmHeader (magic h) (shm_version h) (slot_capacity h) (slot_size_bytes h)
     (writer_pid h) now_ns next_seq) slots, next_seq).

Definition ring_publish_bbo (N : Z) (r : ShmRingBuffer) (bbo : NormalizedBbo) (now_ns : Z) :=
  ring_publish N r (bbo_stores bbo) now_ns.
Definition ring_publish_trade (N : Z) (r : ShmRingBuffer) (trade : UnifiedTrade) (now_ns : Z) :=
  ring_publish N r (trade_stores trade) now_ns.

Definition ring_try_read (N : Z) (r : ShmRingBuffer) (reader_cursor : Z) (out : ShmMessageSlot) :
    Z * ShmMessageSlot * ShmReadStatus :=
  let head := head_sequence (rb_header r) in
  if head <=? reader_cursor then (reader_cursor, out, ReadEmpty)
  else if reader_cursor +[U64] N <? head then
    let missed := head -[U64] (reader_cursor +[U64] N) in
    (head -[U64] N, out, ReadOverrun missed)
  else
    let next_cursor := reader_cursor +[U64] 1 in
    let slot_idx := Z.land next_cursor (N - 1) in
    let out := default Slot_default (rb_slots r !! Z.to_nat slot_idx) in
    if sl_sequence out =? next_cursor then (next_cursor, out, ReadOk)
    else (head, out, ReadEmpty).

(** ** The log of published messages *)

(** The slot contents of message number [seq] (from 1). *)
Inductive message := MsgBbo (b : NormalizedBbo) | MsgTrade (t : UnifiedTrade).

Definition message_stores (m : message) (seq : Z) : list (ShmMessageSlot -> ShmMessageSlot) :=
  match m with MsgBbo b => bbo_stores b seq | MsgTrade t => trade_stores t seq end.

Definition message_slot (m : message) (seq : Z) : ShmMessageSlot :=
  match m with
  | MsgBbo b => mkSlot seq 1 (wrap U8 (bbo_flags b)) (bbo_venue b) (bbo_market_id b) (bbo_telemetry b)
      (bid_price b) (bid_qty b)
  | MsgTrade t => mkSlot seq 2 (if tr_is_liquidation t then 1 else 0) (tr_venue t) (tr_market_id t)
      (tr_telemetry t) (tr_price t) (tr_size t)
  end.

Definition publish (r : ElasticShmRing) (m : message) (now_ns : Z) : ElasticShmRing * Z :=
  match m with MsgBbo b => publish_bbo r b now_ns | MsgTrade t => publish_trade r t now_ns end.

Definition log_head (log : list message) : Z := Z.of_nat (length log).

(** [r] holds the last [capacity] messages of [log]. *)
Record ring_rep (r : ElasticShmRing) (log : list message) : Prop := {
  rep_capacity : exists p, 0 <= p <= 32 /\ capacity r = 2 ^ p;
  rep_mask : mask r = capacity r - 1;
  rep_slots : Z.of_nat (length (slots r)) = capacity r;
  rep_head : head_sequence (header r) = log_head log;
  rep_bound : log_head log < 2 ^ 62;
  rep_messages : forall i m, log !! i = Some m -> log_head log - capacity r < Z.of_nat i + 1 ->
    slots r !! Z.to_nat ((Z.of_nat i + 1) mod capacity r) = Some (message_slot m (Z.of_nat i + 1));
}.

(** ** Lemmas *)

Lemma land_pow2_mask n c p : 0 <= p -> c = 2 ^ p -> Z.land n (c - 1) = n mod c.
Proof. intros Hp ->. apply land_mask; [done|]. by rewrite Z.ones_equiv. Qed.

(** What a store may change: everything else about the ring is kept. *)
Definition same_shape (r r' : ElasticShmRing) : Prop :=
  capacity r' = capacity r /\ mask r' = mask r /\ length (slots r') = length (slots r).

Lemma run_stores_app fs gs r : run_stores (fs ++ gs) r = run_stores gs (run_stores fs r).
Proof. apply fold_left_app. Qed.

Lemma run_slot_stores idx fs r :
  run_stores (map (store_slot idx) fs) r =
  mkRing (backend r) (capacity r) (mask r) (header r)
    (alter (fun s => fold_left (fun s f => f s) fs s) (Z.to_nat idx) (slots r)).
Proof.
  revert r. induction fs as [|f fs IH]; intros r; cbn [map run_stores fold_left].
  - destruct r as [b c mk h sl]. cbn. f_equal. symmetry. apply list_alter_id. by intros.
  - unfold run_stores in IH. rewrite IH. destruct r as [b c mk h sl]. cbn. f_equal.
    rewrite list_alter_alter_eq. done.
Qed.

Lemma message_stores_slot m seq s :
  fold_left (fun s f => f s) (message_stores m seq) s = message_slot m seq.
Proof. by destruct m. Qed.

(** A ring in the middle of a publication: the stores made so far touch the next slot only. *)
Lemma partial_publish r m now k :
  (k <= length (message_stores m 0) + 1)%nat ->
  let r' := run_stores (take k (publish_stores r (message_stores m) now)) r in
  same_shape r r' /\ head_sequence (header r') = head_sequence (header r) /\
  forall j, j <> Z.to_nat (Z.land (head_sequence (header r) +[U64] 1) (mask r)) ->
    slots r' !! j = slots r !! j.
Proof.
  intros Hk r'. subst r'. unfold publish_stores.
  set (next := head_sequence (header r) +[U64] 1). set (idx := Z.land next (mask r)).
  assert (length (message_stores m next) = length (message_stores m 0)) as Hl by by destruct m.
  destruct (Nat.le_gt_cases k (length (message_stores m next))) as [Hle|Hgt].
  - rewrite take_app_le by by rewrite length_map. rewrite <- map_take || rewrite firstn_map.
    rewrite run_slot_stores. cbn [header slots capacity mask]. unfold same_shape.
    cbn [slots capacity mask]. rewrite length_alter. repeat split.
    intros j Hj. by rewrite list_lookup_alter_ne.
  - replace k with (length (message_stores m next) + 1)%nat by lia.
    rewrite take_app_ge by (rewrite length_map; lia). rewrite length_map, Nat.add_sub', run_stores_app.
    rewrite run_slot_stores. unfold same_shape. cbn. rewrite length_alter. repeat split.
    intros j Hj. by rewrite list_lookup_alter_ne.
Qed.

Lemma publish_state r m now :
  let next := head_sequence (header r) +[U64] 1 in
  let r' := (publish r m now).1 in
  (publish r m now).2 = next /\ capacity r' = capacity r /\ mask r' = mask r /\
  head_sequence (header r') = next /\
  slots r' = alter (fun _ => message_slot m next) (Z.to_nat (Z.land next (mask r))) (slots r).
Proof.
  cbv zeta. set (next := head_sequence (header r) +[U64] 1).
  assert ((publish r m now) = (run_stores (publish_stores r (message_stores m) now) r, next)) as ->
    by by destruct m.
  cbn [fst snd]. unfold publish_stores. fold next. rewrite run_stores_app, run_slot_stores. cbn.
  repeat split. apply list_alter_ext; [|done]. intros s. by rewrite message_stores_slot.
Qed.

Lemma slot_distinct c a b : 0 < c -> a mod c = b mod c -> Z.abs (a - b) < c -> a = b.
Proof.
  intros Hc Hm Hd. rewrite (Z.div_mod a c), (Z.div_mod b c) in Hd |- * by lia. rewrite Hm in Hd |- *.
  replace (c * (a / c) + b mod c - (c * (b / c) + b mod c)) with (c * (a / c - b / c)) in Hd by ring.
  rewrite Z.abs_mul, (Z.abs_eq c) in Hd by lia.
  assert (Z.abs (a / c - b / c) < 1) by (apply (Z.mul_lt_mono_pos_l c); lia).
  replace (a / c) with (b / c) by lia. done.
Qed.

Lemma publish_rep r log m now :
  ring_rep r log -> log_head log + 1 < 2 ^ 62 ->
  ring_rep (publish r m now).1 (log ++ [m]) /\ (publish r m now).2 = log_head log + 1.
Proof.
  intros [(p & Hp & Hc) Hmask Hsl Hh Hb Hmsg] Hb'.
  destruct (publish_state r m now) as (E1 & E2 & E3 & E4 & E5). cbv zeta in *.
  assert (0 <= log_head log) by (unfold log_head; lia).
  rewrite Hh in *. rewrite wrap_id in * by mint.
  assert (log_head (log ++ [m]) = log_head log + 1) as Hlog
    by (unfold log_head; rewrite length_app; cbn; lia).
  assert (0 < capacity r) by (rewrite Hc; apply Z.pow_pos_nonneg; lia).
  rewrite Hmask, (land_pow2_mask _ _ p) in E5 by (done || lia).
  set (n := log_head log + 1) in *. split; [|done]. split.
  - rewrite E2. eauto.
  - by rewrite E2, E3.
  - rewrite E2, E5, length_alter. done.
  - by rewrite E4, Hlog.
  - by rewrite Hlog.
  - intros i m' Hi Hlt. rewrite Hlog, E2 in *. rewrite E5.
    apply lookup_app_Some in Hi as [Hi|[Hge Hi]].
    + pose proof (lookup_lt_Some _ _ _ Hi). fold (log_head log) in *.
      rewrite list_lookup_alter_ne; [apply Hmsg; [done|unfold n in *; lia]|].
      intros He. apply Z2Nat.inj in He; [|apply Z.mod_pos_bound; lia..].
      apply slot_distinct in He; [|lia|unfold n, log_head in *; lia]. unfold n, log_head in *; lia.
    + apply list_lookup_singleton_Some in Hi as [Hi0 <-].
      assert (Z.of_nat i + 1 = n) as -> by (unfold n, log_head; lia).
      rewrite list_lookup_alter_eq.
      destruct (slots r !! Z.to_nat (n mod capacity r)) eqn:E; [done|].
      apply lookup_ge_None in E. pose proof (Z.mod_pos_bound n (capacity r)). lia.
Qed.

(** Reading a slot whose content is known. *)
Lemma try_read_slot r cursor out p m :
  0 <= p -> capacity r = 2 ^ p -> mask r = capacity r - 1 ->
  0 <= cursor < head_sequence (header r) -> head_sequence (header r) < 2 ^ 62 -> p <= 32 ->
  head_sequence (header r) <= cursor + capacity r ->
  slots r !! Z.to_nat ((cursor + 1) mod capacity r) = Some (message_slot m (cursor + 1)) ->
  try_read r cursor out = (cursor + 1, message_slot m (cursor + 1), ReadOk).
Proof.
  intros Hp Hc Hmask Hcur Hh Hp32 Hov Hs. unfold try_read.
  assert (0 < capacity r <= 2 ^ 32).
  { rewrite Hc. split; [apply Z.pow_pos_nonneg; lia|apply Z.pow_le_mono_r; lia]. }
  rewrite (proj2 (Z.leb_gt _ _)) by lia. rewrite (wrap_id U64 (cursor + capacity r)) by mint.
  rewrite (proj2 (Z.ltb_ge _ _)) by lia. rewrite (wrap_id U64 (cursor + 1)) by mint.
  cbv zeta. rewrite Hmask, (land_pow2_mask _ _ p) by done. rewrite Hs. cbn [default from_option].
  replace (sl_sequence (id (message_slot m (cursor + 1)))) with (cursor + 1) by by destruct m.
  by rewrite Z.eqb_refl.
Qed.

Lemma try_read_rep r log cursor out :
  ring_rep r log -> 0 <= cursor ->
  match log !! Z.to_nat cursor with
  | None => try_read r cursor out = (cursor, out, ReadEmpty)
  | Some m =>
      if cursor + capacity r <? log_head log
      then try_read r cursor out =
        (log_head log - capacity r, out, ReadOverrun (log_head log - capacity r - cursor))
      else try_read r cursor out = (cursor + 1, message_slot m (cursor + 1), ReadOk)
  end.
Proof.
  intros [(p & Hp & Hc) Hmask Hsl Hh Hb Hmsg] Hcur.
  assert (0 < capacity r <= 2 ^ 32).
  { rewrite Hc. split; [apply Z.pow_pos_nonneg; lia|apply Z.pow_le_mono_r; lia]. }
  destruct (log !! Z.to_nat cursor) as [m|] eqn:E.
  - pose proof (lookup_lt_Some _ _ _ E) as Hlt.
    assert (cursor < log_head log) by (unfold log_head; lia).
    destruct (Z.ltb_spec (cursor + capacity r) (log_head log)) as [Hov|Hov].
    + unfold try_read. rewrite Hh, (proj2 (Z.leb_gt _ _)) by lia.
      rewrite !(wrap_id U64 (cursor + capacity r)) by mint. rewrite (proj2 (Z.ltb_lt _ _)) by done.
      cbv zeta. rewrite !wrap_id by mint.
      by replace (log_head log - (cursor + capacity r)) with (log_head log - capacity r - cursor) by lia.
    + apply (try_read_slot _ _ _ p); try lia; try done.
      specialize (Hmsg _ _ E). rewrite Z2Nat.id in Hmsg by done. apply Hmsg. lia.
  - apply lookup_ge_None in E. unfold try_read. by rewrite (proj2 (Z.leb_le _ _)) by (unfold log_head in *; lia).
Qed.

(** ** Creation *)

Lemma is_power_of_two_spec n : is_power_of_two n = true -> exists p, 0 <= p /\ n = 2 ^ p.
Proof.
  unfold is_power_of_two. intros H. breflect. destruct H as [Hn H].
  exists (trailing_zeros n). destruct (testbit_lowest n Hn) as (Ht & Hp & _). split; [done|].
  apply Z.bits_inj'. intros i Hi. rewrite Z.pow2_bits_eqb by done.
  pose proof (testbit_clear_lowest n i Hn Hi) as Hc. rewrite H, Z.bits_0 in Hc.
  destruct (Z.eqb_spec (trailing_zeros n) i) as [<-|Hne]; [done|].
  rewrite (proj2 (Z.eqb_neq i _)), andb_true_r in Hc by done. done.
Qed.

Lemma next_power_of_two_spec n : 0 <= n <= 2 ^ 32 ->
  exists p, 0 <= p <= 32 /\ next_power_of_two n = 2 ^ p /\ n <= 2 ^ p /\ (1 < n -> 2 ^ (p - 1) < n).
Proof.
  intros Hn. unfold next_power_of_two. destruct (Z.leb_spec n 1).
  - exists 0. repeat split; lia.
  - exists (Z.log2_up n). pose proof (Z.log2_up_spec n ltac:(lia)) as [H1 H2].
    assert (Z.log2_up n <= Z.log2_up (2 ^ 32)) as H3 by (apply Z.log2_up_le_mono; lia).
    rewrite Z.log2_up_pow2 in H3 by lia. pose proof (Z.log2_up_nonneg n).
    replace (Z.log2_up n - 1) with (Z.pred (Z.log2_up n)) by lia. done.
Qed.

(** The capacity chosen for a request. *)
Definition chosen_capacity (n : Z) : Z := if is_power_of_two n then n else next_power_of_two n.

Lemma chosen_capacity_spec n : 0 <= n <= 2 ^ 32 ->
  exists p, 0 <= p <= 32 /\ chosen_capacity n = 2 ^ p /\ n <= 2 ^ p /\ (1 < n -> 2 ^ (p - 1) < n).
Proof.
  intros Hn. unfold chosen_capacity. destruct (is_power_of_two n) eqn:E; [|by apply next_power_of_two_spec].
  apply is_power_of_two_spec in E as (p & Hp & ->). exists p.
  assert (p <= 32) by (apply (Z.pow_le_mono_r_iff 2); lia).
  repeat split; try lia. intros _. apply Z.pow_lt_mono_r; lia.
Qed.

Lemma init_rep b c pid p :
  0 <= p <= 32 -> c = 2 ^ p -> ring_rep (init_memory_backed b c (c -[USIZE] 1) pid) [].
Proof.
  intros Hp Hc. assert (0 < c <= 2 ^ 32).
  { rewrite Hc. split; [apply Z.pow_pos_nonneg; lia|apply Z.pow_le_mono_r; lia]. }
  split; cbn [capacity mask slots header head_sequence init_memory_backed]; try done.
  - eauto.
  - apply wrap_id. mint.
  - rewrite length_replicate. lia.
Qed.

Lemma create_rep is_dir open tmp config pid :
  0 <= cfg_capacity config <= 2 ^ 32 ->
  let r := create_or_fallback is_dir open tmp config pid in
  ring_rep r [] /\ capacity r = chosen_capacity (cfg_capacity config).
Proof.
  intros Hc. destruct (chosen_capacity_spec _ Hc) as (p & Hp & E & _). unfold create_or_fallback.
  fold (chosen_capacity (cfg_capacity config)).
  repeat (destruct (_ && _) || destruct (open _ _)); (split; [by eapply init_rep|done]).
Qed.

(** ** Draining *)

Fixpoint publish_all (r : ElasticShmRing) (msgs : list message) (now_ns : Z) : ElasticShmRing :=
  match msgs with
  | [] => r
  | m :: msgs => publish_all (publish r m now_ns).1 msgs now_ns
  end.

Lemma publish_all_rep r log msgs now :
  ring_rep r log -> log_head log + log_head msgs < 2 ^ 62 ->
  ring_rep (publish_all r msgs now) (log ++ msgs) /\ capacity (publish_all r msgs now) = capacity r.
Proof.
  revert r log. induction msgs as [|m msgs IH]; intros r log Hr Hl.
  - by rewrite app_nil_r.
  - cbn [publish_all]. unfold log_head in Hl. cbn [length] in Hl.
    destruct (publish_rep r log m now Hr) as [Hr' _]; [unfold log_head; lia|].
    destruct (IH _ _ Hr') as [H1 H2]; [unfold log_head; rewrite length_app; cbn; lia|].
    rewrite <- app_assoc in H1. split; [done|]. rewrite H2.
    by destruct (publish_state r m now) as (_ & -> & _).
Qed.

(** A reader that calls [try_read] until it is told [Empty]: what it read, how many messages it was
    told it missed, and its cursor. *)
Fixpoint drain (fuel : nat) (r : ElasticShmRing) (cursor : Z) : list ShmMessageSlot * Z * Z :=
  match fuel with
  | O => ([], 0, cursor)
  | S fuel =>
      match try_read r cursor Slot_default with
      | (cursor, out, ReadOk) =>
          let '(read, missed, cursor) := drain fuel r cursor in (out :: read, missed, cursor)
      | (cursor, _, ReadOverrun n) =>
          let '(read, missed, cursor) := drain fuel r cursor in (read, n + missed, cursor)
      | (cursor, _, ReadEmpty) => ([], 0, cursor)
      end
  end.

Lemma drain_S fuel r cursor :
  drain (S fuel) r cursor =
  match try_read r cursor Slot_default with
  | (cursor, out, ReadOk) =>
      let '(read, missed, cursor) := drain fuel r cursor in (out :: read, missed, cursor)
  | (cursor, _, ReadOverrun n) =>
      let '(read, missed, cursor) := drain fuel r cursor in (read, n + missed, cursor)
  | (cursor, _, ReadEmpty) => ([], 0, cursor)
  end.
Proof. done. Qed.

(** The slots of the messages numbered [from + 1 ..]. *)
Definition slots_from (log : list message) (from : nat) : list ShmMessageSlot :=
  imap (fun i m => message_slot m (Z.of_nat (from + i) + 1)) (drop from log).

Lemma slots_from_cons log from m :
  log !! from = Some m -> slots_from log from = message_slot m (Z.of_nat from + 1) :: slots_from log (S from).
Proof.
  intros H. unfold slots_from. rewrite (drop_S _ _ _ H). cbn. rewrite Nat.add_0_r. f_equal.
  apply imap_ext. intros i x _. cbn. do 2 f_equal. lia.
Qed.

Lemma drain_in_range fuel r log n :
  ring_rep r log -> (n <= length log)%nat -> log_head log <= Z.of_nat n + capacity r ->
  (length log - n < fuel)%nat -> drain fuel r (Z.of_nat n) = (slots_from log n, 0, log_head log).
Proof.
  intros Hr. revert n. induction fuel as [|fuel IH]; intros n Hn Hc Hf; [lia|].
  cbn [drain]. pose proof (try_read_rep r log (Z.of_nat n) Slot_default Hr ltac:(lia)) as H.
  rewrite Nat2Z.id in H. destruct (log !! n) as [m|] eqn:E.
  - pose proof (lookup_lt_Some _ _ _ E). rewrite (proj2 (Z.ltb_ge _ _)) in H by lia. rewrite H.
    replace (Z.of_nat n + 1) with (Z.of_nat (S n)) by lia. rewrite IH by lia.
    rewrite (slots_from_cons _ _ _ E). by replace (Z.of_nat (S n)) with (Z.of_nat n + 1) by lia.
  - rewrite H. apply lookup_ge_None in E. unfold slots_from. rewrite drop_ge by done.
    by replace (Z.of_nat n) with (log_head log) by (unfold log_head; lia).
Qed.

Lemma drain_spec r log n :
  ring_rep r log -> (n <= length log)%nat ->
  let oldest := Z.max (Z.of_nat n) (log_head log - capacity r) in
  drain (length log + 2) r (Z.of_nat n) =
  (slots_from log (Z.to_nat oldest), oldest - Z.of_nat n, log_head log).
Proof.
  intros Hr Hn oldest. destruct (Z.le_gt_cases (log_head log) (Z.of_nat n + capacity r)) as [Hc|Hc].
  - unfold oldest. rewrite Z.max_l, Nat2Z.id by lia. rewrite (drain_in_range _ _ log) by (done || lia).
    f_equal. f_equal. lia.
  - replace (length log + 2)%nat with (S (length log + 1)) by lia. rewrite drain_S.
    destruct (rep_capacity _ _ Hr) as (p & Hp & E2).
    assert (0 < capacity r) by (rewrite E2; apply Z.pow_pos_nonneg; lia).
    pose proof (try_read_rep r log (Z.of_nat n) Slot_default Hr ltac:(lia)) as H'.
    rewrite Nat2Z.id in H'. destruct (log !! n) as [m|] eqn:E.
    2: { apply lookup_ge_None in E. unfold log_head in *. lia. }
    rewrite (proj2 (Z.ltb_lt _ _)) in H' by lia. rewrite H'.
    unfold oldest. rewrite Z.max_r by lia.
    pose proof (drain_in_range (length log + 1) r log (Z.to_nat (log_head log - capacity r)) Hr) as Hd.
    rewrite Z2Nat.id in Hd by lia.
    rewrite Hd by (unfold log_head in *; lia). f_equal. f_equal. lia.
Qed.

Definition demo_bbo_msg (price : Z) : NormalizedBbo :=
  mkBbo Telemetry_default 7 1 0 1 price (price + 1) (price + 2) 1 5 0.

(** A host on which every file operation fails. *)
Definition no_host_dir : bytes -> bool := fun _ => false.
Definition no_host_open : bytes -> Z -> bool := fun _ _ => false.

Definition demo_ring : ElasticShmRing :=
  create_or_fallback no_host_dir no_host_open [] (mkShmConfig Tier1MidRange 2 None false false) 1.

Module Shm.

(** C15: whatever the operating system answers, a ring is created, with the smallest power of two
    that is at least the requested capacity; publishing [msgs] on it and then reading until
    Empty from cursor [n] returns exactly the messages from [n] on that are still among the last
    [capacity] ones, in order, with the exact number of those overwritten, and leaves the
    cursor at the head. *)
Theorem publish_then_drain (is_dir : bytes -> bool) (open : bytes -> Z -> bool) (tmp : bytes)
    (config : ElasticShmConfig) (pid now : Z) (msgs : list message) (n : nat)
    (Hc : 0 <= cfg_capacity config <= 2 ^ 32) (Hm : Z.of_nat (length msgs) < 2 ^ 62)
    (Hn : (n <= length msgs)%nat) :
  let r := publish_all (create_or_fallback is_dir open tmp config pid) msgs now in
  let cap := capacity r in
  (exists p, cap = 2 ^ p /\ cfg_capacity config <= cap /\
    (1 < cfg_capacity config -> 2 ^ (p - 1) < cfg_capacity config)) /\
  let oldest := Z.max (Z.of_nat n) (Z.of_nat (length msgs) - cap) in
  drain (length msgs + 2) r (Z.of_nat n) =
  (slots_from msgs (Z.to_nat oldest), oldest - Z.of_nat n, Z.of_nat (length msgs)).
Proof.
  destruct (create_rep is_dir open tmp config pid Hc) as [Hr Hcap].
  destruct (publish_all_rep _ [] msgs now Hr) as [Hr' Hcap']; [unfold log_head; cbn [length]; lia|].
  cbv zeta. rewrite Hcap', Hcap. split.
  - destruct (chosen_capacity_spec _ Hc) as (p & _ & E & H1 & H2). exists p. by rewrite E.
  - pose proof (drain_spec _ _ n Hr' Hn) as H. cbv zeta in H. rewrite Hcap', Hcap in H. exact H.
Qed.

Lemma publish_then_drain_witness :
  drain 5 (publish_all demo_ring [MsgBbo (demo_bbo_msg 1); MsgBbo (demo_bbo_msg 2); MsgTrade Trade_default] 9) 0 =
  ([message_slot (MsgBbo (demo_bbo_msg 2)) 2; message_slot (MsgTrade Trade_default) 3], 1, 3).
Proof.
  destruct (publish_then_drain no_host_dir no_host_open [] (mkShmConfig Tier1MidRange 2 None false false)
    1 9 [MsgBbo (demo_bbo_msg 1); MsgBbo (demo_bbo_msg 2); MsgTrade Trade_default] 0) as [_ H];
    [by_eval|by_eval|by_eval|].
  cbv zeta in H. fold demo_ring in H. etransitivity; [exact H|]. vm_compute. reflexivity.
Defined.

(** A reader that runs between any two stores of a publication, the head excepted, reads the
    next message intact provided it lags the head by less than the capacity: the writer is then in
    another slot. *)
Theorem read_during_publish (r : ElasticShmRing) (log : list message) (m : message) (now : Z)
    (k : nat) (cursor : Z) (out : ShmMessageSlot) (next : message)
    (Hr : ring_rep r log) (Hk : (k <= length (message_stores m 0) + 1)%nat) (Hcur : 0 <= cursor)
    (Hnext : log !! Z.to_nat cursor = Some next) (Hlag : log_head log < cursor + capacity r) :
  try_read (run_stores (take k (publish_stores r (message_stores m) now)) r) cursor out =
  (cursor + 1, message_slot next (cursor + 1), ReadOk).
Proof.
  destruct (partial_publish r m now k Hk) as ((Hc & Hm & _) & Hh & Hs). cbv zeta in *.
  set (r' := run_stores _ r) in *. pose proof Hr as [(p & Hp & Hcap) Hmask _ Hhead Hb Hmsg].
  pose proof (lookup_lt_Some _ _ _ Hnext).
  assert (0 < capacity r <= 2 ^ 32).
  { rewrite Hcap. split; [apply Z.pow_pos_nonneg; lia|apply Z.pow_le_mono_r; lia]. }
  apply (try_read_slot _ _ _ p); rewrite ?Hc, ?Hm, ?Hh, ?Hhead; try lia; try done;
    [unfold log_head; lia|].
  specialize (Hmsg _ _ Hnext). rewrite Z2Nat.id in Hmsg by done. rewrite Hs; [apply Hmsg; lia|].
  rewrite Hhead, (wrap_id U64), Hmask, (land_pow2_mask _ _ p) by (done || lia || (unfold log_head in *; mint)).
  intros E. apply Z2Nat.inj in E; [|apply Z.mod_pos_bound; lia..].
  apply slot_distinct in E; unfold log_head in *; lia.
Qed.

Lemma read_during_publish_witness :
  let r := publish_all demo_ring [MsgBbo (demo_bbo_msg 1); MsgBbo (demo_bbo_msg 2)] 9 in
  try_read (run_stores (take 5 (publish_stores r (message_stores (MsgBbo (demo_bbo_msg 3))) 9)) r) 1 Slot_default
  = (2, message_slot (MsgBbo (demo_bbo_msg 2)) 2, ReadOk).
Proof.
  cbv zeta.
  apply (read_during_publish _ [MsgBbo (demo_bbo_msg 1); MsgBbo (demo_bbo_msg 2)]);
    [|by_eval|lia|reflexivity|vm_compute; reflexivity].
  apply (publish_all_rep demo_ring []); [|by_eval].
  apply create_rep. by_eval.
Defined.

(** At a lag of exactly the capacity the check on the slot's sequence number does not detect a
    torn read: between the stores, the reader gets Ok with the old sequence number, one message's
    price and the next message's market fields, a slot that was never published. *)
Theorem torn_read_undetected :
  let log := [MsgBbo (demo_bbo_msg 1); MsgBbo (demo_bbo_msg 2)] in
  let r := publish_all demo_ring log 9 in
  let m := MsgBbo (demo_bbo_msg 3) in
  let r' := run_stores (take 5 (publish_stores r (message_stores m) 9)) r in
  exists slot, try_read r' 0 Slot_default = (1, slot, ReadOk) /\
    sl_price slot = 3 /\ sl_qty slot = 2 /\
    Forall (fun m => forall seq, slot <> message_slot m seq) (m :: log).
Proof.
  cbv zeta. eexists. split; [vm_compute; reflexivity|]. split; [done|]. split; [done|].
  repeat constructor; intros seq; vm_compute; congruence.
Qed.

(** [ShmRingBuffer<N>] behaves as the elastic ring of capacity [N]: from equal heads and
    slots, publishing gives equal sequence numbers, heads and slots, and reading the same
    results. *)
Theorem ring_buffer_equiv (N : Z) (r : ElasticShmRing) (rb : ShmRingBuffer) (m : message)
    (now cursor : Z) (out : ShmMessageSlot)
    (Hc : capacity r = N) (Hm : mask r = N - 1) (Hh : rb_header rb = header r) (Hs : rb_slots rb = slots r) :
  let (r', seq) := publish r m now in
  let (rb', seq') := ring_publish N rb (message_stores m) now in
  seq' = seq /\ rb_header rb' = header r' /\ rb_slots rb' = slots r' /\
  ring_try_read N rb cursor out = try_read r cursor out.
Proof.
  destruct (publish_state r m now) as (E1 & E2 & E3 & E4 & E5). cbv zeta in *.
  assert (header (publish r m now).1 = mkShmHeader (magic (header r)) (shm_version (header r))
    (slot_capacity (header r)) (slot_size_bytes (header r)) (writer_pid (header r)) now
    (head_sequence (header r) +[U64] 1)) as E6.
  { assert ((publish r m now).1 = run_stores (publish_stores r (message_stores m) now) r) as -> by by destruct m.
    unfold publish_stores. by rewrite run_stores_app, run_slot_stores. }
  destruct (publish r m now) as [r' seq]. cbn [fst snd] in *. unfold ring_publish, ring_try_read, try_read.
  cbv zeta. rewrite Hh, Hs. cbn [rb_header rb_slots]. rewrite E6, E5, E1, Hc, Hm.
  split; [done|]. split; [done|]. split; [|done].
  generalize (head_sequence (header r) +[U64] 1). intros n. generalize (Z.to_nat (Z.land n (N - 1))). intros i.
  transitivity (alter (fun s => fold_left (fun s f => f s) (message_stores m n) s) i (slots r)).
  - generalize (message_stores m n). intros fs. generalize (slots r). clear.
    induction fs as [|f fs IH]; intros sl; cbn [fold_left]; [symmetry; by apply list_alter_id|].
    rewrite IH, list_alter_alter_eq. done.
  - apply list_alter_ext; [|done]. intros s _. apply message_stores_slot.
Qed.

Lemma ring_buffer_equiv_witness :
  (ring_publish 2 (mkRingBuffer (header demo_ring) (slots demo_ring)) (message_stores (MsgTrade Trade_default)) 9).2 = 1.
Proof.
  pose proof (ring_buffer_equiv 2 demo_ring (mkRingBuffer (header demo_ring) (slots demo_ring))
    (MsgTrade Trade_default) 9 0 Slot_default eq_refl eq_refl eq_refl eq_refl) as H.
  destruct (publish demo_ring _ _) as [r' seq] eqn:E. destruct (ring_publish _ _ _ _) as [rb' seq'].
  destruct H as [-> _]. apply (f_equal snd) in E. cbn [snd] in *. rewrite <- E. reflexivity.
Defined.

End Shm.
