(* ===== verification/Spsc.v ===== *)
(** * core-engine/src/lib.rs: [SpscRingBuffer]

    One producer and one consumer thread over shared cursors and slots.  [producer_step] and
    [consumer_step] perform one shared-memory access of [try_push] and [try_pop] each; [spsc_step]
    interleaves them arbitrarily.  The contract is the bounded queue [fifo_step], and every run
    is a run of it.  [try_push] and [try_pop] are the calls run alone.  Memory is
    sequentially consistent: the payload write is ordered before the cursor store by Release, and
    read after the cursor load by Acquire. *)

From S2P Require Import Prelude.

Section Spsc.
Context {T : Type} (N : Z).

(** The five shared locations; the two caches are private to one side each. *)
Record SpscRingBuffer := mkSpsc {
  producer_cursor : Z;
  cached_consumer_cursor : Z;
  consumer_cursor : Z;
  cached_producer_cursor : Z;
  buffer : list T;
}.

(** Where the producer is in [try_push]: before a call, about to reload the consumer cursor, to
    write the slot, to publish the cursor. *)
Inductive producer_pc :=
| PIdle
| PReload (item : T) (current_head : Z)
| PWrite (item : T) (current_head : Z)
| PPublish (item : T) (current_head : Z).

Inductive consumer_pc :=
| CIdle
| CReload (current_tail : Z)
| CRead (current_tail : Z)
| CPublish (item : T) (current_tail : Z).

(** What a step lets its caller see. *)
Inductive event :=
| Tau
| Pushed (item : T)
| PushFull
| Popped (item : T)
| PopEmpty.

Definition slot_index (cursor : Z) : nat := Z.to_nat (Z.land cursor (N - 1)).

(** The first access of a call to [try_push]. *)
Definition start_push (s : SpscRingBuffer) (item : T) : producer_pc :=
  let current_head := producer_cursor s in
  let cached_tail := cached_consumer_cursor s in
  if cached_tail +[U64] N <=? current_head then PReload item current_head
  else PWrite item current_head.

Definition producer_step (s : SpscRingBuffer) (pc : producer_pc) : option (SpscRingBuffer * producer_pc * event) :=
  match pc with
  | PIdle => None
  | PReload item current_head =>
      let actual_tail := consumer_cursor s in
      let s := mkSpsc (producer_cursor s) actual_tail (consumer_cursor s) (cached_producer_cursor s) (buffer s) in
      if actual_tail +[U64] N <=? current_head then Some (s, PIdle, PushFull)
      else Some (s, PWrite item current_head, Tau)
  | PWrite item current_head =>
      Some (mkSpsc (producer_cursor s) (cached_consumer_cursor s) (consumer_cursor s)
        (cached_producer_cursor s) (<[slot_index current_head := item]> (buffer s)),
        PPublish item current_head, Tau)
  | PPublish item current_head =>
      Some (mkSpsc (current_head +[U64] 1) (cached_consumer_cursor s) (consumer_cursor s)
        (cached_producer_cursor s) (buffer s), PIdle, Pushed item)
  end.

(** The first access of a call to [try_pop]. *)
Definition start_pop (s : SpscRingBuffer) : consumer_pc :=
  let current_tail := consumer_cursor s in
  let cached_head := cached_producer_cursor s in
  if cached_head <=? current_tail then CReload current_tail else CRead current_tail.

Definition consumer_step (s : SpscRingBuffer) (pc : consumer_pc) : option (SpscRingBuffer * consumer_pc * event) :=
  match pc with
  | CIdle => None
  | CReload current_tail =>
      let actual_head := producer_cursor s in
      let s := mkSpsc (producer_cursor s) (cached_consumer_cursor s) (consumer_cursor s) actual_head (buffer s) in
      if actual_head <=? current_tail then Some (s, CIdle, PopEmpty)
      else Some (s, CRead current_tail, Tau)
  | CRead current_tail =>
      match buffer s !! slot_index current_tail with
      | Some item => Some (s, CPublish item current_tail, Tau)
      | None => None
      end
  | CPublish item current_tail =>
      Some (mkSpsc (producer_cursor s) (cached_consumer_cursor s) (current_tail +[U64] 1)
        (cached_producer_cursor s) (buffer s), CIdle, Popped item)
  end.

(** A call run alone, to its end. *)
Fixpoint run_producer (fuel : nat) (s : SpscRingBuffer) (pc : producer_pc) : SpscRingBuffer * event :=
  match fuel with
  | O => (s, Tau)
  | S fuel =>
      match producer_step s pc with
      | Some (s, pc, Tau) => run_producer fuel s pc
      | Some (s, _, e) => (s, e)
      | None => (s, Tau)
      end
  end.
Fixpoint run_consumer (fuel : nat) (s : SpscRingBuffer) (pc : consumer_pc) : SpscRingBuffer * event :=
  match fuel with
  | O => (s, Tau)
  | S fuel =>
      match consumer_step s pc with
      | Some (s, pc, Tau) => run_consumer fuel s pc
      | Some (s, _, e) => (s, e)
      | None => (s, Tau)
      end
  end.

Definition try_push (s : SpscRingBuffer) (item : T) : SpscRingBuffer * result unit unit :=
  match run_producer 3 s (start_push s item) with
  | (s, Pushed _) => (s, Ok tt)
  | (s, _) => (s, Err tt)
  end.

Definition try_pop (s : SpscRingBuffer) : SpscRingBuffer * option T :=
  match run_consumer 3 s (start_pop s) with
  | (s, Popped item) => (s, Some item)
  | (s, _) => (s, None)
  end.

Definition spsc_empty (default_item : T) : SpscRingBuffer :=
  mkSpsc 0 0 0 0 (replicate (Z.to_nat N) default_item).

(** [assert!(N.is_power_of_two())], then the buffer of defaults. *)
Definition spsc_new (default_item : T) : outcome SpscRingBuffer :=
  if negb ((0 <? N) && (Z.land N (N - 1) =? 0)) then Panic else Done (spsc_empty default_item).

(** ** The interleaving *)

Record spsc_conf := mkConf { ring : SpscRingBuffer; prod : producer_pc; cons : consumer_pc }.

Inductive spsc_step : spsc_conf -> event -> spsc_conf -> Prop :=
| StepCallPush s c item :
    spsc_step (mkConf s PIdle c) Tau (mkConf s (start_push s item) c)
| StepProducer s p c s' p' e :
    producer_step s p = Some (s', p', e) -> spsc_step (mkConf s p c) e (mkConf s' p' c)
| StepCallPop s p :
    spsc_step (mkConf s p CIdle) Tau (mkConf s p (start_pop s))
| StepConsumer s p c s' c' e :
    consumer_step s c = Some (s', c', e) -> spsc_step (mkConf s p c) e (mkConf s' p c').

Inductive spsc_run : spsc_conf -> list event -> spsc_conf -> Prop :=
| RunNil c : spsc_run c [] c
| RunCons c1 e c2 es c3 : spsc_step c1 e c2 -> spsc_run c2 es c3 -> spsc_run c1 (e :: es) c3.

(** ** The contract: a queue of at most [N] items *)

Inductive fifo_step : list T -> event -> list T -> Prop :=
| FifoTau q : fifo_step q Tau q
| FifoPush q item : Z.of_nat (length q) < N -> fifo_step q (Pushed item) (q ++ [item])
| FifoFull q : Z.of_nat (length q) = N -> fifo_step q PushFull q
| FifoPop q item : fifo_step (item :: q) (Popped item) q
| FifoEmpty : fifo_step [] PopEmpty [].

Inductive fifo_run : list T -> list event -> list T -> Prop :=
| FifoNil q : fifo_run q [] q
| FifoCons q1 e q2 es q3 : fifo_step q1 e q2 -> fifo_run q2 es q3 -> fifo_run q1 (e :: es) q3.

(** The queue held by the cells from [lo] on is [q]. *)
Definition cells (buf : list T) (lo : Z) (q : list T) : Prop :=
  forall i x, q !! i = Some x -> buf !! slot_index (lo + Z.of_nat i) = Some x.

(** [c] represents the queue [q]. *)
Record spsc_rep (c : spsc_conf) (q : list T) : Prop := {
  rep_buffer : Z.of_nat (length (buffer (ring c))) = N;
  rep_cursors : 0 <= consumer_cursor (ring c) /\
    producer_cursor (ring c) = consumer_cursor (ring c) + Z.of_nat (length q) /\
    Z.of_nat (length q) <= N;
  rep_caches : 0 <= cached_consumer_cursor (ring c) <= consumer_cursor (ring c) /\
    0 <= cached_producer_cursor (ring c) <= producer_cursor (ring c);
  rep_cells : cells (buffer (ring c)) (consumer_cursor (ring c)) q;
  rep_prod : match prod c with
    | PIdle => True
    | PReload _ h => h = producer_cursor (ring c)
    | PWrite _ h => h = producer_cursor (ring c) /\ Z.of_nat (length q) < N
    | PPublish x h => h = producer_cursor (ring c) /\ Z.of_nat (length q) < N /\
        buffer (ring c) !! slot_index h = Some x
    end;
  rep_cons : match cons c with
    | CIdle => True
    | CReload t => t = consumer_cursor (ring c)
    | CRead t => t = consumer_cursor (ring c) /\ q <> []
    | CPublish x t => t = consumer_cursor (ring c) /\ exists q', q = x :: q'
    end;
}.

(** [N] is a power of two and the cursors have not wrapped around. *)
Definition pow2_capacity : Prop := exists p, 0 <= p <= 32 /\ N = 2 ^ p.

Lemma capacity_bounds : pow2_capacity -> 1 <= N <= 2 ^ 32.
Proof.
  intros (p & Hp & ->). split; [|apply Z.pow_le_mono_r; lia].
  assert (0 < 2 ^ p) by (apply Z.pow_pos_nonneg; lia). lia.
Qed.

Lemma slot_index_mod i : pow2_capacity -> slot_index i = Z.to_nat (i mod N).
Proof.
  intros (p & Hp & HN). unfold slot_index. f_equal. rewrite HN. apply land_mask; [lia|].
  by rewrite Z.ones_equiv.
Qed.

Lemma slot_index_lt i : pow2_capacity -> Z.of_nat (slot_index i) < N.
Proof.
  intros H. pose proof (capacity_bounds H). rewrite slot_index_mod by done.
  pose proof (Z.mod_pos_bound i N). lia.
Qed.

Lemma slot_index_inj a b :
  pow2_capacity -> slot_index a = slot_index b -> Z.abs (a - b) < N -> a = b.
Proof.
  intros H E Hd. pose proof (capacity_bounds H). rewrite !slot_index_mod in E by done.
  apply Z2Nat.inj in E; [|apply Z.mod_pos_bound; lia..].
  rewrite (Z.div_mod a N), (Z.div_mod b N) in Hd |- * by lia. rewrite E in Hd |- *.
  replace (N * (a / N) + b mod N - (N * (b / N) + b mod N)) with (N * (a / N - b / N)) in Hd by ring.
  rewrite Z.abs_mul, (Z.abs_eq N) in Hd by lia.
  assert (Z.abs (a / N - b / N) < 1) by (apply (Z.mul_lt_mono_pos_l N); lia).
  replace (a / N) with (b / N) by lia. done.
Qed.

(** Writing the cell after the queue leaves the queue's cells alone. *)
Lemma cells_write buf lo q h x :
  pow2_capacity -> h = lo + Z.of_nat (length q) -> Z.of_nat (length q) < N ->
  cells buf lo q -> cells (<[slot_index h := x]> buf) lo q.
Proof.
  intros HN Hh Hl H i y Hi. rewrite list_lookup_insert_ne; [by apply H|].
  intros E. pose proof (lookup_lt_Some _ _ _ Hi). apply slot_index_inj in E; [|done|]; lia.
Qed.

Lemma cells_snoc buf lo q x :
  cells buf lo q -> buf !! slot_index (lo + Z.of_nat (length q)) = Some x -> cells buf lo (q ++ [x]).
Proof.
  intros H Hx i y [Hi|[Hge Hi]]%lookup_app_Some; [by apply H|].
  apply list_lookup_singleton_Some in Hi as [Hi <-]. replace i with (length q) by lia. done.
Qed.

Lemma cells_tail buf lo x q : cells buf lo (x :: q) -> cells buf (lo + 1) q.
Proof. intros H i y Hi. specialize (H (S i) y Hi). by replace (lo + 1 + Z.of_nat i) with (lo + Z.of_nat (S i)) by lia. Qed.

(** ** The simulation *)

Lemma spsc_step_rep c e c' q :
  pow2_capacity -> producer_cursor (ring c) < 2 ^ 62 ->
  spsc_rep c q -> spsc_step c e c' -> exists q', fifo_step q e q' /\ spsc_rep c' q'.
Proof.
  intros HN Hb [Hbuf (Hc0 & Hpc & Hq) [Hcc Hcp] Hcells Hp Hc] Hs. pose proof (capacity_bounds HN).
  destruct Hs as [s c item|s p c s' p' e Hst|s p|s p c s' c' e Hst]; cbn [ring prod cons] in *.
  - exists q. split; [constructor|]. split; cbn [ring prod cons]; try done.
    unfold start_push. rewrite wrap_id by mint. destruct (Z.leb_spec (cached_consumer_cursor s + N) (producer_cursor s)); [done|lia].
  - destruct p as [|item h|item h|item h]; cbn [producer_step] in Hst; [done|..].
    + subst h. rewrite wrap_id in Hst by mint.
      destruct (Z.leb_spec (consumer_cursor s + N) (producer_cursor s)); injection Hst as <- <- <-.
      * exists q. split; [constructor; lia|]. split; cbn; try done; lia.
      * exists q. split; [constructor|]. split; cbn; try done; try lia.
    + destruct Hp as [-> Hlt]. injection Hst as <- <- <-. exists q. split; [constructor|].
      split; cbn; try done; try lia.
      * by rewrite length_insert.
      * by apply cells_write.
      * split; [done|]. split; [done|]. apply list_lookup_insert_eq.
        pose proof (slot_index_lt (producer_cursor s) HN). lia.
    + destruct Hp as (-> & Hlt & Hx). injection Hst as <- <- <-. exists (q ++ [item]).
      split; [by constructor|]. rewrite wrap_id by mint. rewrite Hpc in Hx.
      split; cbn; rewrite ?length_app; cbn [length]; try done; try lia.
      * by apply cells_snoc.
      * destruct c as [|t|t|x t]; [done|done|..].
        -- destruct Hc as [-> Hne]. split; [done|]. by destruct q.
        -- destruct Hc as (-> & q' & ->). split; [done|]. by exists (q' ++ [item]).
  - exists q. split; [constructor|]. split; cbn [ring prod cons]; try done.
    unfold start_pop. destruct (Z.leb_spec (cached_producer_cursor s) (consumer_cursor s)); [done|].
    split; [done|]. intros ->. cbn in *. lia.
  - destruct c as [|t|t|x t]; cbn [consumer_step] in Hst; [done|..].
    + subst t. destruct (Z.leb_spec (producer_cursor s) (consumer_cursor s)); injection Hst as <- <- <-.
      * assert (q = []) as -> by (apply length_zero_iff_nil; lia).
        exists []. split; [constructor|]. split; cbn; try done; try lia.
      * exists q. split; [constructor|]. split; cbn; try done; try lia.
        split; [done|]. intros ->. cbn in *. lia.
    + destruct Hc as [-> Hne]. destruct q as [|x q]; [done|].
      pose proof (Hcells 0%nat x eq_refl) as Hx. rewrite Z.add_0_r in Hx. rewrite Hx in Hst.
      injection Hst as <- <- <-. exists (x :: q). split; [constructor|]. split; cbn; try done; try lia.
      eauto.
    + destruct Hc as (-> & q' & ->). injection Hst as <- <- <-. exists q'. split; [constructor|].
      rewrite wrap_id by mint. cbn [length] in *. split; cbn; try done; try lia.
      * by apply cells_tail in Hcells.
      * destruct p; cbn in *; intuition lia.
Qed.

(** A step moves the producer cursor by at most one. *)
Lemma spsc_step_cursor c e c' q :
  pow2_capacity -> spsc_rep c q -> spsc_step c e c' -> producer_cursor (ring c) < 2 ^ 62 ->
  producer_cursor (ring c') <= producer_cursor (ring c) + 1.
Proof.
  intros HN [_ (Hc0 & Hpc & Hq) _ _ Hp _] Hs Hb.
  destruct Hs as [s c item|s p c s' p' e Hst|s p|s p c s' c' e Hst]; cbn [ring prod cons] in *; try lia.
  - destruct p as [|item h|item h|item h]; cbn [producer_step] in Hst; [done|..].
    + destruct (_ <=? _); injection Hst as <- <- <-; cbn; lia.
    + injection Hst as <- <- <-. cbn. lia.
    + destruct Hp as [-> _]. injection Hst as <- <- <-. cbn. rewrite wrap_id by mint. lia.
  - destruct c as [|t|t|x t]; cbn [consumer_step] in Hst; [done|..].
    + destruct (_ <=? _); injection Hst as <- <- <-; cbn; lia.
    + destruct (_ !! _); [|done]. injection Hst as <- <- <-. lia.
    + injection Hst as <- <- <-. cbn. lia.
Qed.

Lemma spsc_run_rep c es c' q :
  pow2_capacity -> spsc_run c es c' -> spsc_rep c q ->
  producer_cursor (ring c) + Z.of_nat (length es) < 2 ^ 62 ->
  exists q', fifo_run q es q' /\ spsc_rep c' q'.
Proof.
  intros HN H. revert q. induction H as [c|c1 e c2 es c3 Hs Hrun IH]; intros q Hr Hb.
  - exists q. split; [constructor|done].
  - cbn [length] in Hb. assert (producer_cursor (ring c1) < 2 ^ 62) as Hlt by lia.
    destruct (spsc_step_rep _ _ _ _ HN Hlt Hr Hs) as (q2 & Hf & Hr2).
    pose proof (spsc_step_cursor _ _ _ _ HN Hr Hs Hlt) as Hmono.
    assert (producer_cursor (ring c2) + Z.of_nat (length es) < 2 ^ 62) as Hb2 by lia.
    destruct (IH q2 Hr2 Hb2) as (q3 & Hf3 & Hr3).
    exists q3. split; [by econstructor|done].
Qed.

Definition pushed_items (es : list event) : list T :=
  omap (fun e => match e with Pushed x => Some x | _ => None end) es.
Definition popped_items (es : list event) : list T :=
  omap (fun e => match e with Popped x => Some x | _ => None end) es.

(** The queue conserves items in order. *)
Lemma fifo_run_order q es q' : fifo_run q es q' -> q ++ pushed_items es = popped_items es ++ q'.
Proof.
  induction 1 as [q|q1 e q2 es q3 Hs _ IH]; [by rewrite app_nil_r|].
  unfold pushed_items, popped_items in *. destruct Hs; cbn [omap list_omap]; try done.
  - by rewrite <- IH, <- app_assoc.
  - cbn. by rewrite <- IH.
Qed.

Lemma spsc_empty_rep d : pow2_capacity -> spsc_rep (mkConf (spsc_empty d) PIdle CIdle) [].
Proof.
  intros HN. pose proof (capacity_bounds HN). split; cbn; try done; try lia.
  rewrite length_replicate. lia.
Qed.

(** A buffer of a power-of-two capacity is made, and is empty; any other capacity panics. *)
Lemma spsc_new_done d s : spsc_new d = Done s -> s = spsc_empty d.
Proof. unfold spsc_new. destruct (negb _); [done|]. by intros [= <-]. Qed.

Lemma spsc_new_rep d s : pow2_capacity -> spsc_new d = Done s -> spsc_rep (mkConf s PIdle CIdle) [].
Proof. intros HN ->%spsc_new_done. by apply spsc_empty_rep. Qed.

Lemma spsc_new_pow2 d : pow2_capacity -> spsc_new d = Done (spsc_empty d).
Proof.
  intros (p & Hp & HN). unfold spsc_new. assert (0 < 2 ^ p) by (apply Z.pow_pos_nonneg; lia).
  rewrite HN, (proj2 (Z.ltb_lt 0 (2 ^ p))) by done. rewrite Z.sub_1_r, <- Z.ones_equiv, Z.land_ones by lia.
  by rewrite Z.mod_same by lia.
Qed.

(** ** The calls run alone *)

Lemma producer_rep s p c s' p' e q :
  pow2_capacity -> spsc_rep (mkConf s p c) q -> producer_cursor s < 2 ^ 62 ->
  producer_step s p = Some (s', p', e) ->
  exists q', fifo_step q e q' /\ spsc_rep (mkConf s' p' c) q'.
Proof.
  intros HN Hr Hb Hst.
  exact (spsc_step_rep (mkConf s p c) _ _ _ HN Hb Hr (StepProducer _ _ c _ _ _ Hst)).
Qed.

Lemma consumer_rep s p c s' c' e q :
  pow2_capacity -> spsc_rep (mkConf s p c) q -> producer_cursor s < 2 ^ 62 ->
  consumer_step s c = Some (s', c', e) ->
  exists q', fifo_step q e q' /\ spsc_rep (mkConf s' p c') q'.
Proof.
  intros HN Hr Hb Hst.
  exact (spsc_step_rep (mkConf s p c) _ _ _ HN Hb Hr (StepConsumer _ p _ _ _ _ Hst)).
Qed.

Lemma call_push_rep s q item :
  pow2_capacity -> producer_cursor s < 2 ^ 62 -> spsc_rep (mkConf s PIdle CIdle) q ->
  spsc_rep (mkConf s (start_push s item) CIdle) q.
Proof.
  intros HN Hb Hr.
  destruct (spsc_step_rep (mkConf s PIdle CIdle) _ _ _ HN Hb Hr (StepCallPush _ CIdle item)) as (q1 & Hf & Hr1).
  by inversion Hf; subst.
Qed.

Lemma call_pop_rep s q :
  pow2_capacity -> producer_cursor s < 2 ^ 62 -> spsc_rep (mkConf s PIdle CIdle) q ->
  spsc_rep (mkConf s PIdle (start_pop s)) q.
Proof.
  intros HN Hb Hr.
  destruct (spsc_step_rep (mkConf s PIdle CIdle) _ _ _ HN Hb Hr (StepCallPop _ PIdle)) as (q1 & Hf & Hr1).
  by inversion Hf; subst.
Qed.

Lemma try_push_rep s q item :
  pow2_capacity -> producer_cursor s < 2 ^ 62 -> spsc_rep (mkConf s PIdle CIdle) q ->
  if Z.of_nat (length q) <? N
  then exists s', try_push s item = (s', Ok tt) /\ spsc_rep (mkConf s' PIdle CIdle) (q ++ [item])
  else exists s', try_push s item = (s', Err tt) /\ spsc_rep (mkConf s' PIdle CIdle) q.
Proof.
  intros HN Hb Hr. pose proof (capacity_bounds HN).
  assert (forall s1 h, spsc_rep (mkConf s1 (PWrite item h) CIdle) q -> producer_cursor s1 < 2 ^ 62 ->
    exists s', run_producer 2 s1 (PWrite item h) = (s', Pushed item) /\
      spsc_rep (mkConf s' PIdle CIdle) (q ++ [item])) as Hwrite.
  { intros s1 h Hr1 Hb1. eexists. split; [reflexivity|].
    destruct (producer_rep _ _ CIdle _ _ _ _ HN Hr1 Hb1 eq_refl) as (q1 & Hf1 & Hr2).
    inversion Hf1; subst. cbn [producer_step] in Hr2.
    destruct (producer_rep _ _ CIdle _ _ _ _ HN Hr2 Hb1 eq_refl) as (q2 & Hf2 & Hr3).
    inversion Hf2; subst. exact Hr3. }
  pose proof (call_push_rep s q item HN Hb Hr) as Hr1. unfold try_push. destruct (start_push s item) as [|x h|x h|x h] eqn:E.
  - unfold start_push in E. by destruct (_ <=? _).
  - assert (x = item) as -> by (unfold start_push in E; destruct (_ <=? _); congruence).
    pose proof (fun s' p' e => producer_rep s (PReload item h) CIdle s' p' e q HN Hr1 Hb) as Hstep.
    cbn [run_producer producer_step] in *.
    destruct (consumer_cursor s +[U64] N <=? h) eqn:Eh.
    + destruct (Hstep _ _ _ eq_refl) as (q2 & Hf2 & Hr2).
      inversion Hf2; subst. rewrite (proj2 (Z.ltb_ge _ _)) by lia. eexists. split; [reflexivity|done].
    + destruct (Hstep _ _ _ eq_refl) as (q2 & Hf2 & Hr2).
      inversion Hf2; subst. pose proof (rep_prod _ _ Hr2) as [_ Hlt].
      rewrite (proj2 (Z.ltb_lt _ _)) by done.
      destruct (Hwrite _ _ Hr2 Hb) as (s' & E' & Hr'). injection E' as <-.
      eexists. split; [reflexivity|exact Hr'].
  - assert (x = item) as -> by (unfold start_push in E; destruct (_ <=? _); congruence).
    pose proof (rep_prod _ _ Hr1) as [_ Hlt]. rewrite (proj2 (Z.ltb_lt _ _)) by done.
    destruct (Hwrite _ _ Hr1 Hb) as (s' & E' & Hr'). injection E' as <-.
    eexists. split; [reflexivity|exact Hr'].
  - unfold start_push in E. by destruct (_ <=? _).
Qed.

Lemma try_pop_rep s q :
  pow2_capacity -> producer_cursor s < 2 ^ 62 -> spsc_rep (mkConf s PIdle CIdle) q ->
  match q with
  | x :: q' => exists s', try_pop s = (s', Some x) /\ spsc_rep (mkConf s' PIdle CIdle) q'
  | [] => exists s', try_pop s = (s', None) /\ spsc_rep (mkConf s' PIdle CIdle) []
  end.
Proof.
  intros HN Hb Hr.
  assert (forall s1 t, spsc_rep (mkConf s1 PIdle (CRead t)) q -> producer_cursor s1 < 2 ^ 62 ->
    exists x q' s', q = x :: q' /\ run_consumer 2 s1 (CRead t) = (s', Popped x) /\
      spsc_rep (mkConf s' PIdle CIdle) q') as Hread.
  { intros s1 t Hr1 Hb1. pose proof (rep_cons _ _ Hr1) as [Ht Hne]. cbn in Ht, Hne.
    destruct q as [|x q']; [done|].
    pose proof (rep_cells _ _ Hr1 0%nat x eq_refl) as Hx. cbn in Hx. rewrite Z.add_0_r, <- Ht in Hx.
    eexists x, q', _. split; [done|].
    split; [cbn [run_consumer consumer_step]; rewrite Hx; cbn [run_consumer consumer_step]; reflexivity|].
    assert (consumer_step s1 (CRead t) = Some (s1, CPublish x t, Tau)) as E1 by (cbn; by rewrite Hx).
    destruct (consumer_rep _ PIdle _ _ _ _ _ HN Hr1 Hb1 E1) as (q1 & Hf1 & Hr2).
    inversion Hf1; subst.
    destruct (consumer_rep _ PIdle _ _ _ _ _ HN Hr2 Hb1 eq_refl) as (q2 & Hf2 & Hr3).
    inversion Hf2; subst. exact Hr3. }
  pose proof (call_pop_rep s q HN Hb Hr) as Hr1. unfold try_pop. destruct (start_pop s) as [|t|t|x t] eqn:E.
  - unfold start_pop in E. by destruct (_ <=? _).
  - pose proof (fun s' p' e => consumer_rep s PIdle (CReload t) s' p' e q HN Hr1 Hb) as Hstep.
    cbn [run_consumer consumer_step] in *.
    destruct (producer_cursor s <=? t) eqn:Eh.
    + destruct (Hstep _ _ _ eq_refl) as (q2 & Hf2 & Hr2).
      inversion Hf2; subst. eexists. split; [reflexivity|done].
    + destruct (Hstep _ _ _ eq_refl) as (q2 & Hf2 & Hr2). inversion Hf2; subst.
      destruct (Hread _ _ Hr2 Hb) as (x & q' & s' & -> & E' & Hr'). exists s'.
      cbn [run_consumer consumer_step buffer] in E' |- *.
      destruct (buffer s !! slot_index t); [|done]. injection E' as <- ->. split; [reflexivity|exact Hr'].
  - destruct (Hread _ _ Hr1 Hb) as (x & q' & s' & -> & E' & Hr'). exists s'.
    cbn [run_consumer consumer_step] in E' |- *.
    destruct (buffer s !! slot_index t); [|done]. injection E' as <- ->. split; [reflexivity|exact Hr'].
  - unfold start_pop in E. by destruct (_ <=? _).
Qed.
End Spsc.

Arguments SpscRingBuffer : clear implicits.
Arguments Tau {T}.
Arguments PushFull {T}.
Arguments PopEmpty {T}.
Arguments PIdle {T}.
Arguments CIdle {T}.

Module Spsc.

(** C16: under any interleaving of the producer's and the consumer's memory accesses, the ring
    buffer is a FIFO queue of capacity [N]: every run is a run of the bounded queue, a push is
    refused only when the queue is full and a pop only when it is empty, and the items popped
    are a prefix of the items pushed, none lost, duplicated or reordered. *)
Theorem refines_bounded_queue {T} (N : Z) (d : T) (es : list (event (T:=T))) (c : spsc_conf (T:=T))
    (s0 : SpscRingBuffer T) (HN : pow2_capacity N) (Hnew : spsc_new N d = Done s0)
    (Hrun : spsc_run N (mkConf s0 PIdle CIdle) es c)
    (Hlen : Z.of_nat (length es) < 2 ^ 62) :
  exists q, fifo_run N [] es q /\ spsc_rep N c q /\ pushed_items es = popped_items es ++ q.
Proof.
  destruct (spsc_run_rep N _ es c [] HN Hrun (spsc_new_rep N d s0 HN Hnew)) as (q & Hf & Hr); [rewrite (spsc_new_done N d s0 Hnew); cbn; lia|].
  exists q. split; [done|]. split; [done|]. exact (fifo_run_order N _ _ _ Hf).
Qed.

Lemma pow2_capacity_4 : pow2_capacity 4.
Proof. by exists 2. Qed.

(** A push of 7 interleaved with the pop that takes it. *)
Definition demo_events : list (event (T:=Z)) := [Tau; Tau; Tau; Pushed 7; Tau; Tau; Popped 7].

Lemma demo_run :
  exists c, spsc_run 4 (mkConf (spsc_empty 4 0) PIdle CIdle) demo_events c.
Proof.
  eexists. unfold demo_events.
  eapply RunCons; [apply (StepCallPush 4 _ _ 7)|].
  eapply RunCons; [apply StepCallPop|].
  eapply RunCons; [apply StepProducer; vm_compute; reflexivity|].
  eapply RunCons; [apply StepProducer; vm_compute; reflexivity|].
  eapply RunCons; [apply StepConsumer; vm_compute; reflexivity|].
  eapply RunCons; [apply StepConsumer; vm_compute; reflexivity|].
  eapply RunCons; [apply StepConsumer; vm_compute; reflexivity|].
  apply RunNil.
Qed.

Lemma refines_bounded_queue_witness :
  exists q, fifo_run 4 [] demo_events q /\ pushed_items demo_events = popped_items demo_events ++ q.
Proof.
  destruct demo_run as [c Hc].
  destruct (refines_bounded_queue 4 0 demo_events c (spsc_empty 4 0) pow2_capacity_4 eq_refl Hc ltac:(by_eval)) as (q & H1 & _ & H2).
  by exists q.
Defined.

(** Whenever the producer is about to write a slot while the consumer is about to read one,
    the slots differ, so the plain accesses behind the two cursors never race. *)
Theorem no_slot_race {T} (N : Z) (d : T) (es : list (event (T:=T))) (c : spsc_conf (T:=T))
    (item : T) (h t : Z)
    (s0 : SpscRingBuffer T) (HN : pow2_capacity N) (Hnew : spsc_new N d = Done s0)
    (Hrun : spsc_run N (mkConf s0 PIdle CIdle) es c)
    (Hlen : Z.of_nat (length es) < 2 ^ 62) (Hp : prod c = PWrite item h) (Hc : cons c = CRead t) :
  slot_index N h <> slot_index N t.
Proof.
  destruct (spsc_run_rep N _ es c [] HN Hrun (spsc_new_rep N d s0 HN Hnew)) as (q & _ & Hr); [rewrite (spsc_new_done N d s0 Hnew); cbn; lia|].
  pose proof (rep_cursors _ _ _ Hr) as (Hc0 & Hpc & Hq).
  pose proof (rep_prod _ _ _ Hr) as Hrp. pose proof (rep_cons _ _ _ Hr) as Hrc.
  rewrite Hp in Hrp. rewrite Hc in Hrc. destruct Hrp as [-> Hlt]. destruct Hrc as [-> Hne].
  assert (0 < Z.of_nat (length q)) by (destruct q; [done|cbn; lia]).
  intros E. apply slot_index_inj in E; [lia|done|lia].
Qed.

Lemma no_slot_race_witness : slot_index 4 1 <> slot_index 4 0.
Proof.
  assert (exists c, spsc_run 4 (mkConf (spsc_empty 4 0) PIdle CIdle)
    [Tau; Tau; Pushed 7; Tau; Tau; Tau] c /\ prod c = PWrite 8 1 /\ cons c = CRead 0) as (c & Hc & H1 & H2).
  { eexists. split.
    - eapply RunCons; [apply (StepCallPush 4 _ _ 7)|].
      eapply RunCons; [apply StepProducer; vm_compute; reflexivity|].
      eapply RunCons; [apply StepProducer; vm_compute; reflexivity|].
      eapply RunCons; [apply (StepCallPush 4 _ _ 8)|].
      eapply RunCons; [apply StepCallPop|].
      eapply RunCons; [apply StepConsumer; vm_compute; reflexivity|]. apply RunNil.
    - split; reflexivity. }
  exact (no_slot_race 4 0 _ c 8 1 0 (spsc_empty 4 0) pow2_capacity_4 eq_refl Hc ltac:(by_eval) H1 H2).
Defined.

(** A call that runs alone does what the queue does: [try_push] appends and returns Ok below the
    capacity and returns Err unchanged at it, [try_pop] takes the oldest item or returns None. *)
Theorem sequential_calls {T} (N : Z) (s : SpscRingBuffer T) (q : list T) (item : T)
    (HN : pow2_capacity N) (Hb : producer_cursor s < 2 ^ 62)
    (Hr : spsc_rep N (mkConf s PIdle CIdle) q) :
  (if Z.of_nat (length q) <? N
   then exists s', try_push N s item = (s', Ok tt) /\ spsc_rep N (mkConf s' PIdle CIdle) (q ++ [item])
   else exists s', try_push N s item = (s', Err tt) /\ spsc_rep N (mkConf s' PIdle CIdle) q) /\
  match q with
  | x :: q' => exists s', try_pop N s = (s', Some x) /\ spsc_rep N (mkConf s' PIdle CIdle) q'
  | [] => exists s', try_pop N s = (s', None) /\ spsc_rep N (mkConf s' PIdle CIdle) []
  end.
Proof. split; [by apply try_push_rep | by apply try_pop_rep]. Qed.

Lemma sequential_calls_witness : (try_push 4 (spsc_empty 4 0) 7).2 = Ok tt.
Proof.
  destruct (sequential_calls 4 (spsc_empty 4 0) [] 7 pow2_capacity_4 ltac:(by_eval)
    (spsc_empty_rep 4 0 pow2_capacity_4)) as [H _].
  destruct H as (s' & -> & _). reflexivity.
Defined.

End Spsc.
