(* ===== verification/ConsumerQueue.v ===== *)
(** * core-engine/src/simulator.rs: [IsolatedConsumerQueue]

    The queue in front of a slow consumer, with its two saturation policies.  As in Spsc.v,
    [push_step] and [pop_step] perform one shared-memory access each; [push_with_policy] and
    [try_pop] are the calls run alone, and [queue_step] interleaves them.  Run one call at a time
    the queue is a bounded deque that drops its newest or its oldest item when full and counts
    what it did ([calls_refine_deque]).  Interleaved, the eviction of [DropOldest] races with the
    consumer ([eviction_race]). *)

From S2P Require Import Prelude Spsc.

Inductive SaturationDropPolicy := DropNewest | DropOldest.
Inductive PushResult := Enqueued | DroppedNewest | EvictedOldest.

#[global] Instance PushResult_eq_dec : EqDecision PushResult.
Proof. solve_decision. Defined.

Record QueueMetrics := mkQueueMetrics {
  total_enqueued : Z;
  total_dropped : Z;
  total_evicted : Z;
  total_consumed : Z;
  saturation_events : Z;
}.

Definition metrics_new : QueueMetrics := mkQueueMetrics 0 0 0 0 0.

(** [fetch_add(1)] on each counter. *)
Definition add_enqueued (m : QueueMetrics) : QueueMetrics :=
  mkQueueMetrics (total_enqueued m +[U64] 1) (total_dropped m) (total_evicted m) (total_consumed m) (saturation_events m).
Definition add_dropped (m : QueueMetrics) : QueueMetrics :=
  mkQueueMetrics (total_enqueued m) (total_dropped m +[U64] 1) (total_evicted m) (total_consumed m) (saturation_events m).
Definition add_evicted (m : QueueMetrics) : QueueMetrics :=
  mkQueueMetrics (total_enqueued m) (total_dropped m) (total_evicted m +[U64] 1) (total_consumed m) (saturation_events m).
Definition add_consumed (m : QueueMetrics) : QueueMetrics :=
  mkQueueMetrics (total_enqueued m) (total_dropped m) (total_evicted m) (total_consumed m +[U64] 1) (saturation_events m).
Definition add_saturation (m : QueueMetrics) : QueueMetrics :=
  mkQueueMetrics (total_enqueued m) (total_dropped m) (total_evicted m) (total_consumed m) (saturation_events m +[U64] 1).

Section Queue.
Context {T : Type} (N : Z).

Record IsolatedConsumerQueue := mkQueue {
  q_producer_cursor : Z;
  q_cached_consumer_cursor : Z;
  q_consumer_cursor : Z;
  q_cached_producer_cursor : Z;
  q_buffer : list T;
  q_metrics : QueueMetrics;
}.

(** [assert!(N.is_power_of_two())], then the buffer of defaults. *)
Definition queue_new (default_item : T) : outcome IsolatedConsumerQueue :=
  if negb ((0 <? N) && (Z.land N (N - 1) =? 0)) then Panic
  else Done (mkQueue 0 0 0 0 (replicate (Z.to_nat N) default_item) metrics_new).

(** The stores. *)
Definition put_head (v : Z) (q : IsolatedConsumerQueue) : IsolatedConsumerQueue :=
  mkQueue v (q_cached_consumer_cursor q) (q_consumer_cursor q) (q_cached_producer_cursor q) (q_buffer q) (q_metrics q).
Definition put_cached_tail (v : Z) (q : IsolatedConsumerQueue) : IsolatedConsumerQueue :=
  mkQueue (q_producer_cursor q) v (q_consumer_cursor q) (q_cached_producer_cursor q) (q_buffer q) (q_metrics q).
Definition put_tail (v : Z) (q : IsolatedConsumerQueue) : IsolatedConsumerQueue :=
  mkQueue (q_producer_cursor q) (q_cached_consumer_cursor q) v (q_cached_producer_cursor q) (q_buffer q) (q_metrics q).
Definition put_cached_head (v : Z) (q : IsolatedConsumerQueue) : IsolatedConsumerQueue :=
  mkQueue (q_producer_cursor q) (q_cached_consumer_cursor q) (q_consumer_cursor q) v (q_buffer q) (q_metrics q).
Definition put_slot (cursor : Z) (item : T) (q : IsolatedConsumerQueue) : IsolatedConsumerQueue :=
  mkQueue (q_producer_cursor q) (q_cached_consumer_cursor q) (q_consumer_cursor q) (q_cached_producer_cursor q)
    (<[slot_index N cursor := item]> (q_buffer q)) (q_metrics q).
Definition count (f : QueueMetrics -> QueueMetrics) (q : IsolatedConsumerQueue) : IsolatedConsumerQueue :=
  mkQueue (q_producer_cursor q) (q_cached_consumer_cursor q) (q_consumer_cursor q) (q_cached_producer_cursor q)
    (q_buffer q) (f (q_metrics q)).

(** Where a call is: the next shared access, with the locals it has read. *)
Inductive push_pc :=
| PushReload (item : T) (policy : SaturationDropPolicy) (current_head : Z)
| PushEvict (item : T) (current_head new_tail : Z)
| PushWrite (item : T) (current_head : Z) (res : PushResult)
| PushPublish (item : T) (current_head : Z) (res : PushResult)
| PushDone (res : PushResult).

Inductive pop_pc :=
| PopReload (current_tail : Z)
| PopRead (current_tail : Z)
| PopPublish (item : T) (current_tail : Z)
| PopDone (res : option T).

Definition begin_push (q : IsolatedConsumerQueue) (item : T) (policy : SaturationDropPolicy) : push_pc :=
  let current_head := q_producer_cursor q in
  let cached_tail := q_cached_consumer_cursor q in
  if current_head <? cached_tail +[U64] N then PushWrite item current_head Enqueued
  else PushReload item policy current_head.

Definition push_step (q : IsolatedConsumerQueue) (pc : push_pc) : IsolatedConsumerQueue * push_pc :=
  match pc with
  | PushReload item policy current_head =>
      let actual_tail := q_consumer_cursor q in
      let q := put_cached_tail actual_tail q in
      if current_head <? actual_tail +[U64] N then (q, PushWrite item current_head Enqueued)
      else
        let q := count add_saturation q in
        match policy with
        | DropNewest => (count add_dropped q, PushDone DroppedNewest)
        | DropOldest => (q, PushEvict item current_head (actual_tail +[U64] 1))
        end
  | PushEvict item current_head new_tail =>
      (put_cached_tail new_tail (put_tail new_tail q), PushWrite item current_head EvictedOldest)
  | PushWrite item current_head res => (put_slot current_head item q, PushPublish item current_head res)
  | PushPublish item current_head res =>
      let q := put_head (current_head +[U64] 1) q in
      (count (match res with EvictedOldest => add_evicted | _ => add_enqueued end) q, PushDone res)
  | PushDone res => (q, PushDone res)
  end.

Definition begin_pop (q : IsolatedConsumerQueue) : pop_pc :=
  let current_tail := q_consumer_cursor q in
  let cached_head := q_cached_producer_cursor q in
  if cached_head <=? current_tail then PopReload current_tail else PopRead current_tail.

Definition pop_step (q : IsolatedConsumerQueue) (pc : pop_pc) : IsolatedConsumerQueue * pop_pc :=
  match pc with
  | PopReload current_tail =>
      let actual_head := q_producer_cursor q in
      let q := put_cached_head actual_head q in
      if actual_head <=? current_tail then (q, PopDone None) else (q, PopRead current_tail)
  | PopRead current_tail =>
      match q_buffer q !! slot_index N current_tail with
      | Some item => (q, PopPublish item current_tail)
      | None => (q, PopDone None)
      end
  | PopPublish item current_tail =>
      (count add_consumed (put_tail (current_tail +[U64] 1) q), PopDone (Some item))
  | PopDone res => (q, PopDone res)
  end.

Fixpoint run_push (fuel : nat) (q : IsolatedConsumerQueue) (pc : push_pc) : IsolatedConsumerQueue * push_pc :=
  match fuel with
  | O => (q, pc)
  | S fuel => let (q, pc) := push_step q pc in run_push fuel q pc
  end.
Fixpoint run_pop (fuel : nat) (q : IsolatedConsumerQueue) (pc : pop_pc) : IsolatedConsumerQueue * pop_pc :=
  match fuel with
  | O => (q, pc)
  | S fuel => let (q, pc) := pop_step q pc in run_pop fuel q pc
  end.

(** A call makes at most four (three) accesses after its first one. *)
Definition push_with_policy (q : IsolatedConsumerQueue) (item : T) (policy : SaturationDropPolicy) :
    IsolatedConsumerQueue * option PushResult :=
  match run_push 4 q (begin_push q item policy) with
  | (q, PushDone res) => (q, Some res)
  | (q, _) => (q, None)
  end.

Definition try_pop (q : IsolatedConsumerQueue) : IsolatedConsumerQueue * option (option T) :=
  match run_pop 3 q (begin_pop q) with
  | (q, PopDone res) => (q, Some res)
  | (q, _) => (q, None)
  end.

Definition is_empty (q : IsolatedConsumerQueue) : bool := q_producer_cursor q <=? q_consumer_cursor q.
(** [head.saturating_sub(tail)]. *)
Definition queue_len (q : IsolatedConsumerQueue) : Z := Z.max 0 (q_producer_cursor q - q_consumer_cursor q).

(** ** The interleaving of one producer and one consumer *)

Record queue_conf := mkQConf { qc_queue : IsolatedConsumerQueue; qc_push : option push_pc; qc_pop : option pop_pc }.

Inductive queue_step : queue_conf -> option T -> queue_conf -> Prop :=
| QCallPush q c item policy :
    queue_step (mkQConf q None c) None (mkQConf q (Some (begin_push q item policy)) c)
| QPush q pc c : (forall r, pc <> PushDone r) ->
    queue_step (mkQConf q (Some pc) c) None (mkQConf (push_step q pc).1 (Some (push_step q pc).2) c)
| QPushReturn q r c : queue_step (mkQConf q (Some (PushDone r)) c) None (mkQConf q None c)
| QCallPop q p : queue_step (mkQConf q p None) None (mkQConf q p (Some (begin_pop q)))
| QPop q p pc : (forall r, pc <> PopDone r) ->
    queue_step (mkQConf q p (Some pc)) None (mkQConf (pop_step q pc).1 p (Some (pop_step q pc).2))
| QPopReturn q p r : queue_step (mkQConf q p (Some (PopDone r))) r (mkQConf q p None).

(** A run, and the items its pops returned. *)
Inductive queue_run : queue_conf -> list T -> queue_conf -> Prop :=
| QRunNil c : queue_run c [] c
| QRunCons c1 o c2 l c3 : queue_step c1 o c2 -> queue_run c2 l c3 ->
    queue_run c1 (match o with Some x => x :: l | None => l end) c3.

(** ** The contract: a bounded deque *)

Inductive call := CallPush (item : T) (policy : SaturationDropPolicy) | CallPop.
Inductive reply := ReplyPush (r : PushResult) | ReplyPop (o : option T).

Definition deque_call (l : list T) (c : call) : list T * reply :=
  match c with
  | CallPush item policy =>
      if Z.of_nat (length l) <? N then (l ++ [item], ReplyPush Enqueued)
      else match policy with
           | DropNewest => (l, ReplyPush DroppedNewest)
           | DropOldest => (tail l ++ [item], ReplyPush EvictedOldest)
           end
  | CallPop => match l with x :: l => (l, ReplyPop (Some x)) | [] => ([], ReplyPop None) end
  end.

Definition queue_call (q : IsolatedConsumerQueue) (c : call) : IsolatedConsumerQueue * option reply :=
  match c with
  | CallPush item policy => let (q, r) := push_with_policy q item policy in (q, ReplyPush <$> r)
  | CallPop => let (q, r) := try_pop q in (q, ReplyPop <$> r)
  end.

Fixpoint run_calls {S R} (f : S -> call -> S * R) (s : S) (cs : list call) : S * list R :=
  match cs with
  | [] => (s, [])
  | c :: cs => let (s, r) := f s c in let (s, rs) := run_calls f s cs in (s, r :: rs)
  end.

Definition is_reply (p : reply -> bool) (rs : list reply) : Z := Z.of_nat (length (List.filter p rs)).
Definition is_enqueued (r : reply) : bool := match r with ReplyPush Enqueued => true | _ => false end.
Definition is_dropped (r : reply) : bool := match r with ReplyPush DroppedNewest => true | _ => false end.
Definition is_evicted (r : reply) : bool := match r with ReplyPush EvictedOldest => true | _ => false end.
Definition is_consumed (r : reply) : bool := match r with ReplyPop (Some _) => true | _ => false end.

(** The counters are the numbers of calls that ended each way. *)
Definition counted (m : QueueMetrics) (rs : list reply) : Prop :=
  total_enqueued m = is_reply is_enqueued rs /\ total_dropped m = is_reply is_dropped rs /\
  total_evicted m = is_reply is_evicted rs /\ total_consumed m = is_reply is_consumed rs /\
  saturation_events m = is_reply is_dropped rs + is_reply is_evicted rs.

Record queue_rep (q : IsolatedConsumerQueue) (l : list T) : Prop := {
  qr_buffer : Z.of_nat (length (q_buffer q)) = N;
  qr_cursors : 0 <= q_consumer_cursor q /\
    q_producer_cursor q = q_consumer_cursor q + Z.of_nat (length l) /\ Z.of_nat (length l) <= N;
  qr_caches : 0 <= q_cached_consumer_cursor q <= q_consumer_cursor q /\
    0 <= q_cached_producer_cursor q <= q_producer_cursor q;
  qr_cells : cells N (q_buffer q) (q_consumer_cursor q) l;
}.

(** What a call adds to the counters. *)
Definition bump (r : reply) (m : QueueMetrics) : QueueMetrics :=
  match r with
  | ReplyPush Enqueued => add_enqueued m
  | ReplyPush DroppedNewest => add_dropped (add_saturation m)
  | ReplyPush EvictedOldest => add_evicted (add_saturation m)
  | ReplyPop (Some _) => add_consumed m
  | ReplyPop None => m
  end.

(** What a call has to achieve on a queue that holds [l]. *)
Definition call_ok (q : IsolatedConsumerQueue) (l : list T) (c : call) : Prop :=
  exists q', queue_call q c = (q', Some (deque_call l c).2) /\ queue_rep q' (deque_call l c).1 /\
    q_metrics q' = bump (deque_call l c).2 (q_metrics q) /\
    q_producer_cursor q <= q_producer_cursor q' <= q_producer_cursor q + 1.

(** Writing and publishing one item past the queue. *)
Lemma write_rep q l item f :
  pow2_capacity N -> q_producer_cursor q < 2 ^ 62 -> queue_rep q l -> Z.of_nat (length l) < N ->
  queue_rep (count f (put_head (q_producer_cursor q +[U64] 1) (put_slot (q_producer_cursor q) item q))) (l ++ [item]).
Proof.
  intros HN Hb [Hbuf (Hc0 & Hpc & Hq) [Hcc Hcp] Hcells] Hlt. pose proof (capacity_bounds N HN).
  rewrite wrap_id by mint. rewrite Hpc.
  split; cbn; rewrite ?length_insert, ?length_app; cbn [length]; try done; try lia.
  apply cells_snoc; [by apply cells_write|].
  apply list_lookup_insert_eq. pose proof (slot_index_lt N (q_consumer_cursor q + Z.of_nat (length l)) HN). lia.
Qed.

(** Dropping the oldest item of a full queue. *)
Lemma evict_rep q l :
  pow2_capacity N -> queue_rep q l -> Z.of_nat (length l) = N ->
  queue_rep (put_cached_tail (q_consumer_cursor q + 1) (put_tail (q_consumer_cursor q + 1)
    (count add_saturation (put_cached_tail (q_consumer_cursor q) q)))) (tail l) /\ Z.of_nat (length (tail l)) < N.
Proof.
  intros HN [Hbuf (Hc0 & Hpc & Hq) [Hcc Hcp] Hcells] Hl. pose proof (capacity_bounds N HN).
  destruct l as [|x l]; cbn [length tail] in *; [lia|]. split; [|lia].
  split; cbn; try done; try lia. by apply cells_tail in Hcells.
Qed.

Lemma reload_rep q l f : queue_rep q l -> queue_rep (count f (put_cached_tail (q_consumer_cursor q) q)) l.
Proof. intros [Hbuf (Hc0 & Hpc & Hq) [Hcc Hcp] Hcells]. split; cbn; try done; lia. Qed.

Lemma push_ok q l item policy :
  pow2_capacity N -> q_producer_cursor q < 2 ^ 62 -> queue_rep q l -> call_ok q l (CallPush item policy).
Proof.
  intros HN Hb Hr. pose proof (capacity_bounds N HN). pose proof Hr as [Hbuf (Hc0 & Hpc & Hq) [Hcc Hcp] Hcells].
  unfold call_ok, queue_call, push_with_policy, begin_push, deque_call.
  rewrite (wrap_id U64 (q_cached_consumer_cursor q + N)) by mint.
  destruct (Z.ltb_spec (q_producer_cursor q) (q_cached_consumer_cursor q + N)) as [Hlt|Hge].
  { rewrite (proj2 (Z.ltb_lt _ _)) by lia. eexists. split; [reflexivity|].
    split; [apply write_rep; [done..|lia]|]. split; [done|]. cbn. rewrite wrap_id by mint. lia. }
  cbn [run_push push_step].
  rewrite (wrap_id U64 (q_consumer_cursor q + N)) by mint.
  destruct (Z.ltb_spec (Z.of_nat (length l)) N) as [Hl|Hl].
  - rewrite (proj2 (Z.ltb_lt (q_producer_cursor q) _)) by lia. eexists. split; [reflexivity|].
    split; [exact (write_rep (put_cached_tail (q_consumer_cursor q) q) _ item add_enqueued HN Hb (reload_rep _ _ id Hr) Hl)|].
    split; [done|]. cbn. rewrite wrap_id by mint. lia.
  - rewrite (proj2 (Z.ltb_ge (q_producer_cursor q) _)) by lia. destruct policy.
    + eexists. split; [reflexivity|]. split; [exact (reload_rep _ _ (fun m => add_dropped (add_saturation m)) Hr)|].
      split; [done|]. cbn. lia.
    + destruct (evict_rep q l HN Hr ltac:(lia)) as [Hr1 Hl1].
      rewrite (wrap_id U64 (q_consumer_cursor q + 1)) by mint.
      eexists. split; [reflexivity|]. split; [refine (write_rep (put_cached_tail _ (put_tail _ (count _ (put_cached_tail _ q)))) _ item add_evicted HN Hb Hr1 Hl1)|].
      split; [done|]. cbn. rewrite wrap_id by mint. lia.
Qed.

(** Reading and publishing the oldest item. *)
Lemma read_rep q x l :
  pow2_capacity N -> q_consumer_cursor q < 2 ^ 62 -> queue_rep q (x :: l) ->
  q_buffer q !! slot_index N (q_consumer_cursor q) = Some x /\
  queue_rep (count add_consumed (put_tail (q_consumer_cursor q +[U64] 1) q)) l.
Proof.
  intros HN Hb [Hbuf (Hc0 & Hpc & Hq) [Hcc Hcp] Hcells]. rewrite wrap_id by mint.
  pose proof (Hcells 0%nat x eq_refl) as Hx. rewrite Z.add_0_r in Hx.
  cbn [length] in *. split; [done|]. split; cbn; try done; try lia.
  by apply cells_tail in Hcells.
Qed.

Lemma cached_head_rep q l : queue_rep q l -> queue_rep (put_cached_head (q_producer_cursor q) q) l.
Proof. intros [Hbuf (Hc0 & Hpc & Hq) [Hcc Hcp] Hcells]. split; cbn; try done; lia. Qed.

Lemma pop_ok q l :
  pow2_capacity N -> q_producer_cursor q < 2 ^ 62 -> queue_rep q l -> call_ok q l CallPop.
Proof.
  intros HN Hb Hr. pose proof Hr as [Hbuf (Hc0 & Hpc & Hq) [Hcc Hcp] Hcells].
  unfold call_ok, queue_call, try_pop, begin_pop, deque_call.
  destruct (Z.leb_spec (q_cached_producer_cursor q) (q_consumer_cursor q)) as [Hle|Hgt].
  - cbn [run_pop pop_step]. destruct l as [|x l]; cbn [length] in *.
    + rewrite (proj2 (Z.leb_le _ _)) by lia. eexists. split; [reflexivity|].
      split; [by apply cached_head_rep|]. split; [done|]. cbn. lia.
    + rewrite (proj2 (Z.leb_gt _ _)) by lia.
      destruct (read_rep (put_cached_head (q_producer_cursor q) q) x l HN ltac:(cbn; lia) (cached_head_rep _ _ Hr)) as [Hx Hr1].
      cbn in Hx |- *. rewrite Hx.
      eexists. split; [reflexivity|]. split; [exact Hr1|]. split; [done|]. cbn. lia.
  - destruct l as [|x l]; cbn [length] in *; [lia|].
    destruct (read_rep q x l HN ltac:(lia) Hr) as [Hx Hr1].
    cbn [run_pop pop_step]. rewrite Hx. eexists. split; [reflexivity|]. split; [exact Hr1|]. split; [done|]. cbn. lia.
Qed.

Lemma queue_call_ok q l c :
  pow2_capacity N -> q_producer_cursor q < 2 ^ 62 -> queue_rep q l -> call_ok q l c.
Proof. destruct c; [apply push_ok|apply pop_ok]. Qed.

Lemma run_calls_ok cs q l :
  pow2_capacity N -> q_producer_cursor q + Z.of_nat (length cs) < 2 ^ 62 -> queue_rep q l ->
  exists q', run_calls queue_call q cs = (q', map Some (run_calls deque_call l cs).2) /\
    queue_rep q' (run_calls deque_call l cs).1 /\
    q_metrics q' = fold_left (fun m r => bump r m) (run_calls deque_call l cs).2 (q_metrics q).
Proof.
  intros HN. revert q l. induction cs as [|c cs IH]; intros q l Hb Hr.
  - exists q. by cbn.
  - cbn [length] in Hb. destruct (queue_call_ok q l c HN ltac:(lia) Hr) as (q1 & E1 & Hr1 & Hm1 & Hc1).
    cbn [run_calls]. rewrite E1. destruct (deque_call l c) as [l1 r1]. cbn [fst snd] in *.
    destruct (IH q1 l1 ltac:(lia) Hr1) as (q2 & E2 & Hr2 & Hm2). rewrite E2.
    destruct (run_calls deque_call l1 cs) as [l2 rs]. cbn [fst snd] in *.
    exists q2. split; [done|]. split; [done|]. cbn. by rewrite Hm2, Hm1.
Qed.

Lemma counted_snoc m rs rs1 :
  Z.of_nat (length rs) + Z.of_nat (length rs1) < 2 ^ 62 -> counted m rs ->
  counted (fold_left (fun m r => bump r m) rs1 m) (rs ++ rs1).
Proof.
  revert m rs. induction rs1 as [|r rs1 IH]; intros m rs Hl Hm.
  - by rewrite app_nil_r.
  - cbn [length fold_left] in *. replace (rs ++ r :: rs1) with ((rs ++ [r]) ++ rs1) by (by rewrite <- app_assoc).
    apply IH; [rewrite length_app; cbn [length]; lia|].
    assert (forall p, 0 <= is_reply p rs <= Z.of_nat (length rs)) as Hr
      by (intros p; unfold is_reply; pose proof (List.filter_length_le p rs); lia).
    pose proof (Hr is_enqueued). pose proof (Hr is_dropped). pose proof (Hr is_evicted). pose proof (Hr is_consumed).
    assert (forall p, is_reply p (rs ++ [r]) = is_reply p rs + (if p r then 1 else 0)) as Ha.
    { intros p. unfold is_reply. rewrite List.filter_app, length_app. cbn. destruct (p r); cbn; lia. }
    destruct Hm as (Hm1 & Hm2 & Hm3 & Hm4 & Hm5). unfold counted. rewrite !Ha.
    destruct r as [[]|[]]; cbn; rewrite ?wrap_id by mint; lia.
Qed.

(** ** Interleaved, when nothing is evicted *)

(** The queue holds [l] while a push and a pop are under way; the push drops its item if it must. *)
Definition push_at (q : IsolatedConsumerQueue) (l : list T) (pc : option push_pc) : Prop :=
  match pc with
  | Some (PushReload _ policy h) => policy = DropNewest /\ h = q_producer_cursor q
  | Some (PushEvict _ _ _) => False
  | Some (PushWrite _ h res) => h = q_producer_cursor q /\ Z.of_nat (length l) < N /\ res = Enqueued
  | Some (PushPublish x h res) => h = q_producer_cursor q /\ Z.of_nat (length l) < N /\ res = Enqueued /\
      q_buffer q !! slot_index N h = Some x
  | Some (PushDone res) => res <> EvictedOldest
  | None => True
  end.
Definition pop_at (q : IsolatedConsumerQueue) (l : list T) (pc : option pop_pc) : Prop :=
  match pc with
  | Some (PopReload t) => t = q_consumer_cursor q
  | Some (PopRead t) => t = q_consumer_cursor q /\ l <> []
  | Some (PopPublish x t) => t = q_consumer_cursor q /\ exists l', l = x :: l'
  | Some (PopDone _) | None => True
  end.
Record at_once (q : IsolatedConsumerQueue) (l : list T) (push : option push_pc) (pop : option pop_pc) : Prop := {
  ao_rep : queue_rep q l;
  ao_push : push_at q l push;
  ao_pop : pop_at q l pop;
}.

(** What a step of a call adds to the queue or takes from it. *)
Definition pushed_by (pc : push_pc) : list T := match pc with PushPublish x _ _ => [x] | _ => [] end.
Definition drops (pc : push_pc) : Prop := pc = PushDone DroppedNewest.

Lemma begin_push_at q l item pop : q_producer_cursor q < 2 ^ 62 -> at_once q l None pop -> pow2_capacity N ->
  at_once q l (Some (begin_push q item DropNewest)) pop.
Proof.
  intros Hb [Hr _ Hpop] HN. pose proof (capacity_bounds N HN). split; [done| |done].
  destruct Hr as [Hbuf (Hc0 & Hpc & Hq) [Hcc Hcp] Hcells]. unfold begin_push. rewrite wrap_id by mint.
  destruct (Z.ltb_spec (q_producer_cursor q) (q_cached_consumer_cursor q + N)); cbn; [split; [done|split; [lia|done]]|done].
Qed.

Lemma begin_pop_at q l push : at_once q l push None -> at_once q l push (Some (begin_pop q)).
Proof.
  intros [Hr Hpush _]. split; [done|done|]. destruct Hr as [Hbuf (Hc0 & Hpc & Hq) [Hcc Hcp] Hcells]. unfold begin_pop.
  destruct (Z.leb_spec (q_cached_producer_cursor q) (q_consumer_cursor q)); cbn; [done|]. split; [done|].
  intros ->. cbn in *. lia.
Qed.

Lemma push_step_at q l pc pop : q_producer_cursor q < 2 ^ 62 -> pow2_capacity N ->
  (forall r, pc <> PushDone r) -> at_once q l (Some pc) pop ->
  at_once (push_step q pc).1 (l ++ pushed_by pc) (Some (push_step q pc).2) pop /\
  (drops (push_step q pc).2 \/ total_dropped (q_metrics (push_step q pc).1) = total_dropped (q_metrics q)) /\
  q_consumer_cursor (push_step q pc).1 = q_consumer_cursor q /\
  (match pc with PushReload _ _ _ => True | _ => ~ drops (push_step q pc).2 end).
Proof.
  intros Hb HN Hnd [Hr Hpush Hpop]. pose proof (capacity_bounds N HN).
  pose proof Hr as [Hbuf (Hc0 & Hpc & Hq) [Hcc Hcp] Hcells].
  destruct pc as [x pol h| |x h res|x h res|r]; cbn [push_at] in Hpush; [| done | | | by exfalso; eapply Hnd].
  - destruct Hpush as [-> ->]. cbn [pushed_by]. rewrite app_nil_r. cbn [push_step].
    rewrite wrap_id by mint. destruct (Z.ltb_spec (q_producer_cursor q) (q_consumer_cursor q + N)).
    + split; [|split; [by right|done]]. split; [by apply (reload_rep q l id)|cbn; split; [done|split; [lia|done]]|by destruct pop as [[]|]].
    + split; [|split; [by left|done]].
      split; [exact (reload_rep q l (fun m => add_dropped (add_saturation m)) Hr)|done|by destruct pop as [[]|]].
  - destruct Hpush as (-> & Hl & ->). cbn [pushed_by push_step]. rewrite app_nil_r.
    split; [|split; [by right|done]]. assert (Z.of_nat (slot_index N (q_producer_cursor q)) < N) by by apply slot_index_lt.
    split; [|cbn; split; [done|]; split; [done|]; split; [done|]; apply list_lookup_insert_eq; lia|by destruct pop as [[]|]].
    split; cbn; rewrite ?length_insert; try done; try lia. by apply cells_write.
  - destruct Hpush as (-> & Hl & -> & Hx). cbn [pushed_by push_step]. split; [|split; [by right|done]]. cbn [fst snd].
    rewrite wrap_id by mint. split; [|done|].
    + split; cbn; rewrite ?length_app; cbn [length]; try done; try lia. apply cells_snoc; [done|]. by rewrite <- Hpc.
    + destruct pop as [[]|]; cbn in *; try done; [by destruct Hpop as [-> ?]; split; [|by destruct l]|].
      destruct Hpop as [-> [l' ->]]. split; [done|by eexists].
Qed.

Lemma pop_step_at q l push pc : q_producer_cursor q < 2 ^ 62 -> pow2_capacity N ->
  (forall r, pc <> PopDone r) -> at_once q l push (Some pc) ->
  exists l', at_once (pop_step q pc).1 l' push (Some (pop_step q pc).2) /\
    l = match pc with PopPublish x _ => [x] | _ => [] end ++ l' /\
    q_producer_cursor (pop_step q pc).1 = q_producer_cursor q /\
    total_dropped (q_metrics (pop_step q pc).1) = total_dropped (q_metrics q) /\
    (match (pop_step q pc).2 with PopDone o => o = match pc with PopPublish x _ => Some x | _ => None end | _ => True end).
Proof.
  intros Hb HN Hnd [Hr Hpush Hpop]. pose proof (capacity_bounds N HN).
  pose proof Hr as [Hbuf (Hc0 & Hpc & Hq) [Hcc Hcp] Hcells].
  destruct pc as [t|t|x t|r]; cbn [pop_at] in Hpop; [| | |by exfalso; eapply Hnd].
  - subst t. exists l. cbn [pop_step]. destruct (Z.leb_spec (q_producer_cursor q) (q_consumer_cursor q)); cbn [fst snd].
    + split; [|done]. split; [by apply cached_head_rep|by destruct push as [[]|]|done].
    + split; [|done]. split; [by apply cached_head_rep|by destruct push as [[]|]|]. cbn. split; [done|]. intros ->. cbn in *. lia.
  - destruct Hpop as [-> Hne]. exists l. destruct l as [|x l]; [done|].
    pose proof (Hcells 0%nat x eq_refl) as Hx. rewrite Z.add_0_r in Hx. cbn [pop_step]. rewrite Hx. cbn [fst snd].
    split; [|done]. split; [done|done|]. cbn. split; [done|by eexists].
  - destruct Hpop as [-> [l' ->]]. exists l'. cbn [pop_step fst snd]. split; [|done].
    destruct (read_rep q x l' HN ltac:(cbn [length] in *; lia) Hr) as [_ Hr']. split; [done| |done].
    cbn [length] in *. destruct push as [[]|]; cbn in *; try done; intuition lia.
Qed.
End Queue.

Arguments IsolatedConsumerQueue : clear implicits.
Arguments CallPop {T}.
Arguments QRunNil {T N}.

Module ConsumerQueue.

(** C17: called one call at a time, the queue is a deque of capacity [N]: a push enqueues below the
    capacity and at it drops the new item or the oldest one, as its policy says; a pop takes the
    oldest item; the length is the deque's, and each counter is the number of calls that ended its
    way. *)
Theorem calls_refine_deque {T} (N : Z) (d : T) (cs : list (call (T:=T))) (q0 : IsolatedConsumerQueue T)
    (HN : pow2_capacity N) (Hlen : Z.of_nat (length cs) < 2 ^ 62) (Hnew : queue_new N d = Done q0) :
  exists q, run_calls (queue_call N) q0 cs = (q, map Some (run_calls (deque_call N) [] cs).2) /\
    queue_rep N q (run_calls (deque_call N) [] cs).1 /\
    queue_len q = Z.of_nat (length (run_calls (deque_call N) [] cs).1) /\
    counted (q_metrics q) (run_calls (deque_call N) [] cs).2.
Proof.
  unfold queue_new in Hnew. destruct (negb _); [done|]. injection Hnew as <-. pose proof (capacity_bounds N HN).
  destruct (run_calls_ok N cs (mkQueue 0 0 0 0 (replicate (Z.to_nat N) d) metrics_new) [] HN) as (q & E & Hr & Hm);
    [cbn; lia|split; cbn; try done; try lia; rewrite length_replicate; lia|].
  exists q. split; [done|]. split; [done|]. split.
  - destruct Hr as [_ (? & Hpc & ?) _ _]. unfold queue_len. lia.
  - rewrite Hm. apply (counted_snoc metrics_new []); [|done].
    replace (length (run_calls (deque_call N) [] cs).2) with (length cs); [cbn; lia|].
    clear. generalize (@nil T). induction cs as [|c cs IH]; intros l; [done|].
    cbn [run_calls]. destruct (deque_call N l c) as [l1 r]. specialize (IH l1).
    destruct (run_calls (deque_call N) l1 cs). cbn [length snd] in *. by rewrite IH.
Qed.

Definition demo_calls : list (call (T:=Z)) :=
  [CallPush 1 DropOldest; CallPush 2 DropOldest; CallPush 3 DropNewest; CallPush 4 DropOldest; CallPop].

Lemma calls_refine_deque_witness :
  exists q, run_calls (queue_call 2) (mkQueue 0 0 0 0 [0; 0] metrics_new) demo_calls =
    (q, [Some (ReplyPush Enqueued); Some (ReplyPush Enqueued); Some (ReplyPush DroppedNewest);
         Some (ReplyPush EvictedOldest); Some (ReplyPop (Some 2))]) /\ queue_len q = 1.
Proof.
  assert (pow2_capacity 2) as HN by (by exists 1).
  destruct (calls_refine_deque 2 0 demo_calls _ HN ltac:(by_eval) eq_refl) as (q & E & _ & Hl & _).
  exists q. by split.
Defined.

(** A schedule: which side takes the next step, an idle producer starting a push of the item. *)
Inductive turn {T} := Producer (item : T) (policy : SaturationDropPolicy) | Consumer.

Definition take_turn {T} (N : Z) (c : queue_conf (T:=T)) (t : turn) : option T * queue_conf (T:=T) :=
  match t, qc_push c, qc_pop c with
  | Producer item policy, None, pop => (None, mkQConf (qc_queue c) (Some (begin_push N (qc_queue c) item policy)) pop)
  | Producer _ _, Some (PushDone _), pop => (None, mkQConf (qc_queue c) None pop)
  | Producer _ _, Some pc, pop =>
      (None, mkQConf (push_step N (qc_queue c) pc).1 (Some (push_step N (qc_queue c) pc).2) pop)
  | Consumer, push, None => (None, mkQConf (qc_queue c) push (Some (begin_pop (qc_queue c))))
  | Consumer, push, Some (PopDone r) => (r, mkQConf (qc_queue c) push None)
  | Consumer, push, Some pc =>
      (None, mkQConf (pop_step N (qc_queue c) pc).1 push (Some (pop_step N (qc_queue c) pc).2))
  end.

Lemma take_turn_step {T} N (c : queue_conf (T:=T)) t : queue_step N c (take_turn N c t).1 (take_turn N c t).2.
Proof.
  destruct c as [q [p|] [k|]], t as [x pol|]; cbn [take_turn qc_push qc_pop qc_queue];
    try (destruct p); try (destruct k); cbn [fst snd];
    first [by apply QPush | apply QPushReturn | apply QCallPush | by apply QPop | apply QPopReturn | apply QCallPop].
Qed.

Fixpoint take_turns {T} (N : Z) (c : queue_conf (T:=T)) (ts : list turn) : list T * queue_conf (T:=T) :=
  match ts with
  | [] => ([], c)
  | t :: ts =>
      let (o, c) := take_turn N c t in
      let (l, c) := take_turns N c ts in
      (match o with Some x => x :: l | None => l end, c)
  end.

Lemma take_turns_run {T} N ts (c : queue_conf (T:=T)) : queue_run N c (take_turns N c ts).1 (take_turns N c ts).2.
Proof.
  revert c. induction ts as [|t ts IH]; intros c; [apply QRunNil|].
  pose proof (take_turn_step N c t) as Hs. cbn [take_turns]. destruct (take_turn N c t) as [o c1].
  specialize (IH c1). destruct (take_turns N c1 ts) as [l c2]. by eapply QRunCons.
Qed.

(** Pushes of 1 and 2, a pop up to its reading of the slot, evicting pushes of 3 and 4, then the
    rest of the pop and three more. *)
Definition race_schedule : list turn :=
  replicate 4 (Producer 1 DropOldest) ++ replicate 4 (Producer 2 DropOldest) ++ replicate 2 Consumer ++
  replicate 6 (Producer 3 DropOldest) ++ replicate 6 (Producer 4 DropOldest) ++ replicate 16 Consumer.

(** The eviction of [DropOldest] races with a pop in progress: with capacity 2 and pushes 1, 2,
    3, 4, a consumer stopped between reading the tail cursor and reading the slot returns 3 and
    sets the tail back, so 3 and 4 are delivered twice, and four items are consumed although two
    of the four pushed were evicted. *)
Theorem eviction_race :
  exists c, queue_run 2 (mkQConf (mkQueue 0 0 0 0 [0; 0] metrics_new) None None) [3; 4; 3; 4] c /\
    qc_push c = None /\ qc_pop c = None /\
    q_metrics (qc_queue c) = mkQueueMetrics 2 0 2 4 2.
Proof.
  pose proof (take_turns_run 2 race_schedule (mkQConf (mkQueue 0 0 0 0 [0; 0] metrics_new) None None)) as H.
  eexists. split; [exact H|]. vm_compute. done.
Qed.
End ConsumerQueue.
