(* ===== verification/OrderBook.v ===== *)
(** * core-engine/src/lib.rs: [ContiguousOrderBook]

    The flat price ladder: 2048 levels per side indexed by the distance of the price to the
    anchor in ticks, and the index of the best level of each side.  Both sides refine one
    [Ladder], parameterised by the sign that orders its prices; its invariant says that the best
    index holds the best price of a live level.  The distance is absolute, so the invariant needs
    the prices of a side on one side of the anchor ([mirror_collision] shows what happens
    otherwise). *)

From S2P Require Import Prelude.

Definition PRICE_LEVELS_COUNT : nat := 2048%nat.
Definition TICK_SIZE : Z := 100000.

Record PriceLevel := mkLevel {
  lv_price : Z;
  lv_quantity : Z;
  lv_order_count : Z;
  lv_last_update_ts : Z;
}.
Definition PriceLevel_default : PriceLevel := mkLevel 0 0 0 0.

#[global] Instance PriceLevel_eq_dec : EqDecision PriceLevel.
Proof. solve_decision. Defined.

Record ContiguousOrderBook := mkBook {
  bids : list PriceLevel;
  asks : list PriceLevel;
  best_bid_idx : nat;
  best_ask_idx : nat;
  base_price : Z;
}.

Definition book_new (base_price : Z) : ContiguousOrderBook :=
  mkBook (replicate PRICE_LEVELS_COUNT PriceLevel_default) (replicate PRICE_LEVELS_COUNT PriceLevel_default)
    0 (PRICE_LEVELS_COUNT - 1) base_price.

(** [self.bids[i]]; the indices kept by the book are in range. *)
Definition level_at (levels : list PriceLevel) (i : nat) : PriceLevel := default PriceLevel_default (levels !! i).

(** [diff] of an update: [i64] subtraction, then division toward zero. *)
Definition tick_diff (base_price price : Z) : Z :=
  if base_price <=? price then Z.quot (price -[I64] base_price) TICK_SIZE
  else Z.quot (base_price -[I64] price) TICK_SIZE.

(** The body of the loop of [recalculate_best_bid]: the index, the best one and its price. *)
Definition scan_bid (acc : nat * nat * Z) (level : PriceLevel) : nat * nat * Z :=
  let '(i, best_idx, best_price) := acc in
  if (0 <? lv_quantity level) && (best_price <? lv_price level)
  then (S i, i, lv_price level) else (S i, best_idx, best_price).

Definition recalculate_best_bid (b : ContiguousOrderBook) : ContiguousOrderBook :=
  let '(_, best_idx, _) := fold_left scan_bid (bids b) (0%nat, 0%nat, 0) in
  mkBook (bids b) (asks b) best_idx (best_ask_idx b) (base_price b).

Definition scan_ask (acc : nat * nat * Z) (level : PriceLevel) : nat * nat * Z :=
  let '(i, best_idx, best_price) := acc in
  if (0 <? lv_quantity level) && (lv_price level <? best_price)
  then (S i, i, lv_price level) else (S i, best_idx, best_price).

Definition recalculate_best_ask (b : ContiguousOrderBook) : ContiguousOrderBook :=
  let '(_, best_idx, _) := fold_left scan_ask (asks b) (0%nat, 0%nat, max_int I64) in
  mkBook (bids b) (asks b) (best_bid_idx b) best_idx (base_price b).

Definition update_bid (b : ContiguousOrderBook) (price quantity order_count ts : Z) : ContiguousOrderBook :=
  let diff := tick_diff (base_price b) price in
  if (0 <=? diff) && (wrap USIZE diff <? Z.of_nat PRICE_LEVELS_COUNT) then
    let idx := Nat.min (Z.to_nat (wrap USIZE diff)) (PRICE_LEVELS_COUNT - 1) in
    let b := mkBook (<[idx := mkLevel price quantity order_count ts]> (bids b)) (asks b)
               (best_bid_idx b) (best_ask_idx b) (base_price b) in
    if (0 <? quantity) &&
       ((lv_quantity (level_at (bids b) (best_bid_idx b)) =? 0)
        || (lv_price (level_at (bids b) (best_bid_idx b)) <? price))
    then mkBook (bids b) (asks b) idx (best_ask_idx b) (base_price b)
    else if (quantity =? 0) && (idx =? best_bid_idx b)%nat then recalculate_best_bid b
    else b
  else b.

Definition update_ask (b : ContiguousOrderBook) (price quantity order_count ts : Z) : ContiguousOrderBook :=
  let diff := tick_diff (base_price b) price in
  if (0 <=? diff) && (wrap USIZE diff <? Z.of_nat PRICE_LEVELS_COUNT) then
    let idx := Nat.min (Z.to_nat (wrap USIZE diff)) (PRICE_LEVELS_COUNT - 1) in
    let b := mkBook (bids b) (<[idx := mkLevel price quantity order_count ts]> (asks b))
               (best_bid_idx b) (best_ask_idx b) (base_price b) in
    if (0 <? quantity) &&
       ((lv_quantity (level_at (asks b) (best_ask_idx b)) =? 0)
        || (price <? lv_price (level_at (asks b) (best_ask_idx b))))
    then mkBook (bids b) (asks b) (best_bid_idx b) idx (base_price b)
    else if (quantity =? 0) && (idx =? best_ask_idx b)%nat then recalculate_best_ask b
    else b
  else b.

Definition bbo_bid (b : ContiguousOrderBook) : option PriceLevel :=
  let level := level_at (bids b) (best_bid_idx b) in
  if 0 <? lv_quantity level then Some level else None.

Definition bbo_ask (b : ContiguousOrderBook) : option PriceLevel :=
  let level := level_at (asks b) (best_ask_idx b) in
  if 0 <? lv_quantity level then Some level else None.

(** ** A side of the book, its prices compared by [sgn * price] *)

Record Ladder := mkLadder { levels : list PriceLevel; best : nat }.

Section Ladder.
Context (sgn worst base : Z).

Definition scan (acc : nat * nat * Z) (level : PriceLevel) : nat * nat * Z :=
  let '(i, best_idx, best_price) := acc in
  if (0 <? lv_quantity level) && (sgn * best_price <? sgn * lv_price level)
  then (S i, i, lv_price level) else (S i, best_idx, best_price).

Definition rescan (l : list PriceLevel) : nat := (fold_left scan l (0%nat, 0%nat, worst)).1.2.

(** An update of the level [idx]. *)
Definition put_level (l : Ladder) (idx : nat) (lv : PriceLevel) : Ladder :=
  let ls := <[idx := lv]> (levels l) in
  let top := level_at ls (best l) in
  if (0 <? lv_quantity lv) && ((lv_quantity top =? 0) || (sgn * lv_price top <? sgn * lv_price lv))
  then mkLadder ls idx
  else if (lv_quantity lv =? 0) && (idx =? best l)%nat then mkLadder ls (rescan ls)
  else mkLadder ls (best l).

Definition ladder_update (l : Ladder) (lv : PriceLevel) : Ladder :=
  let diff := tick_diff base (lv_price lv) in
  if (0 <=? diff) && (wrap USIZE diff <? Z.of_nat PRICE_LEVELS_COUNT)
  then put_level l (Nat.min (Z.to_nat (wrap USIZE diff)) (PRICE_LEVELS_COUNT - 1)) lv else l.

Definition top_level (l : Ladder) : option PriceLevel :=
  let level := level_at (levels l) (best l) in
  if 0 <? lv_quantity level then Some level else None.
End Ladder.

Definition bid_ladder (b : ContiguousOrderBook) : Ladder := mkLadder (bids b) (best_bid_idx b).
Definition ask_ladder (b : ContiguousOrderBook) : Ladder := mkLadder (asks b) (best_ask_idx b).

Lemma recalculate_bid_eq b :
  recalculate_best_bid b = mkBook (bids b) (asks b) (rescan 1 0 (bids b)) (best_ask_idx b) (base_price b).
Proof.
  unfold recalculate_best_bid, rescan.
  replace (fold_left (scan 1) (bids b) (0%nat, 0%nat, 0)) with (fold_left scan_bid (bids b) (0%nat, 0%nat, 0)).
  - by destruct (fold_left _ _ _) as [[? ?] ?].
  - generalize (0%nat, 0%nat, 0). induction (bids b) as [|lv l IH]; intros acc; [done|].
    cbn [fold_left]. rewrite IH. f_equal. destruct acc as [[i j] p]. unfold scan, scan_bid. by rewrite !Z.mul_1_l.
Qed.

Lemma recalculate_ask_eq b :
  recalculate_best_ask b =
    mkBook (bids b) (asks b) (best_bid_idx b) (rescan (-1) (max_int I64) (asks b)) (base_price b).
Proof.
  unfold recalculate_best_ask, rescan.
  replace (fold_left (scan (-1)) (asks b) (0%nat, 0%nat, max_int I64))
    with (fold_left scan_ask (asks b) (0%nat, 0%nat, max_int I64)).
  - by destruct (fold_left _ _ _) as [[? ?] ?].
  - generalize (0%nat, 0%nat, max_int I64). induction (asks b) as [|lv l IH]; intros acc; [done|].
    cbn [fold_left]. rewrite IH. f_equal. destruct acc as [[i j] p]. unfold scan, scan_ask.
    replace (-1 * p <? -1 * lv_price lv) with (lv_price lv <? p); [done|].
    destruct (Z.ltb_spec (lv_price lv) p), (Z.ltb_spec (-1 * p) (-1 * lv_price lv)); lia || done.
Qed.

(** Each update is the ladder's on its side and leaves the other side alone. *)
Lemma update_bid_ladder b price quantity n ts :
  let b' := update_bid b price quantity n ts in
  bid_ladder b' = ladder_update 1 0 (base_price b) (bid_ladder b) (mkLevel price quantity n ts) /\
  ask_ladder b' = ask_ladder b /\ base_price b' = base_price b.
Proof.
  unfold update_bid, ladder_update. cbn [lv_price].
  destruct (_ && _); [|done]. unfold put_level. cbn [lv_price lv_quantity bids best_bid_idx levels best bid_ladder].
  rewrite !Z.mul_1_l. destruct (_ && _); [done|]. destruct (_ && _); [|done].
  by rewrite recalculate_bid_eq.
Qed.

Lemma update_ask_ladder b price quantity n ts :
  let b' := update_ask b price quantity n ts in
  ask_ladder b' = ladder_update (-1) (max_int I64) (base_price b) (ask_ladder b) (mkLevel price quantity n ts) /\
  bid_ladder b' = bid_ladder b /\ base_price b' = base_price b.
Proof.
  unfold update_ask, ladder_update. cbn [lv_price].
  destruct (_ && _); [|done]. unfold put_level. cbn [lv_price lv_quantity asks best_ask_idx levels best ask_ladder].
  set (top := level_at _ _). replace (-1 * lv_price top <? -1 * price) with (price <? lv_price top);
    [|destruct (Z.ltb_spec price (lv_price top)), (Z.ltb_spec (-1 * lv_price top) (-1 * price)); lia || done].
  destruct (_ && _); [done|]. destruct (_ && _); [|done].
  by rewrite recalculate_ask_eq.
Qed.

(** ** The invariant of a ladder *)

Definition live (lv : PriceLevel) : Prop := 0 < lv_quantity lv.

(** A price on the side [below] of the anchor. *)
Definition ok_price (below : bool) (base p : Z) : Prop :=
  0 < p < max_int I64 /\ 0 < base <= max_int I64 /\ if below then p <= base else base <= p.

Definition tick_of (base p : Z) : Z := Z.abs (p - base) / TICK_SIZE.

Lemma tick_diff_eq below base p : ok_price below base p -> tick_diff base p = tick_of base p.
Proof.
  intros (Hp & Hb & Hs). unfold tick_diff, tick_of, TICK_SIZE.
  destruct (Z.leb_spec base p); rewrite wrap_id by (destruct below; mint).
  - rewrite Z.abs_eq by lia. apply Z.quot_div_nonneg; lia.
  - rewrite Z.abs_neq by lia. rewrite Z.quot_div_nonneg by lia. f_equal. lia.
Qed.

(** On one side of the anchor, a price compares the same with all the prices of another tick. *)
Lemma same_tick_order below base p p' q :
  ok_price below base p -> ok_price below base p' -> ok_price below base q ->
  tick_of base p' = tick_of base p -> tick_of base q <> tick_of base p ->
  (q <= p -> q <= p') /\ (p <= q -> p' <= q).
Proof.
  unfold tick_of, TICK_SIZE. intros [_ [_ Ha]] [_ [_ Hb]] [_ [_ Hc]] E1 E2.
  destruct below; split; intros; zdm.
Qed.

Section Invariant.
Context (sgn worst base : Z) (below : bool).
Context (Hsgn : sgn = 1 /\ worst = 0 \/ sgn = -1 /\ worst = max_int I64).

Definition valid_levels (ls : list PriceLevel) : Prop :=
  forall i lv, ls !! i = Some lv ->
    lv = PriceLevel_default \/
    0 <= lv_quantity lv /\ ok_price below base (lv_price lv) /\ tick_of base (lv_price lv) = Z.of_nat i.

(** No live level beats the one at [k], and it is live if any is. *)
Definition is_top (ls : list PriceLevel) (k : nat) : Prop :=
  (k < length ls)%nat /\
  forall i lv, ls !! i = Some lv -> live lv ->
    live (level_at ls k) /\ sgn * lv_price lv <= sgn * lv_price (level_at ls k).

Lemma beats_worst p : ok_price below base p -> sgn * worst < sgn * p.
Proof. intros [? _]. destruct Hsgn as [[-> ->]|[-> ->]]; lia. Qed.

Lemma level_at_Some ls i lv : ls !! i = Some lv -> level_at ls i = lv.
Proof. unfold level_at. by intros ->. Qed.

Lemma scan_spec ls :
  valid_levels ls ->
  exists k p, fold_left (scan sgn) ls (0%nat, 0%nat, worst) = (length ls, k, p) /\
    ((exists lv, ls !! k = Some lv /\ live lv /\ lv_price lv = p /\
       forall i lv', ls !! i = Some lv' -> live lv' -> sgn * lv_price lv' <= sgn * p) \/
     (k = 0%nat /\ p = worst /\ forall i lv', ls !! i = Some lv' -> ~ live lv')).
Proof.
  induction ls as [|lv ls IH] using rev_ind; intros Hv.
  - exists 0%nat, worst. split; [done|]. right. done.
  - destruct IH as (k & p & E & H).
    { intros i lv' Hi. apply (Hv i). by apply lookup_app_l_Some. }
    rewrite fold_left_app, E. cbn [fold_left scan]. rewrite length_app. cbn [length]. rewrite Nat.add_1_r.
    assert (forall i lv', (ls ++ [lv]) !! i = Some lv' -> ls !! i = Some lv' \/ i = length ls /\ lv' = lv) as Hcase.
    { intros i lv' [?|[? Hi]]%lookup_app_Some; [by left|right].
      apply list_lookup_singleton_Some in Hi as [? <-]. split; [lia|done]. }
    assert (live lv -> sgn * worst < sgn * lv_price lv) as Hw.
    { intros Hl. destruct (Hv (length ls) lv) as [->|(_ & Hok & _)]; [by rewrite list_lookup_middle|done|by apply beats_worst]. }
    destruct (Z.ltb_spec 0 (lv_quantity lv)) as [Hq|Hq]; cbn [andb];
      [destruct (Z.ltb_spec (sgn * p) (sgn * lv_price lv)) as [Hp|Hp]|].
    + exists (length ls), (lv_price lv). split; [done|]. left. exists lv.
      split; [by rewrite list_lookup_middle|]. split; [done|]. split; [done|].
      intros i lv' [Hi|[-> ->]]%Hcase Hl; [|done].
      destruct H as [(lv0 & _ & _ & _ & H)|(_ & _ & H)]; [|by destruct (H _ _ Hi)]. specialize (H _ _ Hi Hl). lia.
    + exists k, p. split; [done|]. destruct H as [(lv0 & Hk & Hl0 & Hp0 & H)|(_ & -> & _)]; [|specialize (Hw Hq); lia].
      left. exists lv0. split; [by apply lookup_app_l_Some|]. split; [done|]. split; [done|].
      intros i lv' [Hi|[-> ->]]%Hcase Hl; [by eapply H|done].
    + exists k, p. split; [done|]. destruct H as [(lv0 & Hk & Hl0 & Hp0 & H)|(-> & -> & H)].
      * left. exists lv0. split; [by apply lookup_app_l_Some|]. split; [done|]. split; [done|].
        intros i lv' [Hi|[-> ->]]%Hcase Hl; [by eapply H|unfold live in Hl; lia].
      * right. split; [done|]. split; [done|]. intros i lv' [Hi|[-> ->]]%Hcase Hl; [by eapply H|unfold live in Hl; lia].
Qed.

Lemma rescan_top ls : valid_levels ls -> (0 < length ls)%nat -> is_top ls (rescan sgn worst ls).
Proof.
  intros Hv Hlen. unfold rescan. destruct (scan_spec ls Hv) as (k & p & -> & H). cbn [fst snd].
  destruct H as [(lv & Hk & Hl & <- & H)|(-> & -> & H)].
  - split; [by eapply lookup_lt_Some|]. rewrite (level_at_Some _ _ _ Hk). intros i lv' Hi Hl'. split; [done|]. by eapply H.
  - split; [done|]. intros i lv' Hi Hl'. by destruct (H i lv' Hi).
Qed.

Lemma put_level_ok l idx lv :
  valid_levels (levels l) -> is_top (levels l) (best l) -> (idx < length (levels l))%nat ->
  0 <= lv_quantity lv -> ok_price below base (lv_price lv) -> tick_of base (lv_price lv) = Z.of_nat idx ->
  let l' := put_level sgn worst l idx lv in
  levels l' = <[idx := lv]> (levels l) /\ valid_levels (levels l') /\ is_top (levels l') (best l').
Proof.
  intros Hv [Hb Htop] Hidx Hq Hok Ht. set (ls := <[idx := lv]> (levels l)).
  assert (levels (put_level sgn worst l idx lv) = ls) as El by (unfold put_level; by repeat case_match).
  assert (valid_levels ls) as Hv'.
  { intros i lv' Hi. destruct (decide (i = idx)) as [->|Hne].
    - unfold ls in Hi. rewrite list_lookup_insert_eq in Hi by done. injection Hi as <-. by right.
    - unfold ls in Hi. rewrite list_lookup_insert_ne in Hi by done. by apply Hv. }
  cbn zeta. rewrite El. split; [done|]. split; [done|].
  assert (length ls = length (levels l)) as Hlen by apply length_insert.
  assert (level_at ls idx = lv) as Hat by (apply level_at_Some, list_lookup_insert_eq; lia).
  assert (forall k, k <> idx -> level_at ls k = level_at (levels l) k) as Hat'
    by (intros k Hk; unfold level_at, ls; by rewrite list_lookup_insert_ne).
  assert (forall i lv', ls !! i = Some lv' -> i = idx /\ lv' = lv \/ i <> idx /\ levels l !! i = Some lv') as Hcase.
  { intros i lv' Hi. destruct (decide (i = idx)) as [->|Hne].
    - left. unfold ls in Hi. rewrite list_lookup_insert_eq in Hi by done. by injection Hi.
    - right. unfold ls in Hi. by rewrite list_lookup_insert_ne in Hi. }
  unfold put_level. fold ls. destruct (Z.ltb_spec 0 (lv_quantity lv)) as [Hl|Hl]; cbn [andb].
  - rewrite (proj2 (Z.eqb_neq (lv_quantity lv) 0)) by lia. cbn [andb].
    destruct (decide (best l = idx)) as [<-|Hne].
    + (* the best level itself is replaced by another price of its tick *)
      rewrite Hat. rewrite (proj2 (Z.eqb_neq (lv_quantity lv) 0)) by lia. rewrite Z.ltb_irrefl. cbn [orb best].
      split; [lia|]. rewrite Hat. intros i lv' [[-> ->]|[Hi Hlk]]%Hcase Hl'; [done|]. split; [done|].
      destruct (Htop i lv' Hlk Hl') as [Hlt Hle].
      destruct (Hv i lv' Hlk) as [->|(_ & Hok' & Ht')]; [done|].
      destruct (lookup_lt_is_Some_2 (levels l) (best l) Hb) as [lvb Hbk].
      rewrite (level_at_Some _ _ _ Hbk) in *.
      destruct (Hv _ lvb Hbk) as [->|(_ & Hokb & Htb)]; [done|].
      destruct (same_tick_order below base (lv_price lvb) (lv_price lv) (lv_price lv') Hokb Hok Hok'); [congruence|lia|].
      destruct Hsgn as [[-> _]|[-> _]]; lia.
    + rewrite Hat' by done. destruct (Z.eqb_spec (lv_quantity (level_at (levels l) (best l))) 0) as [E0|E0]; cbn [orb].
      * split; [cbn; lia|]. cbn [best]. rewrite Hat. intros i lv' [[-> ->]|[Hi Hlk]]%Hcase Hl'; [done|].
        destruct (Htop i lv' Hlk Hl') as [Hlt _]. unfold live in Hlt. lia.
      * destruct (Z.ltb_spec (sgn * lv_price (level_at (levels l) (best l))) (sgn * lv_price lv)) as [Hp|Hp]; cbn [best].
        -- split; [lia|]. rewrite Hat. intros i lv' [[-> ->]|[Hi Hlk]]%Hcase Hl'; [done|]. split; [done|].
           destruct (Htop i lv' Hlk Hl') as [_ Hle]. lia.
        -- split; [lia|]. rewrite Hat' by done. intros i lv' [[-> ->]|[Hi Hlk]]%Hcase Hl'; [|by eapply Htop].
           split; [|done]. destruct (lookup_lt_is_Some_2 (levels l) (best l) Hb) as [lvb Hbk].
           rewrite (level_at_Some _ _ _ Hbk) in *. destruct (Hv _ lvb Hbk) as [->|(? & _)]; [done|]. unfold live. lia.
  - rewrite (proj2 (Z.eqb_eq (lv_quantity lv) 0)) by lia. cbn [andb].
    destruct (Nat.eqb_spec idx (best l)) as [->|Hne]; cbn [best].
    + apply rescan_top; [done|lia].
    + split; [lia|]. rewrite Hat' by done. intros i lv' [[-> ->]|[Hi Hlk]]%Hcase Hl'; [unfold live in Hl'; lia|].
      by eapply Htop.
Qed.
End Invariant.

(** ** The contract: the last update of every tick, and the best of them *)

(** The levels by tick, an update past the ladder ignored. *)
Definition tick_map (base : Z) (lvs : list PriceLevel) : gmap nat PriceLevel :=
  fold_left (fun m lv =>
    if tick_of base (lv_price lv) <? Z.of_nat PRICE_LEVELS_COUNT
    then <[Z.to_nat (tick_of base (lv_price lv)) := lv]> m else m) lvs ∅.

(** [o] is the live level of the best price. *)
Definition best_of (sgn : Z) (m : gmap nat PriceLevel) (o : option PriceLevel) : Prop :=
  match o with
  | Some lv => (exists i, m !! i = Some lv) /\ live lv /\
      forall i lv', m !! i = Some lv' -> live lv' -> sgn * lv_price lv' <= sgn * lv_price lv
  | None => forall i lv, m !! i = Some lv -> ~ live lv
  end.

(** The levels of the list are those of the map. *)
Definition tracks (ls : list PriceLevel) (m : gmap nat PriceLevel) : Prop :=
  length ls = PRICE_LEVELS_COUNT /\ (forall i, is_Some (m !! i) -> (i < PRICE_LEVELS_COUNT)%nat) /\
  forall i, (i < PRICE_LEVELS_COUNT)%nat -> level_at ls i = default PriceLevel_default (m !! i).

Definition ok_level (below : bool) (base : Z) (lv : PriceLevel) : Prop :=
  ok_price below base (lv_price lv) /\ 0 <= lv_quantity lv.

Record ladder_ok (sgn base : Z) (below : bool) (l : Ladder) (m : gmap nat PriceLevel) : Prop := {
  ladder_tracks : tracks (levels l) m;
  ladder_valid : valid_levels base below (levels l);
  ladder_top : is_top sgn (levels l) (best l);
}.

Lemma ladder_update_ok sgn worst base below l m lv :
  sgn = 1 /\ worst = 0 \/ sgn = -1 /\ worst = max_int I64 ->
  ok_level below base lv -> ladder_ok sgn base below l m ->
  ladder_ok sgn base below (ladder_update sgn worst base l lv)
    (if tick_of base (lv_price lv) <? Z.of_nat PRICE_LEVELS_COUNT
     then <[Z.to_nat (tick_of base (lv_price lv)) := lv]> m else m).
Proof.
  intros Hsgn [Hok Hq] [[Hlen [Hdom Htr]] Hv Htop]. unfold ladder_update.
  rewrite (tick_diff_eq below) by done.
  assert (0 <= tick_of base (lv_price lv) < 2 ^ 62) as Ht.
  { destruct Hok as (? & ? & _). unfold tick_of, TICK_SIZE, max_int in *. cbn in *. zdm. }
  rewrite (proj2 (Z.leb_le _ _)) by lia. rewrite wrap_id by mint. cbn [andb].
  destruct (Z.ltb_spec (tick_of base (lv_price lv)) (Z.of_nat PRICE_LEVELS_COUNT)) as [Hlt|_]; [|done].
  set (idx := Z.to_nat (tick_of base (lv_price lv))).
  assert (idx < PRICE_LEVELS_COUNT)%nat as Hidx by (unfold idx; lia).
  rewrite Nat.min_l by lia.
  destruct (put_level_ok sgn worst base below Hsgn l idx lv Hv Htop ltac:(lia) Hq Hok ltac:(unfold idx; lia)) as (El & Hv' & Htop').
  split; [|done|done]. rewrite El. split; [by rewrite length_insert|]. split.
  - intros i. rewrite lookup_insert_is_Some. intros [->|[_ Hi]]; [done|by apply Hdom].
  - intros i Hi. unfold level_at. destruct (decide (idx = i)) as [<-|Hne].
    + rewrite lookup_insert_eq, list_lookup_insert_eq by lia. done.
    + rewrite lookup_insert_ne, list_lookup_insert_ne by done. by apply Htr.
Qed.

Lemma ladder_run_ok sgn worst base below lvs l :
  sgn = 1 /\ worst = 0 \/ sgn = -1 /\ worst = max_int I64 ->
  Forall (ok_level below base) lvs -> ladder_ok sgn base below l ∅ ->
  ladder_ok sgn base below (fold_left (ladder_update sgn worst base) lvs l) (tick_map base lvs).
Proof.
  intros Hsgn. unfold tick_map. generalize (∅ : gmap nat PriceLevel) as m. revert l.
  induction lvs as [|lv lvs IH]; intros l m Hf Hl; [done|]. cbn [fold_left].
  inversion Hf; subst. apply IH; [done|]. by apply ladder_update_ok.
Qed.

Lemma ladder_new_ok sgn base below k :
  (k < PRICE_LEVELS_COUNT)%nat ->
  ladder_ok sgn base below (mkLadder (replicate PRICE_LEVELS_COUNT PriceLevel_default) k) ∅.
Proof.
  intros Hk. split; cbn [levels best].
  - split; [apply length_replicate|]. split; [intros i Hi; rewrite lookup_empty in Hi; by destruct Hi|].
    intros i Hi. unfold level_at. rewrite lookup_replicate_2 by done. by rewrite lookup_empty.
  - intros i lv [-> _]%lookup_replicate. by left.
  - split; [by rewrite length_replicate|]. intros i lv [-> _]%lookup_replicate Hl. done.
Qed.

Lemma top_level_best sgn base below l m :
  ladder_ok sgn base below l m -> best_of sgn m (top_level l).
Proof.
  intros [(Hlen & Hdom & Htr) Hv [Hb Htop]]. unfold top_level.
  assert (forall i lv, m !! i = Some lv -> levels l !! i = Some lv) as Hm.
  { intros i lv Hi. assert (i < PRICE_LEVELS_COUNT)%nat as Hlt by (apply Hdom; eauto).
    specialize (Htr i Hlt). rewrite Hi in Htr. unfold level_at in Htr.
    destruct (lookup_lt_is_Some_2 (levels l) i ltac:(lia)) as [lv' E]. rewrite E in *. by cbn in Htr; subst. }
  destruct (Z.ltb_spec 0 (lv_quantity (level_at (levels l) (best l)))) as [Hl|Hl]; cbn.
  - split; [|split; [done|]].
    + exists (best l). rewrite Htr in Hl |- * by lia. destruct (m !! best l); [done|by cbn in Hl].
    + intros i lv Hi Hlv. by apply (Htop i lv (Hm _ _ Hi)).
  - intros i lv Hi Hlv. destruct (Htop i lv (Hm _ _ Hi) Hlv). unfold live in *. lia.
Qed.

Lemma tick_map_in base lvs i lv : tick_map base lvs !! i = Some lv -> In lv lvs.
Proof.
  unfold tick_map. induction lvs as [|x lvs IH] using rev_ind; [done|].
  rewrite fold_left_app, List.in_app_iff. cbn [fold_left]. destruct (_ <? _); [|by left; apply IH].
  rewrite lookup_insert_Some. intros [[_ ->]|[_ H]]; [by right; left|by left; apply IH].
Qed.

(** ** Runs of updates *)

Inductive book_update := UpdBid (lv : PriceLevel) | UpdAsk (lv : PriceLevel).

Definition apply_update (b : ContiguousOrderBook) (u : book_update) : ContiguousOrderBook :=
  match u with
  | UpdBid lv => update_bid b (lv_price lv) (lv_quantity lv) (lv_order_count lv) (lv_last_update_ts lv)
  | UpdAsk lv => update_ask b (lv_price lv) (lv_quantity lv) (lv_order_count lv) (lv_last_update_ts lv)
  end.

Definition bid_levels (us : list book_update) : list PriceLevel :=
  omap (fun u => match u with UpdBid lv => Some lv | UpdAsk _ => None end) us.
Definition ask_levels (us : list book_update) : list PriceLevel :=
  omap (fun u => match u with UpdAsk lv => Some lv | UpdBid _ => None end) us.

Lemma run_updates_ladders us b :
  let b' := fold_left apply_update us b in
  bid_ladder b' = fold_left (ladder_update 1 0 (base_price b)) (bid_levels us) (bid_ladder b) /\
  ask_ladder b' = fold_left (ladder_update (-1) (max_int I64) (base_price b)) (ask_levels us) (ask_ladder b).
Proof.
  revert b. induction us as [|u us IH]; intros b; [done|]. cbn [fold_left].
  specialize (IH (apply_update b u)). unfold bid_levels, ask_levels in *.
  destruct u as [lv|lv]; cbn [apply_update omap list_omap fold_left] in *; destruct IH as [-> ->].
  - destruct (update_bid_ladder b (lv_price lv) (lv_quantity lv) (lv_order_count lv) (lv_last_update_ts lv)) as (-> & -> & ->).
    by destruct lv.
  - destruct (update_ask_ladder b (lv_price lv) (lv_quantity lv) (lv_order_count lv) (lv_last_update_ts lv)) as (-> & -> & ->).
    by destruct lv.
Qed.

(** A fresh book after updates whose prices lie, on each side, on one side of the anchor. *)
Lemma updates_best base bid_below ask_below us :
  Forall (ok_level bid_below base) (bid_levels us) -> Forall (ok_level ask_below base) (ask_levels us) ->
  let b := fold_left apply_update us (book_new base) in
  tracks (bids b) (tick_map base (bid_levels us)) /\ best_of 1 (tick_map base (bid_levels us)) (bbo_bid b) /\
  tracks (asks b) (tick_map base (ask_levels us)) /\ best_of (-1) (tick_map base (ask_levels us)) (bbo_ask b).
Proof.
  intros Hb Ha.
  destruct (run_updates_ladders us (book_new base)) as [Eb Ea]. cbn zeta in *.
  set (b := fold_left apply_update us (book_new base)) in *.
  pose proof (ladder_run_ok 1 0 base bid_below (bid_levels us) _ ltac:(by left) Hb
    (ladder_new_ok 1 base bid_below 0 ltac:(unfold PRICE_LEVELS_COUNT; lia))) as Hbl.
  pose proof (ladder_run_ok (-1) (max_int I64) base ask_below (ask_levels us) _ ltac:(by right) Ha
    (ladder_new_ok (-1) base ask_below (PRICE_LEVELS_COUNT - 1) ltac:(unfold PRICE_LEVELS_COUNT; lia))) as Hal.
  cbn [base_price book_new] in Eb, Ea.
  change (mkLadder _ 0) with (bid_ladder (book_new base)) in Hbl. rewrite <- Eb in Hbl.
  change (mkLadder _ (PRICE_LEVELS_COUNT - 1)) with (ask_ladder (book_new base)) in Hal. rewrite <- Ea in Hal.
  split; [exact (ladder_tracks _ _ _ _ _ Hbl)|]. split; [exact (top_level_best _ _ _ _ _ Hbl)|].
  split; [exact (ladder_tracks _ _ _ _ _ Hal)|exact (top_level_best _ _ _ _ _ Hal)].
Qed.

Module OrderBook.

(** C18: after any sequence of updates whose bid prices lie on one side of the anchor and whose ask
    prices lie on one side of it, every tick of each side holds its last update and the best bid
    (ask) is the live level of the highest (lowest) price, or none if no level is live. *)
Theorem tracks_best (base : Z) (bid_below ask_below : bool) (us : list book_update)
    (Hb : Forall (ok_level bid_below base) (bid_levels us))
    (Ha : Forall (ok_level ask_below base) (ask_levels us)) :
  let b := fold_left apply_update us (book_new base) in
  tracks (bids b) (tick_map base (bid_levels us)) /\ best_of 1 (tick_map base (bid_levels us)) (bbo_bid b) /\
  tracks (asks b) (tick_map base (ask_levels us)) /\ best_of (-1) (tick_map base (ask_levels us)) (bbo_ask b).
Proof. exact (updates_best base bid_below ask_below us Hb Ha). Qed.

Definition anchor : Z := 100 * 100000000.
Definition at_ticks (k qty : Z) : PriceLevel := mkLevel (anchor + k * TICK_SIZE) qty 1 0.
Definition demo_updates : list book_update :=
  [UpdBid (at_ticks (-3) 5); UpdAsk (at_ticks 2 4); UpdBid (at_ticks (-1) 7); UpdAsk (at_ticks 1 6);
   UpdBid (at_ticks (-1) 0)].

Lemma tracks_best_witness :
  best_of 1 (tick_map anchor (bid_levels demo_updates)) (Some (at_ticks (-3) 5)) /\
  best_of (-1) (tick_map anchor (ask_levels demo_updates)) (Some (at_ticks 1 6)).
Proof.
  destruct (tracks_best anchor true false demo_updates) as (_ & H1 & _ & H2).
  - unfold ok_level, ok_price. repeat constructor; vm_compute; congruence.
  - unfold ok_level, ok_price. repeat constructor; vm_compute; congruence.
  - replace (bbo_bid (fold_left apply_update demo_updates (book_new anchor))) with (Some (at_ticks (-3) 5)) in H1
      by (vm_compute; reflexivity).
    replace (bbo_ask (fold_left apply_update demo_updates (book_new anchor))) with (Some (at_ticks 1 6)) in H2
      by (vm_compute; reflexivity).
    by split.
Defined.

(** Prices the same distance above and below the anchor share a level: after live bids at +5, +3
    and -5 ticks the bid at +5 is gone, and the book reports the bid at -5 as its best although
    the bid at +3 is live and higher. *)
Theorem mirror_collision :
  let b := fold_left apply_update [UpdBid (at_ticks 5 1); UpdBid (at_ticks 3 1); UpdBid (at_ticks (-5) 1)]
             (book_new anchor) in
  bbo_bid b = Some (at_ticks (-5) 1) /\ bids b !! 3%nat = Some (at_ticks 3 1) /\
  at_ticks 5 1 ∉ bids b.
Proof.
  cbn zeta. set (b := fold_left _ _ _). split; [vm_compute; reflexivity|]. split; [vm_compute; reflexivity|].
  apply (bool_decide_unpack _). vm_compute. exact I.
Qed.
End OrderBook.
