(* ===== verification/U256.v ===== *)
(** * amm-virtualizer/src/curve.rs: [U256]

    The 256-bit integer of two 128-bit halves.  Its operations are arithmetic modulo [2^256]
    ([ring_ops]), its derived order is the numeric one, and its long division is exact for every
    divisor ([div_exact]): the remainder of a prefix of the dividend is below [2^255], so the shift
    by one never loses a bit. *)

From S2P Require Import Prelude.

Record U256 := mkU256 { hi : Z; lo : Z }.

#[global] Instance U256_eq_dec : EqDecision U256.
Proof. solve_decision. Defined.

Definition U256_ZERO : U256 := mkU256 0 0.
Definition U256_ONE : U256 := mkU256 0 1.
Definition from_u128 (v : Z) : U256 := mkU256 0 v.
Definition as_u128 (u : U256) : Z := lo u.
Definition is_zero (u : U256) : bool := (hi u =? 0) && (lo u =? 0).

(** The derived [PartialOrd]: the fields in order. *)
Definition u_lt (a b : U256) : bool := (hi a <? hi b) || ((hi a =? hi b) && (lo a <? lo b)).
Definition u_le (a b : U256) : bool := negb (u_lt b a).

Definition overflowing_add (a b : Z) : Z * bool := (a +[U128] b, modulus U128 <=? a + b).
Definition overflowing_sub (a b : Z) : Z * bool := (a -[U128] b, a <? b).

Definition u_add (a b : U256) : U256 :=
  let (lo', carry) := overflowing_add (lo a) (lo b) in
  mkU256 ((hi a +[U128] hi b) +[U128] (if carry : bool then 1 else 0)) lo'.

Definition u_sub (a b : U256) : U256 :=
  let (lo', borrow) := overflowing_sub (lo a) (lo b) in
  mkU256 ((hi a -[U128] hi b) -[U128] (if borrow : bool then 1 else 0)) lo'.

Definition mul_u128 (a : U256) (other : Z) : U256 :=
  let lo_lo := wrap U64 (lo a) in
  let lo_hi := Z.shiftr (lo a) 64 in
  let o_lo := wrap U64 other in
  let o_hi := Z.shiftr other 64 in
  let p0 := lo_lo *[U128] o_lo in
  let p1 := lo_lo *[U128] o_hi in
  let p2 := lo_hi *[U128] o_lo in
  let p3 := lo_hi *[U128] o_hi in
  let (mid, c1) := overflowing_add p1 p2 in
  let mid_lo := wrap U64 mid in
  let mid_hi := Z.shiftr mid 64 +[U128] (if c1 : bool then Z.shiftl 1 64 else 0) in
  let (lo', c2) := overflowing_add p0 (mid_lo <<[U128] 64) in
  mkU256 (((p3 +[U128] mid_hi) +[U128] (hi a *[U128] other)) +[U128] (if c2 : bool then 1 else 0)) lo'.

Definition u_mul (a b : U256) : U256 :=
  let res := mul_u128 a (lo b) in
  mkU256 (hi res +[U128] (lo a *[U128] hi b)) (lo res).

Definition shift_left_1 (u : U256) : U256 :=
  mkU256 (Z.lor (hi u <<[U128] 1) (Z.shiftr (lo u) 127)) (lo u <<[U128] 1).

Definition get_bit (u : U256) (bit : nat) : bool :=
  if (bit <? 128)%nat then Z.land (Z.shiftr (lo u) (Z.of_nat bit)) 1 =? 1
  else Z.land (Z.shiftr (hi u) (Z.of_nat (bit - 128))) 1 =? 1.

Definition set_bit (u : U256) (bit : nat) : U256 :=
  if (bit <? 128)%nat then mkU256 (hi u) (Z.lor (lo u) (1 <<[U128] Z.of_nat bit))
  else mkU256 (Z.lor (hi u) (1 <<[U128] Z.of_nat (bit - 128))) (lo u).

(** One turn of the division loop, for bit [i]. *)
Definition div_bit (self other : U256) (i : nat) (st : U256 * U256) : U256 * U256 :=
  let (quotient, remainder) := st in
  let remainder := shift_left_1 remainder in
  let remainder := if get_bit self i then mkU256 (hi remainder) (Z.lor (lo remainder) 1) else remainder in
  if negb (u_lt remainder other) then (set_bit quotient i, u_sub remainder other)
  else (quotient, remainder).

(** [for i in (0..n).rev()]. *)
Fixpoint div_loop (self other : U256) (n : nat) (st : U256 * U256) : U256 * U256 :=
  match n with
  | O => st
  | S i => div_loop self other i (div_bit self other i st)
  end.

Definition u_div (self other : U256) : outcome U256 :=
  if is_zero other then Panic
  else if u_lt self other then Done U256_ZERO
  else if bool_decide (other = U256_ONE) then Done self
  else Done (div_loop self other 256 (U256_ZERO, U256_ZERO)).1.

(** ** The numbers they stand for *)

Definition B128 : Z := 2 ^ 128.
Definition val (u : U256) : Z := hi u * B128 + lo u.

Definition u_ok (u : U256) : Prop := in_range U128 (hi u) /\ in_range U128 (lo u).

(** The [U256] of a number. *)
Definition of_Z (z : Z) : U256 := mkU256 ((z / B128) mod B128) (z mod B128).

Lemma B128_eq : B128 = 340282366920938463463374607431768211456.
Proof. reflexivity. Qed.

Lemma wrap128 z : wrap U128 z = z mod B128.
Proof. apply wrap_unsigned. reflexivity. Qed.

Lemma range128 z : in_range U128 z <-> 0 <= z < B128.
Proof. unfold in_range, max_int. cbn. rewrite B128_eq. lia. Qed.

Lemma val_range u : u_ok u -> 0 <= val u < 2 ^ 256.
Proof.
  intros [H1%range128 H2%range128]. unfold val. replace (2 ^ 256) with (B128 * B128) by reflexivity. nia.
Qed.

Lemma of_Z_ok z : u_ok (of_Z z).
Proof. split; apply range128, Z.mod_pos_bound; done. Qed.

Lemma val_of_Z z : val (of_Z z) = z mod 2 ^ 256.
Proof.
  unfold val, of_Z. cbn [hi lo]. replace (2 ^ 256) with (B128 * B128) by reflexivity.
  rewrite Z.rem_mul_r by done. lia.
Qed.

Lemma of_Z_val u : u_ok u -> of_Z (val u) = u.
Proof.
  intros [H1%range128 H2%range128]. destruct u as [h l]. unfold of_Z, val. cbn [hi lo] in *.
  f_equal.
  - rewrite Z.div_add_l, (Z.div_small l), Z.add_0_r, Z.mod_small by (done || lia). done.
  - rewrite Z.add_comm, Z.mod_add, Z.mod_small by (done || lia). done.
Qed.

Lemma of_Z_mod z : of_Z (z mod 2 ^ 256) = of_Z z.
Proof.
  rewrite <- val_of_Z. apply of_Z_val, of_Z_ok.
Qed.

(** How a [U256] is found from its halves: any halves equal modulo [2^128], a carry moved up. *)
Lemma of_Z_halves h l : mkU256 ((h + l / B128) mod B128) (l mod B128) = of_Z (h * B128 + l).
Proof.
  unfold of_Z. f_equal.
  - by rewrite Z.div_add_l by done.
  - by rewrite Z.add_comm, Z.mod_add by done.
Qed.

Lemma u_lt_val a b : u_ok a -> u_ok b -> u_lt a b = (val a <? val b).
Proof.
  intros [H1%range128 H2%range128] [H3%range128 H4%range128]. unfold u_lt, val.
  destruct (Z.ltb_spec (hi a) (hi b)), (Z.eqb_spec (hi a) (hi b)), (Z.ltb_spec (lo a) (lo b)),
    (Z.ltb_spec (hi a * B128 + lo a) (hi b * B128 + lo b)); cbn; try done; nia.
Qed.

Lemma u_le_val a b : u_ok a -> u_ok b -> u_le a b = (val a <=? val b).
Proof. intros. unfold u_le. by rewrite u_lt_val, <- Z.leb_antisym by done. Qed.

Lemma is_zero_val u : u_ok u -> is_zero u = (val u =? 0).
Proof.
  intros [H1%range128 H2%range128]. unfold is_zero, val.
  destruct (Z.eqb_spec (hi u) 0), (Z.eqb_spec (lo u) 0), (Z.eqb_spec (hi u * B128 + lo u) 0); cbn; try done; nia.
Qed.

Lemma from_u128_of_Z v : in_range U128 v -> from_u128 v = of_Z v.
Proof.
  intros H%range128. unfold from_u128, of_Z. by rewrite Z.div_small, Zmod_0_l, Z.mod_small by done.
Qed.

Lemma u_add_of_Z a b : u_ok a -> u_ok b -> u_add a b = of_Z (val a + val b).
Proof.
  intros [H1%range128 H2%range128] [H3%range128 H4%range128]. unfold u_add, overflowing_add, val.
  rewrite !wrap128, Zplus_mod_idemp_l. change (modulus U128) with B128.
  replace (hi a * B128 + lo a + (hi b * B128 + lo b)) with ((hi a + hi b) * B128 + (lo a + lo b)) by ring.
  rewrite <- of_Z_halves. f_equal. f_equal. f_equal.
  destruct (Z.leb_spec B128 (lo a + lo b)).
  - apply Z.div_unique with (r := lo a + lo b - B128); lia.
  - by rewrite Z.div_small by lia.
Qed.

Lemma u_sub_of_Z a b : u_ok a -> u_ok b -> u_sub a b = of_Z (val a - val b).
Proof.
  intros [H1%range128 H2%range128] [H3%range128 H4%range128]. unfold u_sub, overflowing_sub, val.
  rewrite !wrap128, Zminus_mod_idemp_l.
  replace (hi a * B128 + lo a - (hi b * B128 + lo b)) with ((hi a - hi b) * B128 + (lo a - lo b)) by ring.
  rewrite <- of_Z_halves. f_equal. f_equal. unfold Z.sub at 1. f_equal.
  destruct (Z.ltb_spec (lo a) (lo b)).
  - apply Z.div_unique with (r := lo a - lo b + B128); lia.
  - rewrite Z.div_small by lia. done.
Qed.

(** The two middle products may carry out of 128 bits. *)
Lemma mid_carry T s :
  0 < T -> 0 <= s < 2 * (T * T) ->
  (s mod (T * T) / T + (if T * T <=? s then 1 * T else 0)) = s / T /\ (s mod (T * T)) mod T = s mod T.
Proof.
  intros HT Hs. pose proof (Z.mod_pos_bound s T HT) as Hm. pose proof (Z.div_mod s T ltac:(lia)) as Es.
  rewrite Z.rem_mul_r by lia. rewrite (Z.mul_comm T ((s / T) mod T)), (Z.add_comm (s mod T)).
  rewrite Z.div_add_l, (Z.div_small (s mod T)), Z.add_0_r by lia.
  rewrite (Z.add_comm _ (s mod T)), Z.mod_add, Z.mod_mod by lia. split; [|done].
  assert (0 <= s / T < 2 * T) by (split; [apply Z.div_pos; lia|apply Z.div_lt_upper_bound; nia]).
  destruct (Z.leb_spec (T * T) s).
  - replace (s / T) with ((s / T - T) + 1 * T) at 1 by ring. rewrite Z.mod_add, Z.mod_small by nia. lia.
  - rewrite Z.mod_small by nia. lia.
Qed.

(** A carry out of 128 bits is the quotient of the sum. *)
Lemma carry_div x : 0 <= x < 2 * B128 -> (if B128 <=? x then 1 else 0) = x / B128.
Proof.
  intros Hx. destruct (Z.leb_spec B128 x).
  - apply Z.div_unique with (r := x - B128); lia.
  - by rewrite Z.div_small by lia.
Qed.

Lemma mul_u128_of_Z a b : u_ok a -> in_range U128 b -> mul_u128 a b = of_Z (val a * b).
Proof.
  intros [H1%range128 H2%range128] H3%range128. unfold mul_u128, overflowing_add, val.
  rewrite !wrap128, !(wrap_unsigned U64) by done. change (modulus U64) with (2 ^ 64).
  rewrite !Z.shiftr_div_pow2, !Z.shiftl_mul_pow2 by lia. change (modulus U128) with B128.
  set (T := 2 ^ 64) in *. assert (B128 = T * T) as HB by reflexivity. assert (0 < T) by done.
  pose proof (Z.mod_pos_bound (lo a) T ltac:(lia)) as Ha0. pose proof (Z.mod_pos_bound b T ltac:(lia)) as Hb0.
  pose proof (Z.div_mod (lo a) T ltac:(lia)) as Ea. pose proof (Z.div_mod b T ltac:(lia)) as Eb.
  assert (0 <= lo a / T < T) as Ha1 by (split; [apply Z.div_pos; lia|apply Z.div_lt_upper_bound; lia]).
  assert (0 <= b / T < T) as Hb1 by (split; [apply Z.div_pos; lia|apply Z.div_lt_upper_bound; lia]).
  set (a0 := lo a mod T) in *. set (a1 := lo a / T) in *. set (b0 := b mod T) in *. set (b1 := b / T) in *.
  assert (forall x y, 0 <= x < T -> 0 <= y < T -> 0 <= x * y <= (T - 1) * (T - 1)) as Hxy
    by (intros x y Hx Hy; split; [apply Z.mul_nonneg_nonneg; lia|apply Z.mul_le_mono_nonneg; lia]).
  assert ((T - 1) * (T - 1) = B128 - 2 * T + 1) as HT by (rewrite HB; ring).
  pose proof (Hxy a0 b0 Ha0 Hb0). pose proof (Hxy a0 b1 Ha0 Hb1). pose proof (Hxy a1 b0 Ha1 Hb0). pose proof (Hxy a1 b1 Ha1 Hb1).
  rewrite (Z.mod_small (a0 * b0)), (Z.mod_small (a0 * b1)), (Z.mod_small (a1 * b0)), (Z.mod_small (a1 * b1)) by lia.
  destruct (mid_carry T (a0 * b1 + a1 * b0) ltac:(lia) ltac:(lia)) as [Em1 Em2]. rewrite <- HB in Em1, Em2.
  set (s := a0 * b1 + a1 * b0) in *. rewrite Em2. pose proof (Z.mod_pos_bound s T ltac:(lia)) as Hs0.
  assert (0 <= s mod T * T <= (T - 1) * T) by (split; [apply Z.mul_nonneg_nonneg; lia|apply Z.mul_le_mono_nonneg_r; lia]).
  assert ((T - 1) * T = B128 - T) as HT2 by (rewrite HB; ring).
  rewrite (Z.mod_small (s mod T * T)) by lia.
  rewrite Em1.
  replace ((hi a * B128 + lo a) * b) with ((a1 * b1 + s / T + hi a * b) * B128 + (a0 * b0 + s mod T * T)).
  - rewrite <- of_Z_halves. f_equal. rewrite carry_div by lia.
    rewrite (Z.mod_small (s / T)) by (split; [apply Z.div_pos; lia|apply Z.div_lt_upper_bound; nia]).
    rewrite Zplus_mod_idemp_l, <- Z.add_assoc, Zplus_mod_idemp_l, (Z.add_comm (_ + _)), <- Z.add_assoc, Zplus_mod_idemp_l.
    f_equal. ring.
  - pose proof (Z.div_mod s T ltac:(lia)) as Es. rewrite HB, Ea, Eb. clearbody a0 a1 b0 b1.
    set (q := s / T) in *. set (r := s mod T) in *.
    transitivity (a1 * b1 * (T * T) + T * (T * q + r) + a0 * b0 + hi a * (T * b1 + b0) * (T * T)); [ring|].
    rewrite <- Es. unfold s. ring.
Qed.

Lemma of_Z_add_high z k : mkU256 ((z / B128) mod B128 +[U128] k) (z mod B128) = of_Z (z + k * B128).
Proof.
  rewrite wrap128, Zplus_mod_idemp_l. unfold of_Z. by rewrite Z.div_add, Z.mod_add by done.
Qed.

Lemma u_mul_of_Z a b : u_ok a -> u_ok b -> u_mul a b = of_Z (val a * val b).
Proof.
  intros Ha [H3 H4]. unfold u_mul. rewrite mul_u128_of_Z by done.
  unfold of_Z at 1 2. cbn [hi lo]. rewrite of_Z_add_high.
  rewrite <- (of_Z_mod (val a * val b)), <- of_Z_mod. f_equal. replace (2 ^ 256) with (B128 * B128) by reflexivity.
  rewrite wrap128. unfold val.
  replace ((hi a * B128 + lo a) * (hi b * B128 + lo b))
    with ((hi a * B128 + lo a) * lo b + (lo a * hi b) * B128 + hi a * hi b * (B128 * B128)) by ring.
  rewrite Z.mod_add by done. pose proof (Z.div_mod (lo a * hi b) B128 ltac:(done)) as E.
  set (q := lo a * hi b / B128) in *. set (r := (lo a * hi b) mod B128) in *. rewrite E.
  replace ((hi a * B128 + lo a) * lo b + (B128 * q + r) * B128)
    with ((hi a * B128 + lo a) * lo b + r * B128 + q * (B128 * B128)) by ring.
  by rewrite Z.mod_add.
Qed.

(** ** The long division *)

Lemma shiftr_127_bit z : in_range U128 z -> Z.shiftr z 127 = z / 2 ^ 127 /\ 0 <= z / 2 ^ 127 <= 1.
Proof.
  intros H%range128. rewrite Z.shiftr_div_pow2 by lia. split; [done|].
  split; [apply Z.div_pos; lia|]. apply Z.lt_succ_r, Z.div_lt_upper_bound; [done|]. change B128 with (2 ^ 127 * 2) in H. lia.
Qed.

Lemma lor_double x b : 0 <= b <= 1 -> Z.lor (2 * x) b = 2 * x + b.
Proof.
  intros Hb. replace (2 * x) with (Z.shiftl x 1) by (rewrite Z.shiftl_mul_pow2; lia).
  rewrite lor_shift_add by (cbn; lia). rewrite Z.shiftl_mul_pow2 by lia. done.
Qed.

Lemma shift_left_1_of_Z u : u_ok u -> shift_left_1 u = of_Z (2 * val u).
Proof.
  intros [H1 H2]. unfold shift_left_1. destruct (shiftr_127_bit (lo u) H2) as [-> Hb].
  apply range128 in H1, H2. rewrite !wrap128, !Z.shiftl_mul_pow2 by lia. unfold of_Z, val.
  replace (2 * (hi u * B128 + lo u)) with ((hi u * 2) * B128 + lo u * 2) by ring. f_equal.
  - rewrite Z.div_add_l by done.
    replace (lo u * 2 / B128) with (lo u / 2 ^ 127).
    + change B128 with (2 * 2 ^ 127). rewrite <- (Z.mul_comm 2 (hi u)). change (2 ^ 1) with 2.
      rewrite (Z.mul_comm (hi u) 2). rewrite Z.mul_mod_distr_l by done.
      rewrite lor_double by lia.
      replace ((2 * hi u + lo u / 2 ^ 127) mod (2 * 2 ^ 127)) with (2 * (hi u mod 2 ^ 127) + lo u / 2 ^ 127); [lia|].
      apply Z.mod_unique with (q := hi u / 2 ^ 127).
      * left. pose proof (Z.mod_pos_bound (hi u) (2 ^ 127) ltac:(done)). lia.
      * pose proof (Z.div_mod (hi u) (2 ^ 127) ltac:(done)). lia.
    + change B128 with (2 ^ 127 * 2). by rewrite Z.div_mul_cancel_r.
  - by rewrite Z.add_comm, Z.mod_add.
Qed.

(** Shifting in a bit below. *)
Lemma shift_in u (b : bool) :
  u_ok u -> val u < 2 ^ 255 ->
  (if b then mkU256 (hi (shift_left_1 u)) (Z.lor (lo (shift_left_1 u)) 1) else shift_left_1 u) = of_Z (2 * val u + Z.b2z b).
Proof.
  intros Hok Hb. rewrite shift_left_1_of_Z by done. pose proof (val_range u Hok).
  destruct b; cbn [Z.b2z]; [|by rewrite Z.add_0_r].
  generalize (val u) as w. intros w. unfold of_Z. cbn [hi lo]. change B128 with (2 * 2 ^ 127).
  pose proof (Z.div_mod w (2 ^ 127) ltac:(done)) as E. pose proof (Z.mod_pos_bound w (2 ^ 127) ltac:(done)) as Hr.
  rewrite Z.div_mul_cancel_l, Z.mul_mod_distr_l by done.
  replace ((2 * w + 1) / (2 * 2 ^ 127)) with (w / 2 ^ 127)
    by (apply Z.div_unique with (r := 2 * (w mod 2 ^ 127) + 1); lia).
  replace ((2 * w + 1) mod (2 * 2 ^ 127)) with (2 * (w mod 2 ^ 127) + 1)
    by (apply Z.mod_unique with (q := w / 2 ^ 127); lia).
  f_equal. by apply lor_double.
Qed.

Lemma land_1_testbit z : (Z.land z 1 =? 1) = Z.odd z.
Proof.
  change 1 with (Z.ones 1). rewrite Z.land_ones by lia. change (2 ^ 1) with 2. change (Z.ones 1) with 1.
  rewrite Zmod_odd. by destruct (Z.odd z).
Qed.

Lemma get_bit_testbit u i : u_ok u -> (i < 256)%nat -> get_bit u i = Z.testbit (val u) (Z.of_nat i).
Proof.
  intros [H1%range128 H2%range128] Hi. unfold get_bit. rewrite !land_1_testbit, <- !Z.testbit_odd.
  unfold val. destruct (Nat.ltb_spec i 128).
  - change B128 with (2 ^ 128). rewrite <- (Z.mod_pow2_bits_low (hi u * 2 ^ 128 + lo u) 128 (Z.of_nat i)) by lia.
    rewrite Z.add_comm, Z.mod_add, Z.mod_small by (done || lia). done.
  - replace (Z.of_nat i) with (Z.of_nat (i - 128) + 128) by lia.
    rewrite <- (Z.div_pow2_bits (hi u * B128 + lo u) 128) by lia. change (2 ^ 128) with B128.
    rewrite Z.div_add_l, Z.div_small, Z.add_0_r by (done || lia). done.
Qed.

(** Setting a bit below all the bits of the number. *)
Lemma set_bit_of_Z k i : (i < 256)%nat -> 0 <= k * 2 ^ (Z.of_nat i + 1) < 2 ^ 256 ->
  set_bit (of_Z (k * 2 ^ (Z.of_nat i + 1))) i = of_Z (k * 2 ^ (Z.of_nat i + 1) + 2 ^ Z.of_nat i).
Proof.
  intros Hi Hk. assert (forall n, 0 <= n < 128 -> (1 <<[U128] n) = 2 ^ n) as Hone.
  { intros n Hn. rewrite wrap128, Z.shiftl_mul_pow2, Z.mul_1_l, Z.mod_small by (lia || (split; [lia|apply Z.pow_lt_mono_r; lia])). done. }
  assert (forall n a, 0 <= n -> Z.lor (a * 2 ^ (n + 1)) (2 ^ n) = a * 2 ^ (n + 1) + 2 ^ n) as Hlor.
  { intros n a Hn. rewrite <- Z.shiftl_mul_pow2, lor_shift_add; rewrite ?Z.shiftl_mul_pow2 by lia;
      [done|lia|split; [lia|apply Z.pow_lt_mono_r; lia]|lia]. }
  unfold set_bit, of_Z. cbn [hi lo]. destruct (Nat.ltb_spec i 128).
  - set (n := Z.of_nat i) in *. rewrite Hone by lia.
    assert (B128 = 2 ^ (n + 1) * 2 ^ (127 - n)) as HB by (rewrite <- Z.pow_add_r by lia; unfold B128; f_equal; lia).
    assert (0 < 2 ^ (n + 1)) by (apply Z.pow_pos_nonneg; lia). assert (0 < 2 ^ (127 - n)) by (apply Z.pow_pos_nonneg; lia).
    assert (2 ^ (n + 1) = 2 * 2 ^ n) as H2n by (rewrite Z.pow_add_r by lia; lia).
    set (m := 2 ^ (127 - n)) in *. set (t := 2 ^ n) in *. assert (0 < t) by (unfold t; apply Z.pow_pos_nonneg; lia).
    rewrite HB. set (T := 2 ^ (n + 1)) in *.
    replace (k * T) with (T * k) by ring. rewrite Z.mul_mod_distr_l, Z.div_mul_cancel_l by lia.
    rewrite (Z.mul_comm T (k mod m)). unfold T, t at 1. rewrite Hlor by lia. fold T t.
    pose proof (Z.div_mod k m ltac:(lia)). pose proof (Z.mod_pos_bound k m ltac:(lia)).
    assert (T * k + t = T * m * (k / m) + (k mod m * T + t)) as E by nia.
    assert (0 <= k mod m * T + t < T * m) by nia.
    rewrite E, (Z.mul_comm (T * m)), Z.div_add_l, (Z.add_comm (_ * (T * m))), Z.mod_add by lia.
    rewrite (Z.div_small (_ + t)), Z.add_0_r, (Z.mod_small (_ + t)) by lia. done.
  - set (n := Z.of_nat (i - 128)). replace (Z.of_nat i + 1) with ((n + 1) + 128) by lia.
    replace (Z.of_nat i) with (n + 128) by lia. rewrite !Z.pow_add_r by lia. change (2 ^ 128) with B128.
    replace (k * (2 ^ n * 2 ^ 1 * B128)) with (k * (2 ^ n * 2 ^ 1) * B128) by ring.
    rewrite <- Z.mul_add_distr_r, !Z.div_mul, !Z.mod_mul by done. rewrite Hone by lia.
    assert (k * (2 ^ n * 2 ^ 1) + 2 ^ n < B128 /\ 0 <= k * (2 ^ n * 2 ^ 1)) as [Hlt Hge].
    { replace (Z.of_nat i + 1) with ((n + 1) + 128) in Hk by lia. rewrite !Z.pow_add_r in Hk by lia.
      replace (2 ^ 256) with (B128 * B128) in Hk by reflexivity. change (2 ^ 128) with B128 in Hk.
      replace (k * (2 ^ n * 2 ^ 1 * B128)) with (k * (2 ^ n * 2 ^ 1) * B128) in Hk by ring.
      assert (0 <= k * (2 ^ n * 2 ^ 1) < B128) as Hk2
        by (split; [apply (Z.mul_le_mono_pos_r _ _ B128)|apply (Z.mul_lt_mono_pos_r B128)]; done || lia).
      assert (B128 = 2 ^ n * 2 ^ 1 * 2 ^ (127 - n)) as HB by (rewrite <- !Z.pow_add_r by lia; unfold B128; f_equal; lia).
      assert (0 < 2 ^ n) as Hn by (apply Z.pow_pos_nonneg; lia).
      split; [|lia]. change (2 ^ 1) with 2 in *. set (m := 2 ^ (127 - n)) in *. set (t := 2 ^ n) in *.
      rewrite HB in Hk2 |- *. clear Hk HB. assert (k < m) by (apply (Z.mul_lt_mono_pos_r (t * 2)); lia). nia. }
    assert (0 < 2 ^ n) as Hn by (apply Z.pow_pos_nonneg; lia).
    rewrite (Z.mod_small (k * _)), (Z.mod_small (k * _ + _)) by lia.
    rewrite <- Z.pow_add_r by lia. by rewrite Hlor by lia.
Qed.

(** The state of the loop once the bits from [n] up are done: the quotient and the remainder of the
    prefix of the dividend. *)
Definition div_inv (A D : Z) (n : nat) (st : U256 * U256) : Prop :=
  let P := A / 2 ^ Z.of_nat n in
  st = (of_Z (P / D * 2 ^ Z.of_nat n), of_Z (P mod D)).

Lemma prefix_small A n : 0 <= A < 2 ^ 256 -> (n < 256)%nat -> 0 <= A / 2 ^ Z.of_nat (S n) < 2 ^ 255.
Proof.
  intros HA Hn. split; [apply Z.div_pos; [lia|apply Z.pow_pos_nonneg; lia]|].
  apply Z.div_lt_upper_bound; [apply Z.pow_pos_nonneg; lia|].
  rewrite <- Z.pow_add_r by lia. apply Z.lt_le_trans with (2 ^ 256); [lia|apply Z.pow_le_mono_r; lia].
Qed.

Lemma prefix_next A n : 0 <= A -> A / 2 ^ Z.of_nat n = 2 * (A / 2 ^ Z.of_nat (S n)) + Z.b2z (Z.testbit A (Z.of_nat n)).
Proof.
  intros HA. rewrite Z.testbit_spec' by lia.
  replace (2 ^ Z.of_nat (S n)) with (2 ^ Z.of_nat n * 2) by (rewrite Nat2Z.inj_succ, Z.pow_succ_r; lia).
  rewrite <- Z.div_div by (try apply Z.pow_nonzero; lia). apply Z.div_mod. lia.
Qed.

Lemma val_small z : 0 <= z < 2 ^ 256 -> val (of_Z z) = z.
Proof. intros H. rewrite val_of_Z. by apply Z.mod_small. Qed.

Lemma div_bit_inv self other n st :
  u_ok self -> u_ok other -> 0 < val other -> (n < 256)%nat ->
  div_inv (val self) (val other) (S n) st -> div_inv (val self) (val other) n (div_bit self other n st).
Proof.
  intros Hs Ho Hpos Hn ->. pose proof (val_range _ Hs) as HA. pose proof (val_range _ Ho) as HD.
  unfold div_inv, div_bit. cbv zeta. rewrite get_bit_testbit by done.
  pose proof (prefix_next (val self) n ltac:(lia)) as EP. pose proof (prefix_small (val self) n HA Hn) as HP.
  set (A := val self) in *. set (D := val other) in *. set (P := A / 2 ^ Z.of_nat (S n)) in *.
  set (b := Z.testbit A (Z.of_nat n)) in *. rewrite EP.
  pose proof (Z.mod_pos_bound P D Hpos). pose proof (Z.mod_le P D ltac:(lia) Hpos).
  assert (val (of_Z (P mod D)) = P mod D) as Er by (apply val_small; lia).
  rewrite (shift_in (of_Z (P mod D)) b) by (apply of_Z_ok || (rewrite Er; lia)). rewrite Er.
  assert (0 <= Z.b2z b <= 1) as Hb by (destruct b; cbn; lia).
  pose proof (Z.div_mod P D ltac:(lia)) as ED. assert (0 <= P / D) as Hq by (apply Z.div_pos; lia).
  set (R := 2 * (P mod D) + Z.b2z b). assert (0 <= R < 2 ^ 256) as HR by (unfold R; lia).
  rewrite u_lt_val by (apply of_Z_ok || done). rewrite val_small by done. fold D.
  rewrite Nat2Z.inj_succ. unfold Z.succ.
  assert (0 < 2 ^ Z.of_nat n) as H2n by (apply Z.pow_pos_nonneg; lia).
  destruct (Z.ltb_spec R D) as [Hlt|Hge]; cbn [negb].
  - replace ((2 * P + Z.b2z b) / D) with (2 * (P / D)) by (apply Z.div_unique with (r := R); unfold R; lia).
    replace ((2 * P + Z.b2z b) mod D) with R by (apply Z.mod_unique with (q := 2 * (P / D)); unfold R; lia).
    rewrite Z.pow_add_r by lia. do 2 f_equal. change (2 ^ 1) with 2. ring.
  - replace ((2 * P + Z.b2z b) / D) with (2 * (P / D) + 1) by (apply Z.div_unique with (r := R - D); unfold R in *; lia).
    replace ((2 * P + Z.b2z b) mod D) with (R - D) by (apply Z.mod_unique with (q := 2 * (P / D) + 1); unfold R in *; lia).
    rewrite set_bit_of_Z; [|done|].
    + rewrite u_sub_of_Z, val_small by (done || apply of_Z_ok). fold D.
      rewrite Z.pow_add_r by lia. do 2 f_equal. change (2 ^ 1) with 2. ring.
    + assert (P / D <= P) by (apply Z.div_le_upper_bound; nia).
      split; [apply Z.mul_nonneg_nonneg; [done|apply Z.pow_nonneg; lia]|].
      apply Z.le_lt_trans with (P * 2 ^ (Z.of_nat n + 1)); [apply Z.mul_le_mono_nonneg_r; [apply Z.pow_nonneg|]; lia|].
      apply Z.le_lt_trans with A; [|lia]. unfold P. rewrite Nat2Z.inj_succ. unfold Z.succ.
      rewrite Z.mul_comm. apply Z.mul_div_le, Z.pow_pos_nonneg; lia.
Qed.

Lemma div_loop_inv self other n st :
  u_ok self -> u_ok other -> 0 < val other -> (n <= 256)%nat ->
  div_inv (val self) (val other) n st -> div_inv (val self) (val other) 0 (div_loop self other n st).
Proof.
  intros Hs Ho Hpos. revert st. induction n as [|n IH]; intros st Hn H; [done|].
  cbn [div_loop]. apply IH; [lia|]. apply div_bit_inv; done || lia.
Qed.

Lemma u_div_of_Z a b :
  u_ok a -> u_ok b -> u_div a b = if val b =? 0 then Panic else Done (of_Z (val a / val b)).
Proof.
  intros Ha Hb. pose proof (val_range a Ha). pose proof (val_range b Hb). unfold u_div.
  rewrite is_zero_val, u_lt_val by done. destruct (Z.eqb_spec (val b) 0); [done|].
  destruct (Z.ltb_spec (val a) (val b)) as [Hlt|Hge]; [by rewrite Z.div_small by lia|].
  destruct (bool_decide_reflect (b = U256_ONE)) as [->|Hne].
  { change (val U256_ONE) with 1. rewrite Z.div_1_r. by rewrite of_Z_val. }
  pose proof (div_loop_inv a b 256 (U256_ZERO, U256_ZERO) Ha Hb ltac:(lia) ltac:(lia)) as HI.
  rewrite HI.
  - unfold div_inv. cbn [fst]. change (2 ^ Z.of_nat 0) with 1. by rewrite Z.div_1_r, Z.mul_1_r.
  - unfold div_inv. change (Z.of_nat 256) with 256. rewrite (Z.div_small (val a)) by lia.
    by rewrite Z.div_0_l, Zmod_0_l by lia.
Qed.

Lemma u_ok_from v : in_range U128 v -> u_ok (from_u128 v).
Proof. split; [by apply range128|done]. Qed.

Module U256.

(** Addition, subtraction and both multiplications are arithmetic modulo [2^256], their
    operands of any size, and the derived comparison is the comparison of the numbers. *)
Theorem ring_ops (a b : U256) (v : Z) (Ha : u_ok a) (Hb : u_ok b) (Hv : in_range U128 v) :
  val (u_add a b) = (val a + val b) mod 2 ^ 256 /\ val (u_sub a b) = (val a - val b) mod 2 ^ 256 /\
  val (mul_u128 a v) = (val a * v) mod 2 ^ 256 /\ val (u_mul a b) = (val a * val b) mod 2 ^ 256 /\
  u_lt a b = (val a <? val b) /\ val (from_u128 v) = v.
Proof.
  rewrite u_add_of_Z, u_sub_of_Z, mul_u128_of_Z, u_mul_of_Z, u_lt_val, !val_of_Z by done.
  by repeat split.
Qed.

Lemma ring_ops_witness :
  val (u_mul (mkU256 1 7) (mkU256 (2 ^ 128 - 1) 5)) = ((2 ^ 128 + 7) * ((2 ^ 128 - 1) * 2 ^ 128 + 5)) mod 2 ^ 256.
Proof. apply (ring_ops (mkU256 1 7) (mkU256 (2 ^ 128 - 1) 5) 0); by_eval. Defined.

(** C19: the long division gives the quotient of the numbers for every divisor but zero, on which it
    panics. *)
Theorem div_exact (a b : U256) (Ha : u_ok a) (Hb : u_ok b) :
  if val b =? 0 then u_div a b = Panic
  else exists q, u_div a b = Done q /\ u_ok q /\ val q = val a / val b.
Proof.
  rewrite u_div_of_Z by done. destruct (Z.eqb_spec (val b) 0); [done|].
  eexists. split; [done|]. split; [apply of_Z_ok|]. pose proof (val_range a Ha). pose proof (val_range b Hb).
  apply val_small. split; [apply Z.div_pos; lia|].
  apply Z.le_lt_trans with (val a); [apply Z.div_le_upper_bound; nia|lia].
Qed.

Lemma div_exact_witness :
  exists q, u_div (mkU256 (2 ^ 128 - 1) 5) (mkU256 (2 ^ 127) 3) = Done q /\ u_ok q /\ val q = 1.
Proof. apply (div_exact (mkU256 (2 ^ 128 - 1) 5) (mkU256 (2 ^ 127) 3)); by_eval. Defined.
End U256.
