(* ===== verification/Amm.v ===== *)
(** * amm-virtualizer/src/lib.rs: constant-product and concentrated-liquidity pools

    The discretisation of a Uniswap v2 pool ([v2_populate]) and of a v3 pool ([v3_populate]) into
    the price ladder of OrderBook.v, with the integer square root they use.  Within stated ranges
    of reserves and prices the machine arithmetic of the v2 pool is exact and the ladder reports
    its best levels; the v3 code writes its ask levels past the book's index of the best ask. *)

From S2P Require Import Prelude OrderBook.

(** ** Integer square root *)

(** [while x1 < x0 { x0 = x1; x1 = (x0 + n / x0) / 2; }] *)
Fixpoint sqrt_loop (fuel : nat) (n x0 x1 : Z) : option Z :=
  match fuel with
  | O => None
  | S fuel => if x1 <? x0 then sqrt_loop fuel n x1 ((x1 +[U128] n / x1) / 2) else Some x0
  end.

(** The distance to the root halves at every turn, so 128 turns are enough ([integer_sqrt_exact]). *)
Definition integer_sqrt (n : Z) : option Z :=
  if n =? 0 then Some 0
  else
    let x0 := n / 2 in
    if x0 =? 0 then Some 1 else sqrt_loop 129 n x0 ((x0 +[U128] n / x0) / 2).

(** [10u128.pow(k)] *)
Definition pow10 (k : Z) : Z := wrap U128 (10 ^ k).

(** ** Uniswap v2 *)

Record UniswapV2Pool := mkV2 {
  reserve_base : Z;
  reserve_quote : Z;
  fee_numerator : Z;
  fee_denominator : Z;
  base_decimals : Z;
  quote_decimals : Z;
}.

Definition v2_new (reserve_base reserve_quote fee_bps : Z) : UniswapV2Pool :=
  mkV2 reserve_base reserve_quote (10000 -[U128] fee_bps) 10000 18 6.

Definition v2_spot_price_scaled (p : UniswapV2Pool) : outcome Z :=
  if reserve_base p =? 0 then Done 0
  else
    let! price :=
      if quote_decimals p <=? base_decimals p then
        let diff := pow10 (base_decimals p - quote_decimals p) in
        udiv ((reserve_quote p *[U128] diff) *[U128] 100000000) (reserve_base p)
      else
        let diff := pow10 (quote_decimals p - base_decimals p) in
        udiv (reserve_quote p *[U128] 100000000) (reserve_base p *[U128] diff) in
    Done (wrap I64 price).

(** [target_base = reserve_base * sqrt(spot / target)]; the inner option is the root's fuel. *)
Definition target_base (p : UniswapV2Pool) (spot target : Z) : outcome Z :=
  let! ratio_sq := udiv (wrap U128 spot *[U128] 1000000000000000000) target in
  let ratio := default 0 (integer_sqrt ratio_sq) in
  Done ((reserve_base p *[U128] ratio) / 1000000000).

(** [((delta_base * 10^8) / 10^base_decimals) as u64] *)
Definition qty_scaled (p : UniswapV2Pool) (delta_base : Z) : outcome Z :=
  let! q := udiv (delta_base *[U128] 100000000) (pow10 (base_decimals p)) in
  Done (wrap U64 q).

Definition v2_ask (p : UniswapV2Pool) (spot : Z) (book : ContiguousOrderBook) (bps ts_ns : Z) :
    outcome ContiguousOrderBook :=
  let target_price := spot +[I64] Z.quot (spot *[I64] bps) 10000 in
  let target_price_u128 := wrap U128 target_price in
  if 0 <? target_price_u128 then
    let! tb := target_base p spot target_price_u128 in
    if tb <? reserve_base p then
      let! qty := qty_scaled p (reserve_base p -[U128] tb) in
      Done (update_ask book target_price qty 1 ts_ns)
    else Done book
  else Done book.

Definition v2_bid (p : UniswapV2Pool) (spot : Z) (book : ContiguousOrderBook) (bps ts_ns : Z) :
    outcome ContiguousOrderBook :=
  let target_bid_price := sat I64 (spot - Z.quot (spot *[I64] bps) 10000) in
  if 0 <? target_bid_price then
    let! tb := target_base p spot (wrap U128 target_bid_price) in
    if reserve_base p <? tb then
      let! qty := qty_scaled p (tb -[U128] reserve_base p) in
      Done (update_bid book target_bid_price qty 1 ts_ns)
    else Done book
  else Done book.

Fixpoint v2_bands (p : UniswapV2Pool) (spot : Z) (book : ContiguousOrderBook) (bands_bps : list Z) (ts_ns : Z) :
    outcome ContiguousOrderBook :=
  match bands_bps with
  | [] => Done book
  | bps :: bands_bps =>
      let! book := v2_ask p spot book bps ts_ns in
      let! book := v2_bid p spot book bps ts_ns in
      v2_bands p spot book bands_bps ts_ns
  end.

Definition v2_populate (p : UniswapV2Pool) (book : ContiguousOrderBook) (bands_bps : list Z) (ts_ns : Z) :
    outcome ContiguousOrderBook :=
  let! spot := v2_spot_price_scaled p in
  if spot <=? 0 then Done book else v2_bands p spot book bands_bps ts_ns.

(** ** Concentrated liquidity (Uniswap v3, Raydium CLMM) *)

Record ConcentratedTick := mkTick {
  tick_index : Z;
  liquidity_gross : Z;
  liquidity_net : Z;
}.

Record ConcentratedLiquidityPool := mkCl {
  cl_current_tick : Z;
  cl_sqrt_price_x96 : Z;
  cl_current_liquidity : Z;
  cl_tick_spacing : Z;
}.

Definition cl_new (current_tick sqrt_price_x96 current_liquidity tick_spacing : Z) : ConcentratedLiquidityPool :=
  mkCl current_tick sqrt_price_x96 current_liquidity tick_spacing.

(** The price of a square root in Q64.96, in 10^-8. *)
Definition sqrt_price_scaled (sqrt_price_x96 : Z) : Z :=
  if sqrt_price_x96 =? 0 then 0
  else
    let sp := Z.shiftr sqrt_price_x96 48 in
    let p_num := sp *[U128] sp in
    let p_scaled := Z.shiftr ((Z.shiftr p_num 32 *[U128] 100000000) +[U128] Z.shiftl 1 63) 64 in
    wrap I64 p_scaled.

Definition cl_spot_price_scaled (p : ConcentratedLiquidityPool) : Z := sqrt_price_scaled (cl_sqrt_price_x96 p).

(** [book.asks[idx].price = ..., .quantity = ..., .last_update_ts = ...] where [idx] is the tick of
    the price above the anchor, if it is on the ladder. *)
Definition write_ask (book : ContiguousOrderBook) (price quantity ts_ns : Z) : ContiguousOrderBook :=
  let diff := Z.quot (price -[I64] base_price book) TICK_SIZE in
  if (0 <=? diff) && (wrap USIZE diff <? Z.of_nat PRICE_LEVELS_COUNT) then
    mkBook (bids book)
      (alter (fun lv => mkLevel price quantity (lv_order_count lv) ts_ns) (Z.to_nat (wrap USIZE diff)) (asks book))
      (best_bid_idx book) (best_ask_idx book) (base_price book)
  else book.

(** The net liquidity of a crossed tick, going up and going down. *)
Definition cross_up (liquidity net : Z) : Z :=
  if 0 <=? net then sat U128 (liquidity + wrap U128 net)
  else sat U128 (liquidity - wrap U128 (wrap I128 (- net))).
Definition cross_down (liquidity net : Z) : Z :=
  if 0 <=? net then sat U128 (liquidity - wrap U128 net)
  else sat U128 (liquidity + wrap U128 (wrap I128 (- net))).

Definition cl_ask_step (p : ConcentratedLiquidityPool) (spot ts_ns : Z) (st : ContiguousOrderBook * Z)
    (tick : ConcentratedTick) : ContiguousOrderBook * Z :=
  let (book, active_liquidity) := st in
  let price_step := spot +[I64] ((tick_index tick -[I32] cl_current_tick p) *[I64] 100) in
  let available_qty := wrap U64 (active_liquidity / 1000000000) in
  (write_ask book price_step available_qty ts_ns, cross_up active_liquidity (liquidity_net tick)).

Definition cl_bid_step (p : ConcentratedLiquidityPool) (spot ts_ns : Z) (st : ContiguousOrderBook * Z)
    (tick : ConcentratedTick) : ContiguousOrderBook * Z :=
  let (book, bid_liquidity) := st in
  let price_step := sat I64 (spot - ((cl_current_tick p -[I32] tick_index tick) *[I64] 100)) in
  let book :=
    if 0 <? price_step
    then update_bid book price_step (wrap U64 (bid_liquidity / 1000000000)) 1 ts_ns else book in
  (book, cross_down bid_liquidity (liquidity_net tick)).

Definition cl_populate (p : ConcentratedLiquidityPool) (book : ContiguousOrderBook) (ticks : list ConcentratedTick)
    (ts_ns : Z) : ContiguousOrderBook :=
  let spot := cl_spot_price_scaled p in
  if spot <=? 0 then book
  else
    let '(book, _) := fold_left (cl_ask_step p spot ts_ns)
      (List.filter (fun t => cl_current_tick p <? tick_index t) ticks) (book, cl_current_liquidity p) in
    let '(book, _) := fold_left (cl_bid_step p spot ts_ns)
      (rev (List.filter (fun t => tick_index t <=? cl_current_tick p) ticks)) (book, cl_current_liquidity p) in
    book.

(** ** The Newton iteration *)

Lemma newton_step n x s :
  0 < n < 2 ^ 127 * 2 -> s = Z.sqrt n -> s <= x -> 0 < x -> x + n / x < 2 ^ 128 ->
  let x1 := (x +[U128] n / x) / 2 in s <= x1 /\ (s < x -> 2 * (x1 - s) <= x - s) /\ (x1 <? x) = (s <? x).
Proof.
  intros Hn Hs Hx Hx0 Hb. pose proof (Z.sqrt_spec n ltac:(lia)) as Hsq. rewrite <- Hs in Hsq. cbv zeta in Hsq.
  assert (0 <= s) by (rewrite Hs; apply Z.sqrt_nonneg). pose proof (Z.square_nonneg (x - s)) as Hsqr.
  assert (0 <= n / x) as Hq by (apply Z.div_pos; lia). cbv zeta. rewrite wrap_id by mint.
  assert (2 * s - x <= n / x) by (apply Z.div_le_lower_bound; [lia|]; lia).
  assert (s <= (x + n / x) / 2) as H1 by (apply Z.div_le_lower_bound; lia).
  assert (s < x -> n / x <= s) as H2 by (intros; apply Z.lt_succ_r, Z.div_lt_upper_bound; nia).
  assert (s = x -> s <= n / x) as H3 by (intros <-; apply Z.div_le_lower_bound; lia).
  split; [done|]. split.
  - intros Hlt. specialize (H2 Hlt). pose proof (Z.mul_div_le (x + n / x) 2 ltac:(lia)). lia.
  - destruct (Z.ltb_spec s x) as [Hlt|Hge].
    + apply Z.ltb_lt. apply Z.div_lt_upper_bound; [lia|]. specialize (H2 Hlt). lia.
    + apply Z.ltb_ge. assert (s = x) by lia. subst x. lia.
Qed.

Lemma sqrt_loop_exact fuel n x s :
  0 < n < 2 ^ 127 * 2 -> s = Z.sqrt n -> s <= x -> 0 < s -> x < 2 ^ 127 -> x - s < 2 ^ Z.of_nat fuel ->
  sqrt_loop (S fuel) n x ((x +[U128] n / x) / 2) = Some s.
Proof.
  intros Hn Hs. revert x. induction fuel as [|fuel IH]; intros x Hx Hs0 Hb Hf.
  - change (2 ^ Z.of_nat 0) with 1 in Hf. replace x with s in * by lia.
    assert (n / s < 2 ^ 128 - s).
    { pose proof (Z.sqrt_spec n ltac:(lia)) as [_ H]. rewrite <- Hs in H. apply Z.div_lt_upper_bound; [lia|].
      assert (n <= s * s + 2 * s) by lia. nia. }
    destruct (newton_step n s s Hn Hs ltac:(lia) ltac:(lia) ltac:(lia)) as (_ & _ & E).
    cbn [sqrt_loop]. rewrite E, Z.ltb_irrefl. done.
  - assert (n / x < 2 ^ 127) as Hq.
    { apply Z.div_lt_upper_bound; [lia|]. pose proof (Z.sqrt_spec n ltac:(lia)) as [_ H]. rewrite <- Hs in H.
      assert (n <= s * s + 2 * s) by lia. nia. }
    destruct (newton_step n x s Hn Hs Hx ltac:(lia) ltac:(lia)) as (H1 & H2 & E).
    set (x1 := (x +[U128] n / x) / 2) in *.
    change (sqrt_loop (S (S fuel)) n x x1) with
      (if x1 <? x then sqrt_loop (S fuel) n x1 ((x1 +[U128] n / x1) / 2) else Some x).
    rewrite E. destruct (Z.ltb_spec s x) as [Hlt|Hge]; [|f_equal; lia].
    apply IH; [done|done|lia|]. specialize (H2 Hlt). rewrite Nat2Z.inj_succ, Z.pow_succ_r in Hf by lia. lia.
Qed.

Lemma integer_sqrt_sqrt n : 0 <= n < 2 ^ 128 -> integer_sqrt n = Some (Z.sqrt n).
Proof.
  intros Hn. unfold integer_sqrt. destruct (Z.eqb_spec n 0) as [->|Hn0]; [done|].
  destruct (Z.eqb_spec (n / 2) 0) as [E|E].
  - assert (n = 1) as -> by zdm. done.
  - assert (1 <= n / 2 /\ 2 * (n / 2) <= n <= 2 * (n / 2) + 1) as [Hx1 Hx2] by zdm.
    pose proof (Z.sqrt_spec n ltac:(lia)) as Hsq. cbv zeta in Hsq. pose proof (Z.sqrt_nonneg n). set (s := Z.sqrt n) in *.
    assert (0 < s) by (destruct (Z.eq_dec s 0) as [Hz|]; [rewrite Hz in Hsq; lia|lia]).
    apply sqrt_loop_exact; [lia|done| |done|lia|].
    + destruct (Z.le_gt_cases s (n / 2)); [done|]. exfalso. assert (n / 2 + 1 <= s) by lia.
      assert ((n / 2 + 1) * (n / 2 + 1) <= s * s) by (apply Z.mul_le_mono_nonneg; lia). lia.
    + change (2 ^ Z.of_nat 128) with (2 ^ 128). lia.
Qed.

(** ** The v2 pool in exact arithmetic *)

(** The ask and the bid of a band, if the pool has any depth there. *)
Definition v2_ask_level (R spot bps ts : Z) : option PriceLevel :=
  let price := spot + spot * bps / 10000 in
  let tb := R * Z.sqrt (spot * 10 ^ 18 / price) / 10 ^ 9 in
  if tb <? R then Some (mkLevel price ((R - tb) * 10 ^ 8 / 10 ^ 18) 1 ts) else None.
Definition v2_bid_level (R spot bps ts : Z) : option PriceLevel :=
  let price := spot - spot * bps / 10000 in
  let tb := R * Z.sqrt (spot * 10 ^ 18 / price) / 10 ^ 9 in
  if R <? tb then Some (mkLevel price ((tb - R) * 10 ^ 8 / 10 ^ 18) 1 ts) else None.

Definition opt_update (f : PriceLevel -> book_update) (o : option PriceLevel) : list book_update :=
  match o with Some lv => [f lv] | None => [] end.

Definition v2_updates (R spot : Z) (bands : list Z) (ts : Z) : list book_update :=
  flat_map (fun bps => opt_update UpdAsk (v2_ask_level R spot bps ts) ++
                       opt_update UpdBid (v2_bid_level R spot bps ts)) bands.

(** Ranges in which nothing wraps: up to 4.9e27 wei of base, prices below 1.4e6, bands up to 99%. *)
Definition v2_safe (p : UniswapV2Pool) (spot : Z) (bands : list Z) : Prop :=
  base_decimals p = 18 /\ 0 < reserve_base p < 2 ^ 92 /\ 0 < spot < 2 ^ 47 /\ Forall (fun b => 0 <= b <= 9900) bands.

Lemma sqrt_bound x y : 0 <= y -> x <= y * y -> Z.sqrt x <= y.
Proof.
  intros Hy Hx. destruct (Z.lt_ge_cases x 0) as [Hneg|Hpos]; [by rewrite Z.sqrt_neg|].
  rewrite <- (Z.sqrt_square y) by done. by apply Z.sqrt_le_mono.
Qed.

Lemma target_base_exact p spot price :
  0 < reserve_base p < 2 ^ 92 -> 0 < spot < 2 ^ 47 -> 0 < price < 2 ^ 63 -> spot <= 100 * price ->
  target_base p spot price = Done (reserve_base p * Z.sqrt (spot * 10 ^ 18 / price) / 10 ^ 9) /\
  0 <= reserve_base p * Z.sqrt (spot * 10 ^ 18 / price) / 10 ^ 9 <= 10 * reserve_base p.
Proof.
  intros HR Hs Hp Hle. unfold target_base, udiv. rewrite (wrap_id U128 spot) by mint.
  change (10 ^ 18) with 1000000000000000000. change (10 ^ 9) with 1000000000. rewrite wrap_id by mint.
  rewrite (proj2 (Z.eqb_neq price 0)) by lia. cbn [outcome_bind].
  set (ratio_sq := spot * 1000000000000000000 / price).
  assert (0 <= ratio_sq <= 100000000000000000000) as Hr.
  { unfold ratio_sq. split; [apply Z.div_pos; lia|]. apply Z.div_le_upper_bound; lia. }
  rewrite integer_sqrt_sqrt by lia. cbn [default from_option]. unfold id.
  pose proof (Z.sqrt_nonneg ratio_sq). pose proof (sqrt_bound ratio_sq 10000000000 ltac:(lia) ltac:(lia)).
  set (r := Z.sqrt ratio_sq) in *. assert (0 <= reserve_base p * r <= 10000000000 * reserve_base p) by nia.
  rewrite wrap_id by mint. split; [done|].
  split; [apply Z.div_pos; lia|]. apply Z.div_le_upper_bound; lia.
Qed.

Lemma qty_scaled_exact p d :
  base_decimals p = 18 -> 0 <= d < 2 ^ 96 -> qty_scaled p d = Done (d * 10 ^ 8 / 10 ^ 18).
Proof.
  intros Hd Hb. unfold qty_scaled, udiv, pow10. rewrite Hd. change (10 ^ 8) with 100000000.
  rewrite (wrap_id U128 (d * _)) by mint. change (wrap U128 (10 ^ 18)) with (10 ^ 18).
  change (10 ^ 18) with 1000000000000000000. cbn [Z.eqb outcome_bind].
  rewrite wrap_id by mint. done.
Qed.

Lemma band_bounds spot bps :
  0 < spot < 2 ^ 47 -> 0 <= bps <= 9900 ->
  spot *[I64] bps = spot * bps /\ Z.quot (spot * bps) 10000 = spot * bps / 10000 /\
  0 <= spot * bps / 10000 /\ 100 * (spot - spot * bps / 10000) >= spot /\ spot * bps / 10000 < spot.
Proof.
  intros Hs Hb. assert (0 <= spot * bps <= spot * 9900) by nia.
  rewrite wrap_id by mint. rewrite Z.quot_div_nonneg by lia.
  assert (spot * bps / 10000 <= spot * 9900 / 10000) by (apply Z.div_le_mono; lia).
  split; [done|]. split; [done|]. split; [apply Z.div_pos; lia|]. zdm.
Qed.

Lemma v2_ask_exact p spot book bps ts :
  base_decimals p = 18 -> 0 < reserve_base p < 2 ^ 92 -> 0 < spot < 2 ^ 47 -> 0 <= bps <= 9900 ->
  v2_ask p spot book bps ts =
    Done (fold_left apply_update (opt_update UpdAsk (v2_ask_level (reserve_base p) spot bps ts)) book).
Proof.
  intros Hd HR Hs Hb. destruct (band_bounds spot bps Hs Hb) as (E1 & E2 & H1 & H2 & H3).
  unfold v2_ask, v2_ask_level. rewrite E1, E2. cbv zeta.
  rewrite (wrap_id I64 (spot + _)) by mint. rewrite (wrap_id U128 (spot + _)) by mint.
  rewrite (proj2 (Z.ltb_lt 0 _)) by lia.
  destruct (target_base_exact p spot (spot + spot * bps / 10000) HR Hs ltac:(lia) ltac:(lia)) as [-> Htb].
  cbn [outcome_bind]. set (tb := reserve_base p * _ / _) in *.
  destruct (Z.ltb_spec tb (reserve_base p)) as [Hlt|Hge]; [|done].
  rewrite (wrap_id U128 (reserve_base p - tb)) by mint.
  rewrite qty_scaled_exact by (done || lia). done.
Qed.

Lemma v2_bid_exact p spot book bps ts :
  base_decimals p = 18 -> 0 < reserve_base p < 2 ^ 92 -> 0 < spot < 2 ^ 47 -> 0 <= bps <= 9900 ->
  v2_bid p spot book bps ts =
    Done (fold_left apply_update (opt_update UpdBid (v2_bid_level (reserve_base p) spot bps ts)) book).
Proof.
  intros Hd HR Hs Hb. destruct (band_bounds spot bps Hs Hb) as (E1 & E2 & H1 & H2 & H3).
  unfold v2_bid, v2_bid_level. rewrite E1, E2. cbv zeta.
  replace (sat I64 (spot - spot * bps / 10000)) with (spot - spot * bps / 10000) by mint.
  rewrite (proj2 (Z.ltb_lt 0 _)) by lia. rewrite (wrap_id U128 (spot - _)) by mint.
  destruct (target_base_exact p spot (spot - spot * bps / 10000) HR Hs ltac:(lia) ltac:(lia)) as [-> Htb].
  cbn [outcome_bind]. set (tb := reserve_base p * _ / _) in *.
  destruct (Z.ltb_spec (reserve_base p) tb) as [Hlt|Hge]; [|done].
  rewrite (wrap_id U128 (tb - reserve_base p)) by mint.
  rewrite qty_scaled_exact by (done || lia). done.
Qed.

Lemma v2_bands_exact p spot bands ts book :
  v2_safe p spot bands ->
  v2_bands p spot book bands ts = Done (fold_left apply_update (v2_updates (reserve_base p) spot bands ts) book).
Proof.
  intros (Hd & HR & Hs & Hf). revert book. induction Hf as [|bps bands Hb _ IH]; intros book; [done|].
  cbn [v2_bands v2_updates flat_map]. rewrite v2_ask_exact by done. cbn [outcome_bind].
  rewrite v2_bid_exact by done. cbn [outcome_bind]. rewrite IH, !fold_left_app. done.
Qed.

Lemma v2_levels_ok R spot bands ts :
  0 < R < 2 ^ 92 -> 0 < spot < 2 ^ 47 -> Forall (fun b => 0 <= b <= 9900) bands ->
  Forall (ok_level true spot) (bid_levels (v2_updates R spot bands ts)) /\
  Forall (ok_level false spot) (ask_levels (v2_updates R spot bands ts)).
Proof.
  intros HR Hs Hf. induction Hf as [|bps bands Hb _ [IH1 IH2]]; [done|].
  cbn [v2_updates flat_map]. fold (v2_updates R spot bands ts).
  unfold bid_levels, ask_levels in *. rewrite !omap_app, !Forall_app.
  destruct (band_bounds spot bps Hs Hb) as (_ & _ & H1 & H2 & H3).
  unfold v2_ask_level, v2_bid_level. cbv zeta.
  set (ta := R * Z.sqrt (spot * 10 ^ 18 / (spot + spot * bps / 10000)) / 10 ^ 9).
  set (tb := R * Z.sqrt (spot * 10 ^ 18 / (spot - spot * bps / 10000)) / 10 ^ 9).
  assert (forall d, 0 <= d -> 0 <= d * 10 ^ 8 / 10 ^ 18) as Hq
    by (intros; apply Z.div_pos; [apply Z.mul_nonneg_nonneg|]; done).
  assert (forall b p q, 0 < p < max_int I64 /\ 0 < spot <= max_int I64 -> (if b : bool then p <= spot else spot <= p) ->
    0 <= q -> ok_level b spot (mkLevel p q 1 ts)) as Hok by (intros b p q [? ?] ? ?; unfold ok_level, ok_price; cbn; tauto).
  split; (split; [split|done]); destruct (Z.ltb_spec ta R), (Z.ltb_spec R tb); cbn [opt_update omap list_omap];
    first [apply Forall_nil_2 | apply Forall_singleton; apply Hok; mint_unfold; try lia; apply Hq; lia].
Qed.

(** The spot price when nothing overflows. *)
Lemma v2_spot_exact p :
  base_decimals p = 18 -> quote_decimals p = 6 -> 0 < reserve_base p -> 0 <= reserve_quote p < 2 ^ 61 ->
  reserve_quote p * 10 ^ 20 / reserve_base p < 2 ^ 63 ->
  v2_spot_price_scaled p = Done (reserve_quote p * 10 ^ 20 / reserve_base p).
Proof.
  intros Hb Hq HR HQ Hlt. unfold v2_spot_price_scaled, udiv. rewrite Hb, Hq.
  rewrite (proj2 (Z.eqb_neq _ 0)) by lia. change (6 <=? 18) with true. change (pow10 (18 - 6)) with 1000000000000.
  rewrite (wrap_id U128 (reserve_quote p * _)) by mint. rewrite (wrap_id U128 (_ * 100000000)) by mint.
  cbn [outcome_bind]. replace (reserve_quote p * 1000000000000 * 100000000) with (reserve_quote p * 10 ^ 20) by (cbn; lia).
  assert (0 <= reserve_quote p * 10 ^ 20 / reserve_base p) by (apply Z.div_pos; lia).
  rewrite wrap_id by mint. done.
Qed.

(** ** Walking the ticks *)

(** The bid levels written going down from the current tick. *)
Fixpoint bid_walk (price : ConcentratedTick -> Z) (liquidity ts : Z) (ticks : list ConcentratedTick) : list PriceLevel :=
  match ticks with
  | [] => []
  | t :: ticks =>
      (if 0 <? price t then [mkLevel (price t) (wrap U64 (liquidity / 1000000000)) 1 ts] else []) ++
      bid_walk price (cross_down liquidity (liquidity_net t)) ts ticks
  end.

(** What direct writes to the asks leave alone. *)
Definition same_but_asks (b b' : ContiguousOrderBook) : Prop :=
  bids b' = bids b /\ best_bid_idx b' = best_bid_idx b /\ best_ask_idx b' = best_ask_idx b /\ base_price b' = base_price b.

Lemma write_ask_frame b price qty ts : same_but_asks b (write_ask b price qty ts).
Proof. unfold write_ask. by destruct (_ && _). Qed.

Lemma ask_fold_frame {A} (f : ContiguousOrderBook * Z -> A -> ContiguousOrderBook * Z) l b liq :
  (forall st a, same_but_asks st.1 (f st a).1) -> same_but_asks b (fold_left f l (b, liq)).1.
Proof.
  intros Hf. change b with (b, liq).1 at 1. generalize (b, liq) as st. induction l as [|a l IH]; intros st; [done|].
  cbn [fold_left]. destruct (Hf st a) as (H1 & H2 & H3 & H4). destruct (IH (f st a)) as (H5 & H6 & H7 & H8).
  unfold same_but_asks. by rewrite H5, H6, H7, H8.
Qed.

(** A walk that updates the bids is a run of bid updates. *)
Lemma bid_fold_walk (f : ContiguousOrderBook * Z -> ConcentratedTick -> ContiguousOrderBook * Z) price ts l b liq :
  Forall (fun t => forall b liq, f (b, liq) t =
    (if 0 <? price t then update_bid b (price t) (wrap U64 (liq / 1000000000)) 1 ts else b,
     cross_down liq (liquidity_net t))) l ->
  (fold_left f l (b, liq)).1 = fold_left apply_update (map UpdBid (bid_walk price liq ts l)) b.
Proof.
  intros Hf. revert b liq. induction Hf as [|t l Ht _ IH]; intros b liq; [done|].
  cbn [fold_left bid_walk]. rewrite Ht, map_app, fold_left_app, IH. by destruct (0 <? price t).
Qed.

Lemma bid_levels_map lvs : bid_levels (map UpdBid lvs) = lvs.
Proof. unfold bid_levels. induction lvs as [|lv lvs IH]; [done|]. cbn. f_equal. exact IH. Qed.

Lemma bid_walk_ok price liq ts base l :
  Forall (fun t => price t <= base) l -> 0 < base < max_int I64 ->
  Forall (ok_level true base) (bid_walk price liq ts l).
Proof.
  intros Hf Hb. revert liq. induction Hf as [|t l Ht _ IH]; intros liq; [apply Forall_nil_2|].
  cbn [bid_walk]. apply Forall_app. split; [|apply IH].
  destruct (Z.ltb_spec 0 (price t)); [|apply Forall_nil_2]. apply Forall_singleton.
  pose proof (wrap_range U64 (liq / 1000000000)) as Hr. unfold in_range in Hr. cbn [min_int] in Hr.
  unfold ok_level, ok_price. cbn. lia.
Qed.

(** The bids a fresh book reports after asks were written directly and the bids walked down. *)
Lemma walked_book_best base b1 lvs :
  same_but_asks (book_new base) b1 -> Forall (ok_level true base) lvs ->
  let b := fold_left apply_update (map UpdBid lvs) b1 in
  best_of 1 (tick_map base lvs) (bbo_bid b) /\ best_ask_idx b = best_ask_idx b1 /\ asks b = asks b1.
Proof.
  intros (E1 & E2 & E3 & E4) Hf. cbv zeta. destruct (run_updates_ladders (map UpdBid lvs) b1) as [Eb Ea].
  rewrite bid_levels_map in Eb.
  assert (ask_levels (map UpdBid lvs) = []) as En by (clear; induction lvs; done).
  rewrite En in Ea. cbn [fold_left] in Ea.
  set (b := fold_left apply_update (map UpdBid lvs) b1) in *.
  pose proof (ladder_run_ok 1 0 base true lvs (bid_ladder b1) ltac:(by left) Hf) as Hok.
  assert (bid_ladder b1 = bid_ladder (book_new base)) as El by (unfold bid_ladder; by rewrite E1, E2).
  rewrite El in Hok, Eb. rewrite E4 in Eb. cbn [base_price book_new] in Eb. rewrite <- Eb in Hok.
  specialize (Hok (ladder_new_ok 1 base true 0 ltac:(unfold PRICE_LEVELS_COUNT; lia))).
  split; [exact (top_level_best _ _ _ _ _ Hok)|]. unfold ask_ladder in Ea. by injection Ea.
Qed.

Lemma cl_ask_step_frame p spot ts st t : same_but_asks st.1 (cl_ask_step p spot ts st t).1.
Proof. destruct st. apply write_ask_frame. Qed.

(** Ticks far from the ends of [i32], as those of the protocols are. *)
Definition tick_in_range (t : Z) : Prop := - 2 ^ 30 < t < 2 ^ 30.

Definition cl_bid_price (p : ConcentratedLiquidityPool) (t : ConcentratedTick) : Z :=
  cl_spot_price_scaled p - (cl_current_tick p - tick_index t) * 100.

Lemma cl_bid_step_eq p ts t :
  tick_in_range (tick_index t) -> tick_in_range (cl_current_tick p) -> tick_index t <= cl_current_tick p ->
  0 < cl_spot_price_scaled p < max_int I64 -> forall b liq,
  cl_bid_step p (cl_spot_price_scaled p) ts (b, liq) t =
    (if 0 <? cl_bid_price p t then update_bid b (cl_bid_price p t) (wrap U64 (liq / 1000000000)) 1 ts else b,
     cross_down liq (liquidity_net t)).
Proof.
  unfold tick_in_range. intros H1 H2 H3 H4 b liq. unfold cl_bid_step, cl_bid_price.
  rewrite (wrap_id I32) by mint. rewrite (wrap_id I64) by mint.
  replace (sat I64 _) with (cl_spot_price_scaled p - (cl_current_tick p - tick_index t) * 100) by mint. done.
Qed.

(** ** The spot price of a square root *)

Lemma sqrt_price_exact s :
  0 < s < 2 ^ 112 ->
  sqrt_price_scaled s = ((s / 2 ^ 48) * (s / 2 ^ 48) / 2 ^ 32 * 10 ^ 8 + 2 ^ 63) / 2 ^ 64.
Proof.
  intros Hs. unfold sqrt_price_scaled. rewrite (proj2 (Z.eqb_neq s 0)) by lia. cbv zeta.
  rewrite !Z.shiftr_div_pow2, Z.shiftl_mul_pow2 by lia. rewrite Z.mul_1_l. change (10 ^ 8) with 100000000.
  assert (0 <= s / 2 ^ 48 < 2 ^ 64) as Hsp by (split; [apply Z.div_pos; lia|apply Z.div_lt_upper_bound; lia]).
  set (sp := s / 2 ^ 48) in *. assert (0 <= sp * sp < 2 ^ 128) as Hp by nia. rewrite (wrap_id U128 (sp * sp)) by mint.
  set (q := sp * sp / 2 ^ 32). assert (0 <= q < 2 ^ 96) as Hq
    by (unfold q; split; [apply Z.div_pos; lia|apply Z.div_lt_upper_bound; lia]).
  rewrite (wrap_id U128 (q * _)) by mint. rewrite wrap_id by mint.
  set (r := (q * 100000000 + 2 ^ 63) / 2 ^ 64). assert (0 <= r < 2 ^ 63) as Hr
    by (unfold r; split; [apply Z.div_pos; lia|apply Z.div_lt_upper_bound; lia]).
  rewrite wrap_id by mint. done.
Qed.

Module Amm.

(** C20: the Newton loop ends within 128 turns on every [u128] and returns the integer square root. *)
Theorem integer_sqrt_exact (n : Z) (Hn : in_range U128 n) : integer_sqrt n = Some (Z.sqrt n).
Proof. apply integer_sqrt_sqrt. mint. Qed.

Lemma integer_sqrt_exact_witness : integer_sqrt (2 ^ 128 - 1) = Some (2 ^ 64 - 1).
Proof. apply (integer_sqrt_exact (2 ^ 128 - 1)). by_eval. Defined.

(** C21: for reserves, prices and bands in range, discretising a v2 pool into a fresh book anchored at
    its spot price [quote * 10^20 / base] never overflows or panics: the book holds, for each band,
    the ask (bid) at the spot moved by the band with the base amount
    [R - R sqrt(spot / price)] ([R sqrt(spot / price) - R]) the constant product sells (buys) on the
    way, and reports the best of them. *)
Theorem v2_populate_exact (p : UniswapV2Pool) (bands : list Z) (ts : Z)
    (Hdec : quote_decimals p = 6) (Hquote : 0 <= reserve_quote p < 2 ^ 61)
    (Hsafe : v2_safe p (reserve_quote p * 10 ^ 20 / reserve_base p) bands) :
  let spot := reserve_quote p * 10 ^ 20 / reserve_base p in
  let us := v2_updates (reserve_base p) spot bands ts in
  v2_spot_price_scaled p = Done spot /\
  exists book, v2_populate p (book_new spot) bands ts = Done book /\
    tracks (bids book) (tick_map spot (bid_levels us)) /\ best_of 1 (tick_map spot (bid_levels us)) (bbo_bid book) /\
    tracks (asks book) (tick_map spot (ask_levels us)) /\ best_of (-1) (tick_map spot (ask_levels us)) (bbo_ask book).
Proof.
  cbv zeta. pose proof Hsafe as (Hd & HR & Hs & Hf). set (spot := _ / _) in *.
  assert (v2_spot_price_scaled p = Done spot) as Espot by (apply v2_spot_exact; done || lia).
  split; [done|]. unfold v2_populate. rewrite Espot. cbn [outcome_bind].
  rewrite (proj2 (Z.leb_gt spot 0)) by lia. rewrite v2_bands_exact by done.
  eexists. split; [reflexivity|].
  destruct (v2_levels_ok (reserve_base p) spot bands ts HR Hs Hf) as [Hb Ha].
  exact (updates_best spot true false _ Hb Ha).
Qed.

(** 1000 WETH and 2 million USDC. *)
Definition demo_v2 : UniswapV2Pool := v2_new (1000 * 10 ^ 18) (2000000 * 10 ^ 6) 30.

Lemma v2_populate_exact_witness :
  v2_spot_price_scaled demo_v2 = Done 200000000000 /\
  exists book, v2_populate demo_v2 (book_new 200000000000) [10; 25] 0 = Done book /\
    best_of 1 (tick_map 200000000000 (bid_levels (v2_updates (1000 * 10 ^ 18) 200000000000 [10; 25] 0))) (bbo_bid book).
Proof.
  assert (v2_safe demo_v2 200000000000 [10; 25]) as Hs.
  { split; [done|]. split; [done|]. split; [done|]. repeat constructor; done. }
  destruct (v2_populate_exact demo_v2 [10; 25] 0 eq_refl ltac:(done) Hs) as (H & book & E & _ & Hb & _).
  split; [exact H|]. exists book. split; [exact E|exact Hb].
Defined.

(** For a square root price below [2^112] the spot price is within one unit of [10^-8] of the
    true price [s^2 * 10^8 / 2^192], up to the 48 low bits of [s] that are dropped; at [2^112], a
    price of [2^32], the square overflows and the spot price is 0. *)
Theorem cl_spot_bounds (s : Z) (Hs : 2 ^ 48 <= s < 2 ^ 112) :
  10 ^ 8 * (s - 2 ^ 48) ^ 2 <= 2 ^ 192 * (sqrt_price_scaled s + 1) /\
  2 ^ 192 * (2 * sqrt_price_scaled s - 1) <= 2 * 10 ^ 8 * s ^ 2 /\
  sqrt_price_scaled (2 ^ 112) = 0.
Proof.
  rewrite sqrt_price_exact by lia. rewrite !Z.pow_2_r.
  assert (s - 2 ^ 48 < 2 ^ 48 * (s / 2 ^ 48) <= s) as Hsp
    by (pose proof (Z.div_mod s (2 ^ 48) ltac:(lia)); pose proof (Z.mod_pos_bound s (2 ^ 48) ltac:(lia)); lia).
  set (sp := s / 2 ^ 48) in *. assert (1 <= sp) by lia.
  assert (forall a b, 0 < b -> a - b < b * (a / b) <= a) as Hdiv
    by (intros a b Hb; pose proof (Z.div_mod a b ltac:(lia)); pose proof (Z.mod_pos_bound a b ltac:(lia)); lia).
  pose proof (Hdiv (sp * sp) (2 ^ 32) ltac:(lia)) as Hq. set (q := sp * sp / 2 ^ 32) in *.
  pose proof (Hdiv (q * 10 ^ 8 + 2 ^ 63) (2 ^ 64) ltac:(lia)) as Hr. set (r := _ / 2 ^ 64) in *.
  assert ((s - 2 ^ 48) * (s - 2 ^ 48) <= 2 ^ 96 * (sp * sp) <= s * s) as Hsq.
  { replace (2 ^ 96 * (sp * sp)) with ((2 ^ 48 * sp) * (2 ^ 48 * sp)) by (change (2 ^ 96) with (2 ^ 48 * 2 ^ 48); ring).
    split; apply Z.mul_le_mono_nonneg; lia. }
  split; [lia|]. split; [lia|reflexivity].
Qed.

Lemma cl_spot_bounds_witness :
  10 ^ 8 * (2 ^ 96 - 2 ^ 48) ^ 2 <= 2 ^ 192 * (sqrt_price_scaled (2 ^ 96) + 1).
Proof. apply (cl_spot_bounds (2 ^ 96)). done. Defined.

(** Discretising a v3 pool into a fresh book anchored at or above its spot price makes the book
    report the best of the bid levels of the ticks at and below the current one; the asks are
    written past the book's index of the best ask, which stays at the last slot. *)
Theorem cl_populate_best (p : ConcentratedLiquidityPool) (base ts : Z) (ticks : list ConcentratedTick)
    (Hspot : 0 < cl_spot_price_scaled p <= base) (Hbase : base < max_int I64)
    (Hcur : tick_in_range (cl_current_tick p)) (Hticks : Forall (fun t => tick_in_range (tick_index t)) ticks) :
  let b := cl_populate p (book_new base) ticks ts in
  let lvs := bid_walk (cl_bid_price p) (cl_current_liquidity p) ts
    (rev (List.filter (fun t => tick_index t <=? cl_current_tick p) ticks)) in
  best_of 1 (tick_map base lvs) (bbo_bid b) /\ best_ask_idx b = (PRICE_LEVELS_COUNT - 1)%nat.
Proof.
  cbv zeta. unfold cl_populate. rewrite (proj2 (Z.leb_gt _ 0)) by lia.
  set (l := rev (List.filter (fun t => tick_index t <=? cl_current_tick p) ticks)).
  assert (Forall (fun t => tick_in_range (tick_index t) /\ tick_index t <= cl_current_tick p) l) as Hl.
  { unfold l. apply Forall_rev, List.Forall_forall. intros t [Ht Hle]%List.filter_In.
    rewrite List.Forall_forall in Hticks. split; [by apply Hticks|by apply Z.leb_le]. }
  pose proof (ask_fold_frame (cl_ask_step p (cl_spot_price_scaled p) ts)
    (List.filter (fun t => cl_current_tick p <? tick_index t) ticks) (book_new base) (cl_current_liquidity p)
    (cl_ask_step_frame p _ ts)) as Hframe.
  destruct (fold_left _ _ _) as [b1 liq1]. cbn [fst] in Hframe.
  pose proof (bid_fold_walk (cl_bid_step p (cl_spot_price_scaled p) ts) (cl_bid_price p) ts l b1 (cl_current_liquidity p)) as Hw.
  destruct (fold_left _ _ _) as [b2 liq2]. cbn [fst] in Hw. rewrite Hw.
  - destruct (walked_book_best base b1 (bid_walk (cl_bid_price p) (cl_current_liquidity p) ts l) Hframe) as (Hbest & Hidx & _).
    { apply bid_walk_ok; [|lia]. eapply Forall_impl; [|exact Hl]. intros t [_ Ht]. unfold cl_bid_price. lia. }
    split; [exact Hbest|]. rewrite Hidx. by destruct Hframe as (_ & _ & -> & _).
  - eapply Forall_impl; [|exact Hl]. intros t [Ht Hle]. apply cl_bid_step_eq; done || lia.
Qed.

Definition demo_cl : ConcentratedLiquidityPool := cl_new 100 (2 ^ 96) (5 * 10 ^ 13) 10.
Definition demo_ticks : list ConcentratedTick := [mkTick 90 0 (- 10 ^ 9); mkTick 100 0 (10 ^ 9); mkTick 110 0 5].

(** The book has a live ask and reports none. *)
Lemma cl_populate_best_witness :
  let b := cl_populate demo_cl (book_new 100000000) demo_ticks 0 in
  best_ask_idx b = 2047%nat /\ bbo_ask b = None /\ existsb (fun lv => 0 <? lv_quantity lv) (asks b) = true.
Proof.
  cbv zeta. split; [|split; vm_compute; reflexivity].
  destruct (cl_populate_best demo_cl 100000000 0 demo_ticks) as [_ H]; [by_eval|by_eval|by_eval| |exact H].
  repeat constructor.
Defined.
End Amm.
