(* ===== verification/V4.v ===== *)
(** * amm-virtualizer/src/v4.rs: Uniswap v4 pools with hooks

    The pool key and the permission flags of its hook, the swap fee with its dynamic override and
    hook surcharge, and the discretisation into the price ladder, on the tick walk of Amm.v. *)

From S2P Require Import Prelude Bytes OrderBook Amm.

Definition DYNAMIC_FEE_FLAG : Z := 8388608.

Definition BEFORE_INITIALIZE : Z := Z.shiftl 1 13.
Definition AFTER_INITIALIZE : Z := Z.shiftl 1 12.
Definition BEFORE_ADD_LIQUIDITY : Z := Z.shiftl 1 11.
Definition AFTER_ADD_LIQUIDITY : Z := Z.shiftl 1 10.
Definition BEFORE_REMOVE_LIQUIDITY : Z := Z.shiftl 1 9.
Definition AFTER_REMOVE_LIQUIDITY : Z := Z.shiftl 1 8.
Definition BEFORE_SWAP : Z := Z.shiftl 1 7.
Definition AFTER_SWAP : Z := Z.shiftl 1 6.
Definition BEFORE_DONATE : Z := Z.shiftl 1 5.
Definition AFTER_DONATE : Z := Z.shiftl 1 4.
Definition BEFORE_SWAP_RETURNS_DELTA : Z := Z.shiftl 1 3.
Definition AFTER_SWAP_RETURNS_DELTA : Z := Z.shiftl 1 2.
Definition AFTER_ADD_LIQUIDITY_RETURNS_DELTA : Z := Z.shiftl 1 1.
Definition AFTER_REMOVE_LIQUIDITY_RETURNS_DELTA : Z := Z.shiftl 1 0.

(** The address is 20 bytes long. *)
Definition parse_flags_from_address (address : bytes) : Z :=
  Z.lor (byte_at address 0 <<[U16] 8) (byte_at address 1).

Record PoolKey := mkPoolKey {
  currency0 : bytes;
  currency1 : bytes;
  fee : Z;
  tick_spacing : Z;
  hooks : bytes;
}.

Definition has_dynamic_fee (k : PoolKey) : bool := negb (Z.land (fee k) DYNAMIC_FEE_FLAG =? 0).
Definition hook_flags (k : PoolKey) : Z := parse_flags_from_address (hooks k).
Definition has_hook (k : PoolKey) (flag : Z) : bool := negb (Z.land (hook_flags k) flag =? 0).

Record HookSimulationConfig := mkHookConfig {
  dynamic_fee_override_bps : option Z;
  hook_delta_specified : Z;
  hook_fee_delta_bps : Z;
}.
Definition HookConfig_default : HookSimulationConfig := mkHookConfig None 0 0.

Record UniswapV4Pool := mkV4 {
  v4_key : PoolKey;
  v4_sqrt_price_x96 : Z;
  v4_current_tick : Z;
  v4_current_liquidity : Z;
  v4_hook_config : HookSimulationConfig;
}.

Definition v4_new (key : PoolKey) (sqrt_price_x96 current_tick current_liquidity : Z) : UniswapV4Pool :=
  mkV4 key sqrt_price_x96 current_tick current_liquidity HookConfig_default.

Definition with_hook_config (p : UniswapV4Pool) (config : HookSimulationConfig) : UniswapV4Pool :=
  mkV4 (v4_key p) (v4_sqrt_price_x96 p) (v4_current_tick p) (v4_current_liquidity p) config.

Definition effective_fee_bps (p : UniswapV4Pool) : Z :=
  let base_fee_bps :=
    if has_dynamic_fee (v4_key p) then default 30 (dynamic_fee_override_bps (v4_hook_config p))
    else wrap U16 (fee (v4_key p) / 100) in
  if has_hook (v4_key p) BEFORE_SWAP then
    let adjusted := base_fee_bps +[I32] hook_fee_delta_bps (v4_hook_config p) in
    wrap U16 (Z.min (Z.max adjusted 0) 10000)
  else base_fee_bps.

Definition v4_spot_price_scaled (p : UniswapV4Pool) : Z := sqrt_price_scaled (v4_sqrt_price_x96 p).

Definition v4_ask_step (p : UniswapV4Pool) (spot fee_bps ts_ns : Z) (st : ContiguousOrderBook * Z)
    (tick : ConcentratedTick) : ContiguousOrderBook * Z :=
  let (book, ask_liquidity) := st in
  let tick_distance := tick_index tick -[I32] v4_current_tick p in
  let price_step := spot +[I64] (tick_distance *[I64] 100) in
  let price_with_fee := price_step +[I64] Z.quot (price_step *[I64] fee_bps) 20000 in
  let available_qty := wrap U64 (ask_liquidity / 1000000000) in
  (write_ask book price_with_fee available_qty ts_ns, cross_up ask_liquidity (liquidity_net tick)).

Definition v4_bid_step (p : UniswapV4Pool) (spot fee_bps ts_ns : Z) (st : ContiguousOrderBook * Z)
    (tick : ConcentratedTick) : ContiguousOrderBook * Z :=
  let (book, bid_liquidity) := st in
  let tick_distance := v4_current_tick p -[I32] tick_index tick in
  let price_step := sat I64 (spot - (tick_distance *[I64] 100)) in
  let price_with_fee := sat I64 (price_step - Z.quot (price_step *[I64] fee_bps) 20000) in
  let book :=
    if 0 <? price_with_fee
    then update_bid book price_with_fee (wrap U64 (bid_liquidity / 1000000000)) 1 ts_ns else book in
  (book, cross_down bid_liquidity (liquidity_net tick)).

Definition v4_populate (p : UniswapV4Pool) (book : ContiguousOrderBook) (ticks : list ConcentratedTick) (ts_ns : Z) :
    ContiguousOrderBook :=
  let spot := v4_spot_price_scaled p in
  if spot <=? 0 then book
  else
    let fee_bps := effective_fee_bps p in
    let '(book, _) := fold_left (v4_ask_step p spot fee_bps ts_ns)
      (List.filter (fun t => v4_current_tick p <=? tick_index t) ticks) (book, v4_current_liquidity p) in
    let '(book, _) := fold_left (v4_bid_step p spot fee_bps ts_ns)
      (rev (List.filter (fun t => tick_index t <=? v4_current_tick p) ticks)) (book, v4_current_liquidity p) in
    book.

(** ** The fee *)

(** The values the fields of the Rust types hold. *)
Definition v4_ok (p : UniswapV4Pool) : Prop :=
  in_range U32 (fee (v4_key p)) /\ in_range I16 (hook_fee_delta_bps (v4_hook_config p)) /\
  match dynamic_fee_override_bps (v4_hook_config p) with Some f => in_range U16 f | None => True end.

(** The fee before the hook. *)
Definition base_fee (p : UniswapV4Pool) : Z :=
  if has_dynamic_fee (v4_key p) then default 30 (dynamic_fee_override_bps (v4_hook_config p))
  else fee (v4_key p) / 100 mod 65536.

Lemma base_fee_range p : v4_ok p -> 0 <= base_fee p < 65536.
Proof.
  intros (H1 & H2 & H3). unfold base_fee. destruct (has_dynamic_fee _).
  - destruct (dynamic_fee_override_bps _); cbn in *; mint.
  - apply Z.mod_pos_bound. lia.
Qed.

Lemma effective_fee_eq p :
  v4_ok p ->
  effective_fee_bps p =
    if has_hook (v4_key p) BEFORE_SWAP
    then Z.min (Z.max (base_fee p + hook_fee_delta_bps (v4_hook_config p)) 0) 10000 else base_fee p.
Proof.
  intros Hok. pose proof (base_fee_range p Hok) as Hb. destruct Hok as (H1 & H2 & H3).
  unfold effective_fee_bps. rewrite (wrap_unsigned U16 (fee _ / 100)) by done. change (modulus U16) with 65536. fold (base_fee p).
  destruct (has_hook _ _); [|done]. rewrite (wrap_id I32) by mint. rewrite wrap_id by mint. done.
Qed.

Lemma effective_fee_range p : v4_ok p -> 0 <= effective_fee_bps p < 65536.
Proof.
  intros Hok. rewrite effective_fee_eq by done. pose proof (base_fee_range p Hok). destruct (has_hook _ _); lia.
Qed.

(** ** The ladder *)

Definition v4_bid_price (p : UniswapV4Pool) (t : ConcentratedTick) : Z :=
  let price_step := v4_spot_price_scaled p - (v4_current_tick p - tick_index t) * 100 in
  price_step - Z.quot (price_step * effective_fee_bps p) 20000.
Definition v4_ask_price (p : UniswapV4Pool) (t : ConcentratedTick) : Z :=
  let price_step := v4_spot_price_scaled p + (tick_index t - v4_current_tick p) * 100 in
  price_step + price_step * effective_fee_bps p / 20000.

(** Prices and ticks for which nothing overflows. *)
Definition v4_safe (p : UniswapV4Pool) (t : ConcentratedTick) : Prop :=
  v4_ok p /\ effective_fee_bps p <= 10000 /\ 0 < v4_spot_price_scaled p < 2 ^ 45 /\
  tick_in_range (tick_index t) /\ tick_in_range (v4_current_tick p).

Lemma v4_ask_step_eq p ts t b liq :
  v4_safe p t -> v4_current_tick p <= tick_index t ->
  v4_ask_step p (v4_spot_price_scaled p) (effective_fee_bps p) ts (b, liq) t =
    (write_ask b (v4_ask_price p t) (wrap U64 (liq / 1000000000)) ts, cross_up liq (liquidity_net t)) /\
  v4_spot_price_scaled p <= v4_ask_price p t.
Proof.
  intros (Hok & Hcap & Hs & H1 & H2) Hle. pose proof (effective_fee_range p Hok) as Hf. unfold tick_in_range in *.
  unfold v4_ask_step, v4_ask_price. cbv zeta. rewrite (wrap_id I32) by mint. rewrite (wrap_id I64 (_ * 100)) by mint.
  rewrite (wrap_id I64 (v4_spot_price_scaled p + _)) by mint.
  set (ps := v4_spot_price_scaled p + _). assert (v4_spot_price_scaled p <= ps < 2 ^ 46) as Hps by (unfold ps; lia).
  assert (0 <= ps * effective_fee_bps p < 2 ^ 62) as Hm by nia.
  rewrite (wrap_id I64 (ps * _)) by mint. rewrite Z.quot_div_nonneg by lia.
  assert (0 <= ps * effective_fee_bps p / 20000 < 2 ^ 62) as Hd by zdm.
  rewrite wrap_id by mint. split; [done|lia].
Qed.

Lemma v4_bid_step_eq p ts t :
  v4_safe p t -> tick_index t <= v4_current_tick p -> forall b liq,
  v4_bid_step p (v4_spot_price_scaled p) (effective_fee_bps p) ts (b, liq) t =
    (if 0 <? v4_bid_price p t then update_bid b (v4_bid_price p t) (wrap U64 (liq / 1000000000)) 1 ts else b,
     cross_down liq (liquidity_net t)).
Proof.
  intros (Hok & Hcap & Hs & H1 & H2) Hle b liq. pose proof (effective_fee_range p Hok) as Hf. unfold tick_in_range in *.
  unfold v4_bid_step, v4_bid_price. cbv zeta. rewrite (wrap_id I32) by mint. rewrite (wrap_id I64 (_ * 100)) by mint.
  replace (sat I64 (v4_spot_price_scaled p - (v4_current_tick p - tick_index t) * 100))
    with (v4_spot_price_scaled p - (v4_current_tick p - tick_index t) * 100) by mint.
  set (ps := v4_spot_price_scaled p - _). assert (- 2 ^ 46 < ps < 2 ^ 46) as Hps by (unfold ps; lia).
  assert (- 2 ^ 62 < ps * effective_fee_bps p < 2 ^ 62) as Hm by nia.
  rewrite (wrap_id I64 (ps * _)) by mint.
  replace (sat I64 (ps - Z.quot (ps * effective_fee_bps p) 20000)) with (ps - Z.quot (ps * effective_fee_bps p) 20000);
    [done|].
  assert (- 2 ^ 62 < Z.quot (ps * effective_fee_bps p) 20000 < 2 ^ 62) by zdm. mint.
Qed.

(** A positive bid price is at most the spot: the fee only lowers it. *)
Lemma v4_bid_price_le p t :
  v4_safe p t -> tick_index t <= v4_current_tick p -> 0 < v4_bid_price p t -> v4_bid_price p t <= v4_spot_price_scaled p.
Proof.
  intros (Hok & Hcap & Hs & H1 & H2) Hle. pose proof (effective_fee_range p Hok) as Hf. unfold v4_bid_price. cbv zeta.
  set (ps := v4_spot_price_scaled p - _). assert (ps <= v4_spot_price_scaled p) as Hps by (unfold ps; lia).
  set (f := effective_fee_bps p) in *. intros Hpos.
  assert (0 <= ps); [|assert (0 <= Z.quot (ps * f) 20000) by (apply Z.quot_pos; nia); lia].
  destruct (Z.le_gt_cases 0 ps) as [Hge|Hlt]; [done|]. exfalso.
  pose proof (Z.quot_opp_l (ps * f) 20000 ltac:(lia)) as E. rewrite <- Z.mul_opp_l in E.
  assert (Z.quot (- ps * f) 20000 <= - ps); [|lia].
  rewrite Z.quot_div_nonneg by nia. apply Z.div_le_upper_bound; nia.
Qed.

Definition asks_above (spot : Z) (ls : list PriceLevel) : Prop :=
  forall i lv, ls !! i = Some lv -> live lv -> spot <= lv_price lv.

Lemma write_ask_above spot b price qty ts :
  spot <= price -> asks_above spot (asks b) -> asks_above spot (asks (write_ask b price qty ts)).
Proof.
  intros Hp H. unfold write_ask. destruct (_ && _); [|done]. cbn [asks]. intros i lv Hi Hl.
  revert Hi. destruct (decide (i = Z.to_nat (wrap USIZE (Z.quot (price -[I64] base_price b) TICK_SIZE)))) as [->|Hne].
  - rewrite list_lookup_alter_eq. destruct (asks b !! _); [|done]. cbn. by intros [= <-].
  - rewrite list_lookup_alter_ne by done. intros Hi. by apply (H i).
Qed.

Lemma ask_fold_above p ts l st :
  Forall (fun t => v4_safe p t /\ v4_current_tick p <= tick_index t) l ->
  asks_above (v4_spot_price_scaled p) (asks st.1) ->
  asks_above (v4_spot_price_scaled p)
    (asks (fold_left (v4_ask_step p (v4_spot_price_scaled p) (effective_fee_bps p) ts) l st).1).
Proof.
  intros Hf. revert st. induction Hf as [|t l [Ht Hle] _ IH]; intros [b liq] H; [done|].
  cbn [fold_left]. apply IH. destruct (v4_ask_step_eq p ts t b liq Ht Hle) as [-> Hp]. by apply write_ask_above.
Qed.

Lemma v4_ask_step_frame p spot f ts st t : same_but_asks st.1 (v4_ask_step p spot f ts st t).1.
Proof. destruct st. apply write_ask_frame. Qed.

Lemma filter_safe p (f : ConcentratedTick -> bool) (R : ConcentratedTick -> Prop) ticks :
  (forall t, f t = true -> R t) -> Forall (v4_safe p) ticks -> Forall (fun t => v4_safe p t /\ R t) (List.filter f ticks).
Proof.
  intros Hf Hs. rewrite List.Forall_forall in *. intros t [Ht Hle]%List.filter_In. split; [by apply Hs|by apply Hf].
Qed.

Module V4.

(** The fee is the static one (a hundredth of the key's, modulo 2^16) or, with the dynamic flag,
    the override (30 by default), moved by the hook's surcharge and clamped to 0..10000 exactly when
    the hook has the beforeSwap permission; without it the fee is not capped. *)
Theorem effective_fee_rules (p : UniswapV4Pool) (Hok : v4_ok p) :
  effective_fee_bps p =
    (if has_hook (v4_key p) BEFORE_SWAP
     then Z.min (Z.max (base_fee p + hook_fee_delta_bps (v4_hook_config p)) 0) 10000 else base_fee p) /\
  has_dynamic_fee (v4_key p) = Z.testbit (fee (v4_key p)) 23 /\
  (has_hook (v4_key p) BEFORE_SWAP = true -> 0 <= effective_fee_bps p <= 10000).
Proof.
  rewrite effective_fee_eq by done. split; [done|]. split.
  - unfold has_dynamic_fee. change DYNAMIC_FEE_FLAG with (2 ^ 23). destruct (Z.testbit (fee (v4_key p)) 23) eqn:E.
    + apply negb_true_iff, Z.eqb_neq. intros H. assert (Z.testbit (Z.land (fee (v4_key p)) (2 ^ 23)) 23 = false) as H2
        by (rewrite H; apply Z.testbit_0_l).
      by rewrite Z.land_spec, E, Z.pow2_bits_true in H2.
    + apply negb_false_iff, Z.eqb_eq, Z.bits_inj'. intros i Hi. rewrite Z.land_spec, Z.bits_0.
      destruct (decide (i = 23)) as [->|Hne]; [by rewrite E|]. rewrite Z.pow2_bits_false by lia. by rewrite andb_false_r.
  - intros ->. lia.
Qed.

(** A pool with the dynamic flag and a beforeSwap hook, at price 1. *)
Definition demo_key : PoolKey := mkPoolKey (replicate 20 17) (replicate 20 34) (8388608 + 3000) 60 (0 :: 128 :: replicate 18 0).
Definition demo_pool : UniswapV4Pool :=
  with_hook_config (v4_new demo_key (2 ^ 96) 100 (5 * 10 ^ 13)) (mkHookConfig (Some 12) 0 (-2)).

Lemma demo_pool_ok : v4_ok demo_pool.
Proof. split; [by_eval|split; by_eval]. Qed.

Lemma effective_fee_rules_witness : effective_fee_bps demo_pool = 10 /\ has_dynamic_fee demo_key = true.
Proof.
  destruct (effective_fee_rules demo_pool demo_pool_ok) as (H1 & H2 & _).
  split; [rewrite H1; reflexivity|exact H2].
Defined.

(** Discretising a v4 pool into a fresh book anchored at or above its spot price gives a book that
    is not crossed by the pool: every ask written is at or above the spot, the best bid is at or
    below it, and it is the best of the bid levels of the ticks; the index of the best ask is not
    updated. *)
Theorem populate_not_crossed (p : UniswapV4Pool) (base ts : Z) (ticks : list ConcentratedTick)
    (Hspot : 0 < v4_spot_price_scaled p <= base) (Hbase : base < max_int I64) (Hsafe : Forall (v4_safe p) ticks) :
  let b := v4_populate p (book_new base) ticks ts in
  let lvs := bid_walk (v4_bid_price p) (v4_current_liquidity p) ts
    (rev (List.filter (fun t => tick_index t <=? v4_current_tick p) ticks)) in
  best_of 1 (tick_map base lvs) (bbo_bid b) /\
  (forall lv, bbo_bid b = Some lv -> lv_price lv <= v4_spot_price_scaled p) /\
  asks_above (v4_spot_price_scaled p) (asks b) /\ best_ask_idx b = (PRICE_LEVELS_COUNT - 1)%nat.
Proof.
  cbv zeta. unfold v4_populate. rewrite (proj2 (Z.leb_gt _ 0)) by lia.
  set (l := rev (List.filter (fun t => tick_index t <=? v4_current_tick p) ticks)).
  assert (Forall (fun t => v4_safe p t /\ tick_index t <= v4_current_tick p) l) as Hl
    by (apply Forall_rev, filter_safe; [intros t; apply Z.leb_le|done]).
  set (la := List.filter (fun t => v4_current_tick p <=? tick_index t) ticks).
  pose proof (ask_fold_frame (v4_ask_step p (v4_spot_price_scaled p) (effective_fee_bps p) ts) la (book_new base)
    (v4_current_liquidity p) (v4_ask_step_frame p _ _ ts)) as Hframe.
  pose proof (ask_fold_above p ts la (book_new base, v4_current_liquidity p)
    ltac:(apply filter_safe; [intros t; apply Z.leb_le|done])
    ltac:(intros i lv [-> _]%lookup_replicate Hlv; done)) as Habove.
  destruct (fold_left _ _ _) as [b1 liq1]. cbn [fst] in Hframe, Habove.
  pose proof (bid_fold_walk (v4_bid_step p (v4_spot_price_scaled p) (effective_fee_bps p) ts) (v4_bid_price p) ts l b1
    (v4_current_liquidity p)) as Hw.
  destruct (fold_left _ _ _) as [b2 liq2]. cbn [fst] in Hw. rewrite Hw.
  - assert (forall top, v4_spot_price_scaled p <= top -> top < max_int I64 ->
      Forall (ok_level true top) (bid_walk (v4_bid_price p) (v4_current_liquidity p) ts l)) as Hwalk.
    { intros top Ht1 Ht2. apply bid_walk_ok; [|lia]. eapply Forall_impl; [|exact Hl]. intros t [Ht Hle].
      destruct (Z.lt_ge_cases 0 (v4_bid_price p t)); [|lia]. pose proof (v4_bid_price_le p t Ht Hle). lia. }
    destruct (walked_book_best base b1 _ Hframe (Hwalk base ltac:(lia) ltac:(lia))) as (Hbest & Hidx & Hasks).
    split; [exact Hbest|]. rewrite Hidx, Hasks. split; [|split; [done|by destruct Hframe as (_ & _ & -> & _)]].
    intros lv E. rewrite E in Hbest. destruct Hbest as [[i Hi] _]. apply tick_map_in in Hi.
    pose proof (Hwalk (v4_spot_price_scaled p) ltac:(lia) ltac:(lia)) as Hw2. rewrite List.Forall_forall in Hw2.
    by destruct (Hw2 lv Hi) as [(_ & _ & H) _].
  - eapply Forall_impl; [|exact Hl]. intros t [Ht Hle]. by apply v4_bid_step_eq.
Qed.

Definition demo_ticks : list ConcentratedTick := [mkTick 90 0 (- 10 ^ 9); mkTick 100 0 (10 ^ 9); mkTick 110 0 5].

Lemma populate_not_crossed_witness :
  let b := v4_populate demo_pool (book_new 100000000) demo_ticks 0 in
  asks_above 100000000 (asks b) /\ best_ask_idx b = 2047%nat /\ is_Some (bbo_bid b).
Proof.
  cbv zeta. destruct (populate_not_crossed demo_pool 100000000 0 demo_ticks) as (_ & _ & H1 & H2);
    [by_eval|by_eval| |split; [exact H1|split; [exact H2|vm_compute; eauto]]].
  repeat constructor; by_eval.
Defined.
End V4.
