(* ===== verification/JsonScan.v ===== *)
(** * cefi-ingest/src/lib.rs: the JSON field extractors

    The parsers find a field by searching for the text of its key, then read what follows it.
    [after_key] is the search's specification.  On a flat JSON object, whose names and strings hold
    no quote, the text of a key occurs only at a field of that name ([after_key_flat]), so each
    extractor reads the first field of the name it is given. *)

From S2P Require Import Prelude Bytes Decimal.

(** ** find_subsequence *)

(** The loop from [s] on: [fuel] offsets are left. *)
Fixpoint find_loop (fuel : nat) (haystack needle : bytes) (s : nat) : option nat :=
  match fuel with
  | O => None
  | S fuel =>
      let n := length needle in
      if (byte_at haystack s =? byte_at needle 0) && (byte_at haystack (s + n - 1) =? byte_at needle (n - 1))
         && bool_decide (slice haystack s (s + n) = needle)
      then Some s else find_loop fuel haystack needle (S s)
  end.

Definition find_subsequence (haystack needle : bytes) : option nat :=
  let n := length needle in
  if (n =? 0)%nat || (length haystack <? n)%nat then None
  else find_loop (length haystack - n + 1) haystack needle 0.

(** ** The extractors *)

Fixpoint skip_while (p : Z -> bool) (l : bytes) : bytes :=
  match l with
  | b :: l' => if p b then skip_while p l' else l
  | [] => []
  end.

(** The bytes before the next quote, if there is one. *)
Fixpoint until_quote (l : bytes) : option bytes :=
  match l with
  | [] => None
  | b :: l => if b =? 34 then Some [] else cons b <$> until_quote l
  end.

Definition is_blank (b : Z) : bool := (b =? 32) || (b =? 9).

Definition extract_json_str_field (src key : bytes) : result bytes bytes :=
  match find_subsequence src key with
  | Some pos =>
      let rest := drop (pos + length key) src in
      match skip_while is_blank rest with
      | 34 :: l => match until_quote l with Some v => Ok v | None => Err (lit "Field not found") end
      | _ => Err (lit "Field not found")
      end
  | None => Err (lit "Field not found")
  end.

(** The number and whether a digit was found. *)
Fixpoint read_digits (l : bytes) (num : Z) (found_digit : bool) : Z * bool :=
  match l with
  | b :: l =>
      if (48 <=? b) && (b <=? 57) then read_digits l (num *[U64] 10 +[U64] (b - 48)) true
      else (num, found_digit)
  | [] => (num, found_digit)
  end.

Definition extract_json_int_field (src key : bytes) : option Z :=
  match find_subsequence src key with
  | Some pos =>
      let rest := drop (pos + length key) src in
      let '(num, found_digit) := read_digits (skip_while (fun b => is_blank b || (b =? 34)) rest) 0 false in
      if found_digit then Some num else None
  | None => None
  end.

Definition extract_json_bool_field (src key : bytes) : option bool :=
  match find_subsequence src key with
  | Some pos =>
      let rest := drop (pos + length key) src in
      let v := skip_while is_blank rest in
      if is_prefix (lit "true") v then Some true
      else if is_prefix (lit "false") v then Some false
      else None
  | None => None
  end.

(** ** The search finds the first occurrence *)

(** What follows the first occurrence of [needle]. *)
Fixpoint after_key (needle hay : bytes) : option bytes :=
  if is_prefix needle hay then Some (drop (length needle) hay)
  else match hay with [] => None | _ :: hay => after_key needle hay end.

Lemma is_prefix_spec pat l : is_prefix pat l = true <-> take (length pat) l = pat.
Proof.
  revert l. induction pat as [|p pat IH]; intros [|b l]; cbn; try done.
  rewrite andb_true_iff, Z.eqb_eq, IH. split; [intros [-> ->]; done|intros [= -> E]; by rewrite E].
Qed.

Lemma byte_at_drop l i k : byte_at (drop i l) k = byte_at l (i + k).
Proof. unfold byte_at. apply nth_drop || (rewrite !nth_lookup, lookup_drop; done). Qed.

(** The test of the first and the last byte only saves comparisons. *)
Lemma find_test hay needle s :
  needle <> [] -> (s + length needle <= length hay)%nat ->
  (byte_at hay s =? byte_at needle 0) && (byte_at hay (s + length needle - 1) =? byte_at needle (length needle - 1))
    && bool_decide (slice hay s (s + length needle) = needle) = is_prefix needle (drop s hay).
Proof.
  intros Hne Hlen. assert (0 < length needle)%nat by (destruct needle; [done|cbn; lia]).
  destruct (is_prefix needle (drop s hay)) eqn:E.
  - apply is_prefix_spec in E.
    assert (slice hay s (s + length needle) = needle) as E2
      by (unfold slice; by replace (s + length needle - s)%nat with (length needle) by lia).
    rewrite bool_decide_eq_true_2 by done. rewrite andb_true_r.
    assert (forall k, (k < length needle)%nat -> byte_at hay (s + k) = byte_at needle k) as Hk.
    { intros k Hk. rewrite <- byte_at_drop, <- E at 1. unfold byte_at.
      rewrite E at 1. rewrite <- E. rewrite !nth_lookup, lookup_take_lt by lia. done. }
    rewrite <- (Nat.add_0_r s) at 1. rewrite Hk by lia.
    replace (s + length needle - 1)%nat with (s + (length needle - 1))%nat by lia. rewrite Hk by lia.
    by rewrite !Z.eqb_refl.
  - rewrite bool_decide_eq_false_2; [by rewrite andb_false_r|]. intros E2.
    assert (is_prefix needle (drop s hay) = true); [|congruence]. apply is_prefix_spec.
    unfold slice in E2. by replace (s + length needle - s)%nat with (length needle) in E2 by lia.
Qed.

Lemma after_key_short needle hay : (length hay < length needle)%nat -> after_key needle hay = None.
Proof.
  induction hay as [|b hay IH]; intros H; cbn [after_key].
  - destruct needle; [cbn in H; lia|done].
  - destruct (is_prefix needle (b :: hay)) eqn:E; [|apply IH; cbn in H; lia].
    apply is_prefix_spec in E. apply (f_equal length) in E. rewrite length_take in E. lia.
Qed.

Lemma after_key_cons needle b hay :
  after_key needle (b :: hay) =
    if is_prefix needle (b :: hay) then Some (drop (length needle) (b :: hay)) else after_key needle hay.
Proof. done. Qed.

Lemma find_loop_after fuel hay needle s :
  needle <> [] -> (fuel + s + length needle = length hay + 1)%nat ->
  (fun pos => drop (pos + length needle) hay) <$> find_loop fuel hay needle s = after_key needle (drop s hay).
Proof.
  intros Hne. assert (0 < length needle)%nat by (destruct needle; [done|cbn; lia]).
  revert s. induction fuel as [|fuel IH]; intros s Hf.
  - cbn [find_loop]. rewrite after_key_short; [done|]. rewrite length_drop. lia.
  - cbn [find_loop]. cbv zeta. rewrite find_test by (done || lia).
    assert (s < length hay)%nat as Hs by lia.
    destruct (drop s hay) as [|b l] eqn:Ed; [apply (f_equal length) in Ed; rewrite length_drop in Ed; cbn in Ed; lia|].
    rewrite after_key_cons. destruct (is_prefix needle (b :: l)).
    + cbn. f_equal. rewrite <- Ed, drop_drop. done.
    + rewrite IH by lia. f_equal. rewrite <- Nat.add_1_r, <- drop_drop, Ed. done.
Qed.

(** The result of the search, as what the extractors use of it. *)
Lemma find_subsequence_after hay needle :
  needle <> [] ->
  (fun pos => drop (pos + length needle) hay) <$> find_subsequence hay needle = after_key needle hay.
Proof.
  intros Hne. unfold find_subsequence. destruct needle as [|c needle]; [done|]. cbn [length Nat.eqb orb].
  destruct (Nat.ltb_spec (length hay) (S (length needle))) as [Hlt|Hge].
  - by rewrite after_key_short.
  - rewrite <- (drop_0 hay) at 2. apply find_loop_after; [done|]. cbn [length]. lia.
Qed.

(** ** Flat JSON objects *)

(** A value: a string, or a number or literal. *)
Inductive fvalue := FStr (v : bytes) | FRaw (v : bytes).

Definition field : Type := bytes * fvalue.

Definition value_text (v : fvalue) : bytes := match v with FStr v => 34 :: v ++ [34] | FRaw v => v end.
Definition key_text (name : bytes) : bytes := 34 :: name ++ [34; 58].
Definition field_text (f : field) : bytes := key_text f.1 ++ value_text f.2.

(** The fields after the first one, and the brace. *)
Fixpoint fields_tail (fs : list field) : bytes :=
  match fs with
  | [] => [125]
  | f :: fs => 44 :: field_text f ++ fields_tail fs
  end.

(** [{"name":value,...}] *)
Definition flat_object (fs : list field) : bytes :=
  match fs with
  | [] => [123; 125]
  | f :: fs => 123 :: field_text f ++ fields_tail fs
  end.

Definition no_quote (l : bytes) : Prop := Forall (fun b => b <> 34) l.

Definition field_ok (f : field) : Prop :=
  no_quote f.1 /\ match f.2 with FStr v => no_quote v | FRaw v => no_quote v end.

(** A name to search for: letters, digits and the like. *)
Definition plain_name (l : bytes) : Prop :=
  l <> [] /\ Forall (fun b => b <> 34 /\ b <> 58 /\ b <> 44 /\ b <> 125) l.

#[global] Instance no_quote_dec l : Decision (no_quote l).
Proof. unfold no_quote. apply _. Defined.
#[global] Instance field_ok_dec f : Decision (field_ok f).
Proof. unfold field_ok. destruct f as [n [v|v]]; apply _. Defined.
#[global] Instance plain_name_dec l : Decision (plain_name l).
Proof. unfold plain_name. apply _. Defined.

(** The first field of a name. *)
Fixpoint lookup_field (name : bytes) (fs : list field) : option fvalue :=
  match fs with
  | [] => None
  | f :: fs => if bool_decide (f.1 = name) then Some f.2 else lookup_field name fs
  end.
Fixpoint rest_after (name : bytes) (fs : list field) : list field :=
  match fs with
  | [] => []
  | f :: fs => if bool_decide (f.1 = name) then fs else rest_after name fs
  end.

Lemma plain_no_quote l : plain_name l -> no_quote l.
Proof. intros [_ H]. eapply Forall_impl; [|exact H]. cbn. tauto. Qed.

Lemma quoted_prefix k a r t :
  no_quote k -> no_quote a -> is_prefix (k ++ 34 :: r) (a ++ 34 :: t) = bool_decide (a = k) && is_prefix r t.
Proof.
  intros Hk. revert a. induction Hk as [|c k Hc _ IH]; intros a Ha.
  - destruct Ha as [|b a Hb Ha]; cbn [app is_prefix].
    + rewrite bool_decide_eq_true_2 by done. done.
    + by rewrite (proj2 (Z.eqb_neq 34 b)) by congruence.
  - destruct Ha as [|b a Hb Ha]; cbn [app is_prefix].
    + by rewrite (proj2 (Z.eqb_neq c 34)) by done.
    + rewrite (IH a Ha). destruct (Z.eqb_spec c b) as [->|Hne]; cbn [andb].
      * f_equal. by apply bool_decide_ext; naive_solver.
      * rewrite bool_decide_eq_false_2; [done|congruence].
Qed.

Lemma after_key_skip needle a t :
  no_quote a -> after_key (34 :: needle) (a ++ t) = after_key (34 :: needle) t.
Proof.
  induction 1 as [|b a Hb _ IH]; [done|]. cbn [app]. rewrite after_key_cons. cbn [is_prefix].
  by rewrite (proj2 (Z.eqb_neq 34 b)) by congruence.
Qed.

Lemma after_key_char needle b t : b <> 34 -> after_key (34 :: needle) (b :: t) = after_key (34 :: needle) t.
Proof. intros Hb. exact (after_key_skip needle [b] t ltac:(by repeat constructor)). Qed.

(** A quote that does not start the key. *)
Lemma after_key_quote needle t :
  is_prefix needle t = false -> after_key (34 :: needle) (34 :: t) = after_key (34 :: needle) t.
Proof. intros H. rewrite after_key_cons. cbn [is_prefix Z.eqb Pos.eqb andb]. by rewrite H. Qed.

Lemma plain_prefix_head k r b t :
  plain_name k -> b = 58 \/ b = 44 \/ b = 125 -> is_prefix (k ++ r) (b :: t) = false.
Proof.
  intros [Hne Hk] Hb. destruct k as [|c k]; [done|]. apply Forall_inv in Hk. cbn [app is_prefix].
  rewrite (proj2 (Z.eqb_neq c b)); [done|]. naive_solver.
Qed.

Definition field_end (t : bytes) : Prop := exists b t', t = b :: t' /\ (b = 44 \/ b = 125).

Lemma fields_tail_end fs : field_end (fields_tail fs).
Proof. destruct fs; eexists _, _; (split; [reflexivity|auto]). Qed.

Lemma after_key_field k f t :
  plain_name k -> field_ok f -> field_end t ->
  after_key (key_text k) (field_text f ++ t) =
    if bool_decide (f.1 = k) then Some (value_text f.2 ++ t) else after_key (key_text k) t.
Proof.
  intros Hk [Hn Hv] (b & t' & -> & Hb). destruct f as [n v]. unfold field_text, key_text. cbn [fst snd] in *.
  pose proof (plain_no_quote k Hk) as Hkq.
  replace (((34 :: n ++ [34; 58]) ++ value_text v) ++ b :: t') with (34 :: n ++ 34 :: 58 :: value_text v ++ b :: t')
    by (cbn; by rewrite <- !app_assoc).
  rewrite after_key_cons. cbn [is_prefix Z.eqb Pos.eqb andb]. rewrite quoted_prefix by done.
  cbn [is_prefix Z.eqb Pos.eqb andb]. rewrite andb_true_r.
  destruct (bool_decide_reflect (n = k)) as [->|Hne].
  - f_equal. cbn [length drop]. rewrite length_app. cbn [length].
    replace (k ++ 34 :: 58 :: value_text v ++ b :: t') with ((k ++ [34; 58]) ++ value_text v ++ b :: t')
      by (by rewrite <- app_assoc).
    replace (length k + 2)%nat with (length (k ++ [34; 58])) by (rewrite length_app; done). by rewrite drop_app_length.
  - rewrite (after_key_skip (k ++ [34; 58])) by done.
    rewrite after_key_quote by (apply plain_prefix_head; auto).
    rewrite after_key_char by done.
    destruct v as [v|v]; cbn [value_text] in *; [|by rewrite (after_key_skip (k ++ [34; 58]))].
    cbn [app]. rewrite <- app_assoc. cbn [app].
    rewrite after_key_quote.
    + rewrite (after_key_skip (k ++ [34; 58])) by done. apply after_key_quote, plain_prefix_head; [done|tauto].
    + rewrite quoted_prefix by done. cbn [is_prefix].
      rewrite (proj2 (Z.eqb_neq 58 b)) by lia. by rewrite andb_false_r.
Qed.

Lemma after_key_sep k b t : b <> 34 -> after_key (key_text k) (b :: t) = after_key (key_text k) t.
Proof. exact (after_key_char (k ++ [34; 58]) b t). Qed.

(** On a flat object the search reaches the value of the first field of the name. *)
Lemma after_key_flat k fs :
  plain_name k -> Forall field_ok fs ->
  after_key (key_text k) (flat_object fs) =
    (fun v => value_text v ++ fields_tail (rest_after k fs)) <$> lookup_field k fs.
Proof.
  intros Hk Hf.
  assert (after_key (key_text k) (fields_tail fs) =
    (fun v => value_text v ++ fields_tail (rest_after k fs)) <$> lookup_field k fs) as Htail.
  { induction Hf as [|f fs Hok _ IH]; cbn [fields_tail].
    - by rewrite after_key_sep by done.
    - rewrite after_key_sep by done.
      rewrite (after_key_field k f) by (done || apply fields_tail_end).
      cbn [lookup_field rest_after]. by destruct (bool_decide (f.1 = k)). }
  destruct fs as [|f fs]; [exact Htail|]. cbn [flat_object].
  rewrite after_key_sep by done.
  cbn [fields_tail] in Htail. by rewrite after_key_sep in Htail by done.
Qed.

(** ** What the extractors read from a flat object *)

Definition no_field {A} : result A bytes := Err (lit "Field not found").

Definition str_field (name : bytes) (fs : list field) : result bytes bytes :=
  match lookup_field name fs with Some (FStr v) => Ok v | _ => no_field end.

(** The number at the start of a value, quoted or not. *)
Definition int_text (v : bytes) : option Z :=
  let '(num, found) := read_digits (skip_while (fun b => is_blank b || (b =? 34)) v) 0 false in
  if found : bool then Some num else None.
Definition int_field (name : bytes) (fs : list field) : option Z :=
  match lookup_field name fs with Some (FStr v) | Some (FRaw v) => int_text v | None => None end.

Definition bool_field (name : bytes) (fs : list field) : option bool :=
  match lookup_field name fs with
  | Some (FRaw v) =>
      if is_prefix (lit "true") (skip_while is_blank v) then Some true
      else if is_prefix (lit "false") (skip_while is_blank v) then Some false else None
  | _ => None
  end.

Lemma until_quote_app v t : no_quote v -> until_quote (v ++ 34 :: t) = Some v.
Proof.
  induction 1 as [|b v Hb _ IH]; [done|]. cbn [app until_quote].
  by rewrite (proj2 (Z.eqb_neq b 34)), IH by done.
Qed.

Lemma skip_while_app p v t :
  (forall b t', t = b :: t' -> p b = false) ->
  skip_while p (v ++ t) = skip_while p v ++ t.
Proof.
  intros Ht. induction v as [|b v IH]; cbn [app skip_while].
  - destruct t as [|b t]; [done|]. cbn [skip_while]. by rewrite (Ht b t).
  - by destruct (p b).
Qed.

Lemma read_digits_app v t n f :
  (forall b t', t = b :: t' -> (48 <=? b) && (b <=? 57) = false) -> read_digits (v ++ t) n f = read_digits v n f.
Proof.
  intros Ht. revert n f. induction v as [|b v IH]; intros n f; cbn [app read_digits].
  - destruct t as [|b t]; [done|]. cbn [read_digits]. by rewrite (Ht b t).
  - by destruct (_ && _).
Qed.

Lemma end_not_blank t : field_end t -> forall b t', t = b :: t' -> is_blank b = false.
Proof. intros (b & t' & -> & Hb) b' t'' [= -> ->]. unfold is_blank. by destruct Hb as [-> | ->]. Qed.

Lemma lookup_field_ok k fs v :
  Forall field_ok fs -> lookup_field k fs = Some v -> match v with FStr v => no_quote v | FRaw v => no_quote v end.
Proof.
  induction 1 as [|f fs [_ Hok] _ IH]; [done|]. cbn [lookup_field].
  destruct (bool_decide (f.1 = k)); [by intros [= <-]|apply IH].
Qed.

(** A text in which the search for a name finds its first field of [fs], and what follows it ends a field. *)
Section Found.
Context (src k t : bytes) (fs : list field).
Context (Hend : field_end t) (Hf : Forall field_ok fs).
Context (Hfound : after_key (key_text k) src = (fun v => value_text v ++ t) <$> lookup_field k fs).

Lemma found_drop :
  match find_subsequence src (key_text k), lookup_field k fs with
  | Some pos, Some v => drop (pos + length (key_text k)) src = value_text v ++ t
  | None, None => True
  | _, _ => False
  end.
Proof.
  pose proof (find_subsequence_after src (key_text k) ltac:(done)) as Ha. rewrite Hfound in Ha.
  destruct (find_subsequence _ _), (lookup_field k fs); try discriminate Ha; [by injection Ha|done].
Qed.

Lemma extract_str_found : extract_json_str_field src (key_text k) = str_field k fs.
Proof.
  unfold extract_json_str_field, str_field, no_field. pose proof found_drop as Hd.
  destruct (find_subsequence _ _) as [pos|], (lookup_field k fs) as [v|] eqn:El; try done.
  apply lookup_field_ok in El as Hv; [|done]. rewrite Hd. destruct v as [v|v]; cbn [value_text].
  - cbn [app skip_while]. cbn [is_blank Z.eqb Pos.eqb orb]. rewrite <- app_assoc. cbn [app]. by rewrite until_quote_app.
  - rewrite skip_while_app by (by apply end_not_blank).
    destruct (skip_while is_blank v) as [|b l] eqn:E.
    + destruct Hend as (b & t' & -> & Hb). cbn [app]. by destruct Hb as [-> | ->].
    + cbn [app]. assert (b <> 34) as Hb.
      { clear - Hv E. induction Hv as [|c v Hc _ IH]; [done|]. cbn in E. destruct (is_blank c); [by apply IH|congruence]. }
      destruct (Z.eq_dec b 34); [done|]. by repeat (done || match goal with |- context [match ?x with _ => _ end] => destruct x end).
Qed.

Lemma extract_int_found : extract_json_int_field src (key_text k) = int_field k fs.
Proof.
  unfold extract_json_int_field, int_field, int_text. pose proof found_drop as Hd.
  destruct (find_subsequence _ _) as [pos|], (lookup_field k fs) as [v|]; try done. rewrite Hd.
  destruct Hend as (e & t' & -> & He). set (p := fun b => is_blank b || (b =? 34)).
  assert (p e = false) as Hpe by (destruct He as [-> | ->]; done).
  assert ((48 <=? e) && (e <=? 57) = false) as Hde by (destruct He as [-> | ->]; done).
  destruct v as [v|v]; cbn [value_text].
  - cbn [app skip_while]. change (p 34) with true. cbv iota. rewrite <- app_assoc. cbn [app].
    destruct (skip_while p v) as [|b l] eqn:E.
    + assert (skip_while p (v ++ 34 :: e :: t') = e :: t') as ->.
      { clear - E Hpe. induction v as [|b v IH]; cbn [app skip_while] in *; [by rewrite Hpe|].
        destruct (p b); [by apply IH|done]. }
      cbn [read_digits]. by rewrite Hde.
    + assert (skip_while p (v ++ 34 :: e :: t') = (b :: l) ++ 34 :: e :: t') as ->.
      { clear - E. induction v as [|c v IH]; cbn [app skip_while] in *; [done|].
        destruct (p c); [by apply IH|]. injection E as -> ->. done. }
      rewrite (read_digits_app (b :: l)); [done|]. by intros ? ? [= <- <-].
  - rewrite skip_while_app by (intros ? ? [= <- <-]; done).
    rewrite read_digits_app by (intros ? ? [= <- <-]; done). done.
Qed.

Lemma is_prefix_app_end pat v e t' :
  Forall (fun b => b <> e) pat -> is_prefix pat (v ++ e :: t') = is_prefix pat v.
Proof.
  revert v. induction pat as [|p pat IH]; intros v H; [by destruct v|].
  inversion H; subst. destruct v as [|b v]; cbn [app is_prefix].
  - by rewrite (proj2 (Z.eqb_neq p e)) by done.
  - by rewrite IH.
Qed.

Lemma extract_bool_found : extract_json_bool_field src (key_text k) = bool_field k fs.
Proof.
  unfold extract_json_bool_field, bool_field. pose proof found_drop as Hd.
  destruct (find_subsequence _ _) as [pos|], (lookup_field k fs) as [v|]; try done.
  rewrite Hd. destruct v as [v|v]; cbn [value_text]; [done|].
  rewrite skip_while_app by (by apply end_not_blank). destruct Hend as (e & t' & -> & He).
  rewrite !is_prefix_app_end by (destruct He as [-> | ->]; repeat constructor; done). done.
Qed.
End Found.

Lemma extract_str_flat k fs :
  plain_name k -> Forall field_ok fs -> extract_json_str_field (flat_object fs) (key_text k) = str_field k fs.
Proof. intros. eapply extract_str_found; [apply fields_tail_end|done|by apply after_key_flat]. Qed.

Lemma extract_int_flat k fs :
  plain_name k -> Forall field_ok fs -> extract_json_int_field (flat_object fs) (key_text k) = int_field k fs.
Proof. intros. eapply extract_int_found; [apply fields_tail_end|by apply after_key_flat]. Qed.

Lemma extract_bool_flat k fs :
  plain_name k -> Forall field_ok fs -> extract_json_bool_field (flat_object fs) (key_text k) = bool_field k fs.
Proof. intros. eapply extract_bool_found; [apply fields_tail_end|by apply after_key_flat]. Qed.

(** ** An object whose last field is an object *)

(** Fields, each after a comma. *)
Fixpoint fields_open (fs : list field) : bytes :=
  match fs with [] => [] | f :: fs => 44 :: field_text f ++ fields_open fs end.
(** [{"a":1,...,"name":{"b":2,...}}] *)
Definition nested_object (f : field) (fs : list field) (name : bytes) (inner : list field) : bytes :=
  123 :: field_text f ++ fields_open fs ++ 44 :: key_text name ++ flat_object inner ++ [125].

Lemma after_key_open k fs t : plain_name k -> Forall field_ok fs -> field_end t ->
  exists t', field_end t' /\
    after_key (key_text k) (fields_open fs ++ t) =
      match lookup_field k fs with Some v => Some (value_text v ++ t') | None => after_key (key_text k) t end.
Proof.
  intros Hk Hf Ht. induction Hf as [|f fs Hok _ IH]; cbn [fields_open lookup_field app]; [by exists t|].
  rewrite after_key_sep, <- app_assoc by done.
  assert (field_end (fields_open fs ++ t)) as He by (destruct fs; [done|cbn; eexists _, _; split; [done|by left]]).
  rewrite after_key_field by done. destruct (bool_decide (f.1 = k)); [by exists (fields_open fs ++ t)|done].
Qed.

(** The search passes over the name of an object. *)
Lemma after_key_object k name t b : plain_name k -> no_quote name -> name <> k -> b <> 34 ->
  after_key (key_text k) (key_text name ++ b :: t) = after_key (key_text k) t.
Proof.
  intros Hk Hn Hne Hb. pose proof (plain_no_quote k Hk). unfold key_text. cbn [app]. rewrite <- app_assoc. cbn [app].
  rewrite after_key_cons. cbn [is_prefix Z.eqb Pos.eqb andb]. rewrite quoted_prefix, bool_decide_eq_false_2 by done. cbn [andb].
  rewrite (after_key_skip (k ++ [34; 58])) by done. rewrite after_key_quote by (apply plain_prefix_head; auto).
  by rewrite !(after_key_char (k ++ [34; 58])) by done.
Qed.

Lemma fields_tail_open fs : fields_tail fs = fields_open fs ++ [125].
Proof. induction fs as [|f fs IH]; [done|]. cbn [fields_tail fields_open app]. by rewrite IH, <- app_assoc. Qed.

Lemma lookup_field_app k a b :
  lookup_field k (a ++ b) = match lookup_field k a with Some v => Some v | None => lookup_field k b end.
Proof. induction a as [|f a IH]; [done|]. cbn [app lookup_field]. by destruct (bool_decide (f.1 = k)). Qed.

Lemma after_key_inner k name inner : plain_name k -> no_quote name -> name <> k ->
  after_key (key_text k) (44 :: key_text name ++ flat_object inner ++ [125]) =
  after_key (key_text k) (fields_open inner ++ [125; 125]).
Proof.
  intros Hk Hn Hne. rewrite after_key_sep by done.
  destruct inner as [|f fs]; cbn [flat_object fields_open app]; rewrite after_key_object by done; [done|].
  by rewrite after_key_sep, fields_tail_open, <- !app_assoc by done.
Qed.

(** The fields of the inner object are found after those of the outer one. *)
Lemma after_key_nested k f fs name inner : plain_name k -> Forall field_ok (f :: fs) -> Forall field_ok inner ->
  no_quote name -> name <> k ->
  exists t, field_end t /\
    after_key (key_text k) (nested_object f fs name inner) = (fun v => value_text v ++ t) <$> lookup_field k ((f :: fs) ++ inner).
Proof.
  intros Hk Hfs Hin Hn Hne. set (tail := 44 :: key_text name ++ flat_object inner ++ [125]).
  assert (after_key (key_text k) (nested_object f fs name inner) = after_key (key_text k) (fields_open (f :: fs) ++ tail)) as ->.
  { unfold nested_object. cbn [fields_open app]. by rewrite !after_key_sep, <- app_assoc by done. }
  destruct (after_key_open k (f :: fs) tail Hk Hfs) as (t1 & Ht1 & ->); [by eexists _, _; split; [done|left]|].
  rewrite lookup_field_app. destruct (lookup_field k (f :: fs)) as [v|]; [by exists t1|].
  unfold tail. rewrite after_key_inner by done.
  destruct (after_key_open k inner [125; 125] Hk Hin) as (t2 & Ht2 & ->); [by eexists _, _; split; [done|right]|].
  exists t2. split; [done|]. by destruct (lookup_field k inner).
Qed.

Section Nested.
Context (k : bytes) (f : field) (fs : list field) (name : bytes) (inner : list field).
Context (Hk : plain_name k) (Hf : Forall field_ok ((f :: fs) ++ inner)) (Hn : no_quote name) (Hne : name <> k).

Lemma extract_nested :
  extract_json_str_field (nested_object f fs name inner) (key_text k) = str_field k ((f :: fs) ++ inner) /\
  extract_json_int_field (nested_object f fs name inner) (key_text k) = int_field k ((f :: fs) ++ inner) /\
  extract_json_bool_field (nested_object f fs name inner) (key_text k) = bool_field k ((f :: fs) ++ inner).
Proof.
  apply Forall_app in Hf as Hf'. destruct Hf' as [H1 H2].
  destruct (after_key_nested k f fs name inner Hk H1 H2 Hn Hne) as (t & Ht & E).
  split; [by eapply extract_str_found|]. split; [by eapply extract_int_found|by eapply extract_bool_found].
Qed.
End Nested.

Module JsonScan.

(** On a flat JSON object whose names and strings hold no quote, each extractor, given the text of
    a name, reads exactly the first field of that name: the whole string, the leading number quoted
    or not, or the literal; and fails when there is no such field or it has another form. *)
Theorem extract_flat (name : bytes) (fs : list field) (Hname : plain_name name) (Hfs : Forall field_ok fs) :
  extract_json_str_field (flat_object fs) (key_text name) = str_field name fs /\
  extract_json_int_field (flat_object fs) (key_text name) = int_field name fs /\
  extract_json_bool_field (flat_object fs) (key_text name) = bool_field name fs.
Proof.
  split; [by apply extract_str_flat|]. split; [by apply extract_int_flat|by apply extract_bool_flat].
Qed.

Definition demo_fields : list field :=
  [(lit "s", FStr (lit "m:1,")); (lit "p", FStr (lit "25.35")); (lit "t", FRaw (lit "12345")); (lit "m", FRaw (lit "true"))].

Lemma extract_flat_witness :
  extract_json_str_field (jlit "{'s':'m:1,','p':'25.35','t':12345,'m':true}") (jlit "'p':") = Ok (lit "25.35") /\
  extract_json_int_field (jlit "{'s':'m:1,','p':'25.35','t':12345,'m':true}") (jlit "'t':") = Some 12345 /\
  extract_json_bool_field (jlit "{'s':'m:1,','p':'25.35','t':12345,'m':true}") (jlit "'m':") = Some true.
Proof.
  assert (Forall field_ok demo_fields) as Hf by by_eval.
  split; [exact (proj1 (extract_flat (lit "p") demo_fields ltac:(by_eval) Hf))|].
  split; [exact (proj1 (proj2 (extract_flat (lit "t") demo_fields ltac:(by_eval) Hf)))|].
  exact (proj2 (proj2 (extract_flat (lit "m") demo_fields ltac:(by_eval) Hf))).
Defined.
End JsonScan.
