(* ===== verification/Iso8601.v ===== *)
(** * cefi-ingest/src/lib.rs: [parse_iso8601_utc_ns]

    The timestamp parser with its date arithmetic, against a reference calendar that counts days
    year by year and month by month ([civil_days]). *)

From S2P Require Import Prelude Bytes Decimal.

(** [num]: the digits of [b], or nothing if one of them is not a digit. *)
Fixpoint num_acc (b : bytes) (v : Z) : option Z :=
  match b with
  | [] => Some v
  | c :: b => if negb (is_digit c) then None else num_acc b (v *[U64] 10 +[U64] (c - 48))
  end.
Definition num (b : bytes) : option Z := num_acc b 0.

(** The loop over the fractional digits from [idx] on: the accumulated number, how many digits it
    has, and the text left. *)
Fixpoint frac_loop (rest : bytes) (frac_ns : Z) (digits : nat) : option (Z * nat * bytes) :=
  match rest with
  | [] => Some (frac_ns, digits, [])
  | c :: rest' =>
      if c =? 90 then Some (frac_ns, digits, rest)
      else if (digits <? 9)%nat then
        if (48 <=? c) && (c - 48 <=? 9) then frac_loop rest' (frac_ns *[U64] 10 +[U64] (c - 48)) (S digits) else None
      else if negb (is_digit c) then None
      else frac_loop rest' frac_ns digits
  end.

(** Days since 1970-01-01.  The fields have four and two digits, so no [i64] operation overflows. *)
Definition days_from_civil (y m d : Z) : Z :=
  let y := if m <=? 2 then y - 1 else y in
  let era := Z.quot (if 0 <=? y then y else y - 399) 400 in
  let yoe := y - era * 400 in
  let mp := Z.rem (m + 9) 12 in
  let doy := Z.quot (153 * mp + 2) 5 + d - 1 in
  let doe := yoe * 365 + Z.quot yoe 4 - Z.quot yoe 100 + doy in
  era * 146097 + doe - 719468.

Definition parse_iso8601_utc_ns (s : bytes) : option Z :=
  if (length s <? 20)%nat || negb (byte_at s 4 =? 45) || negb (byte_at s 7 =? 45) || negb (byte_at s 10 =? 84)
     || negb (byte_at s 13 =? 58) || negb (byte_at s 16 =? 58) then None
  else
    let- y := num (slice s 0 4) in
    let- m := num (slice s 5 7) in
    let- d := num (slice s 8 10) in
    let- hh := num (slice s 11 13) in
    let- mm := num (slice s 14 16) in
    let- ss := num (slice s 17 19) in
    if negb ((1 <=? m) && (m <=? 12)) || negb ((1 <=? d) && (d <=? 31)) || (23 <? hh) || (59 <? mm) || (60 <? ss)
    then None
    else
      let- (frac_ns, rest) :=
        if byte_at s 19 =? 46 then
          let- (frac_ns, digits, rest) := frac_loop (drop 20 s) 0 0 in
          Some (Nat.iter (9 - digits) (fun f => f *[U64] 10) frac_ns, rest)
        else Some (0, drop 19 s) in
      if match rest with c :: _ => negb (c =? 90) | [] => true end then None
      else
        let days := days_from_civil y m d in
        if days <? 0 then None
        else
          let secs := wrap U64 days *[U64] 86400 +[U64] hh *[U64] 3600 +[U64] mm *[U64] 60 +[U64] ss in
          Some (secs *[U64] 1000000000 +[U64] frac_ns).

(** ** The reference calendar *)

Definition is_leap (y : Z) : bool := (y mod 4 =? 0) && (negb (y mod 100 =? 0) || (y mod 400 =? 0)).
Definition year_days (y : Z) : Z := if is_leap y then 366 else 365.
Definition month_days (y m : Z) : Z :=
  if m =? 2 then (if is_leap y then 29 else 28)
  else if (m =? 4) || (m =? 6) || (m =? 9) || (m =? 11) then 30 else 31.

(** The days of the [n] years from 1970 on, and of the [n] first months of a year. *)
Fixpoint days_of_years (n : nat) : Z :=
  match n with O => 0 | S n => days_of_years n + year_days (1970 + Z.of_nat n) end.
Fixpoint days_of_months (y : Z) (n : nat) : Z :=
  match n with O => 0 | S n => days_of_months y n + month_days y (1 + Z.of_nat n) end.

Definition civil_days (y m d : Z) : Z :=
  days_of_years (Z.to_nat (y - 1970)) + days_of_months y (Z.to_nat (m - 1)) + (d - 1).

(** Leap years up to [y]. *)
Definition leaps (y : Z) : Z := y / 4 - y / 100 + y / 400.

Lemma leaps_step y : leaps y = leaps (y - 1) + (if is_leap y then 1 else 0).
Proof.
  unfold leaps, is_leap.
  destruct (Z.eqb_spec (y mod 4) 0), (Z.eqb_spec (y mod 100) 0), (Z.eqb_spec (y mod 400) 0); cbn [andb orb negb]; zdm.
Qed.

Lemma days_of_years_eq n : days_of_years n = 365 * Z.of_nat n + leaps (1969 + Z.of_nat n) - leaps 1969.
Proof.
  induction n as [|n IH]; [reflexivity|]. cbn [days_of_years]. rewrite IH, Nat2Z.inj_succ. unfold year_days.
  rewrite (leaps_step (1969 + Z.succ (Z.of_nat n))).
  replace (1969 + Z.succ (Z.of_nat n) - 1) with (1969 + Z.of_nat n) by lia.
  replace (1969 + Z.succ (Z.of_nat n)) with (1970 + Z.of_nat n) by lia. destruct (is_leap _); lia.
Qed.

(** The era arithmetic counts the leap days before March of the year [y]. *)
Lemma era_days y : 0 <= y ->
  Z.quot y 400 * 146097 + ((y - Z.quot y 400 * 400) * 365 + Z.quot (y - Z.quot y 400 * 400) 4 - Z.quot (y - Z.quot y 400 * 400) 100)
  = 365 * y + leaps y.
Proof. intros Hy. unfold leaps. zdm. Qed.

(** The days before a month, counted from March by the formula. *)
Lemma months_before y m :
  1 <= m <= 12 ->
  days_of_months y (Z.to_nat (m - 1)) =
    Z.quot (153 * Z.rem (m + 9) 12 + 2) 5 +
    (if m <=? 2 then -306 else 59 + (if is_leap y then 1 else 0)).
Proof.
  intros Hm.
  assert (m = 1 \/ m = 2 \/ m = 3 \/ m = 4 \/ m = 5 \/ m = 6 \/ m = 7 \/ m = 8 \/ m = 9 \/ m = 10 \/ m = 11 \/ m = 12)
    as Hcases by lia.
  repeat destruct Hcases as [Hcases|Hcases]; subst m; cbv - [is_leap]; destruct (is_leap y); reflexivity.
Qed.

Lemma days_from_civil_eq y m d : 1970 <= y -> 1 <= m <= 12 -> days_from_civil y m d = civil_days y m d.
Proof.
  intros Hy Hm. unfold days_from_civil, civil_days. rewrite days_of_years_eq.
  replace (Z.of_nat (Z.to_nat (y - 1970))) with (y - 1970) by lia.
  replace (1969 + (y - 1970)) with (y - 1) by lia. cbv zeta.
  set (y' := if m <=? 2 then y - 1 else y). assert (0 <= y') as Hy' by (unfold y'; destruct (m <=? 2); lia).
  rewrite (proj2 (Z.leb_le 0 y')) by done. pose proof (era_days y' Hy') as E.
  assert (forall a b c e q r, a * 146097 + (b + c - e) = r -> a * 146097 + (b + c - e + q) - 719468 = r + q - 719468) as Hl by lia.
  rewrite (Hl _ _ _ _ _ _ E). pose proof (leaps_step y) as Hlp. change (leaps 1969) with 477.
  clear Hl E. rewrite (months_before y m Hm). unfold y'. clear y' Hy'.
  destruct (Z.leb_spec m 2) as [Hle|Hgt].
  - lia.
  - rewrite Hlp. destruct (is_leap y); lia.
Qed.

(** ** Timestamps as text *)

Definition frac_text (f : option bytes) : bytes := match f with Some f => 46 :: f | None => [] end.

(** [YYYY-MM-DDTHH:MM:SS[.ffffff]Z], and anything after it. *)
Definition iso_text (y m d hh mm ss : Z) (f : option bytes) (post : bytes) : bytes :=
  digits_pad 4 y ++ 45 :: digits_pad 2 m ++ 45 :: digits_pad 2 d ++ 84 :: digits_pad 2 hh ++ 58 ::
  digits_pad 2 mm ++ 58 :: digits_pad 2 ss ++ frac_text f ++ 90 :: post.

(** The nanoseconds the first nine fractional digits stand for. *)
Definition frac_value (f : option bytes) : Z :=
  match f with Some f => dec (take 9 f) * 10 ^ (9 - Z.of_nat (length (take 9 f))) | None => 0 end.

Lemma num_acc_digits b v :
  all_digits b -> 0 <= v -> dec_acc v b <= max_int U64 -> num_acc b v = Some (dec_acc v b).
Proof.
  intros Hb. revert v. induction Hb as [|c b Hc Hb IH]; intros v Hv Hmax; [done|].
  cbn [num_acc]. rewrite Hc. cbn [negb]. unfold is_digit in Hc. breflect.
  assert (dec_acc v (c :: b) = dec_acc (v * 10 + (c - 48)) b) as E by done. rewrite E in *.
  assert (v * 10 + (c - 48) <= max_int U64).
  { rewrite dec_acc_eq in Hmax. pose proof (dec_nonneg b Hb).
    assert (0 < 10 ^ Z.of_nat (length b)) by (apply Z.pow_pos_nonneg; lia). nia. }
  rewrite (wrap_id U64 (v * 10)), (wrap_id U64 (_ + _)) by mint. apply IH; [lia|done].
Qed.

Lemma num_pad k n : 0 <= n < 10 ^ Z.of_nat k -> (k <= 4)%nat -> num (digits_pad k n) = Some n.
Proof.
  intros Hn Hk. unfold num. assert (10 ^ Z.of_nat k <= 10 ^ 4) by (apply Z.pow_le_mono_r; lia).
  pose proof (dec_pad k n Hn) as E. unfold dec in E.
  rewrite num_acc_digits; [by rewrite E|apply all_digits_pad|lia|rewrite E; mint].
Qed.

Lemma frac_loop_digits l v k post :
  all_digits l -> 0 <= v < 10 ^ Z.of_nat k -> (k <= 9)%nat ->
  frac_loop (l ++ 90 :: post) v k =
    Some (dec_acc v (take (9 - k) l), (k + length (take (9 - k) l))%nat, 90 :: post).
Proof.
  intros Hl. revert v k. induction Hl as [|c l Hc Hl IH]; intros v k Hv Hk; cbn [app frac_loop].
  - rewrite take_nil. cbn. by rewrite Nat.add_0_r.
  - pose proof Hc as Hc'. unfold is_digit in Hc'. breflect.
    rewrite (proj2 (Z.eqb_neq c 90)) by lia.
    destruct (Nat.ltb_spec k 9) as [Hlt|Hge].
    + rewrite (proj2 (Z.leb_le 48 c)), (proj2 (Z.leb_le (c - 48) 9)) by lia. cbn [andb].
      assert (10 ^ Z.of_nat (S k) <= 10 ^ 9) by (apply Z.pow_le_mono_r; lia).
      assert (10 ^ Z.of_nat (S k) = 10 * 10 ^ Z.of_nat k) as E10 by (rewrite Nat2Z.inj_succ, Z.pow_succ_r; lia).
      rewrite (wrap_id U64 (v * 10)), (wrap_id U64 (_ + _)) by mint.
      rewrite IH by lia. replace (9 - k)%nat with (S (9 - S k)) by lia. cbn [take length].
      do 2 f_equal. f_equal. lia.
    + rewrite Hc. cbn [negb]. rewrite IH by lia. replace (9 - k)%nat with 0%nat by lia. done.
Qed.

Lemma iter_mul10_u64 n v :
  0 <= v -> v * 10 ^ Z.of_nat n <= max_int U64 -> Nat.iter n (fun f => f *[U64] 10) v = v * 10 ^ Z.of_nat n.
Proof.
  intros Hv. induction n as [|n IH]; intros Hmax; [cbn; lia|].
  change (Nat.iter (S n) (fun f => f *[U64] 10) v) with (Nat.iter n (fun f => f *[U64] 10) v *[U64] 10).
  rewrite Nat2Z.inj_succ, Z.pow_succ_r in * by lia.
  assert (0 <= v * 10 ^ Z.of_nat n) by (apply Z.mul_nonneg_nonneg; [done|apply Z.pow_nonneg; lia]).
  rewrite IH by lia. rewrite wrap_id by mint. ring.
Qed.

(** The fractional part, from the byte after the seconds. *)
Lemma frac_part f post :
  match f with Some f => all_digits f | None => True end ->
  let tail := frac_text f ++ 90 :: post in
  (if byte_at tail 0 =? 46 then
     let- (frac_ns, digits, rest) := frac_loop (drop 1 tail) 0 0 in
     Some (Nat.iter (9 - digits) (fun f => f *[U64] 10) frac_ns, rest)
   else Some (0, tail)) = Some (frac_value f, 90 :: post) /\ 0 <= frac_value f < 10 ^ 9.
Proof.
  cbv zeta. destruct f as [f|]; intros Hf; cbn [frac_text frac_value app].
  - cbn [byte_at nth Z.eqb Pos.eqb drop]. rewrite drop_0. rewrite frac_loop_digits by (done || lia).
    cbn [opt_bind]. change (9 - 0)%nat with 9%nat. cbn [Nat.add].
    assert (length (take 9 f) <= 9)%nat as Hlen by (rewrite length_take; lia).
    assert (0 <= dec (take 9 f) < 10 ^ Z.of_nat (length (take 9 f))) as Hd by (apply dec_nonneg; by apply Forall_take).
    assert (10 ^ 9 = 10 ^ Z.of_nat (length (take 9 f)) * 10 ^ (9 - Z.of_nat (length (take 9 f)))) as E9
      by (rewrite <- Z.pow_add_r by lia; f_equal; lia).
    assert (0 < 10 ^ (9 - Z.of_nat (length (take 9 f)))) by (apply Z.pow_pos_nonneg; lia).
    assert (0 <= dec (take 9 f) * 10 ^ (9 - Z.of_nat (length (take 9 f))) < 10 ^ 9) as Hv by (rewrite E9; nia).
    split; [|done]. fold (dec (take 9 f)).
    replace (9 - Z.of_nat (length (take 9 f))) with (Z.of_nat (9 - length (take 9 f))) in * by lia.
    rewrite iter_mul10_u64 by (lia || mint). done.
  - done.
Qed.

(** The fixed part of the text, read through the slices of the parser. *)
Lemma iso_fields y m d hh mm ss tail :
  let s := digits_pad 4 y ++ 45 :: digits_pad 2 m ++ 45 :: digits_pad 2 d ++ 84 :: digits_pad 2 hh ++ 58 ::
    digits_pad 2 mm ++ 58 :: digits_pad 2 ss ++ tail in
  (byte_at s 4 = 45 /\ byte_at s 7 = 45 /\ byte_at s 10 = 84 /\ byte_at s 13 = 58 /\ byte_at s 16 = 58) /\
  (slice s 0 4 = digits_pad 4 y /\ slice s 5 7 = digits_pad 2 m /\ slice s 8 10 = digits_pad 2 d /\
   slice s 11 13 = digits_pad 2 hh /\ slice s 14 16 = digits_pad 2 mm /\ slice s 17 19 = digits_pad 2 ss) /\
  drop 19 s = tail /\ length s = (19 + length tail)%nat.
Proof. done. Qed.

Lemma leaps_bound y : y <= 1969 -> leaps y <= 477.
Proof. unfold leaps. intros Hy. zdm. Qed.

(** The date counts as negative before 1970. *)
Lemma days_before_epoch y m d : 0 <= y < 1970 -> 1 <= m <= 12 -> 1 <= d <= 31 -> days_from_civil y m d < 0.
Proof.
  intros Hy Hm Hd. unfold days_from_civil. cbv zeta. set (y' := if m <=? 2 then y - 1 else y).
  assert (0 <= Z.quot (153 * Z.rem (m + 9) 12 + 2) 5 <= (if m <=? 2 then 337 else 275)) as Hq by (destruct (Z.leb_spec m 2); zdm).
  destruct (Z.leb_spec 0 y') as [Hy'|Hy'].
  - pose proof (era_days y' Hy') as E. assert (y' <= (if m <=? 2 then 1968 else 1969)) by (unfold y'; destruct (m <=? 2); lia).
    pose proof (leaps_bound y' ltac:(destruct (m <=? 2); lia)). destruct (m <=? 2); lia.
  - assert (y' = -1) as -> by (unfold y' in *; destruct (m <=? 2); lia).
    change (Z.quot (-1 - 399) 400) with (-1). change (-1 - -1 * 400) with 399.
    change (Z.quot 399 4) with 99. change (Z.quot 399 100) with 3. destruct (m <=? 2); lia.
Qed.

(** The fields the parser takes, and the nanoseconds of a timestamp by the reference calendar. *)
Definition iso_valid (y m d hh mm ss : Z) (f : option bytes) : Prop :=
  0 <= y <= 9999 /\ 1 <= m <= 12 /\ 1 <= d <= 31 /\ 0 <= hh <= 23 /\ 0 <= mm <= 59 /\ 0 <= ss <= 60 /\
  match f with Some f => all_digits f | None => True end.
Definition iso_ns (y m d hh mm ss : Z) (f : option bytes) : Z :=
  (civil_days y m d * 86400 + hh * 3600 + mm * 60 + ss) * 10 ^ 9 + frac_value f.

Lemma civil_days_bound y m d : 1970 <= y -> 1 <= m <= 12 -> 1 <= d <= 31 ->
  0 <= civil_days y m d <= 366 * (y - 1969) /\ (y <= 2553 -> civil_days y m d <= 213500).
Proof.
  intros Hy Hm Hd. unfold civil_days. rewrite days_of_years_eq. replace (Z.of_nat (Z.to_nat (y - 1970))) with (y - 1970) by lia.
  rewrite (months_before y m Hm). change (leaps 1969) with 477. unfold leaps. 
  destruct (Z.leb_spec m 2), (is_leap y); zdm.
Qed.

Lemma iso_parse y m d hh mm ss f post :
  iso_valid y m d hh mm ss f ->
  parse_iso8601_utc_ns (iso_text y m d hh mm ss f post) =
    if y <? 1970 then None else Some (wrap U64 (iso_ns y m d hh mm ss f)).
Proof.
  intros (Hy & Hm & Hd & Hh & Hmm & Hs & Hf). unfold iso_text.
  pose proof (iso_fields y m d hh mm ss (frac_text f ++ 90 :: post)) as Hx. cbv zeta in Hx.
  set (s := digits_pad 4 y ++ _) in *. destruct Hx as ((B4 & B7 & B10 & B13 & B16) & (S0 & S5 & S8 & S11 & S14 & S17) & Hdrop & Hlen).
  unfold parse_iso8601_utc_ns. rewrite B4, B7, B10, B13, B16, S0, S5, S8, S11, S14, S17.
  assert (1 <= length (frac_text f ++ 90%Z :: post))%nat by (rewrite length_app; cbn; lia).
  rewrite (proj2 (Nat.ltb_ge (length s) 20)) by lia. cbn [Z.eqb Pos.eqb negb orb].
  rewrite !num_pad by lia. cbn [opt_bind].
  rewrite (proj2 (Z.leb_le 1 m)), (proj2 (Z.leb_le m 12)), (proj2 (Z.leb_le 1 d)), (proj2 (Z.leb_le d 31)),
    (proj2 (Z.ltb_ge 23 hh)), (proj2 (Z.ltb_ge 59 mm)), (proj2 (Z.ltb_ge 60 ss)) by lia. cbn [negb andb orb].
  replace (byte_at s 19) with (byte_at (drop 19 s) 0)
    by (unfold byte_at; rewrite !nth_lookup, lookup_drop; done).
  replace (drop 20 s) with (drop 1 (drop 19 s)) by (by rewrite drop_drop). rewrite Hdrop.
  destruct (frac_part f post Hf) as [-> Hfr]. cbn [opt_bind].
  change (negb (90 =? 90)) with false. cbv iota. destruct (Z.ltb_spec y 1970).
  { by rewrite (proj2 (Z.ltb_lt _ 0)) by (apply days_before_epoch; lia). }
  rewrite days_from_civil_eq by lia. destruct (civil_days_bound y m d ltac:(lia) Hm Hd) as [Hdays _]. unfold iso_ns.
  set (D := civil_days y m d) in *.
  rewrite (proj2 (Z.ltb_ge D 0)) by lia. cbv zeta. change (10 ^ 9) with 1000000000 in *.
  rewrite (wrap_id U64 D), (wrap_id U64 (D * 86400)), (wrap_id U64 (hh * 3600)), (wrap_id U64 (mm * 60)) by mint.
  rewrite (wrap_id U64 (D * 86400 + _)), (wrap_id U64 (_ + mm * 60)), (wrap_id U64 (_ + ss)) by mint.
  by rewrite wrap_add_l.
Qed.

(** *** What is parsed has the shape *)

Lemma num_acc_some l v n : num_acc l v = Some n -> all_digits l.
Proof.
  revert v. induction l as [|c l IH]; intros v; cbn [num_acc]; [constructor|].
  destruct (is_digit c) eqn:E; [|done]. cbn [negb]. intros H. constructor; [done|]. by eapply IH.
Qed.

(** Digits are the text of the number they stand for. *)
Lemma digits_pad_dec l : all_digits l -> l = digits_pad (length l) (dec l).
Proof.
  induction l as [|b l IH] using rev_ind; [done|]. intros [Hl Hb]%all_digits_app. apply Forall_cons_1 in Hb as [Hb _].
  unfold is_digit in Hb. breflect. rewrite length_app, Nat.add_comm, dec_app. cbn [length Nat.add digits_pad].
  change (10 ^ Z.of_nat 1) with 10. change (dec [b]) with (0 * 10 + (b - 48)).
  assert ((dec l * 10 + (0 * 10 + (b - 48))) / 10 = dec l) as -> by zdm.
  assert ((dec l * 10 + (0 * 10 + (b - 48))) mod 10 = b - 48) as -> by zdm.
  rewrite <- IH by done. do 2 f_equal. lia.
Qed.

Lemma num_some l n : num l = Some n -> (length l <= 4)%nat -> 0 <= n < 10 ^ Z.of_nat (length l) /\ l = digits_pad (length l) n.
Proof.
  intros H Hl. pose proof (num_acc_some _ _ _ H) as Hd. pose proof (digits_pad_dec l Hd) as E. pose proof (dec_nonneg l Hd) as Hb.
  rewrite E in H. rewrite num_pad in H by done. injection H as <-. done.
Qed.

Lemma frac_loop_some l : forall v k fr dg post,
  frac_loop l v k = Some (fr, dg, 90 :: post) -> exists f, all_digits f /\ l = f ++ 90 :: post.
Proof.
  induction l as [|c l IH]; intros v k fr dg post; cbn [frac_loop]; [done|].
  destruct (Z.eqb_spec c 90) as [->|Hc]; [intros [= _ _ <-]; exists []; split; [constructor|done]|].
  assert (forall v' k', is_digit c = true -> frac_loop l v' k' = Some (fr, dg, 90 :: post) ->
    exists f, all_digits f /\ c :: l = f ++ 90 :: post) as Hs.
  { intros v' k' Hd H. destruct (IH _ _ _ _ _ H) as (f & Hf & ->). exists (c :: f). split; [by constructor|done]. }
  destruct (k <? 9)%nat.
  - destruct ((48 <=? c) && (c - 48 <=? 9)) eqn:E; [|done]. apply Hs. unfold is_digit. breflect. lia.
  - destruct (is_digit c) eqn:E; [|done]. by apply Hs.
Qed.

(** The bytes of a text of at least twenty. *)
Lemma twenty_bytes (s : bytes) : (20 <= length s)%nat ->
  s = slice s 0 4 ++ byte_at s 4 :: slice s 5 7 ++ byte_at s 7 :: slice s 8 10 ++ byte_at s 10 :: slice s 11 13 ++
    byte_at s 13 :: slice s 14 16 ++ byte_at s 16 :: slice s 17 19 ++ drop 19 s /\
  length (slice s 0 4) = 4%nat /\ Forall (fun l => length l = 2%nat)
    [slice s 5 7; slice s 8 10; slice s 11 13; slice s 14 16; slice s 17 19] /\
  byte_at s 19 = byte_at (drop 19 s) 0 /\ drop 20 s = drop 1 (drop 19 s).
Proof.
  intros H. do 20 (destruct s as [|? s]; [cbn in H; lia|]). split; [done|]. split; [done|]. split; [by repeat constructor|done].
Qed.

Lemma iso_shape s t : parse_iso8601_utc_ns s = Some t ->
  exists y m d hh mm ss f post, iso_valid y m d hh mm ss f /\ s = iso_text y m d hh mm ss f post.
Proof.
  unfold parse_iso8601_utc_ns. destruct (_ || _) eqn:Eg; [done|].
  repeat (apply orb_false_iff in Eg as [Eg ?]). apply Nat.ltb_ge in Eg. breflect.
  destruct (twenty_bytes s ltac:(lia)) as (Es & HL4 & HL2 & E19 & E20). rewrite E19, E20.
  repeat (apply Forall_cons_1 in HL2 as [? HL2]).
  destruct (num (slice s 0 4)) as [y|] eqn:Ey; [|done]. destruct (num (slice s 5 7)) as [m|] eqn:Em; [|done].
  destruct (num (slice s 8 10)) as [d|] eqn:Ed; [|done]. destruct (num (slice s 11 13)) as [hh|] eqn:Eh; [|done].
  destruct (num (slice s 14 16)) as [mm|] eqn:Emm; [|done]. destruct (num (slice s 17 19)) as [ss|] eqn:Ess; [|done].
  apply num_some in Ey as [Ry Ey], Em as [Rm Em], Ed as [Rd Ed], Eh as [Rh Eh], Emm as [Rmm Emm], Ess as [Rss Ess]; try lia.
  cbn [opt_bind]. destruct (_ || _) eqn:Er; [done|]. repeat (apply orb_false_iff in Er as [Er ?]). 
  intros Ht. assert (exists f post, match f with Some f => all_digits f | None => True end /\ drop 19 s = frac_text f ++ 90 :: post)
    as (f & post & Hf & Etail).
  { revert Ht. generalize (drop 19 s). intros tail Ht. destruct (Z.eqb_spec (byte_at tail 0) 46) as [E46|_].
    - destruct tail as [|c tail]; [done|]. cbn in E46. subst c. cbn [drop] in Ht. rewrite drop_0 in Ht.
      destruct (frac_loop tail 0 0) as [[[fr dg] [|c rest]]|] eqn:Ef; cbn [opt_bind] in Ht; try done.
      destruct (Z.eqb_spec c 90) as [->|]; [|done]. apply frac_loop_some in Ef as (f & Hf & ->). by exists (Some f), rest.
    - cbn [opt_bind] in Ht. destruct tail as [|c tail]; [done|]. destruct (Z.eqb_spec c 90) as [->|]; [|done]. by exists None, tail. }
  exists y, m, d, hh, mm, ss, f, post. split.
  - unfold iso_valid. breflect. rewrite HL4 in Ry. change (10 ^ Z.of_nat 4) with 10000 in Ry. repeat split; first [done|lia].
  - rewrite Es, Etail. unfold iso_text. congruence.
Qed.

Module Iso8601.

(** C23: exactly the texts [YYYY-MM-DDTHH:MM:SS[.ffffff]Z], followed by anything, of the years 1970 to 9999 with valid fields are parsed,
    a day up to 31 in every month and a leap second included; and the result is the nanoseconds since the
    epoch by the reference calendar, the days counted year by year and month by month, in 64 bits: exactly that
    number up to the year 2553.  Fractional digits after the ninth are dropped. *)
Theorem parse_iso_text (s : bytes) :
  (forall t, parse_iso8601_utc_ns s = Some t <->
     exists y m d hh mm ss f post, iso_valid y m d hh mm ss f /\ 1970 <= y /\ s = iso_text y m d hh mm ss f post /\
       t = wrap U64 (iso_ns y m d hh mm ss f)) /\
  (forall y m d hh mm ss f post, iso_valid y m d hh mm ss f -> 1970 <= y <= 2553 -> s = iso_text y m d hh mm ss f post ->
     parse_iso8601_utc_ns s = Some (iso_ns y m d hh mm ss f)).
Proof.
  split.
  - intros t. split.
    + intros Ht. destruct (iso_shape s t Ht) as (y & m & d & hh & mm & ss & f & post & Hv & ->). exists y, m, d, hh, mm, ss, f, post.
      rewrite (iso_parse _ _ _ _ _ _ _ post Hv) in Ht. destruct (Z.ltb_spec y 1970); [done|]. by injection Ht as <-.
    + intros (y & m & d & hh & mm & ss & f & post & Hv & Hy & -> & ->). rewrite (iso_parse _ _ _ _ _ _ _ post Hv).
      by rewrite (proj2 (Z.ltb_ge y 1970)).
  - intros y m d hh mm ss f post Hv Hy ->. rewrite (iso_parse _ _ _ _ _ _ _ post Hv), (proj2 (Z.ltb_ge y 1970)) by lia.
    f_equal. apply wrap_id. destruct Hv as (_ & Hm & Hd & Hh & Hmm & Hs & Hf). destruct (civil_days_bound y m d ltac:(lia) Hm Hd) as [Hdays Hmax]. specialize (Hmax ltac:(lia)).
    destruct (frac_part f post Hf) as [_ Hfr]. unfold iso_ns. change (10 ^ 9) with 1000000000 in *. mint.
Qed.

Lemma parse_iso_text_witness :
  parse_iso8601_utc_ns (lit "2024-02-29T12:00:01.041089Z") = Some 1709208001041089000.
Proof.
  apply (proj2 (parse_iso_text (lit "2024-02-29T12:00:01.041089Z")) 2024 2 29 12 0 1 (Some (lit "041089")) []);
    [|lia|reflexivity]. unfold iso_valid. repeat split; first [lia|by_eval].
Defined.

(** The comment of the parser promises [None] for anything that is not a timestamp; text after the Z and days a month does
    not have are accepted. *)
Theorem loose_shape_accepted :
  parse_iso8601_utc_ns (lit "2023-01-01T00:00:00Z and more") = Some 1672531200000000000 /\
  parse_iso8601_utc_ns (lit "2023-02-31T00:00:00Z") = parse_iso8601_utc_ns (lit "2023-03-03T00:00:00Z").
Proof. vm_compute. done. Qed.
End Iso8601.
