(* ===== verification/FeedParser.v ===== *)
(** * cefi-ingest/src/lib.rs: [CefiParser]

    The venue parsers, from the bytes of a message to a normalized record, on the extractors of
    JsonScan.v, the decimal parser of FixedPoint.v and the timestamps of Iso8601.v.  On a flat JSON
    object each parser is a function of the object's fields ([coinbase_bbo_spec] and the others):
    the order of the fields and the fields it does not name do not matter. *)

From S2P Require Import Prelude Bytes Models FixedPoint JsonScan Iso8601.

Definition ok_or {A} (o : option A) (e : bytes) : result A bytes :=
  match o with Some a => Ok a | None => Err e end.

(** The spread in basis points of two prices, as all the quote parsers compute it. *)
Definition spread_of (ap bp : Z) : Z :=
  if (bp <? ap) && (0 <? bp) then wrap U16 (Z.quot ((ap -[I64] bp) *[I64] 10000) bp) else 0.

Definition parse_binance_bbo (market_id : Z) (payload : bytes) (t1_ingest_ns : Z) : result NormalizedBbo bytes :=
  let? bid_price := extract_json_str_field payload (jlit "'b':") in
  let? bid_qty := extract_json_str_field payload (jlit "'B':") in
  let? ask_price := extract_json_str_field payload (jlit "'a':") in
  let? ask_qty := extract_json_str_field payload (jlit "'A':") in
  let event_time := default 0 (extract_json_int_field payload (jlit "'E':")) in
  let seq := default 0 (extract_json_int_field payload (jlit "'u':")) in
  let bp := parse_fixed_point_8 bid_price in
  let bq := wrap U64 (parse_fixed_point_8 bid_qty) in
  let ap := parse_fixed_point_8 ask_price in
  let aq := wrap U64 (parse_fixed_point_8 ask_qty) in
  Ok (mkBbo (mkTelemetry (event_time *[U64] 1000000) t1_ingest_ns 0 0) market_id (VenueId_code Binance)
    (ChainId_code OffChain) seq bp bq ap aq (spread_of ap bp) 0).

Definition parse_binance_trade (market_id : Z) (payload : bytes) (t1_ingest_ns : Z) : result UnifiedTrade bytes :=
  let trade_time := default 0 (extract_json_int_field payload (jlit "'T':")) in
  let trade_id := default 0 (extract_json_int_field payload (jlit "'t':")) in
  let? price_bytes := extract_json_str_field payload (jlit "'p':") in
  let? qty_bytes := extract_json_str_field payload (jlit "'q':") in
  let is_buyer_maker := default false (extract_json_bool_field payload (jlit "'m':")) in
  let price := parse_fixed_point_8 price_bytes in
  let size := wrap U64 (parse_fixed_point_8 qty_bytes) in
  let side := if is_buyer_maker : bool then 2 else 1 in
  Ok (mkTrade (mkTelemetry (trade_time *[U64] 1000000) t1_ingest_ns 0 0) market_id (VenueId_code Binance)
    (ChainId_code OffChain) trade_id trade_id price size side false).

Definition parse_okx_bbo (market_id : Z) (payload : bytes) (t1_ingest_ns : Z) : result NormalizedBbo bytes :=
  let? bid_price := extract_json_str_field payload (jlit "'bidPx':") in
  let? bid_qty := extract_json_str_field payload (jlit "'bidSz':") in
  let? ask_price := extract_json_str_field payload (jlit "'askPx':") in
  let? ask_qty := extract_json_str_field payload (jlit "'askSz':") in
  let ts_ms := match extract_json_str_field payload (jlit "'ts':") with Ok v => v | Err _ => lit "0" end in
  let event_time := wrap U64 (parse_fixed_point_8 ts_ms) / 100000000 in
  let bp := parse_fixed_point_8 bid_price in
  let bq := wrap U64 (parse_fixed_point_8 bid_qty) in
  let ap := parse_fixed_point_8 ask_price in
  let aq := wrap U64 (parse_fixed_point_8 ask_qty) in
  Ok (mkBbo (mkTelemetry (event_time *[U64] 1000000) t1_ingest_ns 0 0) market_id (VenueId_code Okx)
    (ChainId_code OffChain) event_time bp bq ap aq (spread_of ap bp) 0).

(** [extract(...).ok().and_then(parse_iso8601_utc_ns).unwrap_or(0)] *)
Definition time_of (r : result bytes bytes) : Z :=
  match r with Ok v => default 0 (parse_iso8601_utc_ns v) | Err _ => 0 end.

Definition parse_coinbase_ticker_bbo (market_id : Z) (payload : bytes) (t1_ingest_ns : Z) : result NormalizedBbo bytes :=
  let? bid_price := extract_json_str_field payload (jlit "'best_bid':") in
  let? bid_qty := extract_json_str_field payload (jlit "'best_bid_size':") in
  let? ask_price := extract_json_str_field payload (jlit "'best_ask':") in
  let? ask_qty := extract_json_str_field payload (jlit "'best_ask_size':") in
  let? seq := ok_or (extract_json_int_field payload (jlit "'sequence':")) (lit "sequence missing") in
  let t0 := time_of (extract_json_str_field payload (jlit "'time':")) in
  let bp := parse_fixed_point_8 bid_price in
  let bq := wrap U64 (parse_fixed_point_8 bid_qty) in
  let ap := parse_fixed_point_8 ask_price in
  let aq := wrap U64 (parse_fixed_point_8 ask_qty) in
  Ok (mkBbo (mkTelemetry t0 t1_ingest_ns 0 0) market_id (VenueId_code Coinbase)
    (ChainId_code OffChain) seq bp bq ap aq (spread_of ap bp) 0).

Definition parse_coinbase_ticker_trade (market_id : Z) (payload : bytes) (t1_ingest_ns : Z) : result UnifiedTrade bytes :=
  let? price := extract_json_str_field payload (jlit "'price':") in
  let? size := extract_json_str_field payload (jlit "'last_size':") in
  let? side := extract_json_str_field payload (jlit "'side':") in
  let? trade_id := ok_or (extract_json_int_field payload (jlit "'trade_id':")) (lit "trade_id missing") in
  let seq := default 0 (extract_json_int_field payload (jlit "'sequence':")) in
  let t0 := time_of (extract_json_str_field payload (jlit "'time':")) in
  Ok (mkTrade (mkTelemetry t0 t1_ingest_ns 0 0) market_id (VenueId_code Coinbase) (ChainId_code OffChain)
    seq trade_id (parse_fixed_point_8 price) (wrap U64 (parse_fixed_point_8 size))
    (if bool_decide (side = lit "sell") then 2 else 1) false).

Definition ok_of {A E} (r : result A E) : option A := match r with Ok a => Some a | Err _ => None end.

Definition coinbase_message_type (payload : bytes) : option bytes :=
  ok_of (extract_json_str_field payload (jlit "'type':")).

Definition coinbase_trade_id (payload : bytes) : option Z :=
  match extract_json_int_field payload (jlit "'trade_id':") with
  | Some n => Some n
  | None => extract_json_int_field payload (jlit "'last_trade_id':")
  end.

Definition coinbase_sequence (payload : bytes) : option Z := extract_json_int_field payload (jlit "'sequence':").

Definition coinbase_product_id (payload : bytes) : option bytes :=
  ok_of (extract_json_str_field payload (jlit "'product_id':")).

(** ** The parsers on flat objects *)

Definition decimal (v : bytes) : Z := parse_fixed_point_8 v.
Definition quantity (v : bytes) : Z := wrap U64 (parse_fixed_point_8 v).

(** A quote of a venue from the four texts it needs. *)
Definition quote (t0 t1 market_id venue seq : Z) (bid bid_sz ask ask_sz : bytes) : NormalizedBbo :=
  mkBbo (mkTelemetry t0 t1 0 0) market_id venue (ChainId_code OffChain) seq (decimal bid) (quantity bid_sz)
    (decimal ask) (quantity ask_sz) (spread_of (decimal ask) (decimal bid)) 0.

Definition coinbase_bbo_spec (market_id t1 : Z) (fs : list field) : result NormalizedBbo bytes :=
  let? bid := str_field (lit "best_bid") fs in
  let? bid_sz := str_field (lit "best_bid_size") fs in
  let? ask := str_field (lit "best_ask") fs in
  let? ask_sz := str_field (lit "best_ask_size") fs in
  let? seq := ok_or (int_field (lit "sequence") fs) (lit "sequence missing") in
  Ok (quote (time_of (str_field (lit "time") fs)) t1 market_id (VenueId_code Coinbase) seq bid bid_sz ask ask_sz).

Definition coinbase_trade_spec (market_id t1 : Z) (fs : list field) : result UnifiedTrade bytes :=
  let? price := str_field (lit "price") fs in
  let? size := str_field (lit "last_size") fs in
  let? side := str_field (lit "side") fs in
  let? trade_id := ok_or (int_field (lit "trade_id") fs) (lit "trade_id missing") in
  Ok (mkTrade (mkTelemetry (time_of (str_field (lit "time") fs)) t1 0 0) market_id (VenueId_code Coinbase)
    (ChainId_code OffChain) (default 0 (int_field (lit "sequence") fs)) trade_id (decimal price) (quantity size)
    (if bool_decide (side = lit "sell") then 2 else 1) false).

Definition binance_bbo_spec (market_id t1 : Z) (fs : list field) : result NormalizedBbo bytes :=
  let? bid := str_field (lit "b") fs in
  let? bid_sz := str_field (lit "B") fs in
  let? ask := str_field (lit "a") fs in
  let? ask_sz := str_field (lit "A") fs in
  Ok (quote (default 0 (int_field (lit "E") fs) *[U64] 1000000) t1 market_id (VenueId_code Binance)
    (default 0 (int_field (lit "u") fs)) bid bid_sz ask ask_sz).

Definition binance_trade_spec (market_id t1 : Z) (fs : list field) : result UnifiedTrade bytes :=
  let? price := str_field (lit "p") fs in
  let? size := str_field (lit "q") fs in
  let id := default 0 (int_field (lit "t") fs) in
  Ok (mkTrade (mkTelemetry (default 0 (int_field (lit "T") fs) *[U64] 1000000) t1 0 0) market_id (VenueId_code Binance)
    (ChainId_code OffChain) id id (decimal price) (quantity size)
    (if default false (bool_field (lit "m") fs) then 2 else 1) false).

Definition okx_bbo_spec (market_id t1 : Z) (fs : list field) : result NormalizedBbo bytes :=
  let? bid := str_field (lit "bidPx") fs in
  let? bid_sz := str_field (lit "bidSz") fs in
  let? ask := str_field (lit "askPx") fs in
  let? ask_sz := str_field (lit "askSz") fs in
  let ts := match str_field (lit "ts") fs with Ok v => v | Err _ => lit "0" end in
  let ms := quantity ts / 100000000 in
  Ok (quote (ms *[U64] 1000000) t1 market_id (VenueId_code Okx) ms bid bid_sz ask ask_sz).

Section Flat.
Context (fs : list field) (Hfs : Forall field_ok fs).

Lemma str_key k name : k = key_text name -> plain_name name -> extract_json_str_field (flat_object fs) k = str_field name fs.
Proof. intros -> Hn. by apply extract_str_flat. Qed.
Lemma int_key k name : k = key_text name -> plain_name name -> extract_json_int_field (flat_object fs) k = int_field name fs.
Proof. intros -> Hn. by apply extract_int_flat. Qed.
Lemma bool_key k name : k = key_text name -> plain_name name -> extract_json_bool_field (flat_object fs) k = bool_field name fs.
Proof. intros -> Hn. by apply extract_bool_flat. Qed.

(** Replaces every extraction by the field it reads. *)
Ltac read_keys :=
  repeat match goal with
  | |- context [?ext (flat_object fs) (jlit ?k)] =>
      let name := eval vm_compute in (removelast (removelast (tail (jlit k)))) in
      first [ rewrite (str_key (jlit k) name eq_refl) by by_eval
            | rewrite (int_key (jlit k) name eq_refl) by by_eval
            | rewrite (bool_key (jlit k) name eq_refl) by by_eval ]
  end.

Lemma coinbase_bbo_flat m t1 : parse_coinbase_ticker_bbo m (flat_object fs) t1 = coinbase_bbo_spec m t1 fs.
Proof. unfold parse_coinbase_ticker_bbo. read_keys. reflexivity. Qed.

Lemma coinbase_trade_flat m t1 : parse_coinbase_ticker_trade m (flat_object fs) t1 = coinbase_trade_spec m t1 fs.
Proof. unfold parse_coinbase_ticker_trade. read_keys. reflexivity. Qed.

Lemma binance_bbo_flat m t1 : parse_binance_bbo m (flat_object fs) t1 = binance_bbo_spec m t1 fs.
Proof. unfold parse_binance_bbo. read_keys. reflexivity. Qed.

Lemma binance_trade_flat m t1 : parse_binance_trade m (flat_object fs) t1 = binance_trade_spec m t1 fs.
Proof. unfold parse_binance_trade. read_keys. reflexivity. Qed.

Lemma okx_bbo_flat m t1 : parse_okx_bbo m (flat_object fs) t1 = okx_bbo_spec m t1 fs.
Proof. unfold parse_okx_bbo. read_keys. reflexivity. Qed.

Lemma message_type_flat : coinbase_message_type (flat_object fs) = ok_of (str_field (lit "type") fs).
Proof. unfold coinbase_message_type. read_keys. reflexivity. Qed.

Lemma product_id_flat : coinbase_product_id (flat_object fs) = ok_of (str_field (lit "product_id") fs).
Proof. unfold coinbase_product_id. read_keys. reflexivity. Qed.

Lemma sequence_flat : coinbase_sequence (flat_object fs) = int_field (lit "sequence") fs.
Proof. unfold coinbase_sequence. read_keys. reflexivity. Qed.

Lemma trade_id_flat :
  coinbase_trade_id (flat_object fs) =
    match int_field (lit "trade_id") fs with Some n => Some n | None => int_field (lit "last_trade_id") fs end.
Proof. unfold coinbase_trade_id. read_keys. reflexivity. Qed.
End Flat.

Module FeedParser.

(** C22: on a flat JSON object, whatever the order of its fields and the fields besides, the five venue
    parsers return the record made of the fields they name, and fail exactly when a required one
    is missing or is not of its form. *)
Theorem parsers_read_fields (market_id t1 : Z) (fs : list field) (Hfs : Forall field_ok fs) :
  parse_coinbase_ticker_bbo market_id (flat_object fs) t1 = coinbase_bbo_spec market_id t1 fs /\
  parse_coinbase_ticker_trade market_id (flat_object fs) t1 = coinbase_trade_spec market_id t1 fs /\
  parse_binance_bbo market_id (flat_object fs) t1 = binance_bbo_spec market_id t1 fs /\
  parse_binance_trade market_id (flat_object fs) t1 = binance_trade_spec market_id t1 fs /\
  parse_okx_bbo market_id (flat_object fs) t1 = okx_bbo_spec market_id t1 fs.
Proof.
  split; [by apply coinbase_bbo_flat|]. split; [by apply coinbase_trade_flat|].
  split; [by apply binance_bbo_flat|]. split; [by apply binance_trade_flat|by apply okx_bbo_flat].
Qed.

Definition demo_ticker : list field :=
  [(lit "type", FStr (lit "ticker")); (lit "sequence", FRaw (lit "138715980456")); (lit "product_id", FStr (lit "BTC-USD"));
   (lit "price", FStr (lit "77328.57")); (lit "best_bid", FStr (lit "77328.56")); (lit "best_bid_size", FStr (lit "0.00000069"));
   (lit "best_ask", FStr (lit "77328.57")); (lit "best_ask_size", FStr (lit "0.14181185")); (lit "side", FStr (lit "buy"));
   (lit "time", FStr (lit "2026-11-03T14:35:39.041089Z")); (lit "trade_id", FRaw (lit "1114414143"));
   (lit "last_size", FStr (lit "0.00040846"))].

Lemma parsers_read_fields_witness :
  parse_coinbase_ticker_bbo 7 (flat_object demo_ticker) 5 =
    Ok (mkBbo (mkTelemetry 1793716539041089000 5 0 0) 7 (VenueId_code Coinbase) 0 138715980456
      7732856000000 69 7732857000000 14181185 0 0).
Proof.
  assert (Forall field_ok demo_ticker) as Hf by by_eval.
  rewrite (proj1 (parsers_read_fields 7 5 demo_ticker Hf)). vm_compute. reflexivity.
Defined.

(** An OKX timestamp in milliseconds overflows the decimal parser: 10^8 times it is above [2^63]. *)
Lemma okx_time_overflows :
  forall m t1 fs, lookup_field (lit "ts") fs = Some (FStr (lit "1597026383085")) ->
  forall b, okx_bbo_spec m t1 fs = Ok b -> bbo_sequence b = 121286857188.
Proof.
  intros m t1 fs Hts b. unfold okx_bbo_spec.
  destruct (str_field (lit "bidPx") fs); [|done]. destruct (str_field (lit "bidSz") fs); [|done].
  destruct (str_field (lit "askPx") fs); [|done]. destruct (str_field (lit "askSz") fs); [|done].
  cbn [result_bind]. unfold str_field. rewrite Hts. intros [= <-]. vm_compute. reflexivity.
Qed.
End FeedParser.
