(* ===== verification/SequenceTracker.v ===== *)
(** * cefi-ingest/src/lib.rs: [SequenceTracker]

    The state machine that validates the sequence ranges of incremental updates between snapshots.
    Its contract: since the last snapshot, the accepted ranges cover every number up to
    [last_sequence] without a hole. *)

From S2P Require Import Prelude.

Inductive SyncStatus := Synchronizing | InSync | GapDetected (expected received : Z).

#[global] Instance SyncStatus_eq_dec : EqDecision SyncStatus.
Proof. solve_decision. Defined.

Record SequenceTracker := mkTracker {
  last_sequence : Z;
  status : SyncStatus;
  gaps_detected : Z;
  updates_processed : Z;
}.

Definition tracker_new : SequenceTracker := mkTracker 0 Synchronizing 0 0.

Definition on_snapshot (t : SequenceTracker) (snapshot_last_seq : Z) : SequenceTracker :=
  mkTracker snapshot_last_seq InSync (gaps_detected t) (updates_processed t).

Definition validate_sequence (t : SequenceTracker) (first_seq final_seq : Z) : SequenceTracker * bool :=
  if bool_decide (status t = Synchronizing) then (t, false)
  else
    let expected := last_sequence t +[U64] 1 in
    if (first_seq <=? expected) && (expected <=? final_seq) then
      (mkTracker final_seq (status t) (gaps_detected t) (updates_processed t +[U64] 1), true)
    else if final_seq <=? last_sequence t then (t, false)
    else (mkTracker (last_sequence t) (GapDetected expected first_seq) (gaps_detected t +[U64] 1) (updates_processed t), false).

(** ** Runs *)

Inductive input := Snapshot (seq : Z) | Update (first final : Z).

(** The state machine: what an input does, and the range it accepts. *)
Inductive tracker_step : SequenceTracker -> input -> option (Z * Z) -> SequenceTracker -> Prop :=
| StepSnapshot t seq : tracker_step t (Snapshot seq) None (on_snapshot t seq)
| StepAccept t a b t' : validate_sequence t a b = (t', true) -> tracker_step t (Update a b) (Some (a, b)) t'
| StepReject t a b t' : validate_sequence t a b = (t', false) -> tracker_step t (Update a b) None t'.

(** A run since the last snapshot, which was at [base]: the ranges accepted, oldest first. *)
Inductive tracker_run (base : Z) : list (Z * Z) -> SequenceTracker -> Prop :=
| RunSnapshot t : tracker_run base [] (on_snapshot t base)
| RunAccept acc t a b t' :
    tracker_run base acc t -> tracker_step t (Update a b) (Some (a, b)) t' -> tracker_run base (acc ++ [(a, b)]) t'
| RunReject acc t a b t' :
    tracker_run base acc t -> tracker_step t (Update a b) None t' -> tracker_run base acc t'.

(** The ranges cover the numbers from [lo + 1] to [hi], each starting no later than the number
    after the last one covered and ending past it. *)
Inductive covers : Z -> list (Z * Z) -> Z -> Prop :=
| CoversNil lo : covers lo [] lo
| CoversSnoc lo acc mid a b : covers lo acc mid -> a <= mid + 1 <= b -> covers lo (acc ++ [(a, b)]) b.

Lemma covers_spec lo acc hi :
  covers lo acc hi -> lo <= hi /\ forall n, lo < n <= hi -> exists a b, In (a, b) acc /\ a <= n <= b.
Proof.
  induction 1 as [lo|lo acc mid a b _ [IH1 IH2] Hab]; [split; lia|].
  split; [lia|]. intros n Hn. destruct (Z.le_gt_cases n mid) as [Hle|Hgt].
  - destruct (IH2 n ltac:(lia)) as (a' & b' & Hin & Hb). exists a', b'. rewrite List.in_app_iff. auto.
  - exists a, b. rewrite List.in_app_iff. split; [right; by left|lia].
Qed.

(** The cases of a validation. *)
Lemma validate_cases t a b t' ok :
  last_sequence t < max_int U64 -> validate_sequence t a b = (t', ok) ->
  (ok = true /\ status t <> Synchronizing /\ a <= last_sequence t + 1 <= b /\ last_sequence t' = b /\ status t' = status t) \/
  (ok = false /\ last_sequence t' = last_sequence t /\
   ((status t = Synchronizing /\ t' = t) \/ (b <= last_sequence t /\ t' = t) \/
    (last_sequence t + 1 < a /\ last_sequence t < b /\ status t' = GapDetected (last_sequence t + 1) a))) \/
  (last_sequence t < 0).
Proof.
  intros Hmax. unfold validate_sequence. destruct (bool_decide_reflect (status t = Synchronizing)).
  { intros [= <- <-]. right. left. auto. }
  destruct (Z.lt_ge_cases (last_sequence t) 0); [auto|]. rewrite wrap_id by mint.
  destruct (Z.leb_spec a (last_sequence t + 1)), (Z.leb_spec (last_sequence t + 1) b); cbn [andb];
    try (destruct (Z.leb_spec b (last_sequence t))); intros [= <- <-]; cbn; try (left; by repeat split);
    right; left; (repeat split; try done); auto; try lia.
Qed.

Lemma tracker_run_covers base acc t :
  0 <= base -> tracker_run base acc t -> Forall (fun r => r.2 < max_int U64) acc -> base < max_int U64 ->
  covers base acc (last_sequence t) /\ 0 <= last_sequence t < max_int U64 /\ status t <> Synchronizing.
Proof.
  intros Hb H. induction H as [t|acc t a b t' _ IH Hs|acc t a b t' _ IH Hs]; intros Hf Hmax.
  - split; [constructor|split; [cbn; lia|done]].
  - apply Forall_app in Hf as [Hf Hab]. apply Forall_inv in Hab. cbn in Hab.
    destruct (IH Hf Hmax) as (Hc & Hr & Hst). inversion Hs as [|? ? ? ? Hv|]; subst.
    destruct (validate_cases t a b t' true ltac:(lia) Hv) as [(_ & _ & Hrange & El & Es)|[[? _]|?]]; [|done|lia].
    rewrite El, Es. split; [by econstructor|]. split; [lia|done].
  - destruct (IH Hf Hmax) as (Hc & Hr & Hst). inversion Hs as [| |? ? ? ? Hv]; subst.
    destruct (validate_cases t a b t' false ltac:(lia) Hv) as [[? _]|[(_ & El & Hcase)|?]]; [done| |lia].
    rewrite El. split; [done|]. split; [lia|].
    destruct Hcase as [[? ->]|[[_ ->]|(_ & _ & ->)]]; done.
Qed.

Module SequenceTracker.

(** C24: since a snapshot at [base], the accepted ranges cover every sequence number from [base + 1] to
    [last_sequence] with no hole, however many stale or gapped updates were refused in between;
    and an update is refused only if it is stale or starts past the next number, in which case the
    gap is recorded. *)
Theorem accepted_updates_cover (base : Z) (acc : list (Z * Z)) (t : SequenceTracker)
    (Hrun : tracker_run base acc t) (Hbase : 0 <= base < max_int U64) (Hacc : Forall (fun r => r.2 < max_int U64) acc) :
  (forall n, base < n <= last_sequence t -> exists a b, In (a, b) acc /\ a <= n <= b) /\
  (forall a b t', validate_sequence t a b = (t', false) -> a <= b ->
     b <= last_sequence t /\ t' = t \/
     last_sequence t + 1 < a /\ status t' = GapDetected (last_sequence t + 1) a /\ last_sequence t' = last_sequence t).
Proof.
  destruct (tracker_run_covers base acc t ltac:(lia) Hrun Hacc ltac:(lia)) as (Hc & Hr & Hst).
  split; [by apply covers_spec in Hc as [_ H]|]. intros a b t' Hv Hab.
  destruct (validate_cases t a b t' false ltac:(lia) Hv) as [[? _]|[(_ & El & Hcase)|?]]; [done| |lia].
  destruct Hcase as [[? _]|[[? ->]|(? & _ & Es)]]; [done|by left|right]. by repeat split.
Qed.

Lemma tracker_demo_run : tracker_run 100 [(101, 105)] (mkTracker 105 (GapDetected 106 108) 1 1).
Proof.
  apply (RunReject 100 _ (mkTracker 105 InSync 0 1) 108 110).
  - apply (RunAccept 100 [] (on_snapshot tracker_new 100) 101 105); [apply RunSnapshot|]. by apply StepAccept.
  - by apply StepReject.
Qed.

Lemma accepted_updates_cover_witness : exists a b, In (a, b) [(101, 105)] /\ a <= 103 <= b.
Proof.
  destruct (accepted_updates_cover 100 [(101, 105)] _ tracker_demo_run ltac:(by_eval) ltac:(repeat constructor)) as [H _].
  apply H. cbn. lia.
Defined.
End SequenceTracker.
