(* ===== verification/LiveSession.v ===== *)
(** * live-feed/src/session.rs: the Coinbase session

    The message-level state machine of the live feed: which product a message is about, the two
    integrity checks on its numbers, the events it emits and the action it asks of the runner.
    A run is any sequence of the session's calls; the events pile up in the caller's vector. *)

From Stdlib Require Import Sorted.
From S2P Require Import Prelude Bytes Models FixedPoint JsonScan Iso8601 FeedParser.

Inductive Event := EvBbo (b : NormalizedBbo) | EvTrade (t : UnifiedTrade).

Inductive Reason :=
| SequenceRegression (last got : Z)
| TradeIdGap (expected got : Z)
| HeartbeatBehindExchange (ours exchange : Z)
| ServerError
| Stale
| Disconnected.

Inductive Action := Resubscribe (r : Reason) | Reconnect (r : Reason).

Record Stats := mkStats {
  messages : Z; tickers : Z; heartbeats : Z; events_emitted : Z; malformed : Z; unknown_product : Z;
  sequence_regressions : Z; trade_id_gaps : Z; heartbeat_behind : Z; resubscribes : Z; reconnects : Z;
}.

Definition stats_default : Stats := mkStats 0 0 0 0 0 0 0 0 0 0 0.

Definition bump_messages '(mkStats m t h e f u s g b rs rc) := mkStats (m +[U64] 1) t h e f u s g b rs rc.
Definition bump_tickers '(mkStats m t h e f u s g b rs rc) := mkStats m (t +[U64] 1) h e f u s g b rs rc.
Definition bump_heartbeats '(mkStats m t h e f u s g b rs rc) := mkStats m t (h +[U64] 1) e f u s g b rs rc.
Definition bump_events '(mkStats m t h e f u s g b rs rc) := mkStats m t h (e +[U64] 1) f u s g b rs rc.
Definition bump_malformed '(mkStats m t h e f u s g b rs rc) := mkStats m t h e (f +[U64] 1) u s g b rs rc.
Definition bump_unknown '(mkStats m t h e f u s g b rs rc) := mkStats m t h e f (u +[U64] 1) s g b rs rc.
Definition bump_regressions '(mkStats m t h e f u s g b rs rc) := mkStats m t h e f u (s +[U64] 1) g b rs rc.
Definition bump_gaps '(mkStats m t h e f u s g b rs rc) := mkStats m t h e f u s (g +[U64] 1) b rs rc.
Definition bump_behind '(mkStats m t h e f u s g b rs rc) := mkStats m t h e f u s g (b +[U64] 1) rs rc.
Definition bump_resubscribes '(mkStats m t h e f u s g b rs rc) := mkStats m t h e f u s g b (rs +[U64] 1) rc.
Definition bump_reconnects '(mkStats m t h e f u s g b rs rc) := mkStats m t h e f u s g b rs (rc +[U64] 1).

Record Product := mkProduct {
  p_name : bytes;
  p_market_id : Z;
  last_seq : option Z;
  last_trade_id : option Z;
  max_emitted_trade_id : Z;
}.

Record Session := mkSession {
  products : list Product;
  last_message_ms : Z;
  stale_after_ms : Z;
  stats : Stats;
}.

Definition session_new (names : list bytes) (stale : Z) : Session :=
  mkSession (imap (fun i p => mkProduct p (wrap U32 (Z.of_nat i) +[U32] 1) None None 0) names) 0 stale stats_default.

Definition product_name (s : Session) (market_id : Z) : option bytes :=
  p_name <$> products s !! Z.to_nat (market_id -[U64] 1).

Definition set_stats (s : Session) (f : Stats -> Stats) : Session :=
  mkSession (products s) (last_message_ms s) (stale_after_ms s) (f (stats s)).

Definition put_product (s : Session) (idx : nat) (p : Product) : Session :=
  mkSession (<[idx:=p]> (products s)) (last_message_ms s) (stale_after_ms s) (stats s).

Definition reset_baselines (s : Session) : Session :=
  mkSession ((fun p => mkProduct (p_name p) (p_market_id p) None None (max_emitted_trade_id p)) <$> products s)
    (last_message_ms s) (stale_after_ms s) (stats s).

Definition on_connected (s : Session) (now_ms : Z) : Session :=
  let s := reset_baselines s in mkSession (products s) now_ms (stale_after_ms s) (stats s).

Definition note_action_taken (s : Session) (a : Action) : Session :=
  reset_baselines (set_stats s match a with Resubscribe _ => bump_resubscribes | Reconnect _ => bump_reconnects end).

Definition on_tick (s : Session) (now_ms : Z) : option Action :=
  if stale_after_ms s <? sat U64 (now_ms - last_message_ms s) then Some (Reconnect Stale) else None.

(** [iter().position(..)] *)
Fixpoint position {A} (p : A -> bool) (l : list A) : option nat :=
  match l with
  | [] => None
  | x :: l => if p x then Some 0%nat else S <$> position p l
  end.

Definition product_index (s : Session) (payload : bytes) : Session * option nat :=
  match coinbase_product_id payload with
  | None => (set_stats s bump_malformed, None)
  | Some id =>
      let idx := position (fun p => bool_decide (p_name p = id)) (products s) in
      match idx with
      | None => (set_stats s bump_unknown, idx)
      | Some _ => (s, idx)
      end
  end.

Definition on_ticker (s : Session) (payload : bytes) (t1_ns : Z) (out : list Event) :
    outcome (Session * list Event * option Action) :=
  let s := set_stats s bump_tickers in
  match product_index s payload with
  | (s, None) => Done (s, out, None)
  | (s, Some idx) =>
      match products s !! idx with
      | None => Panic
      | Some p =>
          match parse_coinbase_ticker_bbo (p_market_id p) payload t1_ns,
                parse_coinbase_ticker_trade (p_market_id p) payload t1_ns with
          | Ok bbo, Ok trade =>
              let (s, action) :=
                match last_seq p with
                | Some last =>
                    if bbo_sequence bbo <=? last
                    then (set_stats s bump_regressions, Some (Resubscribe (SequenceRegression last (bbo_sequence bbo))))
                    else (s, None)
                | None => (s, None)
                end in
              let (s, action) :=
                match last_trade_id p with
                | Some last =>
                    let expected := last +[U64] 1 in
                    if negb (tr_trade_id trade =? expected) && match action with None => true | Some _ => false end
                    then (set_stats s bump_gaps, Some (Resubscribe (TradeIdGap expected (tr_trade_id trade))))
                    else (s, action)
                | None => (s, action)
                end in
              let p := mkProduct (p_name p) (p_market_id p) (Some (bbo_sequence bbo)) (Some (tr_trade_id trade))
                         (max_emitted_trade_id p) in
              let out := out ++ [EvBbo bbo] in
              let s := set_stats s bump_events in
              if max_emitted_trade_id p <? tr_trade_id trade then
                let p := mkProduct (p_name p) (p_market_id p) (last_seq p) (last_trade_id p) (tr_trade_id trade) in
                Done (set_stats (put_product s idx p) bump_events, out ++ [EvTrade trade], action)
              else Done (put_product s idx p, out, action)
          | _, _ => Done (set_stats s bump_malformed, out, None)
          end
      end
  end.

Definition on_heartbeat (s : Session) (payload : bytes) : outcome (Session * option Action) :=
  let s := set_stats s bump_heartbeats in
  match product_index s payload with
  | (s, None) => Done (s, None)
  | (s, Some idx) =>
      match coinbase_sequence payload with
      | None => Done (s, None)
      | Some seq =>
          match coinbase_trade_id payload with
          | None => Done (s, None)
          | Some exchange_last_trade =>
              match products s !! idx with
              | None => Panic
              | Some p =>
                  let behind s :=
                    match last_trade_id p with
                    | Some ours =>
                        if ours <? exchange_last_trade
                        then Done (set_stats s bump_behind,
                                   Some (Resubscribe (HeartbeatBehindExchange ours exchange_last_trade)))
                        else Done (s, None)
                    | None => Done (s, None)
                    end in
                  match last_seq p with
                  | Some last =>
                      if seq <=? last
                      then Done (set_stats s bump_regressions, Some (Resubscribe (SequenceRegression last seq)))
                      else behind (put_product s idx
                             (mkProduct (p_name p) (p_market_id p) (Some seq) (last_trade_id p) (max_emitted_trade_id p)))
                  | None => behind s
                  end
              end
          end
      end
  end.

Definition on_message (s : Session) (payload : bytes) (t1_ns now_ms : Z) (out : list Event) :
    outcome (Session * list Event * option Action) :=
  let s := set_stats s bump_messages in
  let s := mkSession (products s) now_ms (stale_after_ms s) (stats s) in
  match coinbase_message_type payload with
  | None => Done (set_stats s bump_malformed, out, None)
  | Some ty =>
      if bool_decide (ty = lit "ticker") then on_ticker s payload t1_ns out
      else if bool_decide (ty = lit "heartbeat") then
        let! r := on_heartbeat s payload in Done (r.1, out, r.2)
      else if bool_decide (ty = lit "error") then Done (s, out, Some (Reconnect ServerError))
      else Done (s, out, None)
  end.

(** ** What a message does *)

(** Product [p] after the ticker [(bbo, trade)], the events it emits and the action it asks for. *)
Definition ticker_product (p : Product) (bbo : NormalizedBbo) (trade : UnifiedTrade) : Product :=
  mkProduct (p_name p) (p_market_id p) (Some (bbo_sequence bbo)) (Some (tr_trade_id trade))
    (Z.max (max_emitted_trade_id p) (tr_trade_id trade)).

Definition ticker_events (p : Product) (bbo : NormalizedBbo) (trade : UnifiedTrade) : list Event :=
  EvBbo bbo :: (if max_emitted_trade_id p <? tr_trade_id trade then [EvTrade trade] else []).

Definition gap_action (p : Product) (trade : UnifiedTrade) : option Action :=
  match last_trade_id p with
  | Some t => if tr_trade_id trade =? t +[U64] 1 then None
              else Some (Resubscribe (TradeIdGap (t +[U64] 1) (tr_trade_id trade)))
  | None => None
  end.

Definition ticker_action (p : Product) (bbo : NormalizedBbo) (trade : UnifiedTrade) : option Action :=
  match last_seq p with
  | Some l => if bbo_sequence bbo <=? l then Some (Resubscribe (SequenceRegression l (bbo_sequence bbo)))
              else gap_action p trade
  | None => gap_action p trade
  end.

(** Resubscriptions asked for, as the counters of [Stats] see them. *)
Definition anomalies (st : Stats) : Z := sequence_regressions st + trade_id_gaps st + heartbeat_behind st.
Definition asks_resubscribe (a : option Action) : Z :=
  match a with Some (Resubscribe _) => 1 | _ => 0 end.

(** The counters after a call that asks for [a] and emits [n] events. *)
Definition counted (s s' : Session) (n : nat) (a : option Action) : Prop :=
  let st := stats s in let st' := stats s' in
  wrap U64 (events_emitted st') = wrap U64 (events_emitted st + Z.of_nat n) /\
  wrap U64 (anomalies st') = wrap U64 (anomalies st + asks_resubscribe a) /\
  messages st' = messages st /\ resubscribes st' = resubscribes st /\ reconnects st' = reconnects st /\
  last_message_ms s' = last_message_ms s /\ stale_after_ms s' = stale_after_ms s.

(** The three things a message can do to the products and the events. *)
Inductive effect (s : Session) (out : list Event) : Session -> list Event -> option Action -> Prop :=
| EffQuiet s' a :
    products s' = products s -> counted s s' 0 a -> effect s out s' out a
| EffTicker s' idx p bbo trade :
    products s !! idx = Some p ->
    bbo_market_id bbo = p_market_id p -> tr_market_id trade = p_market_id p -> 0 <= tr_trade_id trade ->
    products s' = <[idx := ticker_product p bbo trade]> (products s) ->
    counted s s' (length (ticker_events p bbo trade)) (ticker_action p bbo trade) ->
    effect s out s' (out ++ ticker_events p bbo trade) (ticker_action p bbo trade)
| EffHeartbeat s' idx p seq last a :
    products s !! idx = Some p -> last_seq p = Some last -> last < seq ->
    products s' = <[idx := mkProduct (p_name p) (p_market_id p) (Some seq) (last_trade_id p) (max_emitted_trade_id p)]>
                    (products s) ->
    counted s s' 0 a -> effect s out s' out a.

Lemma position_lookup {A} (p : A -> bool) l i : position p l = Some i -> exists x, l !! i = Some x /\ p x = true.
Proof.
  revert i. induction l as [|x l IH]; intros i; cbn; [done|]. destruct (p x) eqn:E.
  - intros [= <-]. by exists x.
  - destruct (position p l) as [j|]; cbn; [|done]. intros [= <-]. by apply IH.
Qed.

Lemma product_index_cases s payload s' r :
  product_index s payload = (s', r) ->
  products s' = products s /\ counted s s' 0 None /\
  match r with Some i => exists p, products s !! i = Some p | None => True end.
Proof.
  unfold product_index. destruct s as [ps lm sa []]. destruct (coinbase_product_id payload) as [id|].
  - destruct (position _ _) as [i|] eqn:E; cbn; intros [= <- <-]; (split; [done|]); (split; [|try done]).
    + by unfold counted; cbn; rewrite !Z.add_0_r.
    + apply position_lookup in E as (p & Hp & _). by exists p.
    + by unfold counted; cbn; rewrite !Z.add_0_r.
  - intros [= <- <-]. by unfold counted; cbn; rewrite !Z.add_0_r.
Qed.

Lemma read_digits_nonneg l n f m f' : 0 <= n -> read_digits l n f = (m, f') -> 0 <= m.
Proof.
  revert n f. induction l as [|b l IH]; cbn; intros n f Hn; [by intros [= <- _]|].
  destruct (_ && _); [|by intros [= <- _]]. apply IH.
  pose proof (wrap_range U64 (n *[U64] 10 + (b - 48))) as Hr. unfold in_range in Hr. cbn in Hr. lia.
Qed.

Lemma int_field_nonneg src key n : extract_json_int_field src key = Some n -> 0 <= n.
Proof.
  unfold extract_json_int_field. destruct (find_subsequence src key); [|done].
  destruct (read_digits _ 0 false) as [m f] eqn:E. apply read_digits_nonneg in E; [|lia].
  destruct f; [|done]. by intros [= <-].
Qed.

Lemma parsed_market m payload t1 bbo trade :
  parse_coinbase_ticker_bbo m payload t1 = Ok bbo -> parse_coinbase_ticker_trade m payload t1 = Ok trade ->
  bbo_market_id bbo = m /\ tr_market_id trade = m /\ 0 <= tr_trade_id trade.
Proof.
  unfold parse_coinbase_ticker_bbo, parse_coinbase_ticker_trade, result_bind.
  intros Hb Ht. destruct (ok_or (extract_json_int_field payload (jlit "'trade_id':")) _) as [n|] eqn:E;
    [|repeat case_match; done].
  assert (0 <= n) as Hn.
  { unfold ok_or in E. destruct (extract_json_int_field payload (jlit "'trade_id':")) eqn:E2; [|done].
    injection E as ->. by eapply int_field_nonneg. }
  repeat case_match; simplify_eq; done.
Qed.

(** [counted] of closed updates of the counters. *)
Ltac count :=
  unfold counted, anomalies, set_stats; cbn [stats]; cbn;
  repeat match goal with st : Stats |- _ => destruct st end; cbn; repeat split; mint.

Lemma counted_trans s1 s2 s3 n a :
  counted s1 s2 0 None -> counted s2 s3 n a -> counted s1 s3 n a.
Proof. unfold counted. cbn. intros (H1 & H2 & -> & -> & -> & -> & ->) (H3 & H4 & -> & -> & -> & -> & ->). repeat split; mint. Qed.

Lemma effect_quiet_first s0 s out s' out' a :
  products s = products s0 -> counted s0 s 0 None -> effect s out s' out' a -> effect s0 out s' out' a.
Proof.
  intros Hp Hc He. inversion He; subst; rewrite Hp in *.
  - apply EffQuiet; [done|by eapply counted_trans].
  - eapply EffTicker; eauto using counted_trans.
  - eapply EffHeartbeat; eauto using counted_trans.
Qed.

Lemma on_ticker_effect s payload t1 out :
  exists s' out' a, on_ticker s payload t1 out = Done (s', out', a) /\ effect s out s' out' a.
Proof.
  unfold on_ticker. destruct (product_index _ payload) as [s1 r] eqn:Ei.
  apply product_index_cases in Ei as (Hp & Hc & Hr). 
  assert (products s1 = products s) as Hp' by done.
  assert (counted s s1 0 None) as Hc'.
  { eapply counted_trans; [|exact Hc]. destruct s as [ps lm sa st]. count. }
  destruct r as [i|]; [|do 3 eexists; split; [done|by apply EffQuiet]].
  destruct Hr as (p & Hi). rewrite Hp', <- Hp' in *. cbn in Hi. rewrite <- Hp' in Hi. rewrite Hi.
  destruct (parse_coinbase_ticker_bbo _ _ _) as [bbo|] eqn:Eb;
    [|do 3 eexists; split; [done|apply EffQuiet; [done|eapply counted_trans; [done|destruct s1 as [? ? ? st]; count]]]].
  destruct (parse_coinbase_ticker_trade _ _ _) as [trade|] eqn:Et;
    [|do 3 eexists; split; [done|apply EffQuiet; [done|eapply counted_trans; [done|destruct s1 as [? ? ? st]; count]]]].
  destruct (parsed_market _ _ _ _ _ Eb Et) as (Hmb & Hmt & Hnn).
  assert (forall s' out' a, out' = out ++ ticker_events p bbo trade -> a = ticker_action p bbo trade ->
    products s' = <[i := ticker_product p bbo trade]> (products s1) ->
    counted s1 s' (length (ticker_events p bbo trade)) (ticker_action p bbo trade) ->
    effect s out s' out' a) as Hticker.
  { intros s' out' a -> -> Hs' Hcs. apply (effect_quiet_first s s1); [done|done|]. by eapply EffTicker. }
  clear Hp Hc Hc' Eb Et.
  unfold ticker_action, gap_action, ticker_product, ticker_events in Hticker.
  destruct s1 as [ps lm sa st], p as [nm mk [l|] [t|] mx]; cbn in *.
  all: repeat match goal with |- context [?a <=? ?b] => destruct (Z.leb_spec a b)
       | |- context [?a <? ?b] => destruct (Z.ltb_spec a b) | |- context [?a =? ?b] => destruct (Z.eqb_spec a b) end;
    cbn in *; do 3 eexists; (split; [reflexivity|]);
    (apply Hticker; [rewrite <- ?app_assoc; reflexivity|reflexivity|cbn; f_equal; f_equal; lia|count]).
Qed.

(** Finishes a branch that changes no product and emits nothing. *)
Ltac quiet s1 := apply EffQuiet; [done|eapply counted_trans; [eassumption|destruct s1 as [? ? ? st]; count]].

Lemma on_heartbeat_effect s payload out :
  exists s' a, on_heartbeat s payload = Done (s', a) /\ effect s out s' out a.
Proof.
  unfold on_heartbeat. destruct (product_index _ payload) as [s1 r] eqn:Ei.
  apply product_index_cases in Ei as (Hp & Hc & Hr). cbn [set_stats products] in Hp, Hr.
  assert (counted s s1 0 None) as Hc'.
  { eapply counted_trans; [|exact Hc]. destruct s as [ps lm sa st]. count. }
  destruct r as [i|]; [|do 2 eexists; split; [done|by apply EffQuiet]].
  destruct Hr as (p & Hi).
  destruct (coinbase_sequence payload) as [seq|]; [|do 2 eexists; split; [done|by apply EffQuiet]].
  destruct (coinbase_trade_id payload) as [theirs|]; [|do 2 eexists; split; [done|by apply EffQuiet]].
  rewrite Hp, Hi. destruct (last_seq p) as [last|] eqn:El.
  - destruct (Z.leb_spec seq last); [do 2 eexists; split; [done|quiet s1]|].
    destruct (last_trade_id p) as [ours|] eqn:Et; [destruct (Z.ltb_spec ours theirs)|]; rewrite ?Et.
    all: do 2 eexists; (split; [reflexivity|]);
      (eapply (EffHeartbeat s out _ i p seq last); [done|done|done|by cbn; rewrite Hp, Et|]);
      (eapply counted_trans; [eassumption|destruct s1 as [? ? ? st]; count]).
  - destruct (last_trade_id p) as [ours|]; [destruct (Z.ltb_spec ours theirs)|];
      (do 2 eexists; (split; [reflexivity|quiet s1])).
Qed.

(** The session that has just received a message. *)
Definition received (s : Session) (now_ms : Z) : Session :=
  mkSession (products s) now_ms (stale_after_ms s) (bump_messages (stats s)).

Lemma on_message_effect s payload t1 now out :
  exists s' out' a, on_message s payload t1 now out = Done (s', out', a) /\ effect (received s now) out s' out' a.
Proof.
  unfold on_message. change (mkSession _ now _ _) with (received s now).
  destruct (coinbase_message_type payload) as [ty|].
  - destruct (bool_decide (ty = lit "ticker")); [apply on_ticker_effect|].
    destruct (bool_decide (ty = lit "heartbeat")).
    { destruct (on_heartbeat_effect (received s now) payload out) as (s' & a & -> & He). by exists s', out, a. }
    destruct (bool_decide (ty = lit "error")); do 3 eexists; (split; [reflexivity|apply EffQuiet; [done|]]);
      destruct (received s now) as [? ? ? st]; count.
  - do 3 eexists. split; [reflexivity|apply EffQuiet; [done|]]. destruct (received s now) as [? ? ? st]; count.
Qed.

(** ** Runs of the session *)

(** What the runner does with a session. *)
Inductive Input :=
| Connected (now_ms : Z)
| Message (payload : bytes) (t1_ns now_ms : Z)
| ActionTaken (a : Action)
| Tick (now_ms : Z).

Definition apply_input (s : Session) (out : list Event) (i : Input) : outcome (Session * list Event * option Action) :=
  match i with
  | Connected now => Done (on_connected s now, out, None)
  | Message payload t1 now => on_message s payload t1 now out
  | ActionTaken a => Done (note_action_taken s a, out, None)
  | Tick now => Done (s, out, on_tick s now)
  end.

(** The inputs in order; the actions asked for, one answer per input. *)
Fixpoint run (s : Session) (out : list Event) (ins : list Input) : outcome (Session * list Event * list (option Action)) :=
  match ins with
  | [] => Done (s, out, [])
  | i :: ins =>
      let! r := apply_input s out i in
      let! r' := run r.1.1 r.1.2 ins in
      Done (r'.1.1, r'.1.2, r.2 :: r'.2)
  end.

(** A property of the session, the events and the answers so far that every input keeps, holds
    after every run, and every run has a result. *)
Lemma run_invariant (I : Session -> list Event -> list (Input * option Action) -> Prop) ins :
  (forall s out tr i, In i ins -> I s out tr ->
     exists s' out' a, apply_input s out i = Done (s', out', a) /\ I s' out' (tr ++ [(i, a)])) ->
  forall s out tr, I s out tr ->
  exists s' out' acts, run s out ins = Done (s', out', acts) /\ length acts = length ins /\ I s' out' (tr ++ zip ins acts).
Proof.
  induction ins as [|i ins IH]; intros Hstep s out tr HI; cbn [run].
  - exists s, out, []. rewrite app_nil_r. done.
  - destruct (Hstep s out tr i (or_introl eq_refl) HI) as (s1 & out1 & a & Ea & HI1). rewrite Ea. cbn [outcome_bind fst snd].
    destruct (IH (fun s out tr j Hj => Hstep s out tr j (or_intror Hj)) s1 out1 _ HI1)
      as (s2 & out2 & acts & Er & Hl & HI2).
    rewrite Er. exists s2, out2, (a :: acts). split; [done|]. split; [cbn; by rewrite Hl|].
    by rewrite <- app_assoc in HI2.
Qed.

(** The trade ids and the quote sequences emitted for a market. *)
Definition trade_ids (m : Z) (out : list Event) : list Z :=
  omap (fun e => match e with EvTrade t => if tr_market_id t =? m then Some (tr_trade_id t) else None | EvBbo _ => None end) out.
Definition bbo_seqs (m : Z) (out : list Event) : list Z :=
  omap (fun e => match e with EvBbo b => if bbo_market_id b =? m then Some (bbo_sequence b) else None | EvTrade _ => None end) out.

(** The products keep their names and markets; the [i]th has market [i + 1]. *)
Definition markets_ok (s : Session) : Prop :=
  forall i p, products s !! i = Some p -> p_market_id p = Z.of_nat i + 1.

Lemma trade_ids_app m l1 l2 : trade_ids m (l1 ++ l2) = trade_ids m l1 ++ trade_ids m l2.
Proof. apply omap_app. Qed.
Lemma bbo_seqs_app m l1 l2 : bbo_seqs m (l1 ++ l2) = bbo_seqs m l1 ++ bbo_seqs m l2.
Proof. apply omap_app. Qed.

Lemma trade_ids_ticker m p bbo trade :
  tr_market_id trade = p_market_id p ->
  trade_ids m (ticker_events p bbo trade) =
    if (p_market_id p =? m) && (max_emitted_trade_id p <? tr_trade_id trade) then [tr_trade_id trade] else [].
Proof.
  intros Hm. unfold ticker_events, trade_ids. destruct (Z.ltb_spec (max_emitted_trade_id p) (tr_trade_id trade)); cbn;
    rewrite ?Hm; by destruct (Z.eqb_spec (p_market_id p) m).
Qed.

Lemma bbo_seqs_ticker m p bbo trade :
  bbo_market_id bbo = p_market_id p ->
  bbo_seqs m (ticker_events p bbo trade) = if p_market_id p =? m then [bbo_sequence bbo] else [].
Proof.
  intros Hm. unfold ticker_events, bbo_seqs. destruct (max_emitted_trade_id p <? tr_trade_id trade); cbn;
    rewrite ?Hm; by destruct (Z.eqb_spec (p_market_id p) m).
Qed.

Lemma sorted_snoc (l : list Z) x : StronglySorted Z.lt l -> Forall (fun y => y < x) l -> StronglySorted Z.lt (l ++ [x]).
Proof.
  induction 1 as [|y l Hs IH Hy]; intros Hf; cbn; [repeat constructor|].
  inversion Hf; subst. constructor; [by apply IH|]. apply Forall_app. auto.
Qed.

(** ** No trade is emitted twice *)

Definition dedup_inv (s : Session) (out : list Event) : Prop :=
  markets_ok s /\ (forall m, StronglySorted Z.lt (trade_ids m out)) /\
  forall i p, products s !! i = Some p ->
    0 <= max_emitted_trade_id p /\ Forall (fun t => t <= max_emitted_trade_id p) (trade_ids (p_market_id p) out).

(** Only the products' names, markets and highest emitted ids matter. *)
Lemma dedup_inv_ext s s' out :
  (forall i q, products s' !! i = Some q -> exists p, products s !! i = Some p /\ p_market_id p = p_market_id q /\
     max_emitted_trade_id p = max_emitted_trade_id q) ->
  dedup_inv s out -> dedup_inv s' out.
Proof.
  intros He (Hm & Hs & Hf). split; [|split; [done|]].
  - intros i q Hq. destruct (He i q Hq) as (p & Hp & <- & _). by apply Hm.
  - intros i q Hq. destruct (He i q Hq) as (p & Hp & <- & <-). by eapply Hf.
Qed.

Lemma dedup_inv_effect s out s' out' a : effect s out s' out' a -> dedup_inv s out -> dedup_inv s' out'.
Proof.
  intros [s1 a1 Hp _|s1 idx p bbo trade Hp Hmb Hmt Hnn Hps _|s1 idx p seq last a1 Hp _ _ Hps _] HI.
  - eapply dedup_inv_ext; [|exact HI]. intros i q. rewrite Hp. by exists q.
  - destruct HI as (Hm & Hs & Hf). pose proof (Hf idx p Hp) as [H0 Hfp]. pose proof (Hm idx p Hp) as Hmp.
    unfold dedup_inv, markets_ok. rewrite Hps. split; [|split].
    + intros i q [(<- & <- & _)|(_ & Hq)]%list_lookup_insert_Some; [done|by apply Hm].
    + intros m. rewrite trade_ids_app, trade_ids_ticker by done.
      destruct (Z.eqb_spec (p_market_id p) m) as [<-|]; cbn [andb]; [|by rewrite app_nil_r].
      destruct (Z.ltb_spec (max_emitted_trade_id p) (tr_trade_id trade)); [|by rewrite app_nil_r].
      apply sorted_snoc; [done|]. eapply Forall_impl; [|exact Hfp]. cbn; lia.
    + intros i q [(<- & <- & _)|(Hne & Hq)]%list_lookup_insert_Some; cbn [ticker_product p_market_id max_emitted_trade_id];
        rewrite trade_ids_app, trade_ids_ticker by done; (split; [|apply Forall_app; split]).
      * lia.
      * eapply Forall_impl; [|exact Hfp]. cbn; lia.
      * rewrite Z.eqb_refl. destruct (_ && _); repeat constructor. lia.
      * by eapply Hf.
      * by eapply Hf.
      * rewrite (Hm i q Hq), Hmp. destruct (Z.eqb_spec (Z.of_nat idx + 1) (Z.of_nat i + 1)); [lia|constructor].
  - eapply dedup_inv_ext; [|exact HI]. intros i q. rewrite Hps.
    intros [(<- & <- & _)|(_ & Hq)]%list_lookup_insert_Some; [by exists p|by exists q].
Qed.

Lemma dedup_inv_reset s out : dedup_inv s out -> dedup_inv (reset_baselines s) out.
Proof.
  apply dedup_inv_ext. intros i q. cbn. rewrite list_lookup_fmap. destruct (products s !! i) as [p|]; [|done].
  intros [= <-]. by exists p.
Qed.

Lemma markets_ok_new names stale : Z.of_nat (length names) < 4294967295 -> markets_ok (session_new names stale).
Proof.
  intros Hl i p. cbn. rewrite list_lookup_imap. destruct (names !! i) as [n|] eqn:E; [|done].
  intros [= <-]. apply lookup_lt_Some in E. cbn. rewrite (wrap_id U32 (Z.of_nat i)) by mint. apply wrap_id. mint.
Qed.

Lemma dedup_inv_step s out i :
  dedup_inv s out -> exists s' out' a, apply_input s out i = Done (s', out', a) /\ dedup_inv s' out'.
Proof.
  intros HI. destruct i as [now|payload t1 now|a|now]; cbn.
  - do 3 eexists. split; [reflexivity|]. by apply (dedup_inv_ext (reset_baselines s)); [eauto|apply dedup_inv_reset].
  - destruct (on_message_effect s payload t1 now out) as (s' & out' & a & -> & He).
    do 3 eexists. split; [reflexivity|]. eapply dedup_inv_effect; [exact He|]. eapply dedup_inv_ext; [|exact HI]. eauto.
  - do 3 eexists. split; [reflexivity|]. apply dedup_inv_reset. eapply dedup_inv_ext; [|exact HI]. eauto.
  - do 3 eexists. split; [reflexivity|done].
Qed.

Lemma dedup_inv_new names stale :
  Z.of_nat (length names) < 4294967295 -> dedup_inv (session_new names stale) [].
Proof.
  intros Hl. split; [by apply markets_ok_new|]. split; [intros m; constructor|].
  intros i p. cbn. rewrite list_lookup_imap. destruct (names !! i); [|done]. intros [= <-]. split; [cbn; lia|constructor].
Qed.

Lemma dedup_run s out ins : dedup_inv s out ->
  exists s' out' acts, run s out ins = Done (s', out', acts) /\ length acts = length ins /\ dedup_inv s' out'.
Proof.
  intros HI.
  destruct (run_invariant (fun s out _ => dedup_inv s out) ins
    ltac:(intros s1 out1 tr i _ H1; by apply dedup_inv_step) s out [] HI) as (s' & out' & acts & ? & ? & ?).
  by exists s', out', acts.
Qed.

(** ** Without an action, no trade is missed *)

(** The events [ev] emitted for product [p] since its baseline was cleared. *)
Definition product_inv (ev : list Event) (p : Product) : Prop :=
  let m := p_market_id p in
  0 <= max_emitted_trade_id p /\
  match last_trade_id p with
  | None => trade_ids m ev = []
  | Some t => 0 <= t <= max_emitted_trade_id p /\
              exists a, a <= max_emitted_trade_id p + 1 /\ trade_ids m ev = seqZ a (max_emitted_trade_id p + 1 - a)
  end /\
  match last_seq p with
  | None => bbo_seqs m ev = []
  | Some l => StronglySorted Z.lt (bbo_seqs m ev) /\ Forall (fun x => x <= l) (bbo_seqs m ev)
  end.

Lemma product_inv_ticker ev p bbo trade :
  bbo_market_id bbo = p_market_id p -> tr_market_id trade = p_market_id p -> 0 <= tr_trade_id trade ->
  ticker_action p bbo trade = None -> product_inv ev p ->
  product_inv (ev ++ ticker_events p bbo trade) (ticker_product p bbo trade).
Proof.
  intros Hmb Hmt Hnn Ha (H0 & Ht & Hs).
  assert (gap_action p trade = None) as Hg.
  { unfold ticker_action in Ha. destruct (last_seq p); [|done]. by destruct (_ <=? _). }
  unfold product_inv. cbn [ticker_product p_market_id last_trade_id last_seq max_emitted_trade_id].
  rewrite trade_ids_app, bbo_seqs_app, trade_ids_ticker, bbo_seqs_ticker, Z.eqb_refl by done. cbn [andb].
  split; [lia|]. split.
  - split; [lia|]. unfold gap_action in Hg. destruct (last_trade_id p) as [t|].
    + destruct Ht as (Hr & a & Hle & ->).
      assert (tr_trade_id trade = t +[U64] 1) as Eid by (destruct (Z.eqb_spec (tr_trade_id trade) (t +[U64] 1)); done).
      assert (t +[U64] 1 <= t + 1) as Hw by mint.
      destruct (Z.ltb_spec (max_emitted_trade_id p) (tr_trade_id trade)).
      * assert (tr_trade_id trade = max_emitted_trade_id p + 1) as -> by lia. exists a. split; [lia|].
        rewrite Z.max_r by lia. replace (max_emitted_trade_id p + 1 + 1 - a) with (max_emitted_trade_id p + 1 - a + 1) by lia.
        rewrite seqZ_app, (seqZ_cons (a + _)), (seqZ_nil (Z.succ _)) by lia. do 2 f_equal. lia.
      * exists a. rewrite Z.max_l, app_nil_r by lia. done.
    + rewrite Ht. destruct (Z.ltb_spec (max_emitted_trade_id p) (tr_trade_id trade)).
      * exists (tr_trade_id trade). split; [lia|]. rewrite Z.max_r by lia.
        replace (tr_trade_id trade + 1 - tr_trade_id trade) with 1 by lia. done.
      * exists (max_emitted_trade_id p + 1). rewrite Z.max_l by lia. split; [lia|]. by rewrite Z.sub_diag.
  - unfold ticker_action in Ha. destruct (last_seq p) as [l|].
    + destruct Hs as [Hss Hf]. destruct (Z.leb_spec (bbo_sequence bbo) l); [done|].
      split; [apply sorted_snoc; [done|]|apply Forall_app; split; [|repeat constructor; lia]];
        (eapply Forall_impl; [|exact Hf]; cbn; lia).
    + rewrite Hs. repeat constructor. lia.
Qed.

(** A ticker of one product emits nothing for another. *)
Lemma product_inv_other ev p q bbo trade :
  bbo_market_id bbo = p_market_id p -> tr_market_id trade = p_market_id p -> p_market_id p <> p_market_id q ->
  product_inv ev q -> product_inv (ev ++ ticker_events p bbo trade) q.
Proof.
  intros Hmb Hmt Hne. unfold product_inv. rewrite trade_ids_app, bbo_seqs_app, trade_ids_ticker, bbo_seqs_ticker by done.
  destruct (Z.eqb_spec (p_market_id p) (p_market_id q)); [done|]. cbn [andb]. by rewrite !app_nil_r.
Qed.

Definition segment_inv (ev : list Event) (s : Session) : Prop :=
  markets_ok s /\ forall i p, products s !! i = Some p -> product_inv ev p.

Lemma segment_inv_effect s out s' out' a : effect s out s' out' a ->
  exists ev', out' = out ++ ev' /\ (a = None -> forall ev, segment_inv ev s -> segment_inv (ev ++ ev') s').
Proof.
  intros [s1 a1 E _|s1 idx p bbo trade Hi Hmb Hmt Hnn Hps _|s1 idx p seq last a1 Hi Hl Hlt Hps _].
  - exists []. rewrite app_nil_r. split; [done|]. intros _ ev. rewrite app_nil_r. unfold segment_inv, markets_ok. by rewrite E.
  - exists (ticker_events p bbo trade). split; [done|]. intros Ha ev [Hm Hp]. unfold segment_inv, markets_ok. rewrite Hps. split.
    + intros i q [(<- & <- & _)|(_ & Hq)]%list_lookup_insert_Some; [by apply (Hm idx p)|by apply Hm].
    + intros i q [(<- & <- & _)|(Hne & Hq)]%list_lookup_insert_Some; [apply product_inv_ticker; eauto|].
      apply product_inv_other; [done|done| |by eapply Hp]. rewrite (Hm _ _ Hi), (Hm _ _ Hq). lia.
  - exists []. rewrite app_nil_r. split; [done|]. intros _ ev [Hm Hp]. rewrite app_nil_r.
    unfold segment_inv, markets_ok. rewrite Hps. split.
    + intros i q [(<- & <- & _)|(_ & Hq)]%list_lookup_insert_Some; [by apply (Hm idx p)|by apply Hm].
    + intros i q [(<- & <- & _)|(_ & Hq)]%list_lookup_insert_Some; [|by eapply Hp].
      destruct (Hp idx p Hi) as (H0 & Ht & Hs). rewrite Hl in Hs. destruct Hs as [Hss Hf].
      split; [done|]. split; [done|]. cbn. split; [done|]. eapply Forall_impl; [|exact Hf]. cbn; lia.
Qed.

(** An input that keeps the baselines. *)
Definition keeps_baselines (i : Input) : Prop :=
  match i with Message _ _ _ | Tick _ => True | Connected _ | ActionTaken _ => False end.

Lemma segment_run s out ins :
  segment_inv [] s -> Forall keeps_baselines ins ->
  exists s' ev acts, run s out ins = Done (s', out ++ ev, acts) /\ length acts = length ins /\
    (Forall (fun a => a = None) acts -> segment_inv ev s').
Proof.
  intros HI Hk. rewrite List.Forall_forall in Hk.
  destruct (run_invariant (fun s1 out1 tr => exists ev, out1 = out ++ ev /\
      (Forall (fun ia => ia.2 = None) tr -> segment_inv ev s1)) ins) with (s := s) (out := out) (tr := @nil (Input * option Action))
    as (s' & out' & acts & Er & Hl & ev & -> & Hev).
  - intros s1 out1 tr i Hin (ev & -> & Hev). specialize (Hk i Hin). destruct i as [now|payload t1 now|a|now]; try done; cbn.
    + destruct (on_message_effect s1 payload t1 now (out ++ ev)) as (s2 & out2 & a & -> & He).
      destruct (segment_inv_effect _ _ _ _ _ He) as (ev' & -> & Hs).
      do 3 eexists. split; [reflexivity|]. exists (ev ++ ev'). split; [by rewrite app_assoc|].
      rewrite Forall_app. intros [Ht Hf]. apply Hs; [by inversion Hf|by apply Hev].
    + do 3 eexists. split; [reflexivity|]. exists ev. split; [done|]. rewrite Forall_app. intros [? _]. by apply Hev.
  - exists []. by rewrite app_nil_r.
  - exists s', ev, acts. split; [done|]. split; [done|]. intros Hn. apply Hev. cbn [app].
    clear - Hn Hl. revert acts Hn Hl. induction ins as [|i ins IH]; intros [|a acts] Hn Hl; cbn; try done; constructor.
    + by inversion Hn.
    + apply IH; [by inversion Hn|by injection Hl].
Qed.

Lemma connected_segment s out now : dedup_inv s out -> segment_inv [] (on_connected s now).
Proof.
  intros (Hm & _ & Hp). split.
  - intros i p. cbn. rewrite list_lookup_fmap. destruct (products s !! i) as [q|] eqn:E; [|done].
    intros [= <-]. by apply (Hm i q).
  - intros i p. cbn. rewrite list_lookup_fmap. destruct (products s !! i) as [q|] eqn:E; [|done].
    intros [= <-]. by destruct (Hp i q E).
Qed.

(** ** The counters *)

Definition is_message (i : Input) : bool := match i with Message _ _ _ => true | _ => false end.
Definition is_resubscribed (i : Input) : bool := match i with ActionTaken (Resubscribe _) => true | _ => false end.
Definition is_reconnected (i : Input) : bool := match i with ActionTaken (Reconnect _) => true | _ => false end.
Definition asked_resubscribe (ia : Input * option Action) : bool := match ia.2 with Some (Resubscribe _) => true | _ => false end.
Definition count_if {A} (p : A -> bool) (l : list A) : Z := Z.of_nat (length (List.filter p l)).

(** When something was last heard: the time of the last connection or message. *)
Fixpoint last_heard (t : Z) (ins : list Input) : Z :=
  match ins with
  | [] => t
  | Connected now :: ins | Message _ _ now :: ins => last_heard now ins
  | _ :: ins => last_heard t ins
  end.

Lemma count_if_app {A} (p : A -> bool) l1 l2 : count_if p (l1 ++ l2) = count_if p l1 + count_if p l2.
Proof. unfold count_if. rewrite List.filter_app, length_app. lia. Qed.

Lemma count_if_one {A} (p : A -> bool) x : count_if p [x] = if p x then 1 else 0.
Proof. unfold count_if; cbn. by destruct (p x). Qed.

Lemma last_heard_app t l1 l2 : last_heard t (l1 ++ l2) = last_heard (last_heard t l1) l2.
Proof. revert t. induction l1 as [|[] l1 IH]; intros t; cbn; auto. Qed.

Definition account_inv (stale : Z) (s : Session) (out : list Event) (tr : list (Input * option Action)) : Prop :=
  wrap U64 (messages (stats s)) = wrap U64 (count_if is_message tr.*1) /\
  wrap U64 (events_emitted (stats s)) = wrap U64 (Z.of_nat (length out)) /\
  wrap U64 (anomalies (stats s)) = wrap U64 (count_if asked_resubscribe tr) /\
  wrap U64 (resubscribes (stats s)) = wrap U64 (count_if is_resubscribed tr.*1) /\
  wrap U64 (reconnects (stats s)) = wrap U64 (count_if is_reconnected tr.*1) /\
  last_message_ms s = last_heard 0 tr.*1 /\ stale_after_ms s = stale.

(** The counts of a trace with one more input. *)
Ltac trace_app :=
  rewrite !fmap_app, !count_if_app, last_heard_app; cbn [fmap list_fmap fst]; rewrite !count_if_one;
  cbn [is_message is_resubscribed is_reconnected asked_resubscribe snd last_heard].

Lemma account_step stale s out tr i : account_inv stale s out tr ->
  exists s' out' a, apply_input s out i = Done (s', out', a) /\ account_inv stale s' out' (tr ++ [(i, a)]).
Proof.
  unfold account_inv. intros (H1 & H2 & H3 & H4 & H5 & H6 & H7).
  destruct i as [now|payload t1 now|a|now]; cbn.
  - do 3 eexists. split; [reflexivity|]. trace_app. rewrite !Z.add_0_r. done.
  - destruct (on_message_effect s payload t1 now out) as (s' & out' & a & -> & He).
    do 3 eexists. split; [reflexivity|]. trace_app.
    assert (exists n, counted (received s now) s' n a /\ length out' = (length out + n)%nat) as (n & Hc & Hn).
    { inversion He; subst; eexists; (split; [eassumption|]); rewrite ?length_app; lia. }
    destruct Hc as (C1 & C2 & -> & -> & -> & -> & ->). rewrite Hn. clear He Hn.
    destruct s as [ps lm sa []]; cbn in *. unfold anomalies, asks_resubscribe in *; cbn in *.
    destruct a as [[]|]; unfold asked_resubscribe at 2; cbn in *; repeat split; try done; mint.
  - do 3 eexists. split; [reflexivity|]. trace_app.
    destruct s as [ps lm sa []], a; cbn in *; unfold anomalies in *; cbn in *; repeat split; try done; mint.
  - do 3 eexists. split; [reflexivity|]. trace_app. unfold on_tick. destruct (_ <? _); rewrite !Z.add_0_r; done.
Qed.

Module LiveSession.

(** C25: whatever the messages, connections, watchdog ticks and actions taken, a session of distinct
    markets handles all of them without a panic and never emits a trade twice: the trade ids it has
    emitted for a market are strictly increasing, also across resubscriptions and reconnections. *)
Theorem trades_emitted_once (names : list bytes) (stale : Z) (ins : list Input)
    (Hl : Z.of_nat (length names) < 4294967295) :
  exists s out acts, run (session_new names stale) [] ins = Done (s, out, acts) /\ length acts = length ins /\
    forall m, StronglySorted Z.lt (trade_ids m out).
Proof.
  destruct (dedup_run _ [] ins (dedup_inv_new names stale Hl)) as (s & out & acts & Er & Ha & _ & Hs & _).
  by exists s, out, acts.
Qed.

(** C26: after a (re)connection, as long as the session asks for no action, it has missed no trade and
    no quote was stale: the trade ids emitted for each product are consecutive numbers, and the
    sequence numbers of its quotes strictly increase.  So a lost or reordered ticker is always
    reported. *)
Theorem quiet_segment_complete (names : list bytes) (stale : Z) (hist seg : list Input) (now : Z)
    (Hl : Z.of_nat (length names) < 4294967295) (Hk : Forall keeps_baselines seg) :
  exists s0 out0 acts0 s ev acts,
    run (session_new names stale) [] hist = Done (s0, out0, acts0) /\
    run (on_connected s0 now) out0 seg = Done (s, out0 ++ ev, acts) /\ length acts = length seg /\
    (Forall (fun a => a = None) acts -> forall i p, products s !! i = Some p ->
       (exists a n, trade_ids (p_market_id p) ev = seqZ a n) /\ StronglySorted Z.lt (bbo_seqs (p_market_id p) ev)).
Proof.
  destruct (dedup_run _ [] hist (dedup_inv_new names stale Hl)) as (s0 & out0 & acts0 & Er & _ & HI).
  destruct (segment_run (on_connected s0 now) out0 seg (connected_segment _ _ now HI) Hk)
    as (s & ev & acts & Er' & Ha & Hseg).
  exists s0, out0, acts0, s, ev, acts. do 3 (split; [done|]). intros Hn i p Hp.
  destruct (proj2 (Hseg Hn) i p Hp) as (_ & Ht & Hs). split.
  - destruct (last_trade_id p); [destruct Ht as (_ & a & _ & ->); eauto|]. rewrite Ht. by exists 0, 0.
  - destruct (last_seq p); [apply Hs|]. rewrite Hs. constructor.
Qed.

(** The counters account for the run: the messages received, the events emitted, the
    integrity failures (each is exactly one request to resubscribe) and the actions taken, all modulo
    [2^64]; and the watchdog fires exactly when nothing was heard for longer than the limit. *)
Theorem counters_account (names : list bytes) (stale now : Z) (ins : list Input)
    (Hs : 0 <= stale) (Hnow : 0 <= now - last_heard 0 ins <= max_int U64) :
  exists s out acts, run (session_new names stale) [] ins = Done (s, out, acts) /\
    wrap U64 (messages (stats s)) = wrap U64 (count_if is_message ins) /\
    wrap U64 (events_emitted (stats s)) = wrap U64 (Z.of_nat (length out)) /\
    wrap U64 (anomalies (stats s)) = wrap U64 (count_if asked_resubscribe (zip ins acts)) /\
    wrap U64 (resubscribes (stats s)) = wrap U64 (count_if is_resubscribed ins) /\
    wrap U64 (reconnects (stats s)) = wrap U64 (count_if is_reconnected ins) /\
    on_tick s now = if stale <? now - last_heard 0 ins then Some (Reconnect Stale) else None.
Proof.
  destruct (run_invariant (account_inv stale) ins ltac:(intros; by apply account_step) (session_new names stale) [] [])
    as (s & out & acts & Er & Ha & HI); [done|].
  exists s, out, acts. split; [done|]. unfold account_inv in HI. rewrite app_nil_l, fst_zip in HI by lia.
  destruct HI as (? & ? & ? & ? & ? & Hlast & Hst). do 5 (split; [done|]).
  unfold on_tick. rewrite Hlast, Hst. unfold sat. cbn [min_int] in *. rewrite Z.min_l, Z.max_r by lia. done.
Qed.

(** A connection, a ticker, one with a lost predecessor, the resubscription and its snapshot. *)
Definition demo_ticker (seq id : bytes) : bytes :=
  flat_object [(lit "type", FStr (lit "ticker")); (lit "sequence", FRaw seq); (lit "product_id", FStr (lit "BTC-USD"));
    (lit "price", FStr (lit "77328.57")); (lit "best_bid", FStr (lit "77328.56")); (lit "best_bid_size", FStr (lit "1"));
    (lit "best_ask", FStr (lit "77328.57")); (lit "best_ask_size", FStr (lit "2")); (lit "side", FStr (lit "buy"));
    (lit "trade_id", FRaw id); (lit "last_size", FStr (lit "0.5"))].

Definition demo_inputs : list Input :=
  [Connected 1000; Message (demo_ticker (lit "5") (lit "10")) 0 1001; Message (demo_ticker (lit "8") (lit "11")) 0 1002;
   Message (demo_ticker (lit "9") (lit "13")) 0 1003;
   ActionTaken (Resubscribe (TradeIdGap 12 13)); Message (demo_ticker (lit "9") (lit "13")) 0 1004].

Lemma demo_answers :
  match run (session_new [lit "BTC-USD"] 5000) [] demo_inputs with
  | Done (s, out, acts) => trade_ids 1 out = [10; 11; 13] /\ bbo_seqs 1 out = [5; 8; 9; 9] /\
      acts = [None; None; None; Some (Resubscribe (TradeIdGap 12 13)); None; None] /\ trade_id_gaps (stats s) = 1
  | Panic => False
  end.
Proof. vm_compute. auto. Qed.

Lemma trades_emitted_once_witness :
  exists s out acts, run (session_new [lit "BTC-USD"] 5000) [] demo_inputs = Done (s, out, acts) /\ length acts = 6%nat /\
    forall m, StronglySorted Z.lt (trade_ids m out).
Proof. exact (trades_emitted_once [lit "BTC-USD"] 5000 demo_inputs ltac:(reflexivity)). Defined.

Lemma quiet_segment_complete_witness :
  exists s0 out0 acts0 s ev acts,
    run (session_new [lit "BTC-USD"] 5000) [] (take 4 demo_inputs) = Done (s0, out0, acts0) /\
    run (on_connected s0 2000) out0 (drop 5 demo_inputs) = Done (s, out0 ++ ev, acts) /\ length acts = 1%nat /\
    (Forall (fun a => a = None) acts -> forall i p, products s !! i = Some p ->
       (exists a n, trade_ids (p_market_id p) ev = seqZ a n) /\ StronglySorted Z.lt (bbo_seqs (p_market_id p) ev)).
Proof.
  exact (quiet_segment_complete [lit "BTC-USD"] 5000 (take 4 demo_inputs) (drop 5 demo_inputs) 2000
    ltac:(reflexivity) ltac:(repeat constructor)).
Defined.

Lemma counters_account_witness :
  exists s out acts, run (session_new [lit "BTC-USD"] 5000) [] demo_inputs = Done (s, out, acts) /\
    on_tick s 6005 = Some (Reconnect Stale).
Proof.
  destruct (counters_account [lit "BTC-USD"] 5000 6005 demo_inputs ltac:(lia) ltac:(vm_compute; split; discriminate))
    as (s & out & acts & Er & _ & _ & _ & _ & _ & Ht).
  exists s, out, acts. split; [exact Er|exact Ht].
Defined.

(** A regression stores the lower number, although [last_seq] is meant to be the highest seen. *)
Lemma regression_lowers_baseline :
  match run (session_new [lit "BTC-USD"] 5000) []
    [Message (demo_ticker (lit "9") (lit "10")) 0 1; Message (demo_ticker (lit "5") (lit "11")) 0 2] with
  | Done (s, _, _) => last_seq <$> products s = [Some 5]
  | Panic => False
  end.
Proof. vm_compute. done. Qed.
End LiveSession.
