(* ===== verification/Curve.v ===== *)
(** * amm-virtualizer/src/curve.rs: Curve stableswap pools

    The pool, its two Newton solvers on 256-bit integers (U256.v), the swap, the spot price and the
    discretisation into the price ladder.  The solvers are compared with the same iterations on
    unbounded integers, and the second with the root of its quadratic. *)

From S2P Require Import Prelude OrderBook U256 Amm.

(** ** Fallible computations that may also panic *)

Definition maybe_bind {A B} (o : outcome (option A)) (k : A -> outcome (option B)) : outcome (option B) :=
  match o with Done (Some a) => k a | Done None => Done None | Panic => Panic end.
Notation "'let!?' x ':=' e 'in' k" := (maybe_bind e (fun x => k))
  (at level 10, x pattern, e at level 100, k at level 200) : rust_scope.

(** Indexing an array. *)
Definition get_at (l : list Z) (i : nat) : outcome Z :=
  match l !! i with Some v => Done v | None => Panic end.
Definition set_at (l : list Z) (i : nat) (v : Z) : outcome (list Z) :=
  match l !! i with Some _ => Done (<[i:=v]> l) | None => Panic end.

(** ** The pool *)

Definition MAX_COINS : nat := 3%nat.

Record CurvePool := mkCurve {
  n_coins : nat;
  raw_reserves : list Z;
  multipliers : list Z;
  amp : Z;
  curve_fee_bps : Z;
}.

(** [10u128.pow((18 - decimals) as u32)] *)
Definition multiplier (decimals : Z) : Z := pow10 (18 -[U8] decimals).

Definition new_2pool (r0 r1 d0 d1 a fee : Z) : CurvePool :=
  mkCurve 2 [r0; r1; 0] [multiplier d0; multiplier d1; 1] a fee.

Definition new_3pool (r0 r1 r2 d0 d1 d2 a fee : Z) : CurvePool :=
  mkCurve 3 [r0; r1; r2] [multiplier d0; multiplier d1; multiplier d2] a fee.

Fixpoint normalize_loop (p : CurvePool) (coins : list nat) (xp : list Z) : outcome (list Z) :=
  match coins with
  | [] => Done xp
  | i :: coins =>
      let! r := get_at (raw_reserves p) i in
      let! m := get_at (multipliers p) i in
      let! xp := set_at xp i (r *[U128] m) in
      normalize_loop p coins xp
  end.

Definition normalized_reserves (p : CurvePool) : outcome (list Z) :=
  normalize_loop p (seq 0 (n_coins p)) (replicate MAX_COINS 0).

(** ** The invariant D *)

Fixpoint sum_loop (xp : list Z) (coins : list nat) (s : Z) : outcome Z :=
  match coins with
  | [] => Done s
  | i :: coins => let! x := get_at xp i in sum_loop xp coins (s +[U128] x)
  end.

(** [d_p = d_p * d / (x[i] * n)] for each coin. *)
Fixpoint dp_loop (xp : list Z) (n_u d : U256) (coins : list nat) (d_p : U256) : outcome (option U256) :=
  match coins with
  | [] => Done (Some d_p)
  | i :: coins =>
      let! x := get_at xp i in
      let denom := u_mul (from_u128 x) n_u in
      if is_zero denom then Done None
      else let! q := u_div (u_mul d_p d) denom in dp_loop xp n_u d coins q
  end.

(** The two solvers' stopping test. *)
Definition converged (x prev : U256) : bool :=
  if u_lt prev x then u_le (u_sub x prev) U256_ONE else u_le (u_sub prev x) U256_ONE.

Fixpoint d_loop (fuel : nat) (p : CurvePool) (xp : list Z) (n_u ann_u s_u d : U256) : outcome (option Z) :=
  match fuel with
  | O => Done (Some (as_u128 d))
  | S fuel =>
      let!? d_p := dp_loop xp n_u d (seq 0 (n_coins p)) d in
      let d_prev := d in
      let numerator := u_mul (u_add (u_mul ann_u s_u) (u_mul d_p n_u)) d in
      let denominator := u_add (u_mul (u_sub ann_u U256_ONE) d) (u_mul (u_add n_u U256_ONE) d_p) in
      if is_zero denominator then Done None
      else
        let! d := u_div numerator denominator in
        if converged d d_prev then Done (Some (as_u128 d)) else d_loop fuel p xp n_u ann_u s_u d
  end.

Definition n_pow_n (p : CurvePool) : Z := if (n_coins p =? 2)%nat then 4 else 27.

Definition get_d (p : CurvePool) (xp : list Z) : outcome (option Z) :=
  let n := Z.of_nat (n_coins p) in
  let! s := sum_loop xp (seq 0 (n_coins p)) 0 in
  if s =? 0 then Done (Some 0)
  else
    let ann := amp p *[U128] n_pow_n p in
    d_loop 255 p xp (from_u128 n) (from_u128 ann) (from_u128 s) (from_u128 s).

(** ** The output reserve y *)

(** The product and the sum over the coins other than [j]; coin [i] counts as [x]. *)
Fixpoint c_loop (xp : list Z) (i j : nat) (x : Z) (n_u d : U256) (coins : list nat) (c : U256) (s : Z) :
    outcome (option (U256 * Z)) :=
  match coins with
  | [] => Done (Some (c, s))
  | k :: coins =>
      if (negb (k =? i) && (k =? j))%nat then c_loop xp i j x n_u d coins c s
      else
        let! x_val := if (k =? i)%nat then Done x else get_at xp k in
        let s := s +[U128] x_val in
        let denom := u_mul (from_u128 x_val) n_u in
        if is_zero denom then Done None
        else let! q := u_div (u_mul c d) denom in c_loop xp i j x n_u d coins q s
  end.

Fixpoint y_loop (fuel : nat) (b c d y : U256) : outcome (option Z) :=
  match fuel with
  | O => Done (Some (as_u128 y))
  | S fuel =>
      let y_prev := y in
      let numerator := u_add (u_mul y y) c in
      let denom_sum := u_add (u_mul (from_u128 2) y) b in
      if u_le denom_sum d then Done None
      else
        let! y := u_div numerator (u_sub denom_sum d) in
        if converged y y_prev then Done (Some (as_u128 y)) else y_loop fuel b c d y
  end.

Definition get_y (p : CurvePool) (i j : nat) (x : Z) (xp : list Z) : outcome (option Z) :=
  if ((i =? j) || (n_coins p <=? i) || (n_coins p <=? j))%nat then Done None
  else
    let!? d_val := get_d p xp in
    let d := from_u128 d_val in
    let n_u := from_u128 (Z.of_nat (n_coins p)) in
    let ann_u := from_u128 (amp p *[U128] n_pow_n p) in
    let!? cs := c_loop xp i j x n_u d (seq 0 (n_coins p)) d 0 in
    let ann_n := u_mul ann_u n_u in
    if is_zero ann_n then Done None
    else
      let! c := u_div (u_mul cs.1 d) ann_n in
      let! q := u_div d ann_u in
      y_loop 255 (u_add (from_u128 cs.2) q) c d d.

(** ** Swaps and the ladder *)

Definition calculate_swap_output (p : CurvePool) (i j : nat) (dx : Z) : outcome (option Z) :=
  let! xp := normalized_reserves p in
  let! mi := get_at (multipliers p) i in
  let! xi := get_at xp i in
  let!? new_y := get_y p i j (xi +[U128] (dx *[U128] mi)) xp in
  let! xj := get_at xp j in
  if new_y <? xj then
    let dy_norm := xj -[U128] new_y in
    let fee_norm := (dy_norm *[U128] curve_fee_bps p) / 10000 in
    let dy_net_norm := sat U128 (dy_norm - fee_norm) in
    let! mj := get_at (multipliers p) j in
    let! dy := udiv dy_net_norm mj in
    Done (Some dy)
  else Done None.

Definition curve_spot_price_scaled (p : CurvePool) (i j : nat) : outcome Z :=
  let! mi := get_at (multipliers p) i in
  let! unit_dx := udiv (10 ^ 18) mi in
  let! r := calculate_swap_output p i j unit_dx in
  match r with
  | Some dy =>
      let! mj := get_at (multipliers p) j in
      let dy_norm := dy *[U128] mj in
      Done (wrap I64 ((dy_norm *[U128] 100000000) / 10 ^ 18))
  | None => Done 100000000
  end.

(** One band of the ladder. *)
Definition curve_band (p : CurvePool) (i j : nat) (spot base_raw ts_ns : Z) (book : ContiguousOrderBook) (bps : Z) :
    outcome ContiguousOrderBook :=
  let target_ask := spot +[I64] Z.quot (spot *[I64] bps) 10000 in
  let target_bid := sat I64 (spot - Z.quot (spot *[I64] bps) 10000) in
  let dx_chunk := (base_raw *[U128] bps) / 10000 in
  let! r := calculate_swap_output p i j dx_chunk in
  match r with
  | Some dy =>
      let! mj := get_at (multipliers p) j in
      let qty_scaled := wrap U64 ((dy *[U128] mj *[U128] 100000000) / 10 ^ 18) in
      let book := write_ask book target_ask qty_scaled ts_ns in
      Done (if 0 <? target_bid then update_bid book target_bid qty_scaled 1 ts_ns else book)
  | None => Done book
  end.

Fixpoint curve_bands (p : CurvePool) (i j : nat) (spot base_raw : Z) (book : ContiguousOrderBook) (bands_bps : list Z)
    (ts_ns : Z) : outcome ContiguousOrderBook :=
  match bands_bps with
  | [] => Done book
  | bps :: bands =>
      let! book := curve_band p i j spot base_raw ts_ns book bps in
      curve_bands p i j spot base_raw book bands ts_ns
  end.

Definition curve_populate (p : CurvePool) (book : ContiguousOrderBook) (i j : nat) (bands_bps : list Z) (ts_ns : Z) :
    outcome ContiguousOrderBook :=
  let! spot := curve_spot_price_scaled p i j in
  if spot <=? 0 then Done book
  else
    let! base_raw := get_at (raw_reserves p) i in
    curve_bands p i j spot base_raw book bands_bps ts_ns.

(** ** U256 operations on represented integers *)

#[local] Arguments u_mul : simpl never.
#[local] Arguments u_add : simpl never.
#[local] Arguments u_sub : simpl never.
#[local] Arguments u_div : simpl never.
#[local] Arguments u_le : simpl never.
#[local] Arguments from_u128 : simpl never.
#[local] Arguments is_zero : simpl never.
#[local] Arguments converged : simpl never.
#[local] Arguments of_Z : simpl never.

Lemma of_Z_eq_mod a b : a mod 2 ^ 256 = b mod 2 ^ 256 -> of_Z a = of_Z b.
Proof. intros H. by rewrite <- (of_Z_mod a), H, of_Z_mod. Qed.

Lemma u_mul_Z a b : u_mul (of_Z a) (of_Z b) = of_Z (a * b).
Proof.
  rewrite u_mul_of_Z, !val_of_Z by apply of_Z_ok. apply of_Z_eq_mod. by rewrite <- Zmult_mod.
Qed.
Lemma u_add_Z a b : u_add (of_Z a) (of_Z b) = of_Z (a + b).
Proof.
  rewrite u_add_of_Z, !val_of_Z by apply of_Z_ok. apply of_Z_eq_mod. by rewrite <- Zplus_mod.
Qed.
Lemma u_sub_Z a b : u_sub (of_Z a) (of_Z b) = of_Z (a - b).
Proof.
  rewrite u_sub_of_Z, !val_of_Z by apply of_Z_ok. apply of_Z_eq_mod. by rewrite <- Zminus_mod.
Qed.

Definition u_range (z : Z) : Prop := 0 <= z < 2 ^ 256.

Lemma u_div_Z a b : u_range a -> 0 < b < 2 ^ 256 -> u_div (of_Z a) (of_Z b) = Done (of_Z (a / b)).
Proof.
  intros Ha Hb. rewrite u_div_of_Z by apply of_Z_ok. unfold u_range in Ha.
  rewrite !val_small by lia. by destruct (Z.eqb_spec b 0); [lia|].
Qed.
Lemma u_le_Z a b : u_range a -> u_range b -> u_le (of_Z a) (of_Z b) = (a <=? b).
Proof. intros Ha Hb. rewrite u_le_val, !val_small by (done || apply of_Z_ok). done. Qed.
Lemma u_lt_Z a b : u_range a -> u_range b -> u_lt (of_Z a) (of_Z b) = (a <? b).
Proof. intros Ha Hb. rewrite u_lt_val, !val_small by (done || apply of_Z_ok). done. Qed.
Lemma is_zero_Z a : u_range a -> is_zero (of_Z a) = (a =? 0).
Proof. intros Ha. rewrite is_zero_val, val_small by (done || apply of_Z_ok). done. Qed.
Lemma from_u128_Z v : 0 <= v < 2 ^ 128 -> from_u128 v = of_Z v.
Proof. intros Hv. apply from_u128_of_Z. by apply range128. Qed.
Lemma as_u128_Z v : 0 <= v < 2 ^ 128 -> as_u128 (of_Z v) = v.
Proof. intros Hv. cbn. by apply Z.mod_small. Qed.
Lemma one_Z : U256_ONE = of_Z 1.
Proof. reflexivity. Qed.

Lemma converged_Z a b : u_range a -> u_range b -> converged (of_Z a) (of_Z b) = (Z.abs (a - b) <=? 1).
Proof.
  unfold u_range. intros Ha Hb. unfold converged. rewrite u_lt_Z, one_Z, !u_sub_Z by done.
  destruct (Z.ltb_spec b a); rewrite u_le_Z by (unfold u_range; lia); f_equal; lia.
Qed.

(** A division by a number tested not to be zero has a result. *)
Lemma u_div_some a b : is_zero b = false -> exists q, u_div a b = Done q.
Proof. intros H. unfold u_div. rewrite H. repeat case_match; eauto. Qed.

(** ** No panic *)

Lemma get_at_some l i : (i < length l)%nat -> exists v, l !! i = Some v /\ get_at l i = Done v.
Proof. intros H. unfold get_at. destruct (lookup_lt_is_Some_2 l i H) as [v ->]. eauto. Qed.

Lemma sum_loop_some xp coins s : Forall (fun i => (i < length xp)%nat) coins -> exists r, sum_loop xp coins s = Done r.
Proof.
  intros H. revert s. induction H as [|i coins Hi _ IH]; intros s; cbn; [eauto|].
  destruct (get_at_some xp i Hi) as (v & _ & ->). apply IH.
Qed.

Lemma dp_loop_some xp n_u d coins dp :
  Forall (fun i => (i < length xp)%nat) coins -> exists r, dp_loop xp n_u d coins dp = Done r.
Proof.
  intros H. revert dp. induction H as [|i coins Hi _ IH]; intros dp; cbn; [eauto|].
  destruct (get_at_some xp i Hi) as (v & _ & ->). cbn. destruct (is_zero (u_mul (from_u128 v) n_u)) eqn:E; [eauto|].
  destruct (u_div_some (u_mul dp d) _ E) as [q ->]. apply IH.
Qed.

Lemma d_loop_some fuel p xp n_u ann_u s_u d :
  (n_coins p <= length xp)%nat -> exists r, d_loop fuel p xp n_u ann_u s_u d = Done r.
Proof.
  intros Hn. revert d. induction fuel as [|fuel IH]; intros d; cbn [d_loop]; [eauto|].
  destruct (dp_loop_some xp n_u d (seq 0 (n_coins p)) d) as [[dp|] ->]; [|cbn|eauto].
  { apply Forall_seq. lia. }
  cbn [maybe_bind]. cbv zeta. destruct (is_zero _) eqn:E; [eauto|].
  destruct (u_div_some (u_mul (u_add (u_mul ann_u s_u) (u_mul dp n_u)) d) _ E) as [q ->]. cbn.
  destruct (converged q d); eauto.
Qed.

Lemma get_d_some p xp : (n_coins p <= length xp)%nat -> exists r, get_d p xp = Done r.
Proof.
  intros Hn. unfold get_d. destruct (sum_loop_some xp (seq 0 (n_coins p)) 0) as [s ->]; [apply Forall_seq; lia|].
  cbn [outcome_bind]. destruct (s =? 0); [eauto|]. by apply d_loop_some.
Qed.

Lemma c_loop_some xp i j x n_u d coins c s :
  Forall (fun i => (i < length xp)%nat) coins -> exists r, c_loop xp i j x n_u d coins c s = Done r.
Proof.
  intros H. revert c s. induction H as [|k coins Hk _ IH]; intros c s; cbn [c_loop]; [eauto|].
  destruct (_ && _)%nat; [done|].
  assert (exists v, (if (k =? i)%nat then Done x else get_at xp k) = Done v) as [v ->].
  { destruct (k =? i)%nat; [eauto|]. destruct (get_at_some xp k Hk) as (v & _ & ->). eauto. }
  cbn. destruct (is_zero (u_mul (from_u128 v) n_u)) eqn:E; [eauto|].
  destruct (u_div_some (u_mul c d) _ E) as [q ->]. apply IH.
Qed.

Lemma of_Z_surj u : u_ok u -> exists z, u = of_Z z /\ u_range z.
Proof. intros H. exists (val u). split; [by rewrite of_Z_val|]. by apply val_range. Qed.

Lemma u_div_ok a b q : u_ok a -> u_ok b -> u_div a b = Done q -> u_ok q.
Proof.
  intros Ha Hb. rewrite u_div_of_Z by done. destruct (val b =? 0); [done|]. intros [= <-]. apply of_Z_ok.
Qed.

Lemma y_loop_some fuel b c d y : u_ok b -> u_ok c -> u_ok d -> u_ok y ->
  exists r, y_loop fuel b c d y = Done r /\ forall v, r = Some v -> in_range U128 v.
Proof.
  intros Hb Hc Hd Hy. destruct (of_Z_surj d Hd) as (dz & -> & Hdz).
  revert y Hy. induction fuel as [|fuel IH]; intros y Hy; cbn [y_loop].
  { eexists. split; [done|]. intros v [= <-]. apply Hy. }
  destruct (of_Z_surj y Hy) as (yz & -> & Hyz).
  assert (u_ok (u_add (u_mul (from_u128 2) (of_Z yz)) b)) as Hs.
  { rewrite u_add_of_Z; [apply of_Z_ok| |done]. rewrite from_u128_Z, u_mul_Z by lia. apply of_Z_ok. }
  destruct (of_Z_surj _ Hs) as (sz & -> & Hsz). rewrite u_le_Z by done. destruct (Z.leb_spec sz dz); [by exists None|].
  rewrite u_sub_Z. unfold u_range in *.
  assert (is_zero (of_Z (sz - dz)) = false) as Hz.
  { rewrite is_zero_Z by (unfold u_range; lia). apply Z.eqb_neq. lia. }
  assert (u_ok (u_add (u_mul (of_Z yz) (of_Z yz)) c)) as Hn by (rewrite u_mul_Z, u_add_of_Z by (done || apply of_Z_ok); apply of_Z_ok).
  destruct (u_div_some (u_add (u_mul (of_Z yz) (of_Z yz)) c) _ Hz) as [q Hq]. rewrite Hq. cbn [outcome_bind].
  assert (u_ok q) as Hqok by (eapply u_div_ok; [exact Hn|apply of_Z_ok|exact Hq]).
  destruct (converged q (of_Z yz)); [|by apply IH]. eexists. split; [done|]. intros v [= <-]. apply Hqok.
Qed.

(** ** The quadratic of the second solver *)

Section Quadratic.
Variables (beta c : Z).
Hypothesis Hc : 1 <= c.

(** The polynomial the solver looks for the root of, and the step of the iteration. *)
Definition quad (y : Z) : Z := y * y + beta * y - c.
Definition quad_step (y : Z) : Z := (y * y + c) / (2 * y + beta).

(** [R] is the least natural number where the polynomial is not negative. *)
Definition quad_root (R : Z) : Prop := 1 <= R /\ 0 <= quad R /\ quad (R - 1) < 0.

Lemma quad_root_exists n : 0 <= n -> 0 <= quad n -> exists R, quad_root R /\ R <= n.
Proof.
  intros Hn. pattern n. apply natlike_ind; [unfold quad; lia| |done]. intros m Hm IH Hq.
  destruct (Z.lt_ge_cases (quad m) 0).
  - exists (Z.succ m). split; [|lia]. split; [lia|]. split; [done|]. by replace (Z.succ m - 1) with m by lia.
  - destruct (IH ltac:(lia)) as (R & HR & Hle). exists R. split; [done|lia].
Qed.

Lemma quad_pos_ge R y : quad_root R -> 0 <= y -> 0 <= quad y -> R <= y.
Proof. unfold quad_root, quad. 
  intros (H1 & H2 & H3) Hy Hq. destruct (Z.le_gt_cases R y); [done|]. exfalso.
  assert (1 <= y + beta) by nia.
  assert (y * (y + beta) <= (R - 1) * (R - 1 + beta)) by (apply Z.mul_le_mono_nonneg; lia). lia.
Qed.

Lemma quad_root_slope R : quad_root R -> 1 <= R + beta.
Proof. unfold quad_root, quad. intros (H1 & H2 & H3). nia. Qed.

(** Where the next number is above the root, the denominator is positive. *)
Lemma quad_den y : 0 <= y -> 0 < quad (y + 1) -> 1 <= 2 * y + beta.
Proof.
  unfold quad. intros Hy H.
  assert (1 <= y + 1 + beta) by nia.
  destruct (Z.le_gt_cases 1 (2 * y + beta)) as [|Hd]; [done|]. assert (y + 1 + beta = 1 /\ y = 0) as [] by lia. nia.
Qed.

Lemma quad_step_bounds y : 1 <= 2 * y + beta ->
  quad_step y * (2 * y + beta) <= y * y + c < (quad_step y + 1) * (2 * y + beta).
Proof.
  intros Hd. unfold quad_step. pose proof (Z.mul_div_le (y * y + c) (2 * y + beta) ltac:(lia)).
  pose proof (Z.mul_succ_div_gt (y * y + c) (2 * y + beta) ltac:(lia)). lia.
Qed.

Lemma quad_step_nonneg y : 1 <= 2 * y + beta -> 0 <= quad_step y.
Proof. intros Hd. apply Z.div_pos; nia. Qed.

(** Every step lands at least one below the root, at most at the middle. *)
Lemma quad_step_above y : 1 <= 2 * y + beta -> 0 < quad (quad_step y + 1).
Proof.
  intros Hd. pose proof (quad_step_bounds y Hd) as [_ H]. unfold quad. set (z := quad_step y) in *.
  pose proof (Z.square_nonneg (z + 1 - y)). lia.
Qed.

Lemma quad_step_ge R y : quad_root R -> 1 <= 2 * y + beta -> R - 1 <= quad_step y.
Proof.
  intros HR Hd. pose proof (quad_step_above y Hd). pose proof (quad_step_nonneg y Hd).
  pose proof (quad_pos_ge R (quad_step y + 1) HR ltac:(lia) ltac:(lia)). lia.
Qed.

Lemma quad_step_half R y : quad_root R -> R <= y -> 2 * (quad_step y - R) <= y - R.
Proof.
  intros HR Hy. pose proof (quad_root_slope R HR) as Hs. unfold quad_root in HR.
  pose proof (quad_step_bounds y ltac:(lia)) as [H _]. unfold quad in HR. set (z := quad_step y) in *.
  destruct (Z.le_gt_cases (2 * z) (y + R)); [lia|].
  assert ((y + R + 1) * (2 * y + beta) <= 2 * z * (2 * y + beta)) by (apply Z.mul_le_mono_nonneg_r; lia).
  nia.
Qed.

Lemma quad_step_below y : 1 <= 2 * y + beta -> 0 < quad (y + 1) -> quad y < 0 -> quad_step y <= y + 1.
Proof.
  intros Hd Hq Hy. pose proof (quad_step_bounds y Hd) as [H _]. unfold quad in *. set (z := quad_step y) in *.
  destruct (Z.le_gt_cases z (y + 1)); [done|].
  assert ((y + 2) * (2 * y + beta) <= z * (2 * y + beta)) by (apply Z.mul_le_mono_nonneg_r; lia). lia.
Qed.

(** A step of at most one ends at the root, up to one. *)
Definition near_root (y : Z) : Prop := 0 <= y /\ quad y <= 1 /\ 0 < quad (y + 1).

Lemma quad_step_near y : 1 <= 2 * y + beta -> Z.abs (quad_step y - y) <= 1 -> near_root (quad_step y).
Proof.
  intros Hd Ha. pose proof (quad_step_bounds y Hd) as [H _]. split; [by apply quad_step_nonneg|].
  split; [|by apply quad_step_above]. unfold quad. set (z := quad_step y) in *. nia.
Qed.
End Quadratic.

(** ** The second solver converges to the root *)

(** One turn of the loop on represented integers. *)
Lemma y_loop_turn fuel b c d y :
  0 <= y < 2 ^ 127 -> 0 <= b < 2 ^ 255 -> 0 <= c < 2 ^ 255 -> u_range d -> 1 <= 2 * y + (b - d) ->
  y_loop (S fuel) (of_Z b) (of_Z c) (of_Z d) (of_Z y) =
    let y' := quad_step (b - d) c y in
    if Z.abs (y' - y) <=? 1 then Done (Some (as_u128 (of_Z y'))) else y_loop fuel (of_Z b) (of_Z c) (of_Z d) (of_Z y').
Proof.
  intros Hy Hb Hc Hd Hden. cbn [y_loop]. unfold u_range in Hd.
  assert (0 <= y * y < 2 ^ 254) by (split; [nia|]; change (2 ^ 254) with (2 ^ 127 * 2 ^ 127); nia).
  rewrite from_u128_Z, !u_mul_Z, !u_add_Z, u_sub_Z by lia. rewrite u_le_Z by (unfold u_range; lia).
  destruct (Z.leb_spec (2 * y + b) d); [lia|].
  rewrite u_div_Z by (unfold u_range; lia). cbn [outcome_bind]. replace (2 * y + b - d) with (2 * y + (b - d)) by lia.
  fold (quad_step (b - d) c y). rewrite converged_Z; [done| |unfold u_range; lia].
  unfold u_range, quad_step. split; [apply Z.div_pos; lia|].
  apply Z.le_lt_trans with (y * y + c); [|lia]. apply Z.div_le_upper_bound; nia.
Qed.

Lemma y_loop_root fuel b c d R m : forall y M,
  1 <= c < 2 ^ 255 -> 0 <= b < 2 ^ 255 -> u_range d -> quad_root (b - d) c R ->
  0 <= y <= M -> M < 2 ^ 127 - 1 -> 0 < quad (b - d) c (y + 1) -> y - R < 2 ^ Z.of_nat m -> (m < fuel)%nat ->
  exists y', y_loop fuel (of_Z b) (of_Z c) (of_Z d) (of_Z y) = Done (Some y') /\ near_root (b - d) c y'.
Proof.
  revert m. induction fuel as [|fuel IH]; intros m y M Hc Hb Hd HR Hy HM Hq Hm Hf; [lia|].
  pose proof (quad_den _ c ltac:(lia) y ltac:(lia) Hq) as Hden. rewrite y_loop_turn by (done || lia). cbv zeta.
  pose proof (quad_step_nonneg _ c ltac:(lia) y Hden) as Hp.
  pose proof (quad_step_ge _ c ltac:(lia) R y HR Hden) as Hge.
  destruct (Z.leb_spec (Z.abs (quad_step (b - d) c y - y)) 1) as [Ha|Ha].
  - exists (quad_step (b - d) c y). rewrite as_u128_Z by lia. split; [done|]. apply quad_step_near; lia.
  - assert (R <= y + 1) as HRy. { apply (quad_pos_ge (b - d) c); [lia|exact HR|lia|lia]. }
    assert (R <= y) as HRy'.
    { destruct (Z.le_gt_cases R y); [done|]. assert (y = R - 1) as -> by lia.
      pose proof (quad_step_below _ c (R - 1) Hden Hq (proj2 (proj2 HR))). lia. }
    pose proof (quad_step_half _ c ltac:(lia) R y HR HRy') as Hh.
    destruct m as [|m]; [cbn in Hm; lia|].
    apply (IH m _ M); try done; try lia; [by apply quad_step_above; lia|].
    rewrite Nat2Z.inj_succ, Z.pow_succ_r in Hm by lia. lia.
Qed.

(** From any start: one turn reaches the region of the lemma above. *)
Lemma y_loop_start b c d :
  1 <= c < 2 ^ 255 -> 1 <= b < 2 ^ 255 -> 0 <= d < 2 ^ 126 -> c / b < 2 ^ 126 - 2 ->
  exists y, y_loop 255 (of_Z b) (of_Z c) (of_Z d) (of_Z d) = Done (Some y) /\ near_root (b - d) c y.
Proof.
  intros Hc Hb Hd Hcb. rewrite y_loop_turn by (unfold u_range; lia). cbv zeta.
  assert (1 <= 2 * d + (b - d)) as Hden by lia.
  pose proof (quad_step_nonneg _ c ltac:(lia) d Hden) as Hp.
  pose proof (quad_step_bounds _ c d Hden) as [H1 _].
  pose proof (quad_step_above _ c d Hden) as Hq.
  pose proof (Z.mul_succ_div_gt c b ltac:(lia)) as Hdiv.
  assert (quad_step (b - d) c d <= d + c / b + 1) as HM.
  { set (z := quad_step (b - d) c d) in *. destruct (Z.le_gt_cases z (d + c / b + 1)); [done|].
    assert ((d + c / b + 2) * (d + b) <= z * (d + b)) by (apply Z.mul_le_mono_nonneg_r; lia).
    replace (2 * d + (b - d)) with (d + b) in H1 by lia.
    assert (0 <= c / b) by (apply Z.div_pos; lia). nia. }
  destruct (Z.leb_spec (Z.abs (quad_step (b - d) c d - d)) 1) as [Ha|Ha].
  - exists (quad_step (b - d) c d). rewrite as_u128_Z by lia. split; [done|]. apply quad_step_near; lia.
  - destruct (quad_root_exists (b - d) c ltac:(lia) (quad_step (b - d) c d + 1) ltac:(lia) ltac:(lia)) as (R & HR & HRle).
    apply (y_loop_root 254 b c d R 127 _ (quad_step (b - d) c d)); try done; try lia.
    + unfold u_range; lia.
    + unfold quad_root in HR. lia.
Qed.

(** ** The loops over the coins *)

Section Coins.
Variables (n D : Z) (xp : list Z).
Hypothesis Hn : 2 <= n <= 3.

(** [q] times [D / (x * n)] for each balance [x], rounded down at every step. *)
Definition ratio (q : Z) (l : list Z) : Z := fold_left (fun q x => q * D / (x * n)) l q.

(** A balance the loops handle exactly: not more than 1024 times below the average. *)
Definition coin_ok (x : Z) : Prop := 1 <= x < 2 ^ 120 /\ D <= 1024 * (x * n).

Lemma ratio_step q x : 0 <= q -> 0 <= D -> coin_ok x -> 0 <= q * D / (x * n) <= q * 1024.
Proof.
  intros Hq HD [Hx Hr]. split; [apply Z.div_pos; nia|]. apply Z.div_le_upper_bound; [nia|].
  assert (q * D <= q * (1024 * (x * n))) by (apply Z.mul_le_mono_nonneg_l; lia). lia.
Qed.

Lemma ratio_bounds l q : 0 <= q -> 0 <= D -> Forall coin_ok l -> 0 <= ratio q l <= q * 1024 ^ Z.of_nat (length l).
Proof.
  intros Hq HD Hl. revert q Hq. induction Hl as [|x l Hx _ IH]; intros q Hq; cbn [ratio fold_left length]; [lia|].
  pose proof (ratio_step q x Hq HD Hx). destruct (IH (q * D / (x * n)) ltac:(lia)) as [H1 H2].
  rewrite Nat2Z.inj_succ, Z.pow_succ_r by lia. unfold ratio in *. split; [done|].
  assert (0 < 1024 ^ Z.of_nat (length l)) by (apply Z.pow_pos_nonneg; lia). nia.
Qed.

Lemma div_turn q x : 0 <= q < 2 ^ 130 -> 0 <= D < 2 ^ 97 -> coin_ok x ->
  is_zero (u_mul (from_u128 x) (of_Z n)) = false /\
  u_div (u_mul (of_Z q) (of_Z D)) (u_mul (from_u128 x) (of_Z n)) = Done (of_Z (q * D / (x * n))).
Proof.
  intros Hq HD [Hx _]. rewrite from_u128_Z, !u_mul_Z by lia.
  assert (0 <= q * D < 2 ^ 227) by (split; [nia|]; change (2 ^ 227) with (2 ^ 130 * 2 ^ 97); nia).
  rewrite is_zero_Z, u_div_Z by (unfold u_range; nia). split; [apply Z.eqb_neq; nia|done].
Qed.

Lemma dp_loop_exact coins l q :
  0 <= D < 2 ^ 97 -> Forall2 (fun i x => xp !! i = Some x) coins l -> Forall coin_ok l ->
  0 <= q -> q * 1024 ^ Z.of_nat (length l) < 2 ^ 130 ->
  dp_loop xp (of_Z n) (of_Z D) coins (of_Z q) = Done (Some (of_Z (ratio q l))).
Proof.
  intros HD Hl. revert q. induction Hl as [|i x coins l Hi _ IH]; intros q Hok Hq Hb; cbn [dp_loop]; [done|].
  apply Forall_cons_1 in Hok as [Hx Hok]. unfold get_at. rewrite Hi. cbn [outcome_bind length] in *.
  rewrite Nat2Z.inj_succ, Z.pow_succ_r in Hb by lia.
  assert (1 <= 1024 ^ Z.of_nat (length l)) by (pose proof (Z.pow_pos_nonneg 1024 (Z.of_nat (length l))); lia).
  assert (0 <= q < 2 ^ 130) as Hq' by nia. destruct (div_turn q x Hq' HD Hx) as [-> ->]. cbn [outcome_bind].
  pose proof (ratio_step q x Hq ltac:(lia) Hx). cbn [ratio fold_left]. apply IH; [done|lia|nia].
Qed.

(** The balances the second solver multiplies: all but coin [j], with [x] for coin [i]. *)
Definition others (i j : nat) (x : Z) (coins : list nat) : list Z :=
  omap (fun k => if (k =? i)%nat then Some x else if (k =? j)%nat then None else xp !! k) coins.

Lemma c_loop_exact i j x coins : forall q s,
  0 <= D < 2 ^ 97 -> Forall (fun k => (k < length xp)%nat) coins ->
  Forall coin_ok (others i j x coins) -> 0 <= q -> q * 1024 ^ Z.of_nat (length (others i j x coins)) < 2 ^ 130 ->
  0 <= s -> s + foldr Z.add 0 (others i j x coins) < 2 ^ 128 ->
  c_loop xp i j x (of_Z n) (of_Z D) coins (of_Z q) s =
    Done (Some (of_Z (ratio q (others i j x coins)), s + foldr Z.add 0 (others i j x coins))).
Proof.
  induction coins as [|k coins IH]; intros q s HD Hk Hok Hq Hb Hs Hsum; cbn [c_loop].
  { cbn. by rewrite Z.add_0_r. }
  apply Forall_cons_1 in Hk as [Hk Hks]. destruct (get_at_some xp k Hk) as (v & Hv & Hgv).
  revert Hok Hb Hsum. change (others i j x (k :: coins)) with
    (match (if (k =? i)%nat then Some x else if (k =? j)%nat then None else xp !! k) with
     | Some y => y :: others i j x coins | None => others i j x coins end).
  assert (forall w, coin_ok w -> Forall coin_ok (others i j x coins) ->
    q * 1024 ^ Z.of_nat (length (w :: others i j x coins)) < 2 ^ 130 -> s + foldr Z.add 0 (w :: others i j x coins) < 2 ^ 128 ->
    (let s := s +[U128] w in
     if is_zero (u_mul (from_u128 w) (of_Z n)) then Done None
     else let! q := u_div (u_mul (of_Z q) (of_Z D)) (u_mul (from_u128 w) (of_Z n)) in
          c_loop xp i j x (of_Z n) (of_Z D) coins q s) =
    Done (Some (of_Z (ratio q (w :: others i j x coins)), s + foldr Z.add 0 (w :: others i j x coins)))) as Hturn.
  { intros w Hw Hok Hb Hsum. cbn [length foldr] in *. rewrite Nat2Z.inj_succ, Z.pow_succ_r in Hb by lia.
    set (l := others i j x coins) in *.
    assert (1 <= 1024 ^ Z.of_nat (length l)) by (pose proof (Z.pow_pos_nonneg 1024 (Z.of_nat (length l))); lia).
    assert (0 <= q < 2 ^ 130) as Hq' by nia. destruct (div_turn q w Hq' HD Hw) as [-> ->]. cbn [outcome_bind]. cbv zeta.
    assert (0 <= foldr Z.add 0 l) by (clear - Hok; induction Hok as [|y l [[Hy _] _] _ IH]; cbn; lia).
    destruct Hw as [[Hw1 Hw2] Hwr]. rewrite wrap_id by mint.
    pose proof (ratio_step q w Hq ltac:(lia) ltac:(by split)). rewrite IH; [|done..|lia|nia|lia|lia].
    change (ratio q (w :: l)) with (ratio (q * D / (w * n)) l). by rewrite Z.add_assoc. }
  destruct (Nat.eqb_spec k i); cbn [negb andb]; [intros; inversion Hok; by apply Hturn|].
  destruct (Nat.eqb_spec k j); [intros; by apply IH|]. rewrite Hv, Hgv. intros; inversion Hok; by apply Hturn.
Qed.
End Coins.

(** ** The first solver on unbounded integers *)

Definition pool_balances (p : CurvePool) (xp : list Z) : list Z := take (n_coins p) xp.
Definition pool_sum (p : CurvePool) (xp : list Z) : Z := foldr Z.add 0 (pool_balances p xp).
Definition pool_n (p : CurvePool) : Z := Z.of_nat (n_coins p).
Definition pool_ann (p : CurvePool) : Z := amp p * n_pow_n p.

(** One step of the iteration for D, and the iteration as [get_d] runs it. *)
Definition d_step (n ann S : Z) (l : list Z) (d : Z) : Z :=
  let d_p := ratio n d d l in ((ann * S + d_p * n) * d) / ((ann - 1) * d + (n + 1) * d_p).
Fixpoint d_ref (fuel : nat) (n ann S : Z) (l : list Z) (d : Z) : Z :=
  match fuel with
  | O => d
  | Datatypes.S fuel =>
      let d' := d_step n ann S l d in if Z.abs (d' - d) <=? 1 then d' else d_ref fuel n ann S l d'
  end.

(** Pools with reserves below [2^96] in 18 decimals, none of them below a thousandth of the total, and
    an amplification below [2^20]: no 256-bit operation wraps around. *)
Record curve_safe (p : CurvePool) (xp : list Z) : Prop := {
  safe_n : n_coins p = 2%nat \/ n_coins p = 3%nat;
  safe_length : (n_coins p <= length xp)%nat;
  safe_amp : 1 <= amp p < 2 ^ 20;
  safe_sum : pool_sum p xp < 2 ^ 96;
  safe_balance : Forall (fun x => 1 <= x /\ pool_sum p xp <= 1024 * x) (pool_balances p xp);
}.

Lemma sum_ge l x : Forall (fun x => 0 <= x) l -> In x l -> 0 <= foldr Z.add 0 l /\ x <= foldr Z.add 0 l.
Proof.
  intros Hl. revert x. induction Hl as [|y l Hy _ IH]; cbn; [done|]. intros x [->|Hin].
  - split; [|]; destruct l as [|z l]; cbn in *; try lia; destruct (IH z (or_introl eq_refl)); lia.
  - destruct (IH x Hin). lia.
Qed.

Lemma sum_ge_nonneg l : Forall (fun x => 0 <= x) l -> 0 <= foldr Z.add 0 l.
Proof. induction 1; cbn; lia. Qed.

Lemma seq_lookup (xp : list Z) n k :
  (k + n <= length xp)%nat -> Forall2 (fun i x => xp !! i = Some x) (seq k n) (take n (drop k xp)).
Proof.
  revert k. induction n as [|n IH]; intros k Hk; cbn; [constructor|].
  destruct (lookup_lt_is_Some_2 xp k ltac:(lia)) as [v Hv]. rewrite (drop_S _ _ _ Hv). cbn. constructor; [done|].
  apply IH. lia.
Qed.

Lemma sum_loop_exact (xp : list Z) coins l s :
  Forall2 (fun i x => xp !! i = Some x) coins l -> Forall (fun x => 0 <= x) l -> 0 <= s ->
  s + foldr Z.add 0 l < 2 ^ 128 -> sum_loop xp coins s = Done (s + foldr Z.add 0 l).
Proof.
  intros Hl. revert s. induction Hl as [|i x coins l Hi _ IH]; intros s Hp Hs Hb; cbn; [by rewrite Z.add_0_r|].
  apply Forall_cons_1 in Hp as [Hx Hp]. unfold get_at. rewrite Hi. cbn [outcome_bind foldr] in *.
  pose proof (sum_ge_nonneg l Hp). rewrite wrap_id by mint. rewrite IH by (done || lia). f_equal. lia.
Qed.

Section Safe.
Context (p : CurvePool) (xp : list Z) (Hsafe : curve_safe p xp).
Let n := pool_n p.
Let ann := pool_ann p.
Let S := pool_sum p xp.
Let l := pool_balances p xp.

Lemma safe_n_range : 2 <= n <= 3.
Proof. unfold n, pool_n. destruct (safe_n p xp Hsafe) as [-> | ->]; lia. Qed.

Lemma safe_ann : 4 <= ann < 2 ^ 25 /\ amp p *[U128] n_pow_n p = ann.
Proof.
  pose proof (safe_amp p xp Hsafe). unfold ann, pool_ann, n_pow_n.
  destruct (safe_n p xp Hsafe) as [-> | ->]; cbn [Nat.eqb]; (split; [lia|apply wrap_id; mint]).
Qed.

Lemma safe_length_l : length l = n_coins p.
Proof. unfold l, pool_balances. rewrite length_take. pose proof (safe_length p xp Hsafe). lia. Qed.

Lemma safe_nonneg : Forall (fun x => 0 <= x) l.
Proof. eapply Forall_impl; [|exact (safe_balance p xp Hsafe)]. cbn. lia. Qed.

Lemma safe_S_pos : 2 <= S.
Proof.
  pose proof (safe_balance p xp Hsafe) as Hb. pose proof safe_length_l as Hl. pose proof safe_nonneg as Hnn.
  unfold S, pool_sum. fold l in Hb |- *. destruct l as [|x [|y l']]; cbn in Hl; try (destruct (safe_n p xp Hsafe); lia).
  apply Forall_cons_1 in Hb as [[Hx _] Hb]. apply Forall_cons_1 in Hb as [[Hy _] _].
  apply Forall_cons_1 in Hnn as [_ Hnn]. apply Forall_cons_1 in Hnn as [_ Hnn]. pose proof (sum_ge_nonneg l' Hnn). cbn. lia.
Qed.

Lemma safe_coins D : D <= 2 * S -> Forall (coin_ok n D) l.
Proof.
  intros HD. pose proof safe_n_range. pose proof (safe_sum p xp Hsafe). fold S in H0.
  apply List.Forall_forall. intros x Hx. pose proof (safe_balance p xp Hsafe) as Hb. fold l in Hb.
  rewrite List.Forall_forall in Hb. specialize (Hb x Hx). fold S in Hb.
  destruct (sum_ge l x safe_nonneg Hx) as [_ Hle]. change (foldr Z.add 0 l) with S in Hle.
  split; [lia|]. nia.
Qed.

Lemma ratio_one_le D k : 0 <= D <= 1 -> 2 <= k -> forall l q, 0 <= q -> Forall (fun x => 1 <= x) l ->
  0 <= ratio k D q l <= q.
Proof.
  intros HD Hk l1. induction l1 as [|x l1 IH]; intros q Hq Hf; cbn [ratio fold_left]; [lia|].
  apply Forall_cons_1 in Hf as [Hx Hf].
  assert (0 <= q * D / (x * k) <= q).
  { assert (0 <= q * D <= q) by nia. assert (1 <= x * k) by nia. split; [apply Z.div_pos; lia|]. apply Z.div_le_upper_bound; nia. }
  destruct (IH (q * D / (x * k)) ltac:(lia) Hf). unfold ratio in *. lia.
Qed.

Lemma ratio_safe d : 1 <= d <= 2 * S -> 0 <= ratio n d d l < 2 ^ 127 /\ (d = 1 -> ratio n d d l <= 1).
Proof.
  intros Hd. pose proof safe_n_range. pose proof (safe_sum p xp Hsafe) as HS. fold S in HS.
  pose proof (ratio_bounds n d ltac:(lia) l d ltac:(lia) ltac:(lia) (safe_coins d ltac:(lia))) as [H1 H2].
  rewrite safe_length_l in H2.
  assert (1024 ^ Z.of_nat (n_coins p) <= 2 ^ 30) by (destruct (safe_n p xp Hsafe) as [-> | ->]; vm_compute; discriminate).
  assert (0 < 1024 ^ Z.of_nat (n_coins p)) by (apply Z.pow_pos_nonneg; lia).
  split; [split; [done|]; nia|]. intros ->.
  apply ratio_one_le; try lia. eapply Forall_impl; [|exact (safe_balance p xp Hsafe)]. cbn. lia.
Qed.

(** The iterates stay between 1 and twice the sum of the balances. *)
Lemma d_step_bounds d : 1 <= d <= 2 * S -> 1 <= d_step n ann S l d <= 2 * S.
Proof.
  intros Hd. pose proof safe_n_range. destruct safe_ann as [Ha _]. pose proof safe_S_pos.
  destruct (ratio_safe d Hd) as [[Hr1 Hr2] Hr3]. unfold d_step. cbv zeta. set (r := ratio n d d l) in *.
  assert (0 < (ann - 1) * d + (n + 1) * r) as Hden by nia. split.
  - apply Z.div_le_lower_bound; [done|].
    assert (ann * d <= ann * S * d) by nia.
    assert ((n + 1) * r <= d + r * n * d).
    { destruct (Z.eq_dec d 1) as [->|]; [specialize (Hr3 eq_refl); lia|]. assert (r * n * 2 <= r * n * d) by nia. nia. }
    lia.
  - apply Z.div_le_upper_bound; [done|].
    assert (r * n * d <= r * n * (2 * S)) by (apply Z.mul_le_mono_nonneg_l; nia).
    assert (ann * S * d <= (ann - 1) * d * (2 * S)) by nia. nia.
Qed.
Lemma d_loop_exact fuel d :
  1 <= d <= 2 * S ->
  d_loop fuel p xp (of_Z n) (of_Z ann) (of_Z S) (of_Z d) = Done (Some (d_ref fuel n ann S l d)) /\
  1 <= d_ref fuel n ann S l d <= 2 * S.
Proof.
  pose proof safe_n_range as Hn. destruct safe_ann as [Ha _]. pose proof safe_S_pos as HS0.
  pose proof (safe_sum p xp Hsafe) as HS. fold S in HS.
  revert d. induction fuel as [|fuel IH]; intros d Hd; cbn [d_loop d_ref].
  { rewrite as_u128_Z by lia. done. }
  rewrite (dp_loop_exact n d xp Hn (seq 0 (n_coins p)) l d); [|lia| |by apply safe_coins; lia|lia|].
  - destruct (ratio_safe d Hd) as [[Hr1 Hr2] _]. cbn [maybe_bind]. cbv zeta.
    rewrite one_Z, !u_sub_Z, !u_mul_Z, !u_add_Z, !u_mul_Z, !u_add_Z.
    pose proof (d_step_bounds d Hd) as Hs. unfold d_step in Hs |- *. cbv zeta in Hs |- *.
    set (r := ratio n d d l) in *.
    assert (0 <= (ann - 1) * d < 2 ^ 122) by nia. assert (0 <= (n + 1) * r < 2 ^ 129) by nia.
    assert (0 <= ann * S < 2 ^ 121) by nia. assert (0 <= r * n < 2 ^ 129) by nia.
    assert (0 <= (ann * S + r * n) * d < 2 ^ 227).
    { split; [nia|]. apply Z.le_lt_trans with ((ann * S + r * n) * 2 ^ 97); [apply Z.mul_le_mono_nonneg_l; lia|].
      change (2 ^ 227) with (2 ^ 130 * 2 ^ 97). apply Z.mul_lt_mono_pos_r; lia. }
    rewrite is_zero_Z by (unfold u_range; lia). destruct (Z.eqb_spec ((ann - 1) * d + (n + 1) * r) 0); [nia|].
    rewrite u_div_Z by (unfold u_range; nia). cbn [outcome_bind]. rewrite converged_Z by (unfold u_range; lia).
    destruct (_ <=? 1); [rewrite as_u128_Z by lia; done|]. by apply IH.
  - unfold l, pool_balances. replace (take (n_coins p) xp) with (take (n_coins p) (drop 0 xp)) by done.
    apply seq_lookup. apply (safe_length p xp Hsafe).
  - rewrite safe_length_l.
    assert (1024 ^ Z.of_nat (n_coins p) <= 2 ^ 30) by (destruct (safe_n p xp Hsafe) as [-> | ->]; vm_compute; discriminate).
    assert (0 < 1024 ^ Z.of_nat (n_coins p)) by (apply Z.pow_pos_nonneg; lia). nia.
Qed.

Lemma get_d_exact : get_d p xp = Done (Some (d_ref 255 n ann S l S)) /\ 1 <= d_ref 255 n ann S l S <= 2 * S.
Proof.
  pose proof safe_n_range as Hn. destruct safe_ann as [Ha Ea]. pose proof safe_S_pos as HS0.
  pose proof (safe_sum p xp Hsafe) as HS. fold S in HS.
  unfold get_d. rewrite (sum_loop_exact xp (seq 0 (n_coins p)) l 0).
  - cbn [outcome_bind]. rewrite Z.add_0_l. change (foldr Z.add 0 l) with S.
    destruct (Z.eqb_spec S 0); [lia|]. rewrite Ea. fold (pool_n p). fold n. rewrite !from_u128_Z by lia.
    apply d_loop_exact. lia.
  - unfold l, pool_balances. replace (take (n_coins p) xp) with (take (n_coins p) (drop 0 xp)) by done.
    apply seq_lookup. apply (safe_length p xp Hsafe).
  - apply safe_nonneg.
  - lia.
  - change (foldr Z.add 0 l) with S. lia.
Qed.

(** The coefficients of the quadratic for D. *)
Definition y_others (i j : nat) (x : Z) : list Z := others xp i j x (seq 0 (n_coins p)).
Definition y_c (D : Z) (i j : nat) (x : Z) : Z := ratio n D D (y_others i j x) * D / (ann * n).
Definition y_b (D : Z) (i j : nat) (x : Z) : Z := foldr Z.add 0 (y_others i j x) + D / ann.

Context (i j : nat) (x : Z) (Hi : (i < n_coins p)%nat) (Hj : (j < n_coins p)%nat) (Hij : i <> j).
Hypothesis Hx : Forall (fun xi => xi <= x) (option_list (xp !! i)).
Hypothesis Hx120 : x < 2 ^ 120.
Let os := y_others i j x.

Lemma omap_shorter {A B} (f : A -> option B) k : forall l', In k l' -> f k = None -> (length (omap f l') < length l')%nat.
Proof.
  assert (forall l', (length (omap f l') <= length l')%nat) as Hle.
  { induction l' as [|y l' IH]; cbn; [done|]. destruct (f y); cbn; lia. }
  induction l' as [|y l' IH]; cbn; [done|]. intros [-> | Hin] Hk.
  - rewrite Hk. pose proof (Hle l'). lia.
  - destruct (f y); cbn; specialize (IH Hin Hk); lia.
Qed.

Lemma others_length : (length os <= 2)%nat.
Proof.
  assert (length os < length (seq 0 (n_coins p)))%nat as H.
  { apply (omap_shorter _ j); [apply in_seq; lia|]. destruct (Nat.eqb_spec j i); [done|]. by rewrite Nat.eqb_refl. }
  rewrite length_seq in H. destruct (safe_n p xp Hsafe); lia.
Qed.

Lemma others_in w : In w os -> w = x \/ In w l.
Proof.
  unfold os, y_others, others. rewrite <- list_elem_of_In, list_elem_of_omap. intros (k & Hk%list_elem_of_In%in_seq & Hw).
  destruct (k =? i)%nat; [left; congruence|]. destruct (k =? j)%nat; [done|]. right.
  apply list_elem_of_In, list_elem_of_lookup. exists k. unfold l, pool_balances. rewrite lookup_take_lt by lia. done.
Qed.

Lemma x_in_others : In x os.
Proof.
  unfold os, y_others, others. rewrite <- list_elem_of_In, list_elem_of_omap. exists i.
  rewrite list_elem_of_In, in_seq, Nat.eqb_refl. split; [lia|done].
Qed.

Lemma others_coins D : D <= 2 * S -> Forall (coin_ok n D) os.
Proof.
  intros HD. pose proof (safe_coins D HD) as Hl. rewrite List.Forall_forall in Hl |- *. intros w Hw.
  destruct (others_in w Hw) as [->|]; [|by apply Hl].
  destruct (lookup_lt_is_Some_2 xp i) as [xi Exi]; [pose proof (safe_length p xp Hsafe); lia|].
  rewrite Exi in Hx. cbn in Hx. apply Forall_inv in Hx as Hxi.
  destruct (Hl xi) as [[H1 _] H2].
  { apply list_elem_of_In, list_elem_of_lookup. exists i. unfold l, pool_balances. by rewrite lookup_take_lt by lia. }
  pose proof safe_n_range. split; [lia|nia].
Qed.

Lemma others_sum D : D <= 2 * S -> 1 <= foldr Z.add 0 os < 2 ^ 121 /\ D <= 3072 * foldr Z.add 0 os.
Proof.
  intros HD. pose proof (others_coins D HD) as Hok. pose proof others_length as Hlen. pose proof safe_n_range.
  destruct (sum_ge os x) as [_ Hge]; [eapply Forall_impl; [|exact Hok]; intros ? [? _]; lia|apply x_in_others|].
  pose proof (proj1 (List.Forall_forall _ _) Hok x x_in_others) as [Hx1 Hx2].
  split; [split; [lia|]|nia].
  destruct os as [|a [|b [|]]]; cbn in *; try lia;
    repeat match goal with H : Forall _ (_ :: _) |- _ => apply Forall_cons_1 in H as [[[? ?] ?] ?] end; lia.
Qed.

(** The solver's coefficients fit, and it converges to the root of their quadratic. *)
Lemma get_y_root D :
  get_d p xp = Done (Some D) -> 1 <= y_c D i j x ->
  exists y, get_y p i j x xp = Done (Some y) /\ near_root (y_b D i j x - D) (y_c D i j x) y.
Proof.
  intros HD Hc. destruct get_d_exact as [Ed Hd]. revert Ed Hd. generalize (d_ref 255 n ann S l S). intros D' Ed Hd.
  rewrite Ed in HD. injection HD as ->.
  pose proof safe_n_range as Hn. destruct safe_ann as [Ha Ea].
  pose proof (safe_sum p xp Hsafe) as HS. fold S in HS.
  pose proof (others_coins D ltac:(lia)) as Hok. pose proof others_length as Hlen.
  destruct (others_sum D ltac:(lia)) as [Hsum HDs].
  assert (1024 ^ Z.of_nat (length os) <= 2 ^ 20) as H20.
  { change (2 ^ 20) with (1024 ^ 2). apply Z.pow_le_mono_r; lia. }
  assert (0 < 1024 ^ Z.of_nat (length os)) by (apply Z.pow_pos_nonneg; lia).
  destruct (ratio_bounds n D ltac:(lia) os D ltac:(lia) ltac:(lia) Hok) as [Hr1 Hr2].
  unfold get_y. destruct (Nat.eqb_spec i j); [done|]. rewrite !(proj2 (Nat.leb_gt _ _)) by lia. cbn [orb].
  rewrite Ed. cbn [maybe_bind]. cbv zeta. rewrite Ea. fold (pool_n p). fold n. rewrite (from_u128_Z D), (from_u128_Z n), (from_u128_Z ann) by lia.
  assert (D * 1024 ^ Z.of_nat (length os) <= D * 2 ^ 20) as H30 by (apply Z.mul_le_mono_nonneg_l; lia).
  assert (c_loop xp i j x (of_Z n) (of_Z D) (seq 0 (n_coins p)) (of_Z D) 0 =
    Done (Some (of_Z (ratio n D D os), 0 + foldr Z.add 0 os))) as ->.
  { apply (c_loop_exact n D xp Hn i j x (seq 0 (n_coins p)) D 0); [lia| |exact Hok|lia| |lia|].
    - apply Forall_seq. pose proof (safe_length p xp Hsafe). lia.
    - change (others xp i j x (seq 0 (n_coins p))) with os. lia.
    - change (others xp i j x (seq 0 (n_coins p))) with os. lia. }
  cbn [maybe_bind fst snd]. fold os. fold (y_others i j x).
  set (r := ratio n D D os) in *. assert (r <= D * 2 ^ 20) as Hr by lia.
  assert (0 <= r * D < 2 ^ 214) by (split; [nia|]; apply Z.le_lt_trans with (D * 2 ^ 20 * D); [apply Z.mul_le_mono_nonneg_r; lia|nia]).
  rewrite !u_mul_Z. rewrite is_zero_Z by (unfold u_range; nia). destruct (Z.eqb_spec (ann * n) 0); [nia|].
  rewrite !u_div_Z by (unfold u_range; nia). cbn [outcome_bind].
  assert (0 <= D / ann <= D) as HDa by (split; [apply Z.div_pos; lia|apply Z.div_le_upper_bound; nia]).
  rewrite from_u128_Z by (rewrite Z.add_0_l; lia). rewrite u_add_Z, Z.add_0_l.
  change (r * D / (ann * n)) with (y_c D i j x). change (foldr Z.add 0 os + D / ann) with (y_b D i j x).
  assert (y_c D i j x <= D * (D * 2 ^ 17)) as Hc2.
  { unfold y_c. fold os r. apply Z.div_le_upper_bound; nia. }
  assert (1 <= y_b D i j x < 2 ^ 122 /\ D <= 3072 * y_b D i j x) as [Hb HDb] by (unfold y_b; fold os; nia).
  apply y_loop_start; [nia|lia|lia|].
  apply Z.le_lt_trans with (3072 * (D * 2 ^ 17)); [|lia]. apply Z.div_le_upper_bound; [lia|]. nia.
Qed.
End Safe.

(** ** Every operation has a result *)

Lemma u_mul_ok a b : u_ok a -> u_ok b -> u_ok (u_mul a b).
Proof. intros. rewrite u_mul_of_Z by done. apply of_Z_ok. Qed.
Lemma u_add_ok a b : u_ok a -> u_ok b -> u_ok (u_add a b).
Proof. intros. rewrite u_add_of_Z by done. apply of_Z_ok. Qed.
Lemma u_sub_ok a b : u_ok a -> u_ok b -> u_ok (u_sub a b).
Proof. intros. rewrite u_sub_of_Z by done. apply of_Z_ok. Qed.
#[local] Hint Resolve u_mul_ok u_add_ok u_sub_ok of_Z_ok u_ok_from u_div_ok : mint.

Lemma one_ok : u_ok U256_ONE.
Proof. rewrite one_Z. apply of_Z_ok. Qed.
#[local] Hint Resolve one_ok : mint.

Lemma dp_loop_ok xp n_u d coins dp q :
  Forall (in_range U128) xp -> u_ok n_u -> u_ok d -> u_ok dp -> dp_loop xp n_u d coins dp = Done (Some q) -> u_ok q.
Proof.
  intros Hxp Hn Hd. revert dp. induction coins as [|i coins IH]; intros dp Hdp; cbn [dp_loop]; [by intros [= <-]|].
  unfold get_at. destruct (xp !! i) as [v|] eqn:E; [|done]. cbn [outcome_bind].
  pose proof (Forall_lookup_1 _ _ _ _ Hxp E) as Hv. destruct (is_zero _); [done|].
  destruct (u_div _ _) as [r|] eqn:Er; [|done]. apply IH. eapply u_div_ok; [| |exact Er]; eauto with mint.
Qed.

Lemma d_loop_ok fuel p xp n_u ann_u s_u d r :
  Forall (in_range U128) xp -> u_ok n_u -> u_ok ann_u -> u_ok s_u -> u_ok d ->
  d_loop fuel p xp n_u ann_u s_u d = Done (Some r) -> in_range U128 r.
Proof.
  intros Hxp Hn Ha Hs. revert d. induction fuel as [|fuel IH]; intros d Hd; cbn [d_loop].
  { intros [= <-]. apply Hd. }
  destruct (dp_loop _ _ _ _ _) as [[dp|]|] eqn:Edp; [|done..]. cbn [maybe_bind]. cbv zeta.
  apply dp_loop_ok in Edp; [|done..]. destruct (is_zero _); [done|]. destruct (u_div _ _) as [q|] eqn:Eq; [|done].
  assert (u_ok q) as Hq by (eapply u_div_ok; [| |exact Eq]; auto 10 with mint).
  cbn [outcome_bind]. destruct (converged q d); [intros [= <-]; apply Hq|by apply IH].
Qed.

Lemma sum_loop_ok xp coins s r : in_range U128 s -> sum_loop xp coins s = Done r -> in_range U128 r.
Proof.
  revert s. induction coins as [|i coins IH]; intros s Hs; cbn; [by intros [= <-]|].
  destruct (get_at xp i) as [v|]; [|done]. cbn. apply IH. auto with mint.
Qed.

(** The pools the constructors build, from reserves that fit and decimals up to 18. *)
Record curve_ok (p : CurvePool) : Prop := {
  ok_n : n_coins p = 2%nat \/ n_coins p = 3%nat;
  ok_reserves : length (raw_reserves p) = 3%nat /\ Forall (in_range U128) (raw_reserves p);
  ok_multipliers : length (multipliers p) = 3%nat /\ Forall (fun m => 1 <= m <= 10 ^ 18) (multipliers p);
}.

Lemma get_d_ok p xp d :
  curve_ok p -> Forall (in_range U128) xp -> get_d p xp = Done (Some d) -> in_range U128 d.
Proof.
  intros Hok Hxp. unfold get_d. destruct (sum_loop _ _ _) as [s|] eqn:Es; [|done]. cbn [outcome_bind].
  apply sum_loop_ok in Es; [|mint]. destruct (s =? 0); [intros [= <-]; mint|].
  apply d_loop_ok; auto with mint. destruct (ok_n p Hok) as [-> | ->]; apply u_ok_from; mint.
Qed.

Lemma c_loop_ok xp i j x n_u d coins : forall c s c' s',
  Forall (in_range U128) xp -> in_range U128 x -> u_ok n_u -> u_ok d -> u_ok c -> in_range U128 s ->
  c_loop xp i j x n_u d coins c s = Done (Some (c', s')) -> u_ok c' /\ in_range U128 s'.
Proof.
  induction coins as [|k coins IH]; intros c s c' s' Hxp Hx Hn Hd Hc Hs; cbn [c_loop]; [by intros [= <- <-]|].
  destruct (_ && _)%nat; [by apply IH|].
  destruct (if (k =? i)%nat then Done x else get_at xp k) as [v|] eqn:Ev; [|done]. cbn [outcome_bind].
  assert (in_range U128 v) as Hv.
  { destruct (k =? i)%nat; [by injection Ev as <-|]. unfold get_at in Ev. destruct (xp !! k) eqn:E; [|done].
    injection Ev as <-. by eapply Forall_lookup_1. }
  destruct (is_zero _); [done|]. destruct (u_div _ _) as [q|] eqn:Eq; [|done]. cbn [outcome_bind].
  apply IH; auto with mint. eapply u_div_ok; [| |exact Eq]; auto with mint.
Qed.

Lemma get_y_some p i j x xp :
  curve_ok p -> length xp = 3%nat -> Forall (in_range U128) xp -> in_range U128 x ->
  exists r, get_y p i j x xp = Done r /\ forall v, r = Some v -> in_range U128 v.
Proof.
  intros Hok Hl Hxp Hx.
  assert (n_coins p <= 3)%nat as Hn by (destruct (ok_n p Hok); lia).
  unfold get_y. destruct (_ || _)%nat; [by exists None|].
  destruct (get_d_some p xp ltac:(lia)) as [[d|] Ed]; rewrite Ed; cbn [maybe_bind]; [|by exists None]. cbv zeta.
  apply get_d_ok in Ed; [|done..].
  assert (u_ok (from_u128 (Z.of_nat (n_coins p)))) as Hnu by (apply u_ok_from; mint).
  destruct (c_loop_some xp i j x (from_u128 (Z.of_nat (n_coins p))) (from_u128 d) (seq 0 (n_coins p)) (from_u128 d) 0)
    as [[[c s]|] Ec]; [apply Forall_seq; lia| |rewrite Ec; cbn [maybe_bind]; by exists None].
  rewrite Ec. cbn [maybe_bind fst snd]. apply c_loop_ok in Ec as [Hc Hs]; auto with mint; [|mint].
  set (ann := amp p *[U128] n_pow_n p) in *. assert (in_range U128 ann) as Ha by apply wrap_range.
  destruct (is_zero (u_mul (from_u128 ann) _)) eqn:Ez; [by exists None|].
  assert (is_zero (from_u128 ann) = false) as Eza.
  { destruct (is_zero (from_u128 ann)) eqn:E; [|done]. rewrite <- Ez.
    apply range128 in Ha. change B128 with (2 ^ 128) in Ha. rewrite (from_u128_Z ann), is_zero_Z in E by (unfold u_range; lia).
    apply Z.eqb_eq in E as ->. rewrite from_u128_Z, (from_u128_Z (Z.of_nat _)), u_mul_Z by lia. done. }
  destruct (u_div_some (u_mul c (from_u128 d)) _ Ez) as [c2 Ec2]. rewrite Ec2. cbn [outcome_bind].
  destruct (u_div_some (from_u128 d) _ Eza) as [q Eq]. rewrite Eq. cbn [outcome_bind].
  apply y_loop_some; [apply u_add_ok|..]; auto with mint; eapply u_div_ok; [| |exact Eq| | |exact Ec2]; auto with mint.
Qed.

Lemma normalized_some p : curve_ok p ->
  exists xp, normalized_reserves p = Done xp /\ length xp = 3%nat /\ Forall (in_range U128) xp /\
    forall i, (i < n_coins p)%nat -> exists r m, raw_reserves p !! i = Some r /\ multipliers p !! i = Some m /\
      xp !! i = Some (r *[U128] m).
Proof.
  intros [Hn [Hr _] [Hm _]]. unfold normalized_reserves.
  destruct p as [n rs ms a f]; cbn in *.
  destruct rs as [|r0 [|r1 [|r2 []]]]; try done. destruct ms as [|m0 [|m1 [|m2 []]]]; try done.
  destruct Hn as [-> | ->]; cbn; eexists; (split; [reflexivity|]); (split; [reflexivity|]);
    (split; [repeat apply Forall_cons_2; try apply Forall_nil_2; first [apply wrap_range|mint]|]); intros i Hi;
    (destruct i as [|[|[|i]]]; [..|lia]; try lia; cbn; eauto).
Qed.

Lemma lookup3 (l : list Z) i : length l = 3%nat -> (i < 3)%nat -> exists v, l !! i = Some v /\ get_at l i = Done v.
Proof. intros Hl Hi. apply get_at_some. lia. Qed.

(** A swap has a result, and pays out at most the normalised reserve. *)
Lemma swap_some p i j dx : curve_ok p -> (i < 3)%nat -> (j < 3)%nat ->
  exists r, calculate_swap_output p i j dx = Done r /\
    forall out, r = Some out -> exists rj mj, raw_reserves p !! j = Some rj /\ multipliers p !! j = Some mj /\
      1 <= mj /\ 0 <= out <= (rj *[U128] mj) / mj.
Proof.
  intros Hok Hi Hj. unfold calculate_swap_output.
  destruct (normalized_some p Hok) as (xp & -> & Hlx & Hxp & Hlk). cbn [outcome_bind].
  pose proof (ok_multipliers p Hok) as [Hlm Hm].
  destruct (lookup3 (multipliers p) i Hlm Hi) as (mi & _ & ->). cbn [outcome_bind].
  destruct (lookup3 xp i Hlx Hi) as (xi & _ & ->). cbn [outcome_bind].
  destruct (get_y_some p i j (xi +[U128] dx *[U128] mi) xp Hok Hlx Hxp ltac:(auto with mint)) as (ry & Ey & Hry).
  destruct (Nat.lt_ge_cases j (n_coins p)) as [Hjn|Hjn].
  2: { exists None. split; [|done]. unfold get_y. rewrite (proj2 (Nat.leb_le _ _) Hjn), orb_true_r. done. }
  rewrite Ey. destruct ry as [y|]; cbn [maybe_bind]; [|by exists None]. pose proof (Hry y eq_refl) as Hyr.
  destruct (Hlk j Hjn) as (rj & mj & Erj & Emj & Exj). unfold get_at. rewrite Exj, Emj. cbn [outcome_bind].
  pose proof (Forall_lookup_1 _ _ _ _ Hm Emj) as Hmj. cbn beta in Hmj. pose proof (Forall_lookup_1 _ _ _ _ Hxp Exj) as Hxj.
  set (xj := rj *[U128] mj) in *. destruct (Z.ltb_spec y xj) as [Hy|Hy]; [|by exists None].
  unfold udiv. destruct (Z.eqb_spec mj 0); [lia|]. cbn [outcome_bind].
  eexists. split; [reflexivity|]. intros out [= <-]. exists rj, mj. do 2 (split; [done|]). split; [lia|].
  assert (xj -[U128] y = xj - y) as -> by (apply wrap_id; mint).
  pose proof (wrap_range U128 ((xj - y) * curve_fee_bps p)) as Hf. set (f := wrap U128 ((xj - y) * curve_fee_bps p)) in *. clearbody f. destruct Hf as [Hf _]. change (min_int U128) with 0 in Hf.
  assert (0 <= f / 10000) by (apply Z.div_pos; lia).
  assert (0 <= sat U128 (xj - y - f / 10000) <= xj) by (unfold sat; mint).
  split; [apply Z.div_pos; lia|]. apply Z.div_le_mono; lia.
Qed.

Lemma spot_some p i j : curve_ok p -> (i < 3)%nat -> (j < 3)%nat -> exists s, curve_spot_price_scaled p i j = Done s.
Proof.
  intros Hok Hi Hj. pose proof (ok_multipliers p Hok) as [Hlm Hm]. unfold curve_spot_price_scaled.
  destruct (lookup3 (multipliers p) i Hlm Hi) as (mi & Emi & ->). destruct (lookup3 (multipliers p) j Hlm Hj) as (mj & _ & ->).
  pose proof (Forall_lookup_1 _ _ _ _ Hm Emi) as Hmi. cbn beta in Hmi. cbn [outcome_bind].
  unfold udiv. destruct (Z.eqb_spec mi 0); [lia|]. cbn [outcome_bind].
  destruct (swap_some p i j (10 ^ 18 / mi) Hok Hi Hj) as (r & -> & _). cbn [outcome_bind]. destruct r; eauto.
Qed.

Lemma bands_some p i j spot base_raw ts bands book : curve_ok p -> (i < 3)%nat -> (j < 3)%nat ->
  exists b, curve_bands p i j spot base_raw book bands ts = Done b.
Proof.
  intros Hok Hi Hj. revert book. induction bands as [|bps bands IH]; intros book; cbn [curve_bands]; [eauto|].
  assert (exists b, curve_band p i j spot base_raw ts book bps = Done b) as [b ->]; [|apply IH].
  unfold curve_band. cbv zeta. destruct (swap_some p i j ((base_raw *[U128] bps) / 10000) Hok Hi Hj) as (r & -> & _).
  cbn [outcome_bind]. destruct r; [|eauto].
  destruct (lookup3 (multipliers p) j (proj1 (ok_multipliers p Hok)) Hj) as (mj & _ & ->). cbn [outcome_bind]. eauto.
Qed.

Lemma multiplier_exact d : 0 <= d <= 18 -> multiplier d = 10 ^ (18 - d) /\ 1 <= 10 ^ (18 - d) <= 10 ^ 18.
Proof.
  intros Hd. assert (1 <= 10 ^ (18 - d) <= 10 ^ 18) as Hr.
  { split; [pose proof (Z.pow_pos_nonneg 10 (18 - d)); lia|]. apply Z.pow_le_mono_r; lia. }
  split; [|done]. unfold multiplier, pow10. rewrite (wrap_id U8 (18 - d)) by mint. apply wrap_id. mint.
Qed.

Lemma new_2pool_ok r0 r1 d0 d1 a f :
  in_range U128 r0 -> in_range U128 r1 -> 0 <= d0 <= 18 -> 0 <= d1 <= 18 -> curve_ok (new_2pool r0 r1 d0 d1 a f).
Proof.
  intros Hr0 Hr1 Hd0 Hd1. destruct (multiplier_exact d0 Hd0) as [E0 B0], (multiplier_exact d1 Hd1) as [E1 B1].
  split; cbn; rewrite ?E0, ?E1; [by left| |]; (split; [done|]);
    repeat apply Forall_cons_2; try apply Forall_nil_2; try done; mint.
Qed.

Lemma new_3pool_ok r0 r1 r2 d0 d1 d2 a f :
  in_range U128 r0 -> in_range U128 r1 -> in_range U128 r2 -> 0 <= d0 <= 18 -> 0 <= d1 <= 18 -> 0 <= d2 <= 18 ->
  curve_ok (new_3pool r0 r1 r2 d0 d1 d2 a f).
Proof.
  intros Hr0 Hr1 Hr2 Hd0 Hd1 Hd2.
  destruct (multiplier_exact d0 Hd0) as [E0 B0], (multiplier_exact d1 Hd1) as [E1 B1], (multiplier_exact d2 Hd2) as [E2 B2].
  split; cbn; rewrite ?E0, ?E1, ?E2; [by right| |]; (split; [done|]);
    repeat apply Forall_cons_2; try apply Forall_nil_2; done.
Qed.

(** A pool with equal balances. *)
Lemma ratio_balanced n x q k : 0 < x * n -> 0 <= q -> ratio n (x * n) q (replicate k x) = q.
Proof.
  intros Hx Hq. induction k as [|k IH]; [done|]. unfold ratio in *. cbn [replicate fold_left].
  rewrite Z.div_mul by lia. apply IH.
Qed.

Lemma sum_replicate k x : foldr Z.add 0 (replicate k x) = Z.of_nat k * x.
Proof. induction k as [|k IH]; cbn [replicate foldr]; [done|]. rewrite IH. lia. Qed.

Lemma d_ref_fixed fuel n ann S l d : d_step n ann S l d = d -> d_ref (Datatypes.S fuel) n ann S l d = d.
Proof. intros E. cbn [d_ref]. cbv zeta. by rewrite E, Z.sub_diag. Qed.

Module Curve.

(** C29: for a pool of the constructors with decimals up to 18, whatever the reserves, no operation
    with coin indices below 3 panics: the solvers' divisions are never by zero, the swap, the spot price and the ladder have
    results for all coins; and a swap never pays out more than the pool's reserve of the coin, as
    long as that reserve fits 128 bits in 18 decimals. *)
Theorem swaps_total_and_solvent (p : CurvePool) (i j : nat) (dx ts : Z) (book : ContiguousOrderBook) (bands : list Z)
    (Hok : curve_ok p) (Hi : (i < 3)%nat) (Hj : (j < 3)%nat) :
  (exists b, curve_populate p book i j bands ts = Done b) /\ (exists s, curve_spot_price_scaled p i j = Done s) /\
  exists r, calculate_swap_output p i j dx = Done r /\
    forall out, r = Some out -> exists rj mj, raw_reserves p !! j = Some rj /\ multipliers p !! j = Some mj /\
      (rj * mj < 2 ^ 128 -> 0 <= out <= rj).
Proof.
  split; [|split; [by apply spot_some|]].
  - unfold curve_populate. destruct (spot_some p i j Hok Hi Hj) as [s ->]. cbn [outcome_bind].
    destruct (s <=? 0); [eauto|]. destruct (lookup3 _ i (proj1 (ok_reserves p Hok)) Hi) as (r & _ & ->). cbn [outcome_bind].
    by apply bands_some.
  - destruct (swap_some p i j dx Hok Hi Hj) as (r & Er & Hr). exists r. split; [done|]. intros out Hout.
    destruct (Hr out Hout) as (rj & mj & Erj & Emj & Hm & Ho). exists rj, mj. do 2 (split; [done|]). intros Hb.
    pose proof (Forall_lookup_1 _ _ _ _ (proj2 (ok_reserves p Hok)) Erj) as Hrj.
    rewrite wrap_id, Z.div_mul in Ho by (lia || (mint_unfold; change (2 ^ 128) with 340282366920938463463374607431768211456 in Hb; nia)). done.
Qed.

(** C28: within its safe ranges the pool's invariant D is the Newton iteration on unbounded
    integers (no 256-bit operation wraps), it lies between 1 and twice the sum of the balances, and a
    pool of equal balances has exactly their sum as D. *)
Theorem get_d_newton (p : CurvePool) (xp : list Z) (Hs : curve_safe p xp) :
  let S := pool_sum p xp in
  let D := d_ref 255 (pool_n p) (pool_ann p) S (pool_balances p xp) S in
  get_d p xp = Done (Some D) /\ 1 <= D <= 2 * S /\
  forall x, pool_balances p xp = replicate (n_coins p) x -> D = S.
Proof.
  cbv zeta. destruct (get_d_exact p xp Hs) as [H1 H2]. split; [done|]. split; [done|]. intros x Hx.
  pose proof (safe_n_range p xp Hs) as Hn. destruct (safe_ann p xp Hs) as [Ha _]. pose proof (safe_S_pos p xp Hs) as HS.
  assert (d_step (pool_n p) (pool_ann p) (pool_sum p xp) (pool_balances p xp) (pool_sum p xp) = pool_sum p xp) as E.
  { assert (pool_sum p xp = x * pool_n p) as ES by (unfold pool_sum; rewrite Hx, sum_replicate; unfold pool_n; lia).
    unfold d_step. rewrite Hx, ES. rewrite ratio_balanced by lia. cbv zeta. rewrite <- ES.
    replace ((pool_ann p - 1) * pool_sum p xp + (pool_n p + 1) * pool_sum p xp)
      with (pool_ann p * pool_sum p xp + pool_sum p xp * pool_n p) by lia.
    rewrite Z.mul_comm. apply Z.div_mul. nia. }
  by apply (d_ref_fixed 254).
Qed.

(** C27: within the safe ranges the second solver always converges well within its 255 turns, and
    returns the root of its quadratic: the number [y] with [y^2 + (b - D) y <= c + 1] whose successor
    is above the root. *)
Theorem get_y_converges (p : CurvePool) (xp : list Z) (i j : nat) (xi x D : Z) (Hs : curve_safe p xp)
    (Hi : (i < n_coins p)%nat) (Hj : (j < n_coins p)%nat) (Hij : i <> j) (Hxi : xp !! i = Some xi)
    (Hx : xi <= x < 2 ^ 120) (HD : get_d p xp = Done (Some D)) (Hc : 1 <= y_c p xp D i j x) :
  exists y, get_y p i j x xp = Done (Some y) /\ near_root (y_b p xp D i j x - D) (y_c p xp D i j x) y.
Proof.
  eapply get_y_root; try done; [|lia]. rewrite Hxi. cbn. constructor; [lia|constructor].
Qed.

Definition demo_pool : CurvePool := new_3pool (10000000 * 10 ^ 18) (10000000 * 10 ^ 6) (10000000 * 10 ^ 6) 18 6 6 200 4.
Definition demo_xp : list Z := replicate 3 (10000000 * 10 ^ 18).

Lemma curve_demo_ok : curve_ok demo_pool.
Proof. apply new_3pool_ok; vm_compute; split; discriminate. Qed.

Lemma demo_safe : curve_safe demo_pool demo_xp.
Proof.
  split; [by right|done|vm_compute; split; [discriminate|done]|vm_compute; done|].
  repeat apply Forall_cons_2; try apply Forall_nil_2; vm_compute; split; discriminate.
Qed.

(** 10000 DAI buy 9995.994449 USDC. *)
Lemma swaps_total_and_solvent_witness :
  calculate_swap_output demo_pool 0 1 (10000 * 10 ^ 18) = Done (Some 9995994449) /\ 0 <= 9995994449 <= 10000000 * 10 ^ 6.
Proof.
  assert (calculate_swap_output demo_pool 0 1 (10000 * 10 ^ 18) = Done (Some 9995994449)) as E by (vm_compute; reflexivity).
  split; [exact E|].
  destruct (swaps_total_and_solvent demo_pool 0 1 (10000 * 10 ^ 18) 0 (book_new 0) [] curve_demo_ok ltac:(lia) ltac:(lia))
    as (_ & _ & r & Er & Hr).
  rewrite E in Er. injection Er as Er. destruct (Hr 9995994449 (eq_sym Er)) as (rj & mj & Erj & Emj & Ho).
  injection Erj as <-. injection Emj as <-. apply Ho. vm_compute. reflexivity.
Defined.

Lemma get_d_newton_witness : get_d demo_pool demo_xp = Done (Some (30000000 * 10 ^ 18)).
Proof.
  destruct (get_d_newton demo_pool demo_xp demo_safe) as (E & _ & Hb).
  rewrite E, (Hb (10000000 * 10 ^ 18)) by (vm_compute; reflexivity). vm_compute. reflexivity.
Defined.

Lemma get_y_converges_witness :
  exists y, get_y demo_pool 0 1 (10010000 * 10 ^ 18) demo_xp = Done (Some y) /\
    near_root (y_b demo_pool demo_xp (30000000 * 10 ^ 18) 0 1 (10010000 * 10 ^ 18) - 30000000 * 10 ^ 18)
      (y_c demo_pool demo_xp (30000000 * 10 ^ 18) 0 1 (10010000 * 10 ^ 18)) y.
Proof.
  apply (get_y_converges demo_pool demo_xp 0 1 (10000000 * 10 ^ 18) (10010000 * 10 ^ 18) (30000000 * 10 ^ 18) demo_safe);
    try (vm_compute; lia); [reflexivity|vm_compute; split; [discriminate|reflexivity]|vm_compute; reflexivity|vm_compute; discriminate].
Defined.

(** The header promises convergence of D in at most four turns; a pool of 1000 to 1 needs more:
    the fifth still changes the result. *)
Lemma more_than_four_turns :
  let l := [1000000 * 10 ^ 18; 1000 * 10 ^ 18] in
  let S := 1001000 * 10 ^ 18 in
  d_ref 4 2 400 S l S <> d_ref 5 2 400 S l S.
Proof. vm_compute. discriminate. Qed.

(** A coin of 19 decimals gets the multiplier 0: every use of the pool divides by zero. *)
Lemma nineteen_decimals_panic :
  multipliers (new_2pool 1000 1000 19 18 100 4) = [0; 1; 1] /\
  curve_spot_price_scaled (new_2pool 1000 1000 19 18 100 4) 0 1 = Panic.
Proof. split; vm_compute; reflexivity. Qed.
End Curve.
