(* ===== verification/KernelBypass.v ===== *)
(** * core-engine/src/kernel_bypass.rs: the simulated NIC receive ring

    The pool of packet buffers, the ring of posted buffers and its three operations: refilling the
    ring, receiving a packet into the next posted buffer, and polling a burst of received packets.
    The specification is a queue of packets with a number of credits, the buffers a packet can still
    be received into; it shows in particular that a poll forgets every buffer posted but not yet
    filled. *)

From S2P Require Import Prelude Bytes.

Definition MAX_FRAME_SIZE : nat := 2048%nat.

Inductive BypassBackendKind := SolarflareEfVi | DpdkPmd | PosixFallback.

Record PacketDescriptor := mkDesc {
  dma_address : Z;
  hw_timestamp_ns : Z;
  d_length : Z;
  buffer_id : Z;
  d_flags : Z;
}.

Record BypassConfig := mkBypassConfig {
  backend : BypassBackendKind;
  ring_capacity : Z;
  interface_id : Z;
  enable_hardware_timestamping : bool;
  promiscuous_mode : bool;
}.
Definition BypassConfig_default : BypassConfig := mkBypassConfig PosixFallback 2048 0 true false.

Record BypassMetrics := mkBypassMetrics {
  packets_received : Z;
  bytes_received : Z;
  poll_cycles : Z;
  empty_polls : Z;
  ring_refills : Z;
  dma_errors : Z;
}.
Definition BypassMetrics_default : BypassMetrics := mkBypassMetrics 0 0 0 0 0 0.

Definition count_packet (len : Z) '(mkBypassMetrics p b c e r d) := mkBypassMetrics (p +[U64] 1) (b +[U64] len) c e r d.
Definition count_poll '(mkBypassMetrics p b c e r d) := mkBypassMetrics p b (c +[U64] 1) e r d.
Definition count_empty '(mkBypassMetrics p b c e r d) := mkBypassMetrics p b c (e +[U64] 1) r d.
Definition count_refills (n : Z) '(mkBypassMetrics p b c e r d) := mkBypassMetrics p b c e (r +[U64] n) d.
Definition count_dma_error '(mkBypassMetrics p b c e r d) := mkBypassMetrics p b c e r (d +[U64] 1).

(** Indexing a slice, and writing to it. *)
Definition index {A} (l : list A) (i : nat) : outcome A :=
  match l !! i with Some a => Done a | None => Panic end.
Definition store {A} (l : list A) (i : nat) (a : A) : outcome (list A) :=
  match l !! i with Some _ => Done (<[i:=a]> l) | None => Panic end.

Record DmaBufferPool := mkPool {
  storage : list bytes;
  descriptors : list PacketDescriptor;
  available_indices : list Z;
  free_count : nat;
}.

Record KernelBypassBridge := mkBridge {
  config : BypassConfig;
  metrics : BypassMetrics;
  buffer_pool : DmaBufferPool;
  rx_ring_head : nat;
  rx_ring_tail : nat;
  posted_descriptors : list Z;
  is_active : bool;
}.

Section Bridge.
(** The capacity, the constant parameter of the Rust types.  The cursors never exceed it, so they are
    natural numbers here. *)
Context (N : nat).

Definition new_descriptor (i : nat) : PacketDescriptor :=
  mkDesc (268435456 +[U64] wrap U64 (Z.of_nat i) *[U64] Z.of_nat MAX_FRAME_SIZE) 0 0 (wrap U32 (Z.of_nat i)) 0.

Definition pool_new : DmaBufferPool :=
  mkPool (replicate N (replicate MAX_FRAME_SIZE 0)) (map new_descriptor (seq 0 N))
    (map (fun i => wrap U32 (Z.of_nat i)) (seq 0 N)) N.

Definition buffer_index (id : Z) : nat := Nat.land (Z.to_nat id) (N - 1).

Definition get_buffer_slice (p : DmaBufferPool) (id : Z) (length : nat) : outcome bytes :=
  let len := Nat.min length MAX_FRAME_SIZE in
  let! frame := index (storage p) (buffer_index id) in
  Done (take len frame).

(** [&mut storage[idx]] written as the frame it becomes, and the shared descriptor. *)
Definition get_buffer_mut (p : DmaBufferPool) (id : Z) (write : bytes -> bytes) : outcome DmaBufferPool :=
  let! frame := index (storage p) (buffer_index id) in
  let! frames := store (storage p) (buffer_index id) (write frame) in
  Done (mkPool frames (descriptors p) (available_indices p) (free_count p)).
Definition descriptor (p : DmaBufferPool) (id : Z) : outcome PacketDescriptor := index (descriptors p) (buffer_index id).

Definition allocate_descriptor (p : DmaBufferPool) : outcome (DmaBufferPool * option Z) :=
  if (free_count p =? 0)%nat then Done (p, None)
  else
    let! id := index (available_indices p) (free_count p - 1) in
    Done (mkPool (storage p) (descriptors p) (available_indices p) (free_count p - 1), Some id).

Definition release_descriptor (p : DmaBufferPool) (id : Z) : outcome DmaBufferPool :=
  if (free_count p <? N)%nat then
    let! avail := store (available_indices p) (free_count p) id in
    Done (mkPool (storage p) (descriptors p) avail (S (free_count p)))
  else Done p.

(** [while tail < head + N]: one buffer each turn, at most [fuel]. *)
Fixpoint refill_loop (fuel : nat) (head tail : nat) (pool : DmaBufferPool) (posted : list Z) (refilled : nat) :
    outcome (nat * DmaBufferPool * list Z * nat) :=
  match fuel with
  | O => Done (tail, pool, posted, refilled)
  | S fuel =>
      if (tail <? head + N)%nat then
        let! a := allocate_descriptor pool in
        match a.2 with
        | Some id =>
            let! posted := store posted (Nat.land tail (N - 1)) id in
            refill_loop fuel head (S tail) a.1 posted (S refilled)
        | None => Done (tail, a.1, posted, refilled)
        end
      else Done (tail, pool, posted, refilled)
  end.

(** Every turn takes a free buffer, so one more turn than there are is enough. *)
Definition refill_rx_ring (b : KernelBypassBridge) : outcome (KernelBypassBridge * nat) :=
  let! r := refill_loop (S (free_count (buffer_pool b))) (rx_ring_head b) (rx_ring_tail b) (buffer_pool b)
              (posted_descriptors b) 0 in
  let '(tail, pool, posted, refilled) := r in
  Done (mkBridge (config b) (if (0 <? refilled)%nat then count_refills (Z.of_nat refilled) (metrics b) else metrics b)
          pool (rx_ring_head b) tail posted (is_active b), refilled).

Definition is_pow2 : bool := (0 <? N)%nat && (Nat.land N (N - 1) =? 0)%nat.

Definition bridge_new (c : BypassConfig) : outcome KernelBypassBridge :=
  if negb is_pow2 then Panic
  else
    let! r := refill_rx_ring (mkBridge c BypassMetrics_default pool_new 0 0 (replicate N 0) true) in
    Done r.1.

Definition ring_exhausted : bytes := lit "RX ring exhausted - packet dropped at PHY layer".

Definition inject_packet (b : KernelBypassBridge) (payload : bytes) (hw_ts_ns : Z) :
    outcome (KernelBypassBridge * result unit bytes) :=
  if (rx_ring_tail b <=? rx_ring_head b)%nat then
    Done (mkBridge (config b) (count_dma_error (metrics b)) (buffer_pool b) (rx_ring_head b) (rx_ring_tail b)
            (posted_descriptors b) (is_active b), Err ring_exhausted)
  else
    let head := rx_ring_head b in
    let p := buffer_pool b in
    let! id := index (posted_descriptors b) (Nat.land head (N - 1)) in
    let len := Nat.min (length payload) MAX_FRAME_SIZE in
    let! frame := index (storage p) (buffer_index id) in
    let! storage' := store (storage p) (buffer_index id) (take len payload ++ drop len frame) in
    let! desc := index (descriptors p) (buffer_index id) in
    let! descriptors' := store (descriptors p) (buffer_index id)
      (mkDesc (dma_address desc) hw_ts_ns (wrap U32 (Z.of_nat len)) (buffer_id desc) 1) in
    Done (mkBridge (config b) (metrics b) (mkPool storage' descriptors' (available_indices p) (free_count p))
            (S head) (rx_ring_tail b) (posted_descriptors b) (is_active b), Ok tt).

(** The packets from [current] on, [todo] of them; the handler's calls are collected. *)
Fixpoint poll_loop (todo current : nat) (posted : list Z) (pool : DmaBufferPool) (m : BypassMetrics)
    (handled : list (bytes * Z)) : outcome (DmaBufferPool * BypassMetrics * list (bytes * Z)) :=
  match todo with
  | O => Done (pool, m, handled)
  | S todo =>
      let! id := index posted (Nat.land current (N - 1)) in
      let! desc := index (descriptors pool) (buffer_index id) in
      let len := d_length desc in
      let! payload := get_buffer_slice pool id (Z.to_nat len) in
      let m := count_packet len m in
      let! pool := release_descriptor pool id in
      poll_loop todo (S current) posted pool m (handled ++ [(payload, hw_timestamp_ns desc)])
  end.

(** [posted[i] = posted[current + i]] for [i] below [remaining]. *)
Fixpoint shift_loop (todo i current : nat) (posted : list Z) : outcome (list Z) :=
  match todo with
  | O => Done posted
  | S todo =>
      let! id := index posted (current + i) in
      let! posted := store posted i id in
      shift_loop todo (S i) current posted
  end.

Definition poll_rx_burst (b : KernelBypassBridge) (max_packets : nat) :
    outcome (KernelBypassBridge * list (bytes * Z) * nat) :=
  let m := count_poll (metrics b) in
  let head := rx_ring_head b in
  let limit := Nat.min max_packets head in
  let! r := poll_loop limit 0 (posted_descriptors b) (buffer_pool b) m [] in
  let '(pool, m, handled) := r in
  if (limit =? 0)%nat then
    Done (mkBridge (config b) (count_empty m) pool head (rx_ring_tail b) (posted_descriptors b) (is_active b), handled, limit)
  else
    let remaining := (head - limit)%nat in
    let! posted := shift_loop remaining 0 limit (posted_descriptors b) in
    let! r := refill_rx_ring (mkBridge (config b) m pool remaining remaining posted (is_active b)) in
    Done (r.1, handled, limit).
End Bridge.

(** ** The specification: a queue with credits *)

Definition packet : Type := bytes * Z.

(** The packets received and not yet polled, oldest first, and the number of packets that can still be
    received.  A poll that delivers packets makes room for as many, whatever was free before. *)
Definition nic : Type := list packet * nat.

Inductive nic_call := Receive (payload : bytes) (ts : Z) | Poll (max_packets : nat).
Inductive nic_reply := Received (r : result unit bytes) | Polled (ps : list packet) (n : nat).

Definition nic_spec (s : nic) (c : nic_call) : nic * nic_reply :=
  let (q, credits) := s in
  match c with
  | Receive payload ts =>
      match credits with
      | O => (s, Received (Err ring_exhausted))
      | S credits => ((q ++ [(take MAX_FRAME_SIZE payload, ts)], credits), Received (Ok tt))
      end
  | Poll max =>
      let n := Nat.min max (length q) in
      ((drop n q, if (n =? 0)%nat then credits else n), Polled (take n q) n)
  end.

Fixpoint nic_run (s : nic) (cs : list nic_call) : nic * list nic_reply :=
  match cs with
  | [] => (s, [])
  | c :: cs => let (s, r) := nic_spec s c in let (s, rs) := nic_run s cs in (s, r :: rs)
  end.

Definition bridge_call (N : nat) (b : KernelBypassBridge) (c : nic_call) : outcome (KernelBypassBridge * nic_reply) :=
  match c with
  | Receive payload ts => let! r := inject_packet N b payload ts in Done (r.1, Received r.2)
  | Poll max => let! r := poll_rx_burst N b max in Done (r.1.1, Polled r.1.2 r.2)
  end.

Fixpoint bridge_run (N : nat) (b : KernelBypassBridge) (cs : list nic_call) : outcome (KernelBypassBridge * list nic_reply) :=
  match cs with
  | [] => Done (b, [])
  | c :: cs => let! r := bridge_call N b c in let! rs := bridge_run N r.1 cs in Done (rs.1, r.2 :: rs.2)
  end.

(** ** The representation *)

Section Rep.
Context (N k : nat) (HN : N = (2 ^ k)%nat) (H32 : Z.of_nat N <= 2 ^ 32).

Lemma N_pos : (1 <= N)%nat.
Proof. rewrite HN. pose proof (Nat.pow_nonzero 2 k). lia. Qed.

Lemma mask_small i : (i < N)%nat -> Nat.land i (N - 1) = i.
Proof.
  intros Hi. replace (N - 1)%nat with (Nat.ones k) by (rewrite Nat.ones_equiv, HN; lia).
  rewrite Nat.land_ones. apply Nat.mod_small. by rewrite <- HN.
Qed.

Lemma buffer_index_id id : (id < N)%nat -> buffer_index N (Z.of_nat id) = id.
Proof. intros Hi. unfold buffer_index. rewrite Nat2Z.id. by apply mask_small. Qed.

(** The list stores the given buffer ids at its start. *)
Definition stores (l : list Z) (ids : list nat) : Prop := forall i id, ids !! i = Some id -> l !! i = Some (Z.of_nat id).

(** Buffer [id] holds the packet. *)
Definition holds (p : DmaBufferPool) (id : nat) (pk : packet) : Prop :=
  exists d frame, descriptors p !! id = Some d /\ storage p !! id = Some frame /\
    d_length d = Z.of_nat (length pk.1) /\ hw_timestamp_ns d = pk.2 /\
    (length pk.1 <= MAX_FRAME_SIZE)%nat /\ take (length pk.1) frame = pk.1.

Record pool_ok (p : DmaBufferPool) : Prop := {
  ok_storage : length (storage p) = N;
  ok_frames : Forall (fun f => length f = MAX_FRAME_SIZE) (storage p);
  ok_descriptors : length (descriptors p) = N;
  ok_available : length (available_indices p) = N;
}.

(** Writing a frame in place is read back from it, and from no other buffer. *)
Lemma get_buffer_mut_slice p id write n : pool_ok p -> (id < N)%nat -> (forall f, length (write f) = length f) ->
  exists p' frame, storage p !! id = Some frame /\ get_buffer_mut N p (Z.of_nat id) write = Done p' /\ pool_ok p' /\
    get_buffer_slice N p' (Z.of_nat id) n = Done (take (Nat.min n MAX_FRAME_SIZE) (write frame)) /\
    forall j, (j < N)%nat -> j <> id -> get_buffer_slice N p' (Z.of_nat j) n = get_buffer_slice N p (Z.of_nat j) n.
Proof.
  intros [H1 H2 H3 H4] Hi Hw. destruct (lookup_lt_is_Some_2 (storage p) id ltac:(lia)) as [frame Hf].
  unfold get_buffer_mut, get_buffer_slice, index, store. rewrite buffer_index_id, Hf by done. cbn [outcome_bind].
  do 2 eexists. split; [reflexivity|]. split; [reflexivity|]. cbn [storage].
  split; [split; cbn; rewrite ?length_insert; try done; apply Forall_insert; [done|]; by rewrite Hw, (Forall_lookup_1 _ _ _ _ H2 Hf)|].
  split; [by rewrite list_lookup_insert_eq by lia|]. intros j Hj Hne. rewrite buffer_index_id by done.
  by rewrite list_lookup_insert_ne.
Qed.

(** [ids] are the posted buffers: those below the head hold the packets of the queue, the others
    are the credits. *)
Record bridge_rep (b : KernelBypassBridge) (q : list packet) (credits : nat) (ids : list nat) : Prop := {
  rep_pool : pool_ok (buffer_pool b);
  rep_free : free_count (buffer_pool b) = 0%nat;
  rep_posted : length (posted_descriptors b) = N /\ stores (posted_descriptors b) ids;
  rep_head : rx_ring_head b = length q;
  rep_tail : rx_ring_tail b = length ids /\ length ids = (length q + credits)%nat;
  rep_ids : NoDup ids /\ Forall (fun i => (i < N)%nat) ids /\ (length ids <= N)%nat;
  rep_queue : forall i pk, q !! i = Some pk -> exists id, ids !! i = Some id /\ holds (buffer_pool b) id pk;
}.

Lemma store_ok {A} (l : list A) i a : (i < length l)%nat -> store l i a = Done (<[i:=a]> l).
Proof. intros H. unfold store. by destruct (lookup_lt_is_Some_2 l i H) as [? ->]. Qed.

Lemma index_ok {A} (l : list A) i a : l !! i = Some a -> index l i = Done a.
Proof. unfold index. by intros ->. Qed.

(** Refilling moves the free stack [fs] to the ring, the top first. *)
Lemma refill_loop_spec fs : forall fuel head tail pool posted ids r,
  pool_ok pool -> free_count pool = length fs -> stores (available_indices pool) fs -> (length fs < fuel)%nat ->
  length posted = N -> stores posted ids -> tail = length ids -> (tail + length fs <= N)%nat -> 
  exists pool' posted',
    refill_loop N fuel head tail pool posted r = Done ((tail + length fs)%nat, pool', posted', (r + length fs)%nat) /\
    storage pool' = storage pool /\ descriptors pool' = descriptors pool /\
    available_indices pool' = available_indices pool /\ free_count pool' = 0%nat /\
    length posted' = N /\ stores posted' (ids ++ rev fs).
Proof.
  induction fs as [|id fs IH] using rev_ind; intros fuel head tail pool posted ids r Hp Hf Ha Hfuel Hl Hs Ht Hr;
    (destruct fuel as [|fuel]; [lia|]); cbn [refill_loop]; pose proof N_pos;
    rewrite ?length_app in *; cbn [length] in *; unfold allocate_descriptor; rewrite Hf.
  - exists pool, posted. rewrite !Nat.add_0_r, app_nil_r. by destruct (_ <? _)%nat.
  - destruct (Nat.ltb_spec tail (head + N)); [|lia]. destruct (Nat.eqb_spec (length fs + 1) 0); [lia|]. replace (length fs + 1 - 1)%nat with (length fs) by lia.
    rewrite (index_ok _ _ (Z.of_nat id)) by (apply Ha; by rewrite list_lookup_middle). cbn [outcome_bind fst snd].
    rewrite mask_small by lia. rewrite store_ok by lia. cbn [outcome_bind].
    edestruct (IH fuel head (S tail)) with (ids := ids ++ [id]) as (pool' & posted' & -> & E1 & E2 & E3 & E4 & E5 & E6);
      [| | |lia| | | | |].
    5: { intros i x Hx. apply lookup_app_Some in Hx as [Hx|[Hge Hx]].
         - rewrite list_lookup_insert_ne; [by apply Hs|]. apply lookup_lt_Some in Hx. lia.
         - destruct (i - length ids)%nat eqn:Ei; [|by destruct n0]. injection Hx as <-.
           replace i with tail by lia. apply list_lookup_insert_eq. lia. }
    + by destruct Hp.
    + done.
    + intros i x Hx. apply Ha. by apply lookup_app_l_Some.
    + by rewrite length_insert.
    + rewrite length_app; cbn; lia.
    + lia.
    + exists pool', posted'. rewrite rev_app_distr. cbn in *. rewrite <- app_assoc in E6. cbn in E6.
      split; [do 4 f_equal; lia|done].
Qed.
Lemma holds_same p p' id pk :
  descriptors p' !! id = descriptors p !! id -> storage p' !! id = storage p !! id -> holds p id pk -> holds p' id pk.
Proof. unfold holds. intros -> ->. done. Qed.

Lemma frame_length p id f : pool_ok p -> storage p !! id = Some f -> length f = MAX_FRAME_SIZE.
Proof. intros Hp Hf. by apply (Forall_lookup_1 _ _ _ _ (ok_frames p Hp) Hf). Qed.

(** Polling delivers the packets in order and pushes their buffers on the free stack. *)
Lemma poll_loop_spec ids q posted : forall todo current pool m handled,
  stores posted ids -> Forall (fun i => (i < N)%nat) ids -> (length ids <= N)%nat ->
  (current + todo <= length q)%nat -> (length q <= length ids)%nat ->
  pool_ok pool -> free_count pool = current -> stores (available_indices pool) (take current ids) ->
  (forall i pk, q !! i = Some pk -> exists id, ids !! i = Some id /\ holds pool id pk) ->
  exists pool' m',
    poll_loop N todo current posted pool m handled = Done (pool', m', handled ++ take todo (drop current q)) /\
    pool_ok pool' /\ storage pool' = storage pool /\ descriptors pool' = descriptors pool /\
    free_count pool' = (current + todo)%nat /\ stores (available_indices pool') (take (current + todo) ids).
Proof.
  induction todo as [|todo IH]; intros current pool m handled Hs Hids HlN Hc Hq Hp Hf Ha Hh; cbn [poll_loop].
  { exists pool, m. rewrite app_nil_r, Nat.add_0_r. done. }
  destruct (lookup_lt_is_Some_2 q current ltac:(lia)) as [pk Epk]. destruct (Hh current pk Epk) as (id & Eid & d & f & Ed & Ef & El & Ets & Elen & Etake).
  pose proof (Forall_lookup_1 _ _ _ _ Hids Eid) as Hid. cbn beta in Hid.
  rewrite mask_small by (apply lookup_lt_Some in Eid; lia). rewrite (index_ok _ _ _ (Hs _ _ Eid)). cbn [outcome_bind].
  rewrite buffer_index_id by done. rewrite (index_ok _ _ _ Ed). cbn [outcome_bind].
  unfold get_buffer_slice. rewrite buffer_index_id by done. rewrite (index_ok _ _ _ Ef). cbn [outcome_bind].
  unfold release_descriptor. destruct (Nat.ltb_spec (free_count pool) N); [|lia].
  rewrite store_ok by (rewrite (ok_available pool Hp); lia). cbn [outcome_bind].
  edestruct (IH (S current) (mkPool (storage pool) (descriptors pool) (<[free_count pool:=Z.of_nat id]> (available_indices pool)) (S (free_count pool))))
    as (pool' & m' & -> & H1 & H2 & H3 & H4 & H5); [done|done|done|lia|done| | | | |].
  - destruct Hp. split; cbn; try done. by rewrite length_insert.
  - cbn. lia.
  - cbn. intros i y Hy. rewrite (take_S_r _ _ _ Eid) in Hy. rewrite Hf. apply lookup_app_Some in Hy as [Hy|[Hge Hy]].
    + rewrite list_lookup_insert_ne; [by apply Ha|]. apply lookup_lt_Some in Hy. rewrite length_take in Hy. lia.
    + rewrite length_take in Hge, Hy. apply lookup_lt_Some in Eid as Hlt.
      destruct (i - Nat.min current (length ids))%nat eqn:Ei; [|by destruct n]. injection Hy as <-.
      replace i with current by lia. apply list_lookup_insert_eq. rewrite (ok_available pool Hp). lia.
  - intros i pk' Hpk. destruct (Hh i pk' Hpk) as (id' & ? & ?). exists id'. split; [done|]. by apply (holds_same pool).
  - exists pool', m'. split.
    + do 2 f_equal. rewrite <- app_assoc. f_equal. rewrite (drop_S _ _ _ Epk). cbn [take app]. f_equal.
      rewrite El, Nat2Z.id, Nat.min_l, Etake by done. rewrite Ets. by destruct pk.
    + replace (current + S todo)%nat with (S current + todo)%nat by lia. done.
Qed.

Lemma shift_loop_spec : forall todo i current posted,
  (1 <= current)%nat -> (current + i + todo <= length posted)%nat ->
  exists posted', shift_loop todo i current posted = Done posted' /\ length posted' = length posted /\
    forall j, posted' !! j = if (i <=? j)%nat && (j <? i + todo)%nat then posted !! (current + j)%nat else posted !! j.
Proof.
  induction todo as [|todo IH]; intros i current posted Hc Hl; cbn [shift_loop].
  { exists posted. split; [done|]. split; [done|]. intros j. by destruct (Nat.leb_spec i j), (Nat.ltb_spec j (i + 0)); try lia. }
  destruct (lookup_lt_is_Some_2 posted (current + i) ltac:(lia)) as [id Eid].
  rewrite (index_ok _ _ _ Eid). cbn [outcome_bind]. rewrite store_ok by lia. cbn [outcome_bind].
  destruct (IH (S i) current (<[i:=id]> posted) Hc) as (posted' & -> & El & Hj); [rewrite length_insert; lia|].
  exists posted'. split; [done|]. split; [by rewrite El, length_insert|]. intros j. rewrite Hj.
  destruct (Nat.eq_dec j i) as [->|Hne].
  - destruct (Nat.leb_spec (S i) i), (Nat.leb_spec i i), (Nat.ltb_spec i (i + S todo)); try lia. cbn.
    rewrite list_lookup_insert_eq by lia. done.
  - destruct (Nat.leb_spec (S i) j), (Nat.leb_spec i j), (Nat.ltb_spec j (S i + todo)), (Nat.ltb_spec j (i + S todo));
      try lia; cbn [andb]; by rewrite list_lookup_insert_ne by lia.
Qed.

(** ** The operations refine the queue with credits *)

Lemma inject_rep b q credits ids payload ts : bridge_rep b q credits ids ->
  exists b', inject_packet N b payload ts =
      Done (b', match credits with O => Err ring_exhausted | S _ => Ok tt end) /\
    match credits with
    | O => bridge_rep b' q 0 ids
    | S c => bridge_rep b' (q ++ [(take MAX_FRAME_SIZE payload, ts)]) c ids
    end.
Proof.
  intros [Hp Hf [Hpl Hps] Hh [Ht Hl] (Hnd & Hid & HlN) Hq]. unfold inject_packet. rewrite Ht, Hh, Hl.
  destruct credits as [|c].
  - destruct (Nat.leb_spec (length q + 0) (length q)); [|lia]. eexists. split; [reflexivity|]. by split.
  - destruct (Nat.leb_spec (length q + S c) (length q)); [lia|].
    destruct (lookup_lt_is_Some_2 ids (length q) ltac:(lia)) as [id Eid].
    pose proof (Forall_lookup_1 _ _ _ _ Hid Eid) as HidN. cbn beta in HidN.
    rewrite mask_small by lia. rewrite (index_ok _ _ _ (Hps _ _ Eid)). cbn [outcome_bind].
    rewrite buffer_index_id by done.
    destruct (lookup_lt_is_Some_2 (storage (buffer_pool b)) id) as [f Ef]; [by rewrite (ok_storage _ Hp)|].
    destruct (lookup_lt_is_Some_2 (descriptors (buffer_pool b)) id) as [d Ed]; [by rewrite (ok_descriptors _ Hp)|].
    pose proof (frame_length _ _ _ Hp Ef) as Hfl.
    rewrite (index_ok _ _ _ Ef). cbn [outcome_bind]. rewrite store_ok by (by rewrite (ok_storage _ Hp)). cbn [outcome_bind].
    rewrite (index_ok _ _ _ Ed). cbn [outcome_bind]. rewrite store_ok by (by rewrite (ok_descriptors _ Hp)). cbn [outcome_bind].
    eexists. split; [reflexivity|]. split; cbn; [|done|done|rewrite length_app; cbn; lia|split; [done|rewrite length_app; cbn; lia]|done|].
    + destruct Hp as [H1 H2 H3 H4]. split; cbn; rewrite ?length_insert; try done.
      apply Forall_insert; [done|]. rewrite length_app, length_take, length_drop, Hfl. unfold MAX_FRAME_SIZE. lia.
    + intros i pk Hpk. apply lookup_app_Some in Hpk as [Hpk|[Hge Hpk]].
      * destruct (Hq i pk Hpk) as (id' & Eid' & Hholds). exists id'. split; [done|].
        assert (id <> id') as Hne.
        { intros <-. pose proof (NoDup_lookup ids i (length q) id Hnd Eid' Eid). apply lookup_lt_Some in Hpk. lia. }
        eapply holds_same; [| |exact Hholds]; cbn; by rewrite list_lookup_insert_ne.
      * destruct (i - length q)%nat eqn:Ei; [|by destruct n]. injection Hpk as <-. replace i with (length q) by lia.
        exists id. split; [done|]. eexists _, _. cbn.
        rewrite !list_lookup_insert_eq by (by rewrite ?(ok_storage _ Hp), ?(ok_descriptors _ Hp)).
        split; [reflexivity|]. split; [reflexivity|]. cbn. rewrite length_take.
        rewrite (Nat.min_comm MAX_FRAME_SIZE). split; [apply wrap_id; unfold MAX_FRAME_SIZE; mint|]. split; [done|]. split; [lia|].
        rewrite take_app_le by (rewrite length_take; lia). rewrite take_take, Nat.min_id.
        destruct (Nat.le_ge_cases (length payload) MAX_FRAME_SIZE); [|by rewrite Nat.min_r by done].
        by rewrite Nat.min_l, !take_ge by done.
Qed.
(** Refilling an idle ring: the free stack becomes the posted buffers. *)
Lemma refill_rep b q ids fs :
  pool_ok (buffer_pool b) -> free_count (buffer_pool b) = length fs -> stores (available_indices (buffer_pool b)) fs ->
  length (posted_descriptors b) = N -> stores (posted_descriptors b) ids ->
  rx_ring_head b = length q -> rx_ring_tail b = length q -> length ids = length q ->
  NoDup (ids ++ rev fs) -> Forall (fun i => (i < N)%nat) (ids ++ rev fs) -> (length (ids ++ rev fs) <= N)%nat ->
  (forall i pk, q !! i = Some pk -> exists id, ids !! i = Some id /\ holds (buffer_pool b) id pk) ->
  exists b' n, refill_rx_ring N b = Done (b', n) /\ bridge_rep b' q (length fs) (ids ++ rev fs).
Proof.
  intros Hp Hf Ha Hl Hs Hh Ht Hids Hnd Hid HlN Hq. unfold refill_rx_ring. rewrite length_app, length_rev in HlN.
  edestruct (refill_loop_spec fs (S (free_count (buffer_pool b))) (rx_ring_head b) (rx_ring_tail b) (buffer_pool b)
    (posted_descriptors b) ids 0) as (pool' & posted' & -> & E1 & E2 & E3 & E4 & E5 & E6); try done; try lia.
  cbn [outcome_bind]. do 2 eexists. split; [reflexivity|]. split; cbn; try done.
  - destruct Hp. split; by rewrite ?E1, ?E2, ?E3.
  - rewrite length_app, length_rev. lia.
  - split; [done|]. split; [done|]. rewrite length_app, length_rev. lia.
  - intros i pk Hpk. destruct (Hq i pk Hpk) as (id & Eid & Hh'). exists id. split; [by apply lookup_app_l_Some|].
    by apply (holds_same (buffer_pool b)); rewrite ?E1, ?E2.
Qed.

Lemma poll_rep b q credits ids max : bridge_rep b q credits ids ->
  let n := Nat.min max (length q) in
  exists b' ids', poll_rx_burst N b max = Done (b', take n q, n) /\
    bridge_rep b' (drop n q) (if (n =? 0)%nat then credits else n) ids'.
Proof.
  intros [Hp Hf [Hpl Hps] Hh [Ht Hl] (Hnd & Hid & HlN) Hq] n. unfold poll_rx_burst. rewrite Hh. fold n.
  assert (n <= length q)%nat as Hn by (unfold n; lia). clearbody n.
  edestruct (poll_loop_spec ids q (posted_descriptors b) n 0 (buffer_pool b) (count_poll (metrics b)) [])
    as (pool' & m' & -> & Hp' & E1 & E2 & E3 & E4); try done; try lia.
  { rewrite Hl. apply Nat.le_add_r. }
  cbn [outcome_bind Nat.add app drop] in *. destruct (Nat.eqb_spec n 0) as [En|En].
  - rewrite En in *. exists (mkBridge (config b) (count_empty m') pool' (length q) (rx_ring_tail b) (posted_descriptors b) (is_active b)), ids.
    split; [done|]. rewrite drop_0. split; try done. intros i pk Hpk. destruct (Hq i pk Hpk) as (id & ? & ?). exists id. split; [done|].
    by apply (holds_same (buffer_pool b)); cbn; rewrite ?E1, ?E2.
  - destruct (shift_loop_spec (length q - n) 0 n (posted_descriptors b)) as (posted' & -> & El & Hj); [lia|lia|].
    cbn [outcome_bind].
    pose proof (take_drop n ids) as Etd. assert (length (take n ids) = n) as Etn by (rewrite length_take; lia).
    set (rest := take (length q - n) (drop n ids)).
    assert (length rest = length q - n)%nat as Erest by (unfold rest; rewrite length_take, length_drop; lia).
    assert (rest ++ rev (take n ids) ⊆+ ids) as Hsub.
    { rewrite <- Etd at 2. rewrite (Permutation_app_comm rest). apply submseteq_app; [|unfold rest; apply submseteq_take].
      by rewrite <- Permutation_rev. }
    edestruct (refill_rep (mkBridge (config b) m' pool' (length q - n) (length q - n) posted' (is_active b)) (drop n q) rest (take n ids))
      as (b' & r & -> & Hb'); cbn; rewrite ?length_drop; try done; try lia.
    + intros i id Hi. unfold rest in Hi. apply lookup_take_Some in Hi as [Hi Hlt]. rewrite lookup_drop in Hi.
      rewrite Hj. destruct (Nat.ltb_spec i (0 + (length q - n))); [|lia]. cbn. by apply Hps.
    + destruct (submseteq_Permutation _ _ Hsub) as [l Hperm]. rewrite Hperm in Hnd. by apply list.NoDup_app in Hnd as [? _].
    + destruct (submseteq_Permutation _ _ Hsub) as [l Hperm]. rewrite Hperm in Hid. by apply Forall_app in Hid as [? _].
    + rewrite (submseteq_length _ _ Hsub). done.
    + intros i pk Hpk. rewrite lookup_drop in Hpk. destruct (Hq _ _ Hpk) as (id & Eid & Hh'). exists id. split.
      * unfold rest. rewrite lookup_take_lt by (apply lookup_lt_Some in Hpk; lia). by rewrite lookup_drop.
      * by apply (holds_same (buffer_pool b)); cbn; rewrite ?E1, ?E2.
    + cbn [outcome_bind fst]. exists b'. eexists. split; [done|]. rewrite Etn in Hb'. exact Hb'.
Qed.

Lemma pow2_ok : is_pow2 N = true.
Proof.
  unfold is_pow2. rewrite (proj2 (Nat.ltb_lt 0 N)) by (pose proof N_pos; lia). cbn [andb]. apply Nat.eqb_eq.
  replace (N - 1)%nat with (Nat.ones k) by (rewrite Nat.ones_equiv, HN; lia).
  rewrite Nat.land_ones, HN. apply Nat.Div0.mod_same.
Qed.

Lemma pool_new_ok : pool_ok (pool_new N).
Proof.
  unfold pool_new. split; cbn [storage descriptors available_indices]; rewrite ?length_replicate, ?length_map, ?length_seq; try done.
  apply Forall_replicate. apply length_replicate.
Qed.

Lemma bridge_new_rep c : exists b ids, bridge_new N c = Done b /\ bridge_rep b [] N ids.
Proof.
  unfold bridge_new. rewrite pow2_ok. cbn [negb].
  edestruct (refill_rep (mkBridge c BypassMetrics_default (pool_new N) 0 0 (replicate N 0) true) [] [] (seq 0 N))
    as (b & n & -> & Hb);
    [apply pool_new_ok|symmetry; apply length_seq| |apply length_replicate|by intros [] ?|done|done|done| | | |by intros [] ?|].
  - intros i id Hi. apply lookup_seq in Hi as [-> Hlt]. cbn [buffer_pool pool_new available_indices].
    rewrite list_lookup_fmap, lookup_seq_lt by done. cbn. f_equal. apply wrap_id. mint.
  - cbn [app]. rewrite <- Permutation_rev. apply NoDup_seq.
  - cbn [app]. rewrite <- Permutation_rev. apply Forall_seq. lia.
  - cbn [app]. rewrite length_rev, length_seq. done.
  - cbn [outcome_bind fst]. rewrite length_seq in Hb. eauto.
Qed.

Lemma bridge_run_rep cs : forall b q credits ids, bridge_rep b q credits ids ->
  exists b' ids', bridge_run N b cs = Done (b', (nic_run (q, credits) cs).2) /\
    bridge_rep b' (nic_run (q, credits) cs).1.1 (nic_run (q, credits) cs).1.2 ids'.
Proof.
  induction cs as [|c cs IH]; intros b q credits ids Hb; cbn [bridge_run nic_run]; [eauto|].
  assert (exists b1 ids1, bridge_call N b c = Done (b1, (nic_spec (q, credits) c).2) /\
    bridge_rep b1 (nic_spec (q, credits) c).1.1 (nic_spec (q, credits) c).1.2 ids1) as (b1 & ids1 & -> & Hb1).
  { destruct c as [payload ts|max]; cbn.
    - destruct (inject_rep b q credits ids payload ts Hb) as (b1 & -> & Hb1). exists b1, ids.
      destruct credits; (split; [done|exact Hb1]).
    - destruct (poll_rep b q credits ids max Hb) as (b1 & ids1 & -> & Hb1). eauto. }
  cbn [outcome_bind fst snd]. destruct (nic_spec (q, credits) c) as [[q1 c1] r1]. cbn [fst snd] in *.
  destruct (IH b1 q1 c1 ids1 Hb1) as (b2 & ids2 & -> & Hb2). cbn [outcome_bind fst snd].
  destruct (nic_run (q1, c1) cs) as [[q2 c2] rs]. eauto.
Qed.
End Rep.

(** Packets received and room for more never exceed what they were. *)
Lemma nic_spec_shrinks s c :
  (length (nic_spec s c).1.1 + (nic_spec s c).1.2 <= length s.1 + s.2)%nat.
Proof.
  destruct s as [q n], c as [p ts|max]; cbn.
  - destruct n; cbn; rewrite ?length_app; cbn; lia.
  - destruct (Nat.eqb_spec (Nat.min max (length q)) 0) as [E|E]; cbn; rewrite length_drop; lia.
Qed.

Module KernelBypass.

(** C30: over any sequence of receptions and polls, the bridge of [N = 2^k] buffers never panics and
    answers as a queue of packets with credits: packets (cut to the frame size) come out once, in
    order, with their time stamps; a packet is refused when there is no credit left.  The queue
    starts with [N] credits, and a poll that delivers [n] packets leaves exactly [n] credits. *)
Theorem bridge_refines_queue (N k : nat) (c : BypassConfig) (cs : list nic_call)
    (HN : N = (2 ^ k)%nat) (H32 : Z.of_nat N <= 2 ^ 32) :
  exists b b', bridge_new N c = Done b /\ bridge_run N b cs = Done (b', (nic_run ([], N) cs).2).
Proof.
  destruct (bridge_new_rep N k HN H32 c) as (b & ids & Eb & Hb).
  destruct (bridge_run_rep N k HN cs b [] N ids Hb) as (b' & ids' & Er & _). eauto.
Qed.

Definition demo_calls : list nic_call :=
  [Receive (lit "one") 10; Poll 8; Receive (lit "two") 20; Receive (lit "three") 30; Poll 8].

Lemma bridge_refines_queue_witness :
  exists b b', bridge_new 4 BypassConfig_default = Done b /\
    bridge_run 4 b demo_calls = Done (b',
      [Received (Ok tt); Polled [(lit "one", 10)] 1; Received (Ok tt); Received (Err ring_exhausted);
       Polled [(lit "two", 20)] 1]).
Proof. exact (bridge_refines_queue 4 2 BypassConfig_default demo_calls eq_refl ltac:(vm_compute; discriminate)). Defined.

(** Polling one packet from a ring that has received only that one loses all other buffers: the
    ring then takes one more packet and refuses the next, whatever its capacity. *)
Theorem poll_loses_buffers (N k : nat) (c : BypassConfig) (p1 p2 p3 : bytes) (t1 t2 t3 : Z)
    (HN : N = (2 ^ k)%nat) (H32 : Z.of_nat N <= 2 ^ 32) :
  exists b b', bridge_new N c = Done b /\
    bridge_run N b [Receive p1 t1; Poll 1; Receive p2 t2; Receive p3 t3] =
      Done (b', [Received (Ok tt); Polled [(take MAX_FRAME_SIZE p1, t1)] 1; Received (Ok tt); Received (Err ring_exhausted)]).
Proof.
  destruct (bridge_new_rep N k HN H32 c) as (b & ids & Eb & Hb).
  destruct (bridge_run_rep N k HN [Receive p1 t1; Poll 1; Receive p2 t2; Receive p3 t3] b [] N ids Hb) as (b' & ids' & Er & _).
  exists b, b'. split; [done|]. rewrite Er. pose proof (N_pos N k HN). destruct N as [|n]; [lia|]. reflexivity.
Qed.

Lemma poll_loses_buffers_witness :
  exists b b', bridge_new 64 BypassConfig_default = Done b /\
    bridge_run 64 b [Receive (lit "a") 1; Poll 1; Receive (lit "b") 2; Receive (lit "c") 3] =
      Done (b', [Received (Ok tt); Polled [(lit "a", 1)] 1; Received (Ok tt); Received (Err ring_exhausted)]).
Proof.
  exact (poll_loses_buffers 64 6 BypassConfig_default (lit "a") (lit "b") (lit "c") 1 2 3 eq_refl ltac:(vm_compute; discriminate)).
Defined.
End KernelBypass.
