(* ===== verification/Onchain.v ===== *)
(** * onchain-ingest/src/lib.rs: speculative swaps and Raydium accounts

    The effect a pending transaction would have on a constant-product pool (Amm.v), and the decoder
    of a Raydium account into a quote.  Where nothing overflows the simulated swap keeps the
    product of the reserves and moves the price the right way. *)

From S2P Require Import Prelude Bytes Models OrderBook Amm.

Record PendingMempoolTx := mkTx {
  tx_hash : bytes;
  tx_chain_id : Z;
  target_pool : bytes;
  gas_priority_fee_gwei : Z;
  is_buy : bool;
  amount_in : Z;
  min_amount_out : Z;
  detected_ts_ns : Z;
}.

Record SpeculativeShiftEvent := mkShift {
  pool_address : bytes;
  predicted_spot_price : Z;
  price_impact_bps : Z;
  sh_tx_hash : bytes;
  priority_fee_gwei : Z;
}.

(** [numerator / denominator] of a swap of [amount] into [reserve_in], out of [reserve_out], if the
    denominator is not zero. *)
Definition swap_out (p : UniswapV2Pool) (amount reserve_in reserve_out : Z) : option Z :=
  let amount_in_with_fee := amount *[U128] fee_numerator p in
  let numerator := amount_in_with_fee *[U128] reserve_out in
  let denominator := (reserve_in *[U128] fee_denominator p) +[U128] amount_in_with_fee in
  if 0 <? denominator then Some (numerator / denominator) else None.

(** The clone of the pool the swap is applied to. *)
Definition simulated_pool (tx : PendingMempoolTx) (p : UniswapV2Pool) : UniswapV2Pool :=
  if is_buy tx then
    match swap_out p (amount_in tx) (reserve_quote p) (reserve_base p) with
    | Some amount_out =>
        if amount_out <? reserve_base p
        then mkV2 (reserve_base p -[U128] amount_out) (reserve_quote p +[U128] amount_in tx) (fee_numerator p)
               (fee_denominator p) (base_decimals p) (quote_decimals p)
        else p
    | None => p
    end
  else
    match swap_out p (amount_in tx) (reserve_base p) (reserve_quote p) with
    | Some amount_out =>
        if amount_out <? reserve_quote p
        then mkV2 (reserve_base p +[U128] amount_in tx) (reserve_quote p -[U128] amount_out) (fee_numerator p)
               (fee_denominator p) (base_decimals p) (quote_decimals p)
        else p
    | None => p
    end.

Definition impact_of (spot_before spot_after : Z) : Z :=
  if spot_before <? spot_after then wrap U16 (Z.quot ((spot_after -[I64] spot_before) *[I64] 10000) spot_before)
  else if spot_after <? spot_before then wrap U16 (Z.quot ((spot_before -[I64] spot_after) *[I64] 10000) spot_before)
  else 0.

Definition simulate_pending_swap (tx : PendingMempoolTx) (pool : UniswapV2Pool) : outcome (option SpeculativeShiftEvent) :=
  let! spot_before := v2_spot_price_scaled pool in
  if spot_before <=? 0 then Done None
  else
    let! spot_after := v2_spot_price_scaled (simulated_pool tx pool) in
    Done (Some (mkShift (target_pool tx) spot_after (impact_of spot_before spot_after) (tx_hash tx)
      (gas_priority_fee_gwei tx))).

(** The account's bytes from 16 to 24 are the price. *)
Definition parse_raydium_clmm_account (market_id : Z) (data : bytes) (slot t1_ingest_ns : Z) : result NormalizedBbo bytes :=
  if (length data <? 64)%nat then Err (lit "Payload too short for Raydium CLMM state")
  else
    let raw_price := of_le (slice data 16 24) in
    let bid_price := sat I64 (wrap I64 raw_price * 100) in
    let ask_price := bid_price +[I64] Z.quot (bid_price *[I64] 5) 10000 in
    Ok (mkBbo (mkTelemetry (slot *[U64] 400000000) t1_ingest_ns 0 0) market_id (VenueId_code Raydium)
      (ChainId_code Solana) slot bid_price 10000000000 ask_price 10000000000 5 1).

(** ** The simulated swap *)

(** A swap of [a] into [y], out of [x], keeps the product: the trader gets less than the whole reserve. *)
Lemma swap_product a x y fn fd :
  0 <= a -> 0 < x -> 0 < y -> 0 <= fn <= fd -> 0 < fd ->
  let out := a * fn * x / (y * fd + a * fn) in
  0 <= out < x /\ x * y <= (x - out) * (y + a).
Proof.
  intros Ha Hx Hy Hf Hfd out. assert (0 < y * fd + a * fn) as Hden by nia.
  assert (0 <= out) as H0 by (apply Z.div_pos; nia).
  pose proof (Z.mul_div_le (a * fn * x) (y * fd + a * fn) Hden) as Hle. fold out in Hle.
  assert (out * (y + a) <= a * x) as Hout.
  { destruct (Z.eq_dec fn 0) as [->|]; [rewrite Z.mul_0_r, Z.mul_0_l in Hle; nia|].
    assert (out * (fn * (y + a)) <= (y * fd + a * fn) * out).
    { rewrite (Z.mul_comm _ out). apply Z.mul_le_mono_nonneg_l; [done|]. nia. }
    assert (fn * (out * (y + a)) <= fn * (a * x)) by lia. nia. }
  split; [split; [done|]|lia]. nia.
Qed.

(** The swap when nothing overflows. *)
Record swap_safe (tx : PendingMempoolTx) (p : UniswapV2Pool) : Prop := {
  swap_decimals : base_decimals p = 18 /\ quote_decimals p = 6;
  swap_fees : 0 <= fee_numerator p <= fee_denominator p /\ 0 < fee_denominator p;
  swap_amount : 0 <= amount_in tx;
  swap_reserves : 0 < reserve_base p /\ 0 < reserve_quote p;
  swap_numerator : amount_in tx * fee_numerator p * (if is_buy tx then reserve_base p else reserve_quote p) < 2 ^ 128;
  swap_denominator : (if is_buy tx then reserve_quote p else reserve_base p) * fee_denominator p
                     + amount_in tx * fee_numerator p < 2 ^ 128;
  swap_base : reserve_base p + amount_in tx < 2 ^ 128;
  swap_quote : reserve_quote p + amount_in tx < 2 ^ 61 \/ (is_buy tx = false /\ reserve_quote p < 2 ^ 61);
}.

(** What the swap takes out of the pool. *)
Definition exact_out (tx : PendingMempoolTx) (p : UniswapV2Pool) : Z :=
  if is_buy tx
  then amount_in tx * fee_numerator p * reserve_base p / (reserve_quote p * fee_denominator p + amount_in tx * fee_numerator p)
  else amount_in tx * fee_numerator p * reserve_quote p / (reserve_base p * fee_denominator p + amount_in tx * fee_numerator p).

Lemma swap_out_exact p a y x :
  0 <= a -> 0 < x -> 0 < y -> 0 <= fee_numerator p -> 0 < fee_denominator p ->
  a * fee_numerator p * x < 2 ^ 128 -> y * fee_denominator p + a * fee_numerator p < 2 ^ 128 ->
  swap_out p a y x = Some (a * fee_numerator p * x / (y * fee_denominator p + a * fee_numerator p)).
Proof.
  intros Ha Hx Hy Hfn Hfd Hnum Hden. change (2 ^ 128) with 340282366920938463463374607431768211456 in *. unfold swap_out.
  assert (0 <= a * fee_numerator p) by nia. assert (0 < y * fee_denominator p) by nia.
  rewrite (wrap_id U128 (a * _)) by mint. rewrite (wrap_id U128 (y * _)) by mint.
  assert (0 <= a * fee_numerator p * x) by nia.
  rewrite !wrap_id by mint. by destruct (Z.ltb_spec 0 (y * fee_denominator p + a * fee_numerator p)); [|lia].
Qed.

Lemma simulated_pool_exact tx p : swap_safe tx p ->
  let out := exact_out tx p in
  simulated_pool tx p =
    (if is_buy tx
     then mkV2 (reserve_base p - out) (reserve_quote p + amount_in tx)
     else mkV2 (reserve_base p + amount_in tx) (reserve_quote p - out))
      (fee_numerator p) (fee_denominator p) (base_decimals p) (quote_decimals p) /\
  reserve_base p * reserve_quote p <= reserve_base (simulated_pool tx p) * reserve_quote (simulated_pool tx p) /\
  0 <= out < (if is_buy tx then reserve_base p else reserve_quote p).
Proof.
  intros [Hd [Hf Hfd] Ha [HR HQ] Hnum Hden Hb Hq] out. unfold out, exact_out, simulated_pool.
  change (2 ^ 128) with 340282366920938463463374607431768211456 in *. change (2 ^ 61) with 2305843009213693952 in *.
  revert Hnum Hden Hq. destruct (is_buy tx); intros Hnum Hden Hq.
  - destruct (swap_product (amount_in tx) (reserve_base p) (reserve_quote p) _ _ Ha HR HQ Hf Hfd) as [Ho Hk].
    rewrite swap_out_exact by (done || lia). set (o := _ / _) in *.
    destruct (Z.ltb_spec o (reserve_base p)); [|lia]. rewrite !wrap_id by mint. cbn. split; [done|]. split; [lia|done].
  - destruct (swap_product (amount_in tx) (reserve_quote p) (reserve_base p) _ _ Ha HQ HR Hf Hfd) as [Ho Hk].
    rewrite swap_out_exact by (done || lia). set (o := _ / _) in *.
    destruct (Z.ltb_spec o (reserve_quote p)); [|lia]. rewrite !wrap_id by mint. cbn. split; [done|]. split; [lia|done].
Qed.

(** The price with 8 decimals. *)
Definition exact_spot (p : UniswapV2Pool) : Z := reserve_quote p * 10 ^ 20 / reserve_base p.

Lemma spot_monotone q q' r r' : 0 < r' <= r -> 0 <= q <= q' -> q * 10 ^ 20 / r <= q' * 10 ^ 20 / r'.
Proof.
  intros Hr Hq. apply Z.le_trans with (q' * 10 ^ 20 / r); [apply Z.div_le_mono; lia|].
  apply Z.div_le_compat_l; lia.
Qed.

Lemma impact_exact a b : 0 < a < 2 ^ 49 -> 0 <= b < 2 ^ 49 -> impact_of a b = (Z.abs (b - a) * 10000 / a) mod 65536.
Proof.
  intros Ha Hb. unfold impact_of.
  destruct (Z.ltb_spec a b); [|destruct (Z.ltb_spec b a)].
  - rewrite (wrap_id I64 (b - a)), (wrap_id I64 (_ * 10000)) by mint. rewrite (wrap_unsigned U16), Z.quot_div_nonneg, Z.abs_eq by (done || lia). done.
  - rewrite (wrap_id I64 (a - b)), (wrap_id I64 (_ * 10000)) by mint. rewrite (wrap_unsigned U16), Z.quot_div_nonneg, Z.abs_neq by (done || lia).
    do 3 f_equal. lia.
  - assert (b = a) as -> by lia. rewrite Z.sub_diag. by rewrite Z.div_0_l by lia.
Qed.

Module Onchain.

(** Where nothing overflows, a simulated swap is the constant-product swap: the trader gets the
    rounded-down output and less than the whole reserve, the product of the reserves does not
    fall, a buy never lowers the price and a sell never raises it, and the event carries the new
    price and the impact in basis points (modulo [2^16]). *)
Theorem simulated_swap_exact (tx : PendingMempoolTx) (p : UniswapV2Pool) (Hs : swap_safe tx p)
    (Hb : 0 < exact_spot p < 2 ^ 49) (Ha : exact_spot (simulated_pool tx p) < 2 ^ 49) :
  let p' := simulated_pool tx p in
  0 <= exact_out tx p < (if is_buy tx then reserve_base p else reserve_quote p) /\
  reserve_base p * reserve_quote p <= reserve_base p' * reserve_quote p' /\
  (if is_buy tx then exact_spot p <= exact_spot p' else exact_spot p' <= exact_spot p) /\
  simulate_pending_swap tx p = Done (Some (mkShift (target_pool tx) (exact_spot p')
    ((Z.abs (exact_spot p' - exact_spot p) * 10000 / exact_spot p) mod 65536) (tx_hash tx) (gas_priority_fee_gwei tx))).
Proof.
  intros p'. destruct (simulated_pool_exact tx p Hs) as (Ep & Hk & Ho). fold p' in Ep, Hk, Ha |- *.
  destruct Hs as [[Hd1 Hd2] _ Hamt [HR HQ] _ _ _ Hq]. split; [done|]. split; [done|].
  assert (reserve_quote p < 2 ^ 61 /\ reserve_quote p' < 2 ^ 61 /\ 0 < reserve_base p' /\ 0 <= reserve_quote p' /\
    base_decimals p' = 18 /\ quote_decimals p' = 6 /\
    (if is_buy tx then exact_spot p <= exact_spot p' else exact_spot p' <= exact_spot p)) as (H1 & H2 & H3 & H4 & H5 & H6 & H7).
  { rewrite Ep. unfold exact_spot. clearbody p'. clear Ep Hb Ha. revert Ho Hq. destruct (is_buy tx); intros Ho Hq; cbn [reserve_base reserve_quote base_decimals quote_decimals];
      repeat split; try done; try lia; apply spot_monotone; lia. }
  split; [done|]. unfold simulate_pending_swap. fold p'.
  assert (0 <= exact_spot p') by (apply Z.div_pos; lia).
  rewrite v2_spot_exact; [|done|done|done|lia|fold (exact_spot p); lia]. fold (exact_spot p). cbn [outcome_bind].
  destruct (Z.leb_spec (exact_spot p) 0); [lia|].
  rewrite v2_spot_exact; [|done|done|done|lia|fold (exact_spot p'); lia]. fold (exact_spot p'). cbn [outcome_bind].
  rewrite impact_exact by lia. done.
Qed.

Definition demo_tx : PendingMempoolTx :=
  mkTx (replicate 32 170) (ChainId_code Ethereum) (replicate 20 17) 45 true (100000 * 10 ^ 6) (40 * 10 ^ 18) 12345678.

Definition demo_weth : UniswapV2Pool := v2_new (1000 * 10 ^ 18) (2000000 * 10 ^ 6) 30.

(** 100000 USDC into a pool of 1000 WETH at 2000 USDC: the price goes to 2204.68, by 1023 basis points. *)
Lemma simulated_swap_exact_witness :
  simulate_pending_swap demo_tx demo_weth =
    Done (Some (mkShift (replicate 20 17) 220468499999 1023 (replicate 32 170) 45)).
Proof.
  refine (proj2 (proj2 (proj2 (simulated_swap_exact demo_tx demo_weth _ _ _)))).
  - split; try (vm_compute; repeat split; congruence). left. vm_compute. reflexivity.
  - vm_compute. repeat split.
  - vm_compute. repeat split.
Defined.

(** A Raydium account of at least 64 bytes becomes the quote of the price at its bytes 16 to 24,
    scaled by 100, with an ask five basis points above; as long as the price is below [2^54] the
    quote is not crossed, and shorter accounts are refused. *)
Theorem raydium_quote (market_id slot t1 : Z) (pre post : bytes) (price : Z)
    (Hpre : length pre = 16%nat) (Hpost : (40 <= length post)%nat) (Hp : 0 <= price < 2 ^ 54) :
  exists b, parse_raydium_clmm_account market_id (pre ++ to_le 8 price ++ post) slot t1 = Ok b /\
    bid_price b = price * 100 /\ ask_price b = price * 100 + price * 500 / 10000 /\ bid_price b <= ask_price b /\
    bbo_sequence b = slot /\ bbo_venue b = VenueId_code Raydium /\ bbo_chain b = ChainId_code Solana /\
    parse_raydium_clmm_account market_id (pre ++ to_le 8 price ++ take 39 post) slot t1 =
      Err (lit "Payload too short for Raydium CLMM state").
Proof.
  change (2 ^ 54) with 18014398509481984 in Hp.
  unfold parse_raydium_clmm_account. rewrite !length_app, length_to_le, Hpre, length_take.
  destruct (Nat.ltb_spec (16 + (8 + length post)) 64); [lia|].
  destruct (Nat.ltb_spec (16 + (8 + Nat.min 39 (length post))) 64); [|lia].
  eexists. split; [reflexivity|]. cbn [bid_price ask_price bbo_sequence bbo_venue bbo_chain].
  rewrite (slice_app_r pre (to_le 8 price ++ post) 16 24 16 Hpre ltac:(lia)). rewrite (slice_app_l (to_le 8 price)) by (rewrite length_to_le; lia).
  rewrite slice_full by apply length_to_le. rewrite of_le_to_le, Z.mod_small by (cbn; lia).
  rewrite (wrap_id I64 price) by mint.
  assert (sat I64 (price * 100) = price * 100) as -> by (unfold sat; mint).
  rewrite (wrap_id I64 (price * 100 * 5)) by mint. rewrite Z.quot_div_nonneg by lia.
  replace (price * 100 * 5) with (price * 500) by lia.
  assert (0 <= price * 500 / 10000) by (apply Z.div_pos; lia).
  assert (price * 500 / 10000 <= price) by (apply Z.div_le_upper_bound; lia).
  rewrite wrap_id by mint. repeat split; lia.
Qed.

Lemma raydium_quote_witness :
  exists b, parse_raydium_clmm_account 3 (replicate 16 0 ++ to_le 8 123456 ++ replicate 40 0) 9 5 = Ok b /\
    bid_price b = 12345600 /\ ask_price b = 12351772.
Proof.
  destruct (raydium_quote 3 9 5 (replicate 16 0) (replicate 40 0) 123456 eq_refl ltac:(vm_compute; lia) ltac:(lia))
    as (b & Eb & Hbid & Hask & _).
  exists b. split; [exact Eb|]. split; [rewrite Hbid; reflexivity|rewrite Hask; reflexivity].
Defined.

(** A price near the maximum saturates the bid, and the five basis points added to it wrap around:
    the ask is negative. *)
Lemma raydium_quote_crosses :
  match parse_raydium_clmm_account 3 (replicate 16 0 ++ to_le 8 (2 ^ 62) ++ replicate 40 0) 9 5 with
  | Ok b => ask_price b < 0 < bid_price b
  | Err _ => False
  end.
Proof. vm_compute. done. Qed.

(** A million USDC into a pool of 100000 WETH: the numerator wraps around at [2^128], and the
    trader is given a third of the output. *)
Lemma large_swap_wraps :
  let p := v2_new (100000 * 10 ^ 18) (200000000 * 10 ^ 6) 30 in
  let tx := mkTx [] 1 [] 45 true (1000000 * 10 ^ 6) 0 0 in
  exact_out tx p = 496027303890107812554 /\ swap_out p (10 ^ 12) (reserve_quote p) (reserve_base p) <> Some (exact_out tx p).
Proof. split; [vm_compute; reflexivity|vm_compute; discriminate]. Qed.
End Onchain.
