(* ===== verification/Transport.v ===== *)
(** * cefi-ingest/src/transport: the network transports

    The trait [NetworkTransport] as a type class, the contract its users rely on ([TransportLaws]: what
    a poll hands over is what it reports and counts), a client's theorem proved against the contract,
    and two implementations: the mock queue and the Solarflare adapter on the simulated ring of
    KernelBypass.v.  The transports on UDP sockets are in SocketTransport.v. *)

From S2P Require Import Prelude Bytes KernelBypass.

(** ** transport/mod.rs *)

Inductive TransportBackendKind := SolarflareEfViBackend | IoUringBackend | StandardSocketBackend | MockBackend.

#[global] Instance TransportBackendKind_eq_dec : EqDecision TransportBackendKind.
Proof. solve_decision. Defined.

Definition transport_backend_as_str (k : TransportBackendKind) : bytes :=
  match k with
  | SolarflareEfViBackend => lit "Solarflare_EF_VI"
  | IoUringBackend => lit "Linux_io_uring"
  | StandardSocketBackend => lit "Standard_BSD_Socket"
  | MockBackend => lit "Mock_Synthetic"
  end.

Record TransportStats := mkStats {
  rx_packets : Z;
  rx_bytes : Z;
  rx_dropped : Z;
  ring_overruns : Z;
  poll_calls : Z;
  st_empty_polls : Z;
}.
Definition TransportStats_default : TransportStats := mkStats 0 0 0 0 0 0.

Definition count_poll_call '(mkStats p b d o c e) := mkStats p b d o (c +[U64] 1) e.
Definition count_empty_poll '(mkStats p b d o c e) := mkStats p b d o c (e +[U64] 1).
Definition count_overrun '(mkStats p b d o c e) := mkStats p b d (o +[U64] 1) c e.
Definition count_batch (packets nbytes : Z) '(mkStats p b d o c e) := mkStats (p +[U64] packets) (b +[U64] nbytes) d o c e.

Inductive TransportError :=
| Io (msg : bytes)
| BufferOverflow (msg : bytes)
| UnsupportedPlatform (msg : bytes)
| DeviceNotFound (msg : bytes)
| NotConnected
| PermissionDenied.

Definition error_text (e : TransportError) : bytes :=
  match e with
  | Io msg => lit "I/O Error: " ++ msg
  | BufferOverflow msg => lit "Buffer Overflow: " ++ msg
  | UnsupportedPlatform msg => lit "Unsupported Platform: " ++ msg
  | DeviceNotFound msg => lit "Device Not Found: " ++ msg
  | NotConnected => lit "Transport is not connected or active"
  | PermissionDenied => lit "Permission denied for raw/bypass socket"
  end.

(** The trait.  A poll may read the clock: [clock i] is its [i]th reading.  It returns the packets it
    handed to the handler, in order, besides its result. *)
Class NetworkTransport (T : Type) := {
  poll_batch : T -> (nat -> Z) -> nat -> outcome (T * list packet * result nat TransportError);
  transport_stats : T -> TransportStats;
  backend_kind : T -> TransportBackendKind;
  transport_active : T -> bool;
}.

(** ** The contract *)

Definition total_bytes (ps : list packet) : Z := foldr Z.add 0 ((fun p => Z.of_nat (length p.1)) <$> ps).

(** The counters after a poll that handed over [ps]. *)
Definition account (s : TransportStats) (ps : list packet) : TransportStats :=
  match ps with
  | [] => count_empty_poll (count_poll_call s)
  | _ => count_batch (Z.of_nat (length ps)) (total_bytes ps) (count_poll_call s)
  end.

(** What a poll that handed over [ps] did to the counters: a poll that fails counts itself only. *)
Definition poll_counted (s s' : TransportStats) (ps : list packet) (r : result nat TransportError) : Prop :=
  match r with
  | Ok n => n = length ps /\ s' = account s ps
  | Err e => (exists msg, e = Io msg) /\ s' = count_poll_call s
  end.

(** [ok] is the implementation's invariant. *)
Class TransportLaws (T : Type) `{NetworkTransport T} (ok : T -> Prop) := {
  poll_inactive t clock max :
    ok t -> transport_active t = false -> poll_batch t clock max = Done (t, [], Err NotConnected);
  poll_active t clock max :
    ok t -> transport_active t = true -> (0 < max)%nat ->
    exists t' ps r, poll_batch t clock max = Done (t', ps, r) /\ ok t' /\ transport_active t' = true /\
      (length ps <= max)%nat /\ poll_counted (transport_stats t) (transport_stats t') ps r;
}.

(** A client that polls with the given batch sizes: all that was handed over, and the results. *)
Fixpoint poll_all {T} `{NetworkTransport T} (t : T) (polls : list ((nat -> Z) * nat)) :
    outcome (T * list packet * list (result nat TransportError)) :=
  match polls with
  | [] => Done (t, [], [])
  | (clock, max) :: polls =>
      let! r := poll_batch t clock max in
      let! rs := poll_all r.1.1 polls in
      Done (rs.1.1, r.1.2 ++ rs.1.2, r.2 :: rs.2)
  end.

Lemma total_bytes_app ps qs : total_bytes (ps ++ qs) = total_bytes ps + total_bytes qs.
Proof. unfold total_bytes. induction ps as [|p ps IH]; cbn in *; lia. Qed.

Lemma poll_counted_stats s s' ps r : poll_counted s s' ps r ->
  let counted := if is_ok r then ps else [] in
  wrap U64 (rx_packets s') = wrap U64 (rx_packets s + Z.of_nat (length counted)) /\
  wrap U64 (rx_bytes s') = wrap U64 (rx_bytes s + total_bytes counted) /\
  wrap U64 (poll_calls s') = wrap U64 (poll_calls s + 1) /\
  rx_dropped s' = rx_dropped s /\ ring_overruns s' = ring_overruns s.
Proof.
  destruct r as [n|e]; intros [_ ->]; destruct s; cbn [is_ok].
  - destruct ps as [|p ps]; cbn; rewrite ?wrap_wrap; [unfold total_bytes; cbn; rewrite !Z.add_0_r|]; repeat split.
  - cbn. rewrite wrap_wrap. unfold total_bytes; cbn. by rewrite !Z.add_0_r.
Qed.

(** The batches of the polls that succeeded. *)
Definition counted_packets (batches : list (list packet * result nat TransportError)) : list packet :=
  concat (List.filter (fun b => is_ok b.2) batches).*1.

Lemma counted_packets_cons ps r batches :
  counted_packets ((ps, r) :: batches) = (if is_ok r then ps else []) ++ counted_packets batches.
Proof. unfold counted_packets. cbn [List.filter snd]. by destruct (is_ok r). Qed.

(** What a client of the contract can rely on. *)
Lemma poll_all_accounts {T} `{TransportLaws T ok} polls : forall (t : T),
  ok t -> transport_active t = true -> Forall (fun p => (0 < p.2)%nat) polls ->
  exists t' batches, poll_all t polls = Done (t', concat batches.*1, batches.*2) /\ ok t' /\ transport_active t' = true /\
    Forall2 (fun p b => (length b.1 <= p.2)%nat) polls batches /\
    Forall (fun b => match b.2 with Ok n => n = length b.1 | Err e => exists msg, e = Io msg end) batches /\
    let counted := counted_packets batches in
    wrap U64 (rx_packets (transport_stats t')) = wrap U64 (rx_packets (transport_stats t) + Z.of_nat (length counted)) /\
    wrap U64 (rx_bytes (transport_stats t')) = wrap U64 (rx_bytes (transport_stats t) + total_bytes counted) /\
    wrap U64 (poll_calls (transport_stats t')) = wrap U64 (poll_calls (transport_stats t) + Z.of_nat (length polls)).
Proof.
  induction polls as [|[clock max] polls IH]; intros t Hok Ha Hp; cbn [poll_all].
  - exists t, []. repeat split; try done; try constructor; cbn; by rewrite Z.add_0_r.
  - apply Forall_cons_1 in Hp as [Hmax Hp]. cbn in Hmax.
    destruct (poll_active t clock max Hok Ha Hmax) as (t1 & ps1 & r1 & -> & Hok1 & Ha1 & Hlen & Hr).
    cbn [outcome_bind fst snd]. destruct (IH t1 Hok1 Ha1 Hp) as (t2 & batches & -> & Hok2 & Ha2 & Hl & Hb & A1 & A2 & A3).
    cbn [outcome_bind fst snd]. exists t2, ((ps1, r1) :: batches). split; [done|]. split; [done|]. split; [done|].
    split; [by constructor|]. split; [constructor; [by destruct r1; destruct Hr|done]|].
    cbv zeta. destruct (poll_counted_stats _ _ _ _ Hr) as (B1 & B2 & B3 & _ & _). clear Hr.
    rewrite counted_packets_cons, length_app, total_bytes_app. cbn [length].
    revert A1 A2 A3 B1 B2 B3. generalize (transport_stats t1) (if is_ok r1 then ps1 else []). intros s qs A1 A2 A3 B1 B2 B3.
    repeat split; mint.
Qed.

(** An inactive transport answers every poll with the same error. *)
Lemma poll_all_inactive {T} `{TransportLaws T ok} (t : T) polls : ok t -> transport_active t = false ->
  poll_all t polls = Done (t, [], replicate (length polls) (Err NotConnected)).
Proof.
  intros Hok Ha. induction polls as [|[clock max] polls IH]; [done|]. cbn [poll_all].
  rewrite (poll_inactive t clock max Hok Ha). cbn [outcome_bind fst]. by rewrite IH.
Qed.

(** ** transport/mock.rs *)

Record MockNetworkTransport := mkMock {
  mock_queue : list packet;
  mock_stats : TransportStats;
  mock_active : bool;
}.

Definition mock_new : MockNetworkTransport := mkMock [] TransportStats_default true.
Definition push_packet (t : MockNetworkTransport) (payload : bytes) (timestamp_ns : Z) : MockNetworkTransport :=
  mkMock (mock_queue t ++ [(payload, timestamp_ns)]) (mock_stats t) (mock_active t).
Definition set_active (t : MockNetworkTransport) (active : bool) : MockNetworkTransport :=
  mkMock (mock_queue t) (mock_stats t) active.
Definition mock_queue_len (t : MockNetworkTransport) : nat := length (mock_queue t).

(** [for _ in 0..count]: the queue left, the packets handed over, their number and their bytes. *)
Fixpoint mock_loop (count : nat) (queue : list packet) (handled : list packet) (processed : nat) (batch_bytes : Z) :
    list packet * list packet * nat * Z :=
  match count with
  | O => (queue, handled, processed, batch_bytes)
  | S count =>
      match queue with
      | pkt :: queue =>
          mock_loop count queue (handled ++ [pkt]) (S processed) (batch_bytes +[U64] Z.of_nat (length pkt.1))
      | [] => mock_loop count queue handled processed batch_bytes
      end
  end.

Definition mock_poll_batch (t : MockNetworkTransport) (clock : nat -> Z) (max_batch : nat) :
    outcome (MockNetworkTransport * list packet * result nat TransportError) :=
  if negb (mock_active t) then Done (t, [], Err NotConnected)
  else
    let st := count_poll_call (mock_stats t) in
    match mock_queue t with
    | [] => Done (mkMock [] (count_empty_poll st) (mock_active t), [], Ok 0%nat)
    | _ =>
        let count := Nat.min max_batch (length (mock_queue t)) in
        let '(queue, handled, processed, batch_bytes) := mock_loop count (mock_queue t) [] 0 0 in
        Done (mkMock queue (count_batch (wrap U64 (Z.of_nat processed)) batch_bytes st) (mock_active t), handled, Ok processed)
    end.

#[global] Instance mock_transport : NetworkTransport MockNetworkTransport := {
  poll_batch := mock_poll_batch;
  transport_stats := mock_stats;
  backend_kind _ := MockBackend;
  transport_active := mock_active;
}.

Lemma mock_loop_spec count : forall queue handled n b,
  (count <= length queue)%nat ->
  exists b', mock_loop count queue handled n b = (drop count queue, handled ++ take count queue, (n + count)%nat, b') /\
    wrap U64 b' = wrap U64 (b + total_bytes (take count queue)).
Proof.
  induction count as [|count IH]; intros queue handled n b Hl; cbn [mock_loop].
  { exists b. cbn. rewrite app_nil_r, Nat.add_0_r. unfold total_bytes; cbn. rewrite Z.add_0_r. by rewrite drop_0. }
  destruct queue as [|p queue]; [cbn in Hl; lia|]. cbn in Hl.
  destruct (IH queue (handled ++ [p]) (S n) (b +[U64] Z.of_nat (length p.1)) ltac:(lia)) as (b' & -> & Hb).
  exists b'. cbn [drop take]. rewrite <- app_assoc. cbn [app]. split; [do 2 f_equal; lia|].
  rewrite Hb. unfold total_bytes. cbn. rewrite wrap_add_l. f_equal. lia.
Qed.

Lemma take_ne {A} n (l : list A) : (0 < n)%nat -> l <> [] -> take n l <> [].
Proof. destruct n, l; cbn; (lia || done). Qed.

#[global] Instance mock_laws : TransportLaws MockNetworkTransport (fun _ => True).
Proof.
  split; cbn; unfold mock_poll_batch; intros t clock max _ Ha; rewrite Ha; cbn [negb]; [done|]. intros Hmax.
  destruct (mock_queue t) as [|p queue] eqn:Eq.
  - do 3 eexists. split; [reflexivity|]. repeat split; cbn; (done || lia).
  - rewrite <- Eq. set (n := Nat.min max (length (mock_queue t))).
    destruct (mock_loop_spec n (mock_queue t) [] 0 0 ltac:(lia)) as (b & -> & Hb). cbn [app Nat.add].
    do 3 eexists. split; [reflexivity|]. split; [done|]. split; [done|]. unfold poll_counted. rewrite length_take.
    split; [lia|]. split; [lia|]. cbn [mock_stats].
    assert (take n (mock_queue t) <> []) as Hne by (apply take_ne; [subst n; rewrite Eq; cbn; lia|by rewrite Eq]).
    unfold account. destruct (take n (mock_queue t)) as [|x l] eqn:Et; [done|].
    assert (length (x :: l) = n) as -> by (rewrite <- Et, length_take; lia).
    rewrite Z.add_0_l in Hb. destruct (mock_stats t). cbn [count_poll_call count_batch].
    f_equal; mint.
Qed.

(** ** transport/solarflare.rs *)

Definition DEFAULT_RING_CAPACITY : nat := 2048%nat.

Record SolarflareEfViTransport := mkSolarflare {
  bridge : KernelBypassBridge;
  interface_name : bytes;
  sf_bind_addr : bytes;
  sf_stats : TransportStats;
  sf_active : bool;
}.

Definition solarflare_new (interface_name bind_addr : bytes) : outcome SolarflareEfViTransport :=
  let! b := bridge_new DEFAULT_RING_CAPACITY (mkBypassConfig SolarflareEfVi 2048 0 true false) in
  Done (mkSolarflare b interface_name bind_addr TransportStats_default true).

Definition solarflare_inject (t : SolarflareEfViTransport) (payload : bytes) (hw_timestamp_ns : Z) :
    outcome (SolarflareEfViTransport * result unit TransportError) :=
  let! r := inject_packet DEFAULT_RING_CAPACITY (bridge t) payload hw_timestamp_ns in
  Done (mkSolarflare r.1 (interface_name t) (sf_bind_addr t) (sf_stats t) (sf_active t),
        match r.2 with Ok u => Ok u | Err e => Err (BufferOverflow e) end).

(** The closure: a packet without a hardware time stamp gets the next reading of the clock. *)
Fixpoint stamp (clock : nat -> Z) (i : nat) (ps : list packet) : list packet :=
  match ps with
  | [] => []
  | (payload, hw_ts) :: ps =>
      if 0 <? hw_ts then (payload, hw_ts) :: stamp clock i ps else (payload, clock i) :: stamp clock (S i) ps
  end.

Definition sum_bytes (ps : list packet) : Z := fold_left (fun b p => b +[U64] Z.of_nat (length p.1)) ps 0.

Definition solarflare_poll_batch (t : SolarflareEfViTransport) (clock : nat -> Z) (max_batch : nat) :
    outcome (SolarflareEfViTransport * list packet * result nat TransportError) :=
  if negb (sf_active t) then Done (t, [], Err NotConnected)
  else
    let st := count_poll_call (sf_stats t) in
    let! r := poll_rx_burst DEFAULT_RING_CAPACITY (bridge t) max_batch in
    let '(b, handled, polled) := r in
    let handled := stamp clock 0 handled in
    let st :=
      if (polled =? 0)%nat then count_empty_poll st
      else count_batch (wrap U64 (Z.of_nat (length handled))) (sum_bytes handled) st in
    Done (mkSolarflare b (interface_name t) (sf_bind_addr t) st (sf_active t), handled, Ok polled).

#[global] Instance solarflare_transport : NetworkTransport SolarflareEfViTransport := {
  poll_batch := solarflare_poll_batch;
  transport_stats := sf_stats;
  backend_kind _ := SolarflareEfViBackend;
  transport_active t := sf_active t && is_active (bridge t);
}.

(** The ring of the adapter represents a queue and is active. *)
Definition solarflare_ok (t : SolarflareEfViTransport) : Prop :=
  sf_active t = true /\ is_active (bridge t) = true /\
  exists q credits ids, bridge_rep DEFAULT_RING_CAPACITY (bridge t) q credits ids.

Lemma stamp_lengths clock i ps : length (stamp clock i ps) = length ps /\ total_bytes (stamp clock i ps) = total_bytes ps.
Proof.
  revert i. induction ps as [|[p ts] ps IH]; intros i; cbn; [done|].
  destruct (0 <? ts); cbn; [destruct (IH i) as [-> E]|destruct (IH (S i)) as [-> E]]; unfold total_bytes in *; cbn; by rewrite E.
Qed.

Lemma sum_bytes_total ps : wrap U64 (sum_bytes ps) = wrap U64 (total_bytes ps).
Proof.
  unfold sum_bytes. rewrite <- (Z.add_0_l (total_bytes ps)). generalize 0. induction ps as [|p ps IH]; intros b; cbn [fold_left].
  - unfold total_bytes. cbn. by rewrite Z.add_0_r.
  - rewrite IH, wrap_add_l. f_equal. unfold total_bytes. cbn. lia.
Qed.

Lemma poll_keeps_active N b max b' ps n : poll_rx_burst N b max = Done (b', ps, n) -> is_active b' = is_active b.
Proof.
  unfold poll_rx_burst. destruct (poll_loop _ _ _ _ _ _ _) as [[[pool m] h]|]; [|done]. cbn [outcome_bind].
  destruct (_ =? 0)%nat; [by intros [= <- _ _]|]. destruct (shift_loop _ _ _ _) as [posted|]; [|done]. cbn [outcome_bind].
  unfold refill_rx_ring. destruct (refill_loop _ _ _ _ _ _ _) as [[[[tail pool'] posted'] refilled]|]; [|done].
  cbn. by intros [= <- _ _].
Qed.

#[global] Instance solarflare_laws : TransportLaws SolarflareEfViTransport solarflare_ok.
Proof.
  split; cbn.
  - intros t clock max (H1 & H2 & _). by rewrite H1, H2.
  - intros t clock max (H1 & H2 & q & credits & ids & Hb) _ Hmax. unfold solarflare_poll_batch. rewrite H1. cbn [negb].
    destruct (poll_rep DEFAULT_RING_CAPACITY 11 eq_refl (bridge t) q credits ids max Hb) as (b' & ids' & Ep & Hb').
    rewrite Ep. cbn [outcome_bind]. pose proof (poll_keeps_active _ _ _ _ _ _ Ep) as Hact.
    set (n := Nat.min max (length q)) in *. destruct (stamp_lengths clock 0 (take n q)) as [El Et].
    assert (length (take n q) = n) as En by (rewrite length_take; lia).
    do 3 eexists. split; [reflexivity|]. cbn [bridge sf_active sf_stats interface_name sf_bind_addr].
    split; [split; [done|]; cbn; split; [by rewrite Hact|eauto]|]. rewrite Hact, H2. split; [done|].
    unfold poll_counted. rewrite El, En. split; [lia|]. split; [done|].
    unfold account. destruct (stamp clock 0 (take n q)) as [|x l] eqn:Es.
    + cbn in El. rewrite (proj2 (Nat.eqb_eq n 0)) by lia. done.
    + cbn [length] in El. destruct (Nat.eqb_spec n 0); [lia|].
      assert (length (x :: l) = n) as Exl by (cbn [length]; lia). rewrite Exl.
      pose proof (sum_bytes_total (x :: l)) as Hsum. destruct (sf_stats t). cbn [count_poll_call count_batch]. f_equal; mint.
Qed.

(** ** The mock's queue *)

Inductive mock_call := Push (payload : bytes) (ts : Z) | SetActive (a : bool) | MockPoll (max : nat).

(** The packets handed over by the calls, polled with a clock that does not matter. *)
Fixpoint mock_run (t : MockNetworkTransport) (cs : list mock_call) : outcome (MockNetworkTransport * list packet) :=
  match cs with
  | [] => Done (t, [])
  | Push payload ts :: cs => mock_run (push_packet t payload ts) cs
  | SetActive a :: cs => mock_run (set_active t a) cs
  | MockPoll max :: cs =>
      let! r := poll_batch t (fun _ => 0) max in
      let! rs := mock_run r.1.1 cs in Done (rs.1, r.1.2 ++ rs.2)
  end.

Definition pushed (cs : list mock_call) : list packet :=
  omap (fun c => match c with Push payload ts => Some (payload, ts) | _ => None end) cs.

Lemma mock_poll_queue t clock max :
  exists t' ps r, mock_poll_batch t clock max = Done (t', ps, r) /\ mock_queue t = ps ++ mock_queue t' /\
    (mock_active t = true -> ps = take max (mock_queue t)).
Proof.
  unfold mock_poll_batch. destruct (mock_active t); cbn [negb]; [|by exists t, [], (Err NotConnected)].
  destruct (mock_queue t) as [|p queue] eqn:Eq; [do 3 eexists; split; [done|]; cbn; split; [done|by rewrite take_nil]|].
  rewrite <- Eq. set (n := Nat.min max (length (mock_queue t))).
  destruct (mock_loop_spec n (mock_queue t) [] 0 0 ltac:(lia)) as (b & -> & _). cbn [app Nat.add].
  do 3 eexists. split; [done|]. cbn. split; [by rewrite take_drop|]. intros _. subst n.
  destruct (Nat.le_ge_cases max (length (mock_queue t))); [by rewrite Nat.min_l by done|].
  rewrite Nat.min_r by done. by rewrite !take_ge by lia.
Qed.

Lemma mock_run_fifo cs : forall t,
  exists t' ps, mock_run t cs = Done (t', ps) /\ ps ++ mock_queue t' = mock_queue t ++ pushed cs.
Proof.
  induction cs as [|[payload ts|a|max] cs IH]; intros t; cbn [mock_run].
  - exists t, []. by rewrite app_nil_r.
  - destruct (IH (push_packet t payload ts)) as (t' & ps & -> & E). exists t', ps. split; [done|]. rewrite E. cbn.
    by rewrite <- app_assoc.
  - destruct (IH (set_active t a)) as (t' & ps & -> & E). by exists t', ps.
  - destruct (mock_poll_queue t (fun _ => 0) max) as (t1 & ps1 & r & Ep & Eq & _). cbn [poll_batch mock_transport]. rewrite Ep.
    cbn [outcome_bind fst snd]. destruct (IH t1) as (t' & ps & -> & E). exists t', (ps1 ++ ps). split; [done|].
    rewrite <- app_assoc, E, Eq. by rewrite <- app_assoc.
Qed.

Module Transport.

(** The adapter to the simulated ring, polled twice after two packets. *)
Definition demo_solarflare : outcome (SolarflareEfViTransport * list packet * list (result nat TransportError)) :=
  let! t := solarflare_new (lit "sfc0") (lit "239.1.1.1:12345") in
  let! r := solarflare_inject t (lit "abc") 100 in
  let! r := solarflare_inject r.1 (lit "de") 0 in
  poll_all r.1 [(fun _ => 7, 10%nat); (fun _ => 8, 10%nat)].

Lemma demo_solarflare_result :
  match demo_solarflare with
  | Done (t, ps, rs) => ps = [(lit "abc", 100); (lit "de", 7)] /\ rs = [Ok 2%nat; Ok 0%nat] /\
      transport_stats t = mkStats 2 5 0 0 2 1
  | Panic => False
  end.
Proof. vm_compute. auto. Qed.

(** Over any pushes, polls and activations, what the mock has handed over followed by what it
    still holds is exactly what was pushed, in order; an active mock hands over the first
    packets of its queue, as many as asked for. *)
Theorem mock_is_fifo (cs : list mock_call) :
  (exists t ps, mock_run mock_new cs = Done (t, ps) /\ ps ++ mock_queue t = pushed cs) /\
  forall t clock max, mock_active t = true ->
    exists t' r, poll_batch t clock max = Done (t', take max (mock_queue t), r) /\ mock_queue t' = drop max (mock_queue t).
Proof.
  split; [apply mock_run_fifo|]. intros t clock max Ha. cbn.
  destruct (mock_poll_queue t clock max) as (t' & ps & r & E & Eq & Hps). rewrite (Hps Ha) in E, Eq.
  exists t', r. split; [done|]. rewrite <- (take_drop max (mock_queue t)) in Eq at 1. by apply app_inv_head in Eq.
Qed.

Lemma mock_is_fifo_witness :
  let t := push_packet (push_packet mock_new (lit "abc") 100) (lit "de") 200 in
  exists t' r, poll_batch t (fun _ => 0) 1 = Done (t', [(lit "abc", 100)], r) /\ mock_queue t' = [(lit "de", 200)].
Proof.
  exact (proj2 (mock_is_fifo []) (push_packet (push_packet mock_new (lit "abc") 100) (lit "de") 200) (fun _ => 0) 1%nat eq_refl).
Defined.
End Transport.
