(* ===== verification/SocketTransport.v ===== *)
(** * cefi-ingest/src/transport: the transports on UDP sockets, and the factory

    A non-blocking socket is the list of results its next receive calls give.  The [io_uring]
    transport (a pool of fixed buffers, a stack of free ones and a completion queue) is refined to a
    queue of packets; the standard socket transport is given by its behaviour on every list of
    results; the factory chooses among the four transports, and whatever it makes keeps the
    contract of Transport.v. *)

From S2P Require Import Prelude Bytes Topology KernelBypass Transport.

(** ** The socket *)

(** A receive call takes one datagram, whose bytes beyond the buffer given are lost, or fails. *)
Inductive recv := Datagram (d : bytes) | WouldBlock | Interrupted | RecvError (msg : bytes).
Definition socket := list recv.

Definition recv_from (s : socket) : socket * recv :=
  match s with [] => ([], WouldBlock) | r :: s => (s, r) end.

(** What a datagram leaves in a buffer, and the number of bytes reported. *)
Definition recv_into (buf d : bytes) : bytes * nat :=
  let n := Nat.min (length d) (length buf) in (take n d ++ drop n buf, n).

(** The operating system's socket calls; an error is its text. *)
Record Os := mkOs {
  udp_bind : bytes -> result socket bytes;
  set_nonblocking : socket -> option bytes;
  local_addr_of : socket -> result bytes bytes;
}.

Definition io_err {A} (r : result A bytes) : result A TransportError :=
  match r with Ok a => Ok a | Err msg => Err (Io msg) end.

(** ** transport/io_uring.rs *)

Definition IO_URING_ENTRY_SIZE : nat := 2048%nat.
Definition DEFAULT_IO_URING_ENTRIES : Z := 1024.

Record CompletionEntry := mkCq { cq_buffer : Z; cq_length : Z; cq_timestamp : Z }.

Record IoUringTransport := mkIoUring {
  io_bind_addr : bytes;
  io_socket : option socket;
  fixed_buffer_pool : list bytes;
  cq_entries : list CompletionEntry;
  (** The vector's last element first. *)
  free_buffer_indices : list Z;
  entries : Z;
  io_stats : TransportStats;
  io_active : bool;
}.

(** [usize::next_power_of_two] in a release build: 0 when the power does not fit. *)
Definition next_pow2 (n : Z) : Z := wrap U64 (2 ^ Z.log2_up n).

Definition io_uring_bind (os : Os) (bind_addr : bytes) (entries : Z) : outcome (result IoUringTransport TransportError) :=
  let entries := if entries =? 0 then DEFAULT_IO_URING_ENTRIES else next_pow2 entries in
  let sock :=
    if negb (bool_decide (bind_addr = [])) && negb (bool_decide (bind_addr = lit "mock")) then
      let? s := io_err (udp_bind os bind_addr) in
      match set_nonblocking os s with Some e => Err (Io e) | None => Ok (Some s) end
    else Ok None in
  match sock with
  | Err e => Done (Err e)
  | Ok sock =>
      (* a vector holds at most [isize::MAX] bytes *)
      if max_int I64 <? entries * Z.of_nat IO_URING_ENTRY_SIZE then Panic
      else
        let n := Z.to_nat entries in
        Done (Ok (mkIoUring bind_addr sock (replicate n (replicate IO_URING_ENTRY_SIZE 0)) []
          (rev (map (fun i => wrap U32 (Z.of_nat i)) (seq 0 n))) entries TransportStats_default true))
  end.

Definition with_ring (t : IoUringTransport) (s : option socket) (pool : list bytes) (cq : list CompletionEntry)
    (free : list Z) (st : TransportStats) : IoUringTransport :=
  mkIoUring (io_bind_addr t) s pool cq free (entries t) st (io_active t).

Definition pool_saturated : bytes := lit "io_uring fixed buffer pool saturated".

Definition io_uring_inject (t : IoUringTransport) (payload : bytes) (timestamp_ns : Z) :
    outcome (IoUringTransport * result unit TransportError) :=
  match free_buffer_indices t with
  | [] =>
      Done (with_ring t (io_socket t) (fixed_buffer_pool t) (cq_entries t) [] (count_overrun (io_stats t)),
            Err (BufferOverflow pool_saturated))
  | idx :: free =>
      let copy_len := Nat.min (length payload) IO_URING_ENTRY_SIZE in
      let! buf := index (fixed_buffer_pool t) (Z.to_nat idx) in
      let! pool := store (fixed_buffer_pool t) (Z.to_nat idx) (take copy_len payload ++ drop copy_len buf) in
      Done (with_ring t (io_socket t) pool
              (cq_entries t ++ [mkCq idx (wrap U32 (Z.of_nat copy_len)) timestamp_ns]) free (io_stats t), Ok tt)
  end.

(** [while batch_count < max_batch]: [todo] is the difference, [i] the clock readings so far. *)
Fixpoint socket_loop (todo : nat) (clock : nat -> Z) (i : nat) (s : socket) (pool : list bytes)
    (cq : list CompletionEntry) (free : list Z) : outcome (socket * list bytes * list CompletionEntry * list Z) :=
  match todo with
  | O => Done (s, pool, cq, free)
  | S todo =>
      match free with
      | [] => Done (s, pool, cq, free)
      | idx :: free' =>
          let! dest := index pool (Z.to_nat idx) in
          let (s, r) := recv_from s in
          match r with
          | Datagram d =>
              let (buf, n) := recv_into dest d in
              let! pool := store pool (Z.to_nat idx) buf in
              socket_loop todo clock (S i) s pool (cq ++ [mkCq idx (wrap U32 (Z.of_nat n)) (clock i)]) free'
          | _ => Done (s, pool, cq, idx :: free')
          end
      end
  end.

Definition poll_socket_into_ring (t : IoUringTransport) (clock : nat -> Z) (max_batch : nat) : outcome IoUringTransport :=
  match io_socket t with
  | Some s =>
      let! r := socket_loop max_batch clock 0 s (fixed_buffer_pool t) (cq_entries t) (free_buffer_indices t) in
      let '(s, pool, cq, free) := r in Done (with_ring t (Some s) pool cq free (io_stats t))
  | None => Done t
  end.

(** [for _ in 0..count]; removing from an empty queue panics. *)
Fixpoint drain_loop (count : nat) (pool : list bytes) (cq : list CompletionEntry) (free : list Z)
    (handled : list packet) (batch_bytes : Z) : outcome (list CompletionEntry * list Z * list packet * Z) :=
  match count with
  | O => Done (cq, free, handled, batch_bytes)
  | S count =>
      match cq with
      | [] => Panic
      | c :: cq =>
          let! buf := index pool (Z.to_nat (cq_buffer c)) in
          if (length buf <? Z.to_nat (cq_length c))%nat then Panic
          else
            drain_loop count pool cq (cq_buffer c :: free)
              (handled ++ [(take (Z.to_nat (cq_length c)) buf, cq_timestamp c)]) (batch_bytes +[U64] cq_length c)
      end
  end.

Definition io_uring_poll_batch (t : IoUringTransport) (clock : nat -> Z) (max_batch : nat) :
    outcome (IoUringTransport * list packet * result nat TransportError) :=
  if negb (io_active t) then Done (t, [], Err NotConnected)
  else
    let st := count_poll_call (io_stats t) in
    let! t := poll_socket_into_ring
                (with_ring t (io_socket t) (fixed_buffer_pool t) (cq_entries t) (free_buffer_indices t) st) clock max_batch in
    match cq_entries t with
    | [] => Done (with_ring t (io_socket t) (fixed_buffer_pool t) [] (free_buffer_indices t) (count_empty_poll st), [], Ok 0%nat)
    | _ =>
        let count := Nat.min max_batch (length (cq_entries t)) in
        let! r := drain_loop count (fixed_buffer_pool t) (cq_entries t) (free_buffer_indices t) [] 0 in
        let '(cq, free, handled, batch_bytes) := r in
        Done (with_ring t (io_socket t) (fixed_buffer_pool t) cq free
                (count_batch (wrap U64 (Z.of_nat (length handled))) batch_bytes st), handled, Ok (length handled))
    end.

#[global] Instance io_uring_transport : NetworkTransport IoUringTransport := {
  poll_batch := io_uring_poll_batch;
  transport_stats := io_stats;
  backend_kind _ := IoUringBackend;
  transport_active := io_active;
}.

(** ** transport/socket.rs *)

Definition SOCKET_RX_BUFFER_SIZE : nat := Z.to_nat 65536.

Record StandardSocketTransport := mkStandard {
  st_socket : socket;
  rx_buffer : bytes;
  enable_busy_poll : bool;
  st_stats : TransportStats;
  local_addr : bytes;
  st_active : bool;
}.

Definition standard_bind (os : Os) (bind_addr : bytes) (busy_poll : bool) : result StandardSocketTransport TransportError :=
  let? s := io_err (udp_bind os bind_addr) in
  match set_nonblocking os s with
  | Some e => Err (Io e)
  | None =>
      let? addr := io_err (local_addr_of os s) in
      Ok (mkStandard s (replicate SOCKET_RX_BUFFER_SIZE 0) busy_poll TransportStats_default addr true)
  end.

(** [for _ in 0..max_batch]: the packets handed over, their bytes, and the error that ended it. *)
Fixpoint standard_loop (todo : nat) (clock : nat -> Z) (s : socket) (buf : bytes) (handled : list packet) (batch_bytes : Z) :
    socket * bytes * list packet * Z * option bytes :=
  match todo with
  | O => (s, buf, handled, batch_bytes, None)
  | S todo =>
      let (s, r) := recv_from s in
      match r with
      | Datagram d =>
          let (buf, n) := recv_into buf d in
          standard_loop todo clock s buf (handled ++ [(take n buf, clock (length handled))])
            (batch_bytes +[U64] Z.of_nat n)
      | WouldBlock => (s, buf, handled, batch_bytes, None)
      | Interrupted => standard_loop todo clock s buf handled batch_bytes
      | RecvError msg => (s, buf, handled, batch_bytes, Some msg)
      end
  end.

Definition standard_poll_batch (t : StandardSocketTransport) (clock : nat -> Z) (max_batch : nat) :
    outcome (StandardSocketTransport * list packet * result nat TransportError) :=
  if negb (st_active t) then Done (t, [], Err NotConnected)
  else
    let st := count_poll_call (st_stats t) in
    let '(s, buf, handled, batch_bytes, err) := standard_loop max_batch clock (st_socket t) (rx_buffer t) [] 0 in
    let with_stats st := mkStandard s buf (enable_busy_poll t) st (local_addr t) (st_active t) in
    match err with
    | Some msg => Done (with_stats st, handled, Err (Io msg))
    | None =>
        let st :=
          if (length handled =? 0)%nat then count_empty_poll st
          else count_batch (wrap U64 (Z.of_nat (length handled))) batch_bytes st in
        Done (with_stats st, handled, Ok (length handled))
    end.

#[global] Instance standard_transport : NetworkTransport StandardSocketTransport := {
  poll_batch := standard_poll_batch;
  transport_stats := st_stats;
  backend_kind _ := StandardSocketBackend;
  transport_active := st_active;
}.

(** ** transport/mod.rs: the factory *)

Record TransportConfig := mkTransportConfig {
  tc_bind_addr : bytes;
  interface : bytes;
  preferred_backend : option TransportBackendKind;
  batch_size : Z;
  tc_enable_busy_poll : bool;
  tc_ring_capacity : Z;
}.
Definition TransportConfig_default : TransportConfig :=
  mkTransportConfig (lit "0.0.0.0:0") (lit "eth0") None 64 false 2048.

(** [Box<dyn NetworkTransport>], as made by the factory. *)
Inductive AnyTransport :=
| BoxSolarflare (t : SolarflareEfViTransport)
| BoxIoUring (t : IoUringTransport)
| BoxSocket (t : StandardSocketTransport)
| BoxMock (t : MockNetworkTransport).

Definition boxed {A T} (box : A -> T) (r : outcome (A * list packet * result nat TransportError)) :=
  let! r := r in Done (box r.1.1, r.1.2, r.2).

#[global] Instance any_transport : NetworkTransport AnyTransport := {
  poll_batch t clock max :=
    match t with
    | BoxSolarflare t => boxed BoxSolarflare (poll_batch t clock max)
    | BoxIoUring t => boxed BoxIoUring (poll_batch t clock max)
    | BoxSocket t => boxed BoxSocket (poll_batch t clock max)
    | BoxMock t => boxed BoxMock (poll_batch t clock max)
    end;
  transport_stats t :=
    match t with
    | BoxSolarflare t => transport_stats t | BoxIoUring t => transport_stats t
    | BoxSocket t => transport_stats t | BoxMock t => transport_stats t
    end;
  backend_kind t :=
    match t with
    | BoxSolarflare t => backend_kind t | BoxIoUring t => backend_kind t
    | BoxSocket t => backend_kind t | BoxMock t => backend_kind t
    end;
  transport_active t :=
    match t with
    | BoxSolarflare t => transport_active t | BoxIoUring t => transport_active t
    | BoxSocket t => transport_active t | BoxMock t => transport_active t
    end;
}.

Definition solarflare_box (config : TransportConfig) : outcome (result AnyTransport TransportError) :=
  let! t := solarflare_new (interface config) (tc_bind_addr config) in Done (Ok (BoxSolarflare t)).
Definition socket_box (os : Os) (config : TransportConfig) : outcome (result AnyTransport TransportError) :=
  Done (let? t := standard_bind os (tc_bind_addr config) (tc_enable_busy_poll config) in Ok (BoxSocket t)).

Definition create_explicit (os : Os) (backend : TransportBackendKind) (config : TransportConfig) :
    outcome (result AnyTransport TransportError) :=
  match backend with
  | SolarflareEfViBackend => solarflare_box config
  | IoUringBackend =>
      let! r := io_uring_bind os (tc_bind_addr config) (tc_ring_capacity config) in
      Done (let? t := r in Ok (BoxIoUring t))
  | StandardSocketBackend => socket_box os config
  | MockBackend => Done (Ok (BoxMock mock_new))
  end.

Definition create_optimal_transport {P} `{HardwareProbe P} (os : Os) (env : bytes -> option bytes)
    (config : TransportConfig) (probe : P) : outcome (result AnyTransport TransportError) :=
  match preferred_backend config with
  | Some preferred => create_explicit os preferred config
  | None =>
      match rp_tier (negotiate_profile probe env None) with
      | Tier3EnterpriseBareMetal => solarflare_box config
      | Tier2CloudVirtualized =>
          let! r := io_uring_bind os (tc_bind_addr config) (tc_ring_capacity config) in
          match r with
          | Ok t => Done (Ok (BoxIoUring t))
          | Err _ => socket_box os config
          end
      | Tier1MidRange => socket_box os config
      end
  end.

(** ** The [io_uring] ring represents a queue of packets *)

Definition cq_holds (pool : list bytes) (c : CompletionEntry) (p : packet) : Prop :=
  cq_timestamp c = p.2 /\ cq_length c = Z.of_nat (length p.1) /\ (length p.1 <= IO_URING_ENTRY_SIZE)%nat /\
  exists buf, pool !! Z.to_nat (cq_buffer c) = Some buf /\ take (length p.1) buf = p.1.

(** Every buffer is either free or in the completion queue, once. *)
Record uring_buffers (n : nat) (pool : list bytes) (cq : list CompletionEntry) (free : list Z) (q : list packet) : Prop := {
  rep_size : length pool = n;
  rep_frames : Forall (fun f => length f = IO_URING_ENTRY_SIZE) pool;
  rep_nodup : NoDup (free ++ map cq_buffer cq);
  rep_range : Forall (fun id => 0 <= id /\ (Z.to_nat id < n)%nat) (free ++ map cq_buffer cq);
  rep_count : (length free + length cq)%nat = n;
  rep_queue : Forall2 (cq_holds pool) cq q;
}.

Lemma ring_frame n pool cq idx free q : uring_buffers n pool cq (idx :: free) q ->
  exists buf, pool !! Z.to_nat idx = Some buf /\ length buf = IO_URING_ENTRY_SIZE.
Proof.
  intros [Hl Hf _ [[_ Hr] _]%Forall_cons_1 _ _]. rewrite <- Hl in Hr. apply lookup_lt_is_Some in Hr as [buf Hb].
  exists buf. split; [done|]. by eapply Forall_lookup_1 in Hf; [|exact Hb].
Qed.

(** Receiving a packet into the top free buffer. *)
Lemma ring_push n pool cq idx free q buf d ts : uring_buffers n pool cq (idx :: free) q ->
  pool !! Z.to_nat idx = Some buf -> (length d <= IO_URING_ENTRY_SIZE)%nat ->
  store pool (Z.to_nat idx) (d ++ drop (length d) buf) = Done (<[Z.to_nat idx := d ++ drop (length d) buf]> pool) /\
  uring_buffers n (<[Z.to_nat idx := d ++ drop (length d) buf]> pool)
    (cq ++ [mkCq idx (wrap U32 (Z.of_nat (length d))) ts]) free (q ++ [(d, ts)]).
Proof.
  intros [Hl Hf Hnd Hr Hc Hq] Hb Hd. unfold store. rewrite Hb. split; [done|].
  assert (length buf = IO_URING_ENTRY_SIZE) as Hbuf by (by eapply Forall_lookup_1 in Hf; [|exact Hb]).
  assert (free ++ map cq_buffer (cq ++ [mkCq idx (wrap U32 (Z.of_nat (length d))) ts]) ≡ₚ idx :: free ++ map cq_buffer cq) as HP.
  { rewrite map_app. cbn. rewrite app_assoc. symmetry. apply Permutation_cons_append. }
  cbn [app] in Hnd, Hr. split.
  - by rewrite length_insert.
  - apply Forall_insert; [done|]. rewrite length_app, length_drop. lia.
  - by rewrite HP.
  - by rewrite HP.
  - rewrite length_app. cbn in *. lia.
  - apply Forall2_app.
    + apply list.NoDup_cons in Hnd as [Hni _]. apply Forall_cons_1 in Hr as [[H0 _] Hr]. apply Forall_app in Hr as [_ Hr].
      assert (Forall (fun c => cq_buffer c <> idx /\ 0 <= cq_buffer c) cq) as Hne.
      { apply Forall_forall. intros c Hm%(in_map cq_buffer). rewrite List.Forall_forall in Hr. split; [|apply Hr, Hm].
        intros E. apply Hni, list_elem_of_In, in_or_app. right. by rewrite <- E. }
      clear -Hq Hne H0. induction Hq as [|c p cq q (H1 & H2 & H3 & b & H4 & H5) Hq IH]; [constructor|].
      apply Forall_cons_1 in Hne as [[Hne Hnn] Hne']. constructor; [|by apply IH]. repeat split; try done. exists b.
      split; [|done]. rewrite list_lookup_insert_ne; [done|]. intros E. apply Hne. lia.
    + constructor; [|constructor]. repeat split; try done.
      * cbn. apply wrap_id. unfold IO_URING_ENTRY_SIZE in Hd. mint.
      * exists (d ++ drop (length d) buf). cbn. split; [|by rewrite take_app_length].
        apply list_lookup_insert_eq. by eapply lookup_lt_Some.
Qed.

(** Handing over the first packet of the queue. *)
Lemma ring_pop n pool c cq free p q : uring_buffers n pool (c :: cq) free (p :: q) ->
  (exists buf, pool !! Z.to_nat (cq_buffer c) = Some buf /\ length buf = IO_URING_ENTRY_SIZE /\
    take (Z.to_nat (cq_length c)) buf = p.1 /\ (Z.to_nat (cq_length c) <= length buf)%nat) /\
  cq_timestamp c = p.2 /\ cq_length c = Z.of_nat (length p.1) /\
  uring_buffers n pool cq (cq_buffer c :: free) q.
Proof.
  intros [Hl Hf Hnd Hr Hc Hq]. inversion Hq as [|? ? ? ? (H1 & H2 & H3 & b & H4 & H5) Hq']; subst.
  assert (length b = IO_URING_ENTRY_SIZE) as Hbuf by (by eapply Forall_lookup_1 in Hf; [|exact H4]).
  split; [exists b; rewrite H2, Nat2Z.id; repeat split; (done || lia)|]. split; [done|]. split; [done|].
  assert (free ++ map cq_buffer (c :: cq) ≡ₚ cq_buffer c :: free ++ map cq_buffer cq) as HP
    by (cbn; symmetry; apply Permutation_middle).
  split; [done|done|by rewrite HP in Hnd|by rewrite HP in Hr|cbn in *; lia|done].
Qed.

Lemma drain_rep n pool count : forall cq free q handled b,
  uring_buffers n pool cq free q -> (count <= length q)%nat ->
  exists cq' free' b', drain_loop count pool cq free handled b = Done (cq', free', handled ++ take count q, b') /\
    uring_buffers n pool cq' free' (drop count q) /\ wrap U64 b' = wrap U64 (b + total_bytes (take count q)).
Proof.
  induction count as [|count IH]; intros cq free q handled b Hrep Hle.
  - exists cq, free, b. cbn. rewrite app_nil_r, drop_0. unfold total_bytes; cbn. by rewrite Z.add_0_r.
  - destruct q as [|p q]; [cbn in Hle; lia|]. pose proof (rep_queue _ _ _ _ _ Hrep) as Hq.
    destruct cq as [|c cq]; [by inversion Hq|]. clear Hq.
    destruct (ring_pop _ _ _ _ _ _ _ Hrep) as ((buf & Hb & Hlb & Htake & Hlen) & Hts & Hcl & Hrep').
    cbn [drain_loop]. unfold index. rewrite Hb. cbn [outcome_bind].
    rewrite (proj2 (Nat.ltb_ge _ _)) by done. rewrite Htake, Hts.
    cbn in Hle. destruct p as [d ts]. cbn [fst snd] in *. destruct (IH cq (cq_buffer c :: free) q (handled ++ [(d, ts)]) (b +[U64] cq_length c) Hrep' ltac:(lia))
      as (cq' & free' & b' & -> & Hr & Hb').
    exists cq', free', b'. cbn [take drop]. rewrite <- app_assoc. cbn [app]. split; [done|]. split; [done|].
    rewrite Hb', wrap_add_l, Hcl. unfold total_bytes. cbn. f_equal. lia.
Qed.

(** What a socket delivers into a ring with so many free buffers, up to the first failing call. *)
Fixpoint arrivals (todo credits : nat) (clock : nat -> Z) (i : nat) (s : socket) : list packet * socket :=
  match todo, credits with
  | S todo, S credits =>
      match s with
      | Datagram d :: s =>
          let (ps, s) := arrivals todo credits clock (S i) s in ((take IO_URING_ENTRY_SIZE d, clock i) :: ps, s)
      | _ :: s => ([], s)
      | [] => ([], [])
      end
  | _, _ => ([], s)
  end.

Lemma socket_rep n clock todo : forall i s pool cq free q,
  uring_buffers n pool cq free q ->
  exists pool' cq' free', socket_loop todo clock i s pool cq free =
      Done ((arrivals todo (length free) clock i s).2, pool', cq', free') /\
    uring_buffers n pool' cq' free' (q ++ (arrivals todo (length free) clock i s).1).
Proof.
  induction todo as [|todo IH]; intros i s pool cq free q Hrep.
  { exists pool, cq, free. cbn. by rewrite app_nil_r. }
  destruct free as [|idx free].
  { exists pool, cq, []. cbn. by rewrite app_nil_r. }
  destruct (ring_frame _ _ _ _ _ _ Hrep) as (buf & Hb & Hlb).
  cbn [socket_loop length arrivals]. unfold index. rewrite Hb. cbn [outcome_bind].
  destruct s as [|[d| | |msg] s]; cbn [recv_from];
    try (exists pool, cq, (idx :: free); cbn; rewrite app_nil_r; split; [reflexivity|done]).
  unfold recv_into. rewrite Hlb.
  set (d' := take IO_URING_ENTRY_SIZE d).
  assert (take (Nat.min (length d) IO_URING_ENTRY_SIZE) d = d') as ->.
  { subst d'. destruct (Nat.le_ge_cases (length d) IO_URING_ENTRY_SIZE); [|by rewrite Nat.min_r by done].
    rewrite Nat.min_l, !take_ge by done. done. }
  assert (Nat.min (length d) IO_URING_ENTRY_SIZE = length d') as -> by (subst d'; rewrite length_take; lia).
  destruct (ring_push _ _ _ _ _ _ buf d' (clock i) Hrep Hb ltac:(subst d'; rewrite length_take; lia)) as [-> Hrep'].
  cbn [outcome_bind]. destruct (IH (S i) s _ _ _ _ Hrep') as (pool' & cq' & free' & E & Hr). rewrite E.
  exists pool', cq', free'. destruct (arrivals todo (length free) clock (S i) s) as [ps s'].
  cbn [fst snd] in *. by rewrite <- app_assoc in Hr.
Qed.

Definition uring_rep (t : IoUringTransport) (q : list packet) : Prop :=
  io_active t = true /\
  uring_buffers (Z.to_nat (entries t)) (fixed_buffer_pool t) (cq_entries t) (free_buffer_indices t) q.

Lemma uring_credits t q : uring_rep t q ->
  length (free_buffer_indices t) = (Z.to_nat (entries t) - length q)%nat /\ length (cq_entries t) = length q.
Proof. intros [_ [_ _ _ _ Hc Hq]]. apply Forall2_length in Hq. lia. Qed.

Lemma next_pow2_bound n : 0 < n <= 2 ^ 32 -> 0 <= next_pow2 n <= 2 ^ 32.
Proof.
  intros Hn. unfold next_pow2.
  assert (0 < 2 ^ Z.log2_up n <= 2 ^ 32) as Hp.
  { split; [apply Z.pow_pos_nonneg; [lia|apply Z.log2_up_nonneg]|].
    apply Z.pow_le_mono_r; [lia|]. change 32 with (Z.log2_up (2 ^ 32)). apply Z.log2_up_le_mono. lia. }
  rewrite wrap_id by mint. lia.
Qed.

Lemma bind_rep os addr n : 0 <= n <= 2 ^ 32 ->
  match io_uring_bind os addr n with
  | Done (Ok t) => uring_rep t [] /\ io_stats t = TransportStats_default /\ entries t = (if n =? 0 then DEFAULT_IO_URING_ENTRIES else next_pow2 n)
  | Done (Err e) => exists msg, e = Io msg
  | Panic => False
  end.
Proof.
  intros Hn. unfold io_uring_bind. set (e := if n =? 0 then _ else _).
  assert (0 <= e <= 2 ^ 32) as He.
  { subst e. destruct (Z.eqb_spec n 0); [unfold DEFAULT_IO_URING_ENTRIES; lia|apply next_pow2_bound; lia]. }
  clearbody e.
  assert (match (let? s := io_err (udp_bind os addr) in
      match set_nonblocking os s with Some e => Err (Io e) | None => Ok (Some s) end)
    with Ok _ => True | Err e => exists msg, e = Io msg end) as Hsock.
  { destruct (udp_bind os addr) as [s|m]; cbn; [|by exists m]. destruct (set_nonblocking os s) as [m|]; [by exists m|done]. }
  revert Hsock. generalize (let? s := io_err (udp_bind os addr) in
      match set_nonblocking os s with Some e => Err (Io e) | None => Ok (Some s) end). intros r Hr.
  assert (match (if negb (bool_decide (addr = [])) && negb (bool_decide (addr = lit "mock")) then r else Ok None)
    with Ok _ => True | Err e => exists msg, e = Io msg end) as Hsock by (destruct (_ && _); [exact Hr|done]).
  revert Hsock. generalize (if negb (bool_decide (addr = [])) && negb (bool_decide (addr = lit "mock")) then r else Ok None).
  clear r Hr. intros [sock|err] Hs; [|exact Hs].
  rewrite (proj2 (Z.ltb_ge _ _)) by (unfold IO_URING_ENTRY_SIZE; mint).
  split; [|done]. split; [done|]. cbn [fixed_buffer_pool cq_entries free_buffer_indices entries].
  assert (Forall (fun i => (i < Z.to_nat e)%nat) (seq 0 (Z.to_nat e))) as Hseq
    by (apply List.Forall_forall; intros i Hi%in_seq; lia).
  split.
  - apply length_replicate.
  - apply Forall_replicate, length_replicate.
  - cbn. rewrite app_nil_r, <- Permutation_rev. apply (NoDup_fmap_2_strong (fun i => wrap U32 (Z.of_nat i))); [|apply NoDup_seq].
    intros x y Hx%elem_of_seq Hy%elem_of_seq E. rewrite !wrap_id in E by mint. lia.
  - cbn. rewrite app_nil_r. apply Forall_rev, Forall_map. eapply Forall_impl; [|exact Hseq].
    cbn. intros i Hi. rewrite wrap_id by mint. lia.
  - cbn. rewrite length_rev, length_map, length_seq. lia.
  - constructor.
Qed.

Lemma inject_uring t q payload ts : uring_rep t q ->
  exists t', uring_rep t' (if (length q <? Z.to_nat (entries t))%nat then q ++ [(take IO_URING_ENTRY_SIZE payload, ts)] else q) /\
    entries t' = entries t /\ io_socket t' = io_socket t /\
    io_uring_inject t payload ts =
      Done (t', if (length q <? Z.to_nat (entries t))%nat then Ok tt else Err (BufferOverflow pool_saturated)).
Proof.
  intros Hrep. destruct (uring_credits _ _ Hrep) as [Hf _]. destruct Hrep as [Ha Hr]. unfold io_uring_inject.
  destruct (free_buffer_indices t) as [|idx free] eqn:Ef; cbn in Hf.
  - rewrite (proj2 (Nat.ltb_ge _ _)) by lia. eexists. split; [|split; [|split; [|reflexivity]]]; by try split.
  - rewrite (proj2 (Nat.ltb_lt _ _)) by lia. destruct (ring_frame _ _ _ _ _ _ Hr) as (buf & Hb & _).
    unfold index. rewrite Hb. cbn [outcome_bind].
    assert (take (Nat.min (length payload) IO_URING_ENTRY_SIZE) payload = take IO_URING_ENTRY_SIZE payload) as ->.
    { destruct (Nat.le_ge_cases (length payload) IO_URING_ENTRY_SIZE); [|by rewrite Nat.min_r by done].
      rewrite Nat.min_l, !take_ge by done. done. }
    assert (Nat.min (length payload) IO_URING_ENTRY_SIZE = length (take IO_URING_ENTRY_SIZE payload)) as ->
      by (rewrite length_take; lia).
    destruct (ring_push _ _ _ _ _ _ buf (take IO_URING_ENTRY_SIZE payload) ts Hr Hb ltac:(rewrite length_take; lia)) as [-> Hr'].
    cbn [outcome_bind]. eexists. split; [|split; [|split; [|reflexivity]]]; by try split.
Qed.

(** A poll: what the socket delivers joins the queue, and the first packets leave it. *)
Lemma poll_uring t q clock max : uring_rep t q ->
  let arrived := match io_socket t with
                 | Some s => arrivals max (Z.to_nat (entries t) - length q) clock 0 s
                 | None => ([], [])
                 end in
  exists t', io_uring_poll_batch t clock max =
      Done (t', take max (q ++ arrived.1), Ok (Nat.min max (length (q ++ arrived.1)))) /\
    uring_rep t' (drop max (q ++ arrived.1)) /\ entries t' = entries t /\
    io_socket t' = (match io_socket t with Some _ => Some arrived.2 | None => None end) /\
    io_stats t' = (if (length (q ++ arrived.1) =? 0)%nat then count_empty_poll (count_poll_call (io_stats t))
                   else count_batch (Z.of_nat (Nat.min max (length (q ++ arrived.1))) mod 2 ^ 64)
                          (total_bytes (take max (q ++ arrived.1))) (count_poll_call (io_stats t))).
Proof.
  intros Hrep arrived. destruct (uring_credits _ _ Hrep) as [Hf _]. destruct Hrep as [Ha Hr].
  unfold io_uring_poll_batch. rewrite Ha. cbn [negb].
  set (st := count_poll_call (io_stats t)).
  assert (exists t1, poll_socket_into_ring
      (with_ring t (io_socket t) (fixed_buffer_pool t) (cq_entries t) (free_buffer_indices t) st) clock max = Done t1 /\
    uring_rep t1 (q ++ arrived.1) /\ entries t1 = entries t /\
    io_socket t1 = (match io_socket t with Some _ => Some arrived.2 | None => None end)) as (t1 & -> & [Ha1 Hr1] & He1 & Hs1).
  { unfold poll_socket_into_ring. cbn [io_socket with_ring fixed_buffer_pool cq_entries free_buffer_indices].
    subst arrived. destruct (io_socket t) as [s|].
    - destruct (socket_rep _ clock max 0 s _ _ _ _ Hr) as (pool & cq & free & -> & Hr1). rewrite Hf in *.
      cbn [outcome_bind]. eexists. split; [reflexivity|]. split; by split.
    - eexists. split; [reflexivity|]. cbn [fst]. rewrite app_nil_r. split; by split. }
  cbn [outcome_bind]. destruct (uring_credits t1 _ (conj Ha1 Hr1)) as [_ Hl1].
  revert Hr1 Hl1. generalize (q ++ arrived.1). intros q1 Hr1 Hl1.
  destruct (cq_entries t1) as [|c cq] eqn:Ec; cbn [length] in Hl1.
  - destruct q1; [|done]. rewrite take_nil, drop_nil, Nat.min_0_r. eexists. split; [reflexivity|]. split; [|by split]. split; [done|].
    cbn. exact Hr1.
  - cbn [length]. rewrite Hl1, (proj2 (Nat.eqb_neq (length q1) 0)) by lia.
    destruct (drain_rep _ _ (Nat.min max (length q1)) _ _ _ [] 0 Hr1 ltac:(lia)) as (cq' & free' & b' & E & Hr' & Hb').
    rewrite E. cbn [outcome_bind app].
    assert (take (Nat.min max (length q1)) q1 = take max q1 /\ drop (Nat.min max (length q1)) q1 = drop max q1) as [Et Ed].
    { destruct (Nat.le_ge_cases max (length q1)); [by rewrite Nat.min_l by done|].
      by rewrite Nat.min_r, !take_ge, !drop_ge by done. }
    rewrite Et, Ed in *. rewrite length_take.
    eexists. split; [reflexivity|]. split; [by split|]. split; [done|]. split; [done|].
    cbn [io_stats with_ring]. rewrite Z.add_0_l in Hb'. destruct st; cbn [count_batch]. f_equal; mint.
Qed.

#[global] Instance io_uring_laws : TransportLaws IoUringTransport (fun t => exists q, uring_rep t q).
Proof.
  split; cbn.
  - intros t clock max [q [Ha _]]. by rewrite Ha.
  - intros t clock max [q Hrep] _ Hmax. destruct (poll_uring t q clock max Hrep) as (t' & E & Hrep' & He & Hs & Hst).
    do 3 eexists. split; [exact E|]. split; [eauto|]. split; [apply Hrep'|]. unfold poll_counted. rewrite length_take.
    split; [lia|]. split; [lia|]. rewrite Hst. unfold account.
    match goal with |- context [take max ?l] => generalize l end. intros l.
    destruct l as [|p l]; cbn [length Nat.eqb]; [by rewrite take_nil|].
    pose proof (take_ne max (p :: l) Hmax ltac:(done)) as Hne.
    destruct (take max (p :: l)) as [|x l'] eqn:Et; [done|]. rewrite <- Et, length_take. cbn [length].
    destruct (count_poll_call (io_stats t)); cbn. f_equal; mint.
Qed.

(** The specification: a queue that holds at most [n] packets, fed by injections and by the socket. *)
Inductive uring_call := Inject (payload : bytes) (ts : Z) | UringPoll (clock : nat -> Z) (max : nat).
Inductive uring_result := Injected (r : result unit TransportError) | UringPolled (ps : list packet) (r : result nat TransportError).

Definition uring_spec (n : nat) (st : list packet * option socket) (c : uring_call) :
    (list packet * option socket) * uring_result :=
  let (q, s) := st in
  match c with
  | Inject payload ts =>
      if (length q <? n)%nat then ((q ++ [(take IO_URING_ENTRY_SIZE payload, ts)], s), Injected (Ok tt))
      else ((q, s), Injected (Err (BufferOverflow pool_saturated)))
  | UringPoll clock max =>
      let arrived := match s with Some s => arrivals max (n - length q) clock 0 s | None => ([], []) end in
      let q := q ++ arrived.1 in
      ((drop max q, match s with Some _ => Some arrived.2 | None => None end),
       UringPolled (take max q) (Ok (Nat.min max (length q))))
  end.

Definition uring_call_result (t : IoUringTransport) (c : uring_call) : outcome (IoUringTransport * uring_result) :=
  match c with
  | Inject payload ts => let! r := io_uring_inject t payload ts in Done (r.1, Injected r.2)
  | UringPoll clock max => let! r := poll_batch t clock max in Done (r.1.1, UringPolled r.1.2 r.2)
  end.

Fixpoint uring_run (t : IoUringTransport) (cs : list uring_call) : outcome (IoUringTransport * list uring_result) :=
  match cs with
  | [] => Done (t, [])
  | c :: cs =>
      let! r := uring_call_result t c in
      let! rs := uring_run r.1 cs in Done (rs.1, r.2 :: rs.2)
  end.
Fixpoint uring_spec_run (n : nat) (st : list packet * option socket) (cs : list uring_call) :
    (list packet * option socket) * list uring_result :=
  match cs with
  | [] => (st, [])
  | c :: cs => let r := uring_spec n st c in let rs := uring_spec_run n r.1 cs in (rs.1, r.2 :: rs.2)
  end.

Lemma uring_step t q c : uring_rep t q ->
  exists t', uring_call_result t c = Done (t', (uring_spec (Z.to_nat (entries t)) (q, io_socket t) c).2) /\
    uring_rep t' (uring_spec (Z.to_nat (entries t)) (q, io_socket t) c).1.1 /\
    io_socket t' = (uring_spec (Z.to_nat (entries t)) (q, io_socket t) c).1.2 /\ entries t' = entries t.
Proof.
  intros Hrep. destruct c as [payload ts|clock max]; cbn [uring_call_result uring_spec].
  - destruct (inject_uring t q payload ts Hrep) as (t' & Hrep' & He & Hs & ->). cbn [outcome_bind fst snd].
    exists t'. revert Hrep'. destruct (length q <? Z.to_nat (entries t))%nat; intros Hrep'; (split; [done|]; split; [exact Hrep'|by split]).
  - destruct (poll_uring t q clock max Hrep) as (t' & E & Hrep' & He & Hs & _).
    cbn [poll_batch io_uring_transport]. rewrite E. cbn [outcome_bind fst snd].
    exists t'. split; [done|]. split; [exact Hrep'|]. split; [exact Hs|done].
Qed.

Lemma uring_run_spec cs : forall t q, uring_rep t q ->
  exists t', uring_run t cs = Done (t', (uring_spec_run (Z.to_nat (entries t)) (q, io_socket t) cs).2) /\
    uring_rep t' (uring_spec_run (Z.to_nat (entries t)) (q, io_socket t) cs).1.1 /\
    io_socket t' = (uring_spec_run (Z.to_nat (entries t)) (q, io_socket t) cs).1.2.
Proof.
  induction cs as [|c cs IH]; intros t q Hrep; cbn [uring_run uring_spec_run]; [by exists t|].
  destruct (uring_step t q c Hrep) as (t1 & -> & Hrep1 & Hs1 & He1). cbn [outcome_bind fst snd].
  destruct (uring_spec _ _ c) as [[q1 s1] r1]. cbn [fst snd] in *.
  destruct (IH t1 q1 Hrep1) as (t' & -> & Hrep' & Hs'). rewrite He1, Hs1 in *. cbn [outcome_bind fst snd]. by exists t'.
Qed.

(** ** The standard socket *)

Definition standard_ok (t : StandardSocketTransport) : Prop :=
  st_active t = true /\ length (rx_buffer t) = SOCKET_RX_BUFFER_SIZE.

(** What a poll takes from the socket: the packets, the error it ends with, and the socket left. *)
Fixpoint socket_deliveries (todo : nat) (clock : nat -> Z) (i : nat) (s : socket) : list packet * option bytes * socket :=
  match todo, s with
  | S todo, Datagram d :: s =>
      let '(ps, e, s) := socket_deliveries todo clock (S i) s in ((take SOCKET_RX_BUFFER_SIZE d, clock i) :: ps, e, s)
  | S todo, Interrupted :: s => socket_deliveries todo clock i s
  | S todo, RecvError msg :: s => ([], Some msg, s)
  | S todo, WouldBlock :: s => ([], None, s)
  | _, _ => ([], None, s)
  end.

Lemma recv_into_full buf d n : length buf = n ->
  length (recv_into buf d).1 = n /\ take (recv_into buf d).2 (recv_into buf d).1 = take n d /\
  (recv_into buf d).2 = length (take n d).
Proof.
  intros Hl. unfold recv_into. cbn [fst snd]. rewrite Hl, length_app, !length_take, length_drop.
  split; [lia|]. split; [|lia].
  rewrite take_app_le by (rewrite length_take; lia). rewrite take_take, Nat.min_id.
  destruct (Nat.le_ge_cases (length d) n); [|by rewrite Nat.min_r by done].
  by rewrite Nat.min_l, !take_ge by done.
Qed.

Lemma standard_loop_spec todo clock : forall s buf handled b, length buf = SOCKET_RX_BUFFER_SIZE ->
  exists buf' b', length buf' = SOCKET_RX_BUFFER_SIZE /\
    standard_loop todo clock s buf handled b =
      ((socket_deliveries todo clock (length handled) s).2, buf', handled ++ (socket_deliveries todo clock (length handled) s).1.1, b',
       (socket_deliveries todo clock (length handled) s).1.2) /\
    wrap U64 b' = wrap U64 (b + total_bytes (socket_deliveries todo clock (length handled) s).1.1).
Proof.
  induction todo as [|todo IH]; intros s buf handled b Hl; [|destruct s as [|[d| | |msg] s]]; cbn [standard_loop recv_from socket_deliveries];
    try (exists buf, b; cbn; rewrite app_nil_r; unfold total_bytes; cbn; by rewrite Z.add_0_r).
  - destruct (recv_into_full buf d _ Hl) as (R1 & R2 & R3). destruct (recv_into buf d) as [buf1 n]. cbn [fst snd] in *.
    rewrite R2. destruct (IH s buf1 (handled ++ [(take SOCKET_RX_BUFFER_SIZE d, clock (length handled))]) (b +[U64] Z.of_nat n) R1)
      as (buf' & b' & Hl' & E & Hb). exists buf', b'. split; [done|]. rewrite E. revert Hb.
    rewrite length_app. cbn [length]. rewrite Nat.add_1_r.
    destruct (socket_deliveries todo clock (S (length handled)) s) as [[ps e] s']. cbn [fst snd]. rewrite <- app_assoc. cbn [app].
    split; [done|]. rewrite Hb, wrap_add_l, R3. unfold total_bytes. cbn. f_equal. lia.
  - apply (IH s buf handled b Hl).
Qed.

(** The counters see a poll that ends with an error as a poll only. *)
Lemma standard_poll_spec t clock max : standard_ok t ->
  let r := socket_deliveries max clock 0 (st_socket t) in
  exists t', poll_batch t clock max =
      Done (t', r.1.1, match r.1.2 with Some msg => Err (Io msg) | None => Ok (length r.1.1) end) /\
    standard_ok t' /\ st_socket t' = r.2 /\
    st_stats t' = match r.1.2 with Some _ => count_poll_call (st_stats t) | None => account (st_stats t) r.1.1 end.
Proof.
  intros [Ha Hl] r. cbn. unfold standard_poll_batch. rewrite Ha. cbn [negb].
  destruct (standard_loop_spec max clock (st_socket t) (rx_buffer t) [] 0 Hl) as (buf & b & Hl' & -> & Hb).
  cbn [length app] in *. subst r. destruct (socket_deliveries max clock 0 (st_socket t)) as [[ps e] s]. cbn [fst snd] in *.
  destruct e as [msg|].
  - eexists. split; [reflexivity|]. by repeat split.
  - eexists. split; [reflexivity|]. split; [by split|]. split; [done|]. cbn [st_stats].
    destruct ps as [|p ps]; [done|]. unfold account. rewrite (proj2 (Nat.eqb_neq _ _)) by (cbn; lia).
    rewrite Z.add_0_l in Hb. destruct (st_stats t). cbn [count_poll_call count_batch]. f_equal; mint.
Qed.

Lemma deliveries_length todo clock : forall i s, (length (socket_deliveries todo clock i s).1.1 <= todo)%nat.
Proof.
  induction todo as [|todo IH]; intros i [|[d| | |msg] s]; cbn; try lia.
  - specialize (IH (S i) s). destruct (socket_deliveries todo clock (S i) s) as [[ps e] s']. cbn in *. lia.
  - specialize (IH i s). lia.
Qed.

#[global] Instance standard_laws : TransportLaws StandardSocketTransport standard_ok.
Proof.
  split.
  - intros t clock max [Ha _] Hn. cbn in Hn. congruence.
  - intros t clock max Hok _ Hmax. destruct (standard_poll_spec t clock max Hok) as (t' & E & Hok' & _ & Hst).
    do 3 eexists. split; [exact E|]. split; [done|]. split; [apply Hok'|]. split; [apply deliveries_length|].
    revert Hst. destruct (socket_deliveries max clock 0 (st_socket t)).1.2; [cbn; eauto|done].
Qed.

(** The datagrams still to come, as the transport would hand them over. *)
Definition datagrams (s : socket) : list bytes :=
  omap (fun r => match r with Datagram d => Some (take SOCKET_RX_BUFFER_SIZE d) | _ => None end) s.

Lemma deliveries_datagrams todo clock : forall i s,
  datagrams s = map fst (socket_deliveries todo clock i s).1.1 ++ datagrams (socket_deliveries todo clock i s).2.
Proof.
  induction todo as [|todo IH]; intros i [|[d| | |msg] s]; cbn; try done; try apply IH.
  specialize (IH (S i) s). destruct (socket_deliveries todo clock (S i) s) as [[ps e] s']. cbn in *. f_equal. exact IH.
Qed.

(** Every poll takes a result from a socket that has one. *)
Lemma deliveries_consumes todo clock : forall i s, (length (socket_deliveries todo clock i s).2 <= length s)%nat /\
  ((0 < todo)%nat -> s <> [] -> (length (socket_deliveries todo clock i s).2 < length s)%nat).
Proof.
  induction todo as [|todo IH]; intros i [|[d| | |msg] s]; cbn; try (split; (lia || done)).
  - destruct (IH (S i) s) as [H1 _]. destruct (socket_deliveries todo clock (S i) s) as [[ps e] s']. cbn in *. lia.
  - destruct (IH i s) as [H1 _]. lia.
Qed.

Lemma poll_all_datagrams polls : forall t, standard_ok t -> Forall (fun p => (0 < p.2)%nat) polls ->
  exists t' ps rs, poll_all t polls = Done (t', ps, rs) /\ standard_ok t' /\
    datagrams (st_socket t) = map fst ps ++ datagrams (st_socket t') /\
    (length (st_socket t') <= length (st_socket t) - length polls)%nat.
Proof.
  induction polls as [|[clock max] polls IH]; intros t Hok Hp; cbn [poll_all].
  { exists t, [], []. cbn. repeat split; (done || apply Hok || lia). }
  apply Forall_cons_1 in Hp as [Hmax Hp]. cbn in Hmax.
  destruct (standard_poll_spec t clock max Hok) as (t1 & -> & Hok1 & Hs & _). cbn [outcome_bind fst snd].
  destruct (IH t1 Hok1 Hp) as (t' & ps & rs & -> & Hok' & E & Hl). cbn [outcome_bind fst snd].
  do 3 eexists. split; [reflexivity|]. split; [done|]. split.
  - rewrite (deliveries_datagrams max clock 0), map_app, <- app_assoc. f_equal. rewrite <- Hs. exact E.
  - destruct (deliveries_consumes max clock 0 (st_socket t)) as [H1 H2]. rewrite <- Hs in H1, H2. cbn [length].
    destruct (st_socket t) as [|r s]; [cbn in *; lia|]. specialize (H2 Hmax ltac:(done)). lia.
Qed.

(** ** The factory *)

Definition any_ok (t : AnyTransport) : Prop :=
  match t with
  | BoxSolarflare t => solarflare_ok t
  | BoxIoUring t => exists q, uring_rep t q
  | BoxSocket t => standard_ok t
  | BoxMock t => True
  end.

Lemma boxed_laws {T} `{TransportLaws T ok} (box : T -> AnyTransport) :
  (forall t, ok t -> any_ok (box t)) -> (forall t, transport_active (box t) = transport_active t) ->
  (forall t, transport_stats (box t) = transport_stats t) ->
  (forall t clock max, poll_batch (box t) clock max = boxed box (poll_batch t clock max)) ->
  forall t clock max, ok t ->
  (transport_active (box t) = false -> poll_batch (box t) clock max = Done (box t, [], Err NotConnected)) /\
  (transport_active (box t) = true -> (0 < max)%nat ->
    exists t' ps r, poll_batch (box t) clock max = Done (t', ps, r) /\ any_ok t' /\ transport_active t' = true /\
      (length ps <= max)%nat /\ poll_counted (transport_stats (box t)) (transport_stats t') ps r).
Proof.
  intros Hok Hact Hst Hpoll t clock max Ht. rewrite Hact, Hst, Hpoll. split.
  - intros Ha. by rewrite (poll_inactive t clock max Ht Ha).
  - intros Ha Hmax. destruct (poll_active t clock max Ht Ha Hmax) as (t' & ps & r & -> & Ht' & Ha' & Hl & Hr).
    exists (box t'), ps, r. rewrite Hact, Hst. repeat split; auto.
Qed.

Lemma any_cases t clock max : any_ok t ->
  (transport_active t = false -> poll_batch t clock max = Done (t, [], Err NotConnected)) /\
  (transport_active t = true -> (0 < max)%nat ->
    exists t' ps r, poll_batch t clock max = Done (t', ps, r) /\ any_ok t' /\ transport_active t' = true /\
      (length ps <= max)%nat /\ poll_counted (transport_stats t) (transport_stats t') ps r).
Proof.
  destruct t as [t|t|t|t]; intros Hok.
  - by apply (boxed_laws BoxSolarflare).
  - by apply (boxed_laws BoxIoUring).
  - by apply (boxed_laws BoxSocket).
  - by apply (boxed_laws BoxMock).
Qed.

#[global] Instance any_laws : TransportLaws AnyTransport any_ok.
Proof. split; intros t clock max Hok; by apply any_cases. Qed.

Lemma bridge_new_active N c b : bridge_new N c = Done b -> is_active b = true.
Proof.
  unfold bridge_new, refill_rx_ring. destruct (is_pow2 N); cbn [negb]; [|done].
  match goal with |- context [refill_loop ?n ?f ?h ?t ?p ?q ?r] => destruct (refill_loop n f h t p q r) as [[[[tail pool] posted] k]|] end;
    [|done].
  cbn. by intros [= <-].
Qed.

Lemma solarflare_new_ok ifc addr : exists t, solarflare_new ifc addr = Done t /\ solarflare_ok t /\
  sf_stats t = TransportStats_default.
Proof.
  unfold solarflare_new.
  destruct (bridge_new_rep DEFAULT_RING_CAPACITY 11 eq_refl ltac:(unfold DEFAULT_RING_CAPACITY; mint)
    (mkBypassConfig SolarflareEfVi 2048 0 true false)) as (b & ids & E & Hb).
  pose proof (bridge_new_active _ _ _ E) as Ha. rewrite E.
  cbn [outcome_bind]. eexists. split; [reflexivity|]. split; [|done]. split; [done|]. split; [exact Ha|].
  exists [], DEFAULT_RING_CAPACITY, ids. exact Hb.
Qed.

Lemma standard_bind_ok os addr busy :
  match standard_bind os addr busy with
  | Ok t => standard_ok t /\ st_stats t = TransportStats_default
  | Err e => exists msg, e = Io msg
  end.
Proof.
  unfold standard_bind. destruct (udp_bind os addr) as [s|m]; cbn [io_err result_bind]; [|by exists m].
  destruct (set_nonblocking os s) as [m|]; [by exists m|].
  destruct (local_addr_of os s) as [a|m]; cbn [io_err result_bind]; [|by exists m].
  split; [split; [done|]|done]. apply length_replicate.
Qed.

(** A result of the factory: a fresh transport of the kind [k] that keeps the contract, or an error. *)
Definition made (k : TransportBackendKind) (r : outcome (result AnyTransport TransportError)) : Prop :=
  match r with
  | Done (Ok t) => any_ok t /\ transport_stats t = TransportStats_default /\ backend_kind t = k
  | Done (Err e) => exists msg, e = Io msg
  | Panic => False
  end.

Lemma solarflare_made config : made SolarflareEfViBackend (solarflare_box config).
Proof.
  unfold solarflare_box. destruct (solarflare_new_ok (interface config) (tc_bind_addr config)) as (t & -> & Hok & Hst).
  cbn [outcome_bind made]. split; [exact Hok|]. split; [exact Hst|reflexivity].
Qed.

Lemma socket_made os config : made StandardSocketBackend (socket_box os config).
Proof.
  unfold socket_box. pose proof (standard_bind_ok os (tc_bind_addr config) (tc_enable_busy_poll config)) as Hb.
  destruct (standard_bind _ _ _) as [t|e]; cbn [result_bind made]; [|exact Hb].
  destruct Hb as [Hok Hst]. split; [exact Hok|]. split; [exact Hst|reflexivity].
Qed.

Lemma io_uring_made os addr n : 0 <= n <= 2 ^ 32 ->
  made IoUringBackend (let! r := io_uring_bind os addr n in Done (let? t := r in Ok (BoxIoUring t))).
Proof.
  intros Hn. pose proof (bind_rep os addr n Hn) as Hu.
  destruct (io_uring_bind os addr n) as [[t|e]|]; cbn [outcome_bind result_bind made]; [|exact Hu|exact Hu].
  destruct Hu as (Hrep & Hst & _). split; [exists []; exact Hrep|]. split; [exact Hst|reflexivity].
Qed.

Lemma explicit_made os k config : 0 <= tc_ring_capacity config <= 2 ^ 32 -> made k (create_explicit os k config).
Proof.
  intros Hn. destruct k; cbn [create_explicit].
  - apply solarflare_made.
  - by apply io_uring_made.
  - apply socket_made.
  - by split.
Qed.

Module SocketTransport.

(** C32: an [io_uring] transport that binds behaves, over any injections and polls, as a queue of at most
    [entries] packets: injections into a full ring are refused, a poll takes from the socket no more
    datagrams than there are free buffers, hands packets over in order, cut to 2048 bytes, and
    nothing panics. *)
Theorem io_uring_refines_queue (os : Os) (addr : bytes) (n : Z) (cs : list uring_call) (Hn : 0 <= n <= 2 ^ 32) :
  match io_uring_bind os addr n with
  | Done (Ok t) =>
      exists t', uring_run t cs = Done (t', (uring_spec_run (Z.to_nat (entries t)) ([], io_socket t) cs).2) /\
        uring_rep t' (uring_spec_run (Z.to_nat (entries t)) ([], io_socket t) cs).1.1
  | Done (Err e) => exists msg, e = Io msg
  | Panic => False
  end.
Proof.
  pose proof (bind_rep os addr n Hn) as Hb. destruct (io_uring_bind os addr n) as [[t|e]|]; [|done|done].
  destruct Hb as [Hrep _]. destruct (uring_run_spec cs t [] Hrep) as (t' & -> & Hrep' & _). by exists t'.
Qed.

(** A host whose sockets all have two datagrams, an interruption and an error to give. *)
Definition demo_socket : socket := [Datagram (lit "one"); Interrupted; Datagram (lit "two"); RecvError (lit "gone")].
Definition demo_os : Os := mkOs (fun _ => Ok demo_socket) (fun _ => None) (fun _ => Ok (lit "127.0.0.1:9")).
Definition demo_uring_calls : list uring_call :=
  [Inject (lit "zero") 5; UringPoll (fun _ => 7) 2; UringPoll (fun _ => 8) 2; UringPoll (fun _ => 9) 2].

Lemma io_uring_refines_queue_witness :
  match io_uring_bind demo_os (lit "127.0.0.1:9") 3 with
  | Done (Ok t) => exists t', uring_run t demo_uring_calls = Done (t',
      [Injected (Ok tt); UringPolled [(lit "zero", 5); (lit "one", 7)] (Ok 2%nat); UringPolled [(lit "two", 8)] (Ok 1%nat);
       UringPolled [] (Ok 0%nat)])
  | _ => False
  end.
Proof.
  pose proof (io_uring_refines_queue demo_os (lit "127.0.0.1:9") 3 demo_uring_calls ltac:(lia)) as P.
  assert (match io_uring_bind demo_os (lit "127.0.0.1:9") 3 with
          | Done (Ok t) => entries t = 4 /\ io_socket t = Some demo_socket | _ => False end) as Q by (vm_compute; auto).
  destruct (io_uring_bind demo_os (lit "127.0.0.1:9") 3) as [[t|e]|]; [|done|done].
  destruct Q as [He Hs]. rewrite He, Hs in P. destruct P as (t' & P & _). exists t'. exact P.
Defined.

(** C31: any of the four transports, in any state its operations leave it in, polled any number of times with room for at least one
    packet: every poll of an active transport hands over at most that many and reports their number, or fails
    with an input/output error; and packets and bytes received go up by exactly what the polls that succeeded handed
    over (what a failing poll handed over before its error is not counted), calls made by the number of polls,
    modulo [2^64].  An inactive transport refuses every poll and changes nothing. *)
Theorem polls_are_accounted (t : AnyTransport) (polls : list ((nat -> Z) * nat))
    (Hok : any_ok t) (Hp : Forall (fun p => (0 < p.2)%nat) polls) :
  if transport_active t then
    exists t' batches, poll_all t polls = Done (t', concat batches.*1, batches.*2) /\
      Forall2 (fun p b => (length b.1 <= p.2)%nat) polls batches /\
      Forall (fun b => match b.2 with Ok n => n = length b.1 | Err e => exists msg, e = Io msg end) batches /\
      let counted := counted_packets batches in
      wrap U64 (rx_packets (transport_stats t')) = wrap U64 (rx_packets (transport_stats t) + Z.of_nat (length counted)) /\
      wrap U64 (rx_bytes (transport_stats t')) = wrap U64 (rx_bytes (transport_stats t) + total_bytes counted) /\
      wrap U64 (poll_calls (transport_stats t')) = wrap U64 (poll_calls (transport_stats t) + Z.of_nat (length polls))
  else poll_all t polls = Done (t, [], replicate (length polls) (Err NotConnected)).
Proof.
  destruct (transport_active t) eqn:Ha; [|by apply poll_all_inactive].
  destruct (poll_all_accounts polls t Hok Ha Hp) as (t' & batches & E & _ & _ & H). by exists t', batches.
Qed.

(** A poll of the plain socket that succeeds, then one that hands over a packet and fails: one packet of three bytes is counted. *)
Lemma polls_are_accounted_witness :
  match standard_bind demo_os (lit "127.0.0.1:9") false with
  | Ok t => exists t' batches, poll_all (BoxSocket t) [(fun _ => 7, 1%nat); (fun _ => 8, 9%nat)] =
        Done (t', concat batches.*1, batches.*2) /\
      concat batches.*1 = [(lit "one", 7); (lit "two", 8)] /\ batches.*2 = [Ok 1%nat; Err (Io (lit "gone"))] /\
      wrap U64 (poll_calls (transport_stats t')) = 2
  | Err _ => False
  end.
Proof.
  pose proof (standard_bind_ok demo_os (lit "127.0.0.1:9") false) as Hok.
  assert (match standard_bind demo_os (lit "127.0.0.1:9") false with
    | Ok t => st_socket t = demo_socket /\ match poll_all (BoxSocket t) [(fun _ => 7, 1%nat); (fun _ => 8, 9%nat)] with
        | Done (_, ps, rs) => ps = [(lit "one", 7); (lit "two", 8)] /\ rs = [Ok 1%nat; Err (Io (lit "gone"))] | Panic => False end
    | _ => False end) as Hs by (vm_compute; auto).
  destruct (standard_bind demo_os (lit "127.0.0.1:9") false) as [t|e]; [|done]. destruct Hok as [Hok Hst]. destruct Hs as [_ Hs].
  assert (any_ok (BoxSocket t)) as Hany by exact Hok. assert (st_active t = true) as Ha by apply Hok.
  pose proof (polls_are_accounted (BoxSocket t) [(fun _ => 7, 1%nat); (fun _ => 8, 9%nat)] Hany ltac:(repeat constructor)) as P.
  change (transport_active (BoxSocket t)) with (st_active t) in P. rewrite Ha in P.
  destruct P as (t' & batches & E & _ & _ & _ & _ & Hc). exists t', batches. rewrite E in Hs. destruct Hs as [H1 H2].
  split; [exact E|]. split; [exact H1|]. split; [exact H2|]. rewrite Hc. change (transport_stats (BoxSocket t)) with (st_stats t).
  rewrite Hst. reflexivity.
Defined.

(** C40: The standard socket transport hands over every datagram of its socket once, in order, whatever
    fails in between, and with as many polls as the socket has results it hands over all of them; a
    poll that ends with an error hands over the packets before it but does not count them. *)
Theorem datagrams_delivered_once (t : StandardSocketTransport) (polls : list ((nat -> Z) * nat))
    (Hok : standard_ok t) (Hp : Forall (fun p => (0 < p.2)%nat) polls) :
  (exists t' ps rs, poll_all t polls = Done (t', ps, rs) /\
    datagrams (st_socket t) = map fst ps ++ datagrams (st_socket t') /\
    ((length (st_socket t) <= length polls)%nat -> map fst ps = datagrams (st_socket t))) /\
  forall clock max, let r := socket_deliveries max clock 0 (st_socket t) in
    exists t', poll_batch t clock max =
        Done (t', r.1.1, match r.1.2 with Some msg => Err (Io msg) | None => Ok (length r.1.1) end) /\
      st_stats t' = match r.1.2 with Some _ => count_poll_call (st_stats t) | None => account (st_stats t) r.1.1 end.
Proof.
  split.
  - destruct (poll_all_datagrams polls t Hok Hp) as (t' & ps & rs & -> & _ & E & Hl).
    do 3 eexists. split; [reflexivity|]. split; [done|]. intros Hle.
    destruct (st_socket t') as [|r s]; [|cbn in Hl; lia]. cbn in E. by rewrite app_nil_r in E.
  - intros clock max r. destruct (standard_poll_spec t clock max Hok) as (t' & E & _ & _ & Hst). by exists t'.
Qed.

Lemma datagrams_delivered_once_witness :
  match standard_bind demo_os (lit "127.0.0.1:9") false with
  | Ok t => exists t' ps rs, poll_all t (replicate 4 (fun _ => 7, 1%nat)) = Done (t', ps, rs) /\ map fst ps = [lit "one"; lit "two"]
  | Err _ => False
  end.
Proof.
  pose proof (standard_bind_ok demo_os (lit "127.0.0.1:9") false) as Hok.
  assert (match standard_bind demo_os (lit "127.0.0.1:9") false with Ok t => st_socket t = demo_socket | _ => False end) as Hs
    by (vm_compute; reflexivity).
  destruct (standard_bind demo_os (lit "127.0.0.1:9") false) as [t|e]; [|done]. destruct Hok as [Hok _].
  destruct (proj1 (datagrams_delivered_once t (replicate 4 (fun _ => 7, 1%nat)) Hok ltac:(repeat constructor)))
    as (t' & ps & rs & E & _ & Hall).
  exists t', ps, rs. split; [exact E|]. rewrite Hs in Hall. rewrite Hall by (cbn; lia). vm_compute. reflexivity.
Defined.

(** The error case at work: a packet handed over that no counter sees. *)
Example error_batch_uncounted :
  match standard_bind demo_os (lit "127.0.0.1:9") false with
  | Ok t =>
      match poll_batch t (fun _ => 7) 10 with
      | Done (t', ps, r) => ps = [(lit "one", 7); (lit "two", 7)] /\ r = Err (Io (lit "gone")) /\
          st_stats t' = mkStats 0 0 0 0 1 0
      | Panic => False
      end
  | Err _ => False
  end.
Proof. vm_compute. auto. Qed.

(** The factory never panics: it makes the preferred transport if one is set, and otherwise the one
    of the host's tier, falling back from [io_uring] to the plain socket; what it makes has zero
    counters and keeps the transport contract, and its failures are input/output errors. *)
Theorem factory_keeps_contract {P} `{HardwareProbe P} (os : Os) (env : bytes -> option bytes) (config : TransportConfig)
    (probe : P) (Hring : 0 <= tc_ring_capacity config <= 2 ^ 32) :
  match preferred_backend config with
  | Some k => made k (create_optimal_transport os env config probe)
  | None =>
      match rp_tier (negotiate_profile probe env None) with
      | Tier3EnterpriseBareMetal => made SolarflareEfViBackend (create_optimal_transport os env config probe)
      | Tier2CloudVirtualized =>
          if (if io_uring_bind os (tc_bind_addr config) (tc_ring_capacity config) is Done (Ok _) then true else false)
          then made IoUringBackend (create_optimal_transport os env config probe)
          else made StandardSocketBackend (create_optimal_transport os env config probe)
      | Tier1MidRange => made StandardSocketBackend (create_optimal_transport os env config probe)
      end
  end.
Proof.
  unfold create_optimal_transport. destruct (preferred_backend config) as [k|]; [by apply explicit_made|].
  destruct (rp_tier _); [apply socket_made| |apply solarflare_made].
  pose proof (io_uring_made os (tc_bind_addr config) _ Hring) as Hm.
  destruct (io_uring_bind _ _ _) as [[t|e]|]; [exact Hm|apply socket_made|destruct Hm].
Qed.

Lemma factory_keeps_contract_witness :
  match create_optimal_transport demo_os (fun _ => None) TransportConfig_default new_tier3_bare_metal with
  | Done (Ok t) => any_ok t /\ backend_kind t = SolarflareEfViBackend
  | _ => False
  end.
Proof.
  pose proof (factory_keeps_contract demo_os (fun _ => None) TransportConfig_default new_tier3_bare_metal ltac:(cbn; lia)) as F.
  destruct (solarflare_new_ok (lit "eth0") (lit "0.0.0.0:0")) as (ts & Es & _).
  assert (create_optimal_transport demo_os (fun _ => None) TransportConfig_default new_tier3_bare_metal =
    Done (Ok (BoxSolarflare ts))) as E.
  { unfold create_optimal_transport, TransportConfig_default, solarflare_box. cbn [preferred_backend interface tc_bind_addr].
    rewrite Es. reflexivity. }
  rewrite E in F. rewrite E. split; [exact (proj1 F)|reflexivity].
Defined.
End SocketTransport.
