(* ===== verification/WaitStrategy.v ===== *)
(** * core-engine/src/sync/wait_strategy.rs: how a consumer waits, and the blocking pops of [SpscRingBuffer]

    The three strategies, the burst wrapper and the dispatcher as instances of one class, the schedule
    of each (spin, yield, sleep with doubling), a contract (every sleep is bounded), and the two waiting
    loops of core-engine/src/lib.rs proved against the contract.  Instants and durations are
    nanoseconds; a call reads the clock at most once, and the reading is its argument. *)

From S2P Require Import Prelude Topology Spsc.

Inductive WaitStrategyKind := BusySpin | HybridAdaptive | PowerEfficient | BurstMode.

#[global] Instance WaitStrategyKind_eq_dec : EqDecision WaitStrategyKind.
Proof. solve_decision. Defined.

(** What a call makes the thread do. *)
Inductive wait_action := Spin | YieldNow | Sleep (nanos : Z).

Class WaitStrategy (W : Type) := {
  reset : Z -> W -> W;
  idle : Z -> W -> W * wait_action;
  park_timeout : Z -> Z -> W -> W * wait_action;
  kind : Z -> W -> WaitStrategyKind;
}.

Definition from_micros (us : Z) : Z := us * 1000.
Definition from_millis (ms : Z) : Z := ms * 1000000.
(** [Instant::duration_since] saturates at zero. *)
Definition duration_since (later earlier : Z) : Z := Z.max 0 (later - earlier).

(** ** Busy spinning *)

Inductive BusySpinStrategy := BusySpinStrategy_new.

#[global] Instance busy_spin : WaitStrategy BusySpinStrategy := {
  reset _ s := s;
  idle _ s := (s, Spin);
  park_timeout _ _ s := (s, Spin);
  kind _ _ := BusySpin;
}.

(** ** Spin, then yield, then sleep *)

Record HybridAdaptiveStrategy := mkHybrid {
  h_counter : Z;
  h_spin_limit : Z;
  h_yield_limit : Z;
  h_current_sleep_us : Z;
  h_max_sleep_us : Z;
}.

Definition hybrid_new (spin_limit yield_limit max_sleep_us : Z) : HybridAdaptiveStrategy :=
  mkHybrid 0 spin_limit yield_limit 1 (Z.max max_sleep_us 1).
Definition hybrid_default : HybridAdaptiveStrategy := hybrid_new 256 1024 50.

Definition hybrid_reset (s : HybridAdaptiveStrategy) : HybridAdaptiveStrategy :=
  mkHybrid 0 (h_spin_limit s) (h_yield_limit s) 1 (h_max_sleep_us s).

Definition hybrid_idle (s : HybridAdaptiveStrategy) : HybridAdaptiveStrategy * wait_action :=
  let counter := sat U32 (h_counter s + 1) in
  let s := mkHybrid counter (h_spin_limit s) (h_yield_limit s) (h_current_sleep_us s) (h_max_sleep_us s) in
  if counter <=? h_spin_limit s then (s, Spin)
  else if counter <=? h_spin_limit s +[U32] h_yield_limit s then (s, YieldNow)
  else
    (mkHybrid counter (h_spin_limit s) (h_yield_limit s) (Z.min (h_current_sleep_us s *[U32] 2) (h_max_sleep_us s)) (h_max_sleep_us s),
     Sleep (from_micros (h_current_sleep_us s))).

#[global] Instance hybrid_adaptive : WaitStrategy HybridAdaptiveStrategy := {
  reset _ s := hybrid_reset s;
  idle _ s := hybrid_idle s;
  park_timeout _ timeout s := (s, Sleep timeout);
  kind _ _ := HybridAdaptive;
}.

(** ** Sleep early *)

Record PowerEfficientStrategy := mkPower {
  p_counter : Z;
  p_spin_limit : Z;
  p_min_sleep_us : Z;
  p_max_sleep_us : Z;
  p_current_sleep_us : Z;
}.

Definition power_new (spin_limit min_sleep_us max_sleep_us : Z) : PowerEfficientStrategy :=
  mkPower 0 spin_limit min_sleep_us (Z.max max_sleep_us min_sleep_us) min_sleep_us.
Definition power_default : PowerEfficientStrategy := power_new 32 10 1000.

Definition power_reset (s : PowerEfficientStrategy) : PowerEfficientStrategy :=
  mkPower 0 (p_spin_limit s) (p_min_sleep_us s) (p_max_sleep_us s) (p_min_sleep_us s).

Definition power_idle (s : PowerEfficientStrategy) : PowerEfficientStrategy * wait_action :=
  let counter := sat U32 (p_counter s + 1) in
  let with_sleep us := mkPower counter (p_spin_limit s) (p_min_sleep_us s) (p_max_sleep_us s) us in
  if counter <=? p_spin_limit s then (with_sleep (p_current_sleep_us s), Spin)
  else (with_sleep (Z.min (p_current_sleep_us s *[U64] 2) (p_max_sleep_us s)), Sleep (from_micros (p_current_sleep_us s))).

#[global] Instance power_efficient : WaitStrategy PowerEfficientStrategy := {
  reset _ s := power_reset s;
  idle _ s := power_idle s;
  park_timeout _ timeout s := (s, Sleep timeout);
  kind _ _ := PowerEfficient;
}.

(** ** Bursts *)

Record AdaptiveBurstWaitStrategy (W : Type) := mkBurst {
  b_inner : W;
  burst_threshold_ticks : Z;
  window_duration : Z;
  burst_decay_duration : Z;
  window_start : Z;
  ticks_in_window : Z;
  burst_until : option Z;
}.
Arguments mkBurst {W} _ _ _ _ _ _ _.
Arguments b_inner {W} _.
Arguments burst_threshold_ticks {W} _.
Arguments window_duration {W} _.
Arguments burst_decay_duration {W} _.
Arguments window_start {W} _.
Arguments ticks_in_window {W} _.
Arguments burst_until {W} _.

Section Burst.
Context {W : Type} `{WaitStrategy W}.

Definition burst_new (now : Z) (inner : W) (burst_threshold_ticks window_duration burst_decay_duration : Z) :
    AdaptiveBurstWaitStrategy W :=
  mkBurst inner burst_threshold_ticks window_duration burst_decay_duration now 0 None.

Definition record_tick (now : Z) (s : AdaptiveBurstWaitStrategy W) : AdaptiveBurstWaitStrategy W :=
  let ticks := sat U32 (ticks_in_window s + 1) in
  let '(start, ticks, until) :=
    if window_duration s <=? duration_since now (window_start s) then
      (now, 0, if burst_threshold_ticks s <=? ticks then Some (now + burst_decay_duration s) else burst_until s)
    else (window_start s, ticks, burst_until s) in
  mkBurst (reset now (b_inner s)) (burst_threshold_ticks s) (window_duration s) (burst_decay_duration s) start ticks until.

Definition is_in_burst_mode (now : Z) (s : AdaptiveBurstWaitStrategy W) : bool :=
  match burst_until s with Some expiry => now <? expiry | None => false end.

Definition with_inner (s : AdaptiveBurstWaitStrategy W) (inner : W) : AdaptiveBurstWaitStrategy W :=
  mkBurst inner (burst_threshold_ticks s) (window_duration s) (burst_decay_duration s) (window_start s)
    (ticks_in_window s) (burst_until s).

#[global] Instance adaptive_burst : WaitStrategy (AdaptiveBurstWaitStrategy W) := {
  reset := record_tick;
  idle now s :=
    if is_in_burst_mode now s then (s, Spin)
    else let (inner, a) := idle now (b_inner s) in (with_inner s inner, a);
  park_timeout now timeout s :=
    if is_in_burst_mode now s then (s, Spin)
    else let (inner, a) := park_timeout now timeout (b_inner s) in (with_inner s inner, a);
  kind now s := if is_in_burst_mode now s then BusySpin else kind now (b_inner s);
}.
End Burst.

(** ** The dispatcher *)

Inductive DynamicWaitStrategy :=
| Busy (s : BusySpinStrategy)
| Hybrid (s : HybridAdaptiveStrategy)
| Power (s : PowerEfficientStrategy)
| Burst (s : AdaptiveBurstWaitStrategy HybridAdaptiveStrategy).

Definition wait_for_tier (now : Z) (tier : HardwareTier) : DynamicWaitStrategy :=
  match tier with
  | Tier3EnterpriseBareMetal => Busy BusySpinStrategy_new
  | Tier2CloudVirtualized => Burst (burst_new now hybrid_default 500 (from_millis 100) (from_millis 50))
  | Tier1MidRange => Power power_default
  end.

Definition dispatch {W} (box : W -> DynamicWaitStrategy) (r : W * wait_action) : DynamicWaitStrategy * wait_action :=
  (box r.1, r.2).

#[global] Instance dynamic_wait : WaitStrategy DynamicWaitStrategy := {
  reset now s :=
    match s with
    | Busy s => Busy (reset now s) | Hybrid s => Hybrid (reset now s)
    | Power s => Power (reset now s) | Burst s => Burst (reset now s)
    end;
  idle now s :=
    match s with
    | Busy s => dispatch Busy (idle now s) | Hybrid s => dispatch Hybrid (idle now s)
    | Power s => dispatch Power (idle now s) | Burst s => dispatch Burst (idle now s)
    end;
  park_timeout now timeout s :=
    match s with
    | Busy s => dispatch Busy (park_timeout now timeout s) | Hybrid s => dispatch Hybrid (park_timeout now timeout s)
    | Power s => dispatch Power (park_timeout now timeout s) | Burst s => dispatch Burst (park_timeout now timeout s)
    end;
  kind now s :=
    match s with
    | Busy s => kind now s | Hybrid s => kind now s | Power s => kind now s | Burst s => kind now s
    end;
}.

(** ** core-engine/src/lib.rs: the blocking pops *)

Section Pops.
Context {T W : Type} `{WaitStrategy W} (N : Z).

(** The producer's calls while the consumer idles. *)
Definition push_all (s : SpscRingBuffer T) (items : list T) : SpscRingBuffer T :=
  fold_left (fun s item => (try_push N s item).1) items s.

(** The turns of [pop_blocking] from turn [i] on: at turn [i] the strategy reads [wait_clock i] and the
    producer pushes [arrive i].  The last component lists what the thread did. *)
Fixpoint pop_blocking (fuel : nat) (wait_clock : nat -> Z) (arrive : nat -> list T) (i : nat)
    (ring : SpscRingBuffer T) (strategy : W) : option (SpscRingBuffer T * W * T * list wait_action) :=
  match fuel with
  | O => None
  | S fuel =>
      match try_pop N ring with
      | (ring, Some item) => Some (ring, reset (wait_clock i) strategy, item, [])
      | (ring, None) =>
          let (strategy, a) := idle (wait_clock i) strategy in
          let- r := pop_blocking fuel wait_clock arrive (S i) (push_all ring (arrive i)) strategy in
          let '(ring, strategy, item, acts) := r in Some (ring, strategy, item, a :: acts)
      end
  end.

(** [clock i] is the loop's own reading of the clock at turn [i]. *)
Fixpoint timeout_loop (fuel : nat) (clock wait_clock : nat -> Z) (arrive : nat -> list T) (deadline : Z) (i : nat)
    (ring : SpscRingBuffer T) (strategy : W) : option (SpscRingBuffer T * W * option T * list wait_action) :=
  match fuel with
  | O => None
  | S fuel =>
      match try_pop N ring with
      | (ring, Some item) => Some (ring, reset (wait_clock i) strategy, Some item, [])
      | (ring, None) =>
          if deadline <=? clock i then Some (ring, strategy, None, [])
          else
            let (strategy, a) := idle (wait_clock i) strategy in
            let- r := timeout_loop fuel clock wait_clock arrive deadline (S i) (push_all ring (arrive i)) strategy in
            let '(ring, strategy, item, acts) := r in Some (ring, strategy, item, a :: acts)
      end
  end.

(** [start] is the reading the deadline is computed from, which can panic; [None] is a run that needs more fuel. *)
Definition pop_timeout (fuel : nat) (start : Z) (clock wait_clock : nat -> Z) (arrive : nat -> list T) (timeout : Z)
    (ring : SpscRingBuffer T) (strategy : W) : outcome (option (SpscRingBuffer T * W * option T * list wait_action)) :=
  let! deadline := instant_add start timeout in
  Done (timeout_loop fuel clock wait_clock arrive deadline 0 ring strategy).
End Pops.

(** ** The schedules *)

(** The strategy after [k] empty checks, and what the next one does. *)
Fixpoint idles {W} `{WaitStrategy W} (clock : nat -> Z) (k : nat) (s : W) : W :=
  match k with
  | O => s
  | S k => (idle (clock k) (idles clock k s)).1
  end.
Definition idle_action {W} `{WaitStrategy W} (clock : nat -> Z) (k : nat) (s : W) : wait_action :=
  (idle (clock k) (idles clock k s)).2.

Lemma sat_count k : 0 <= k -> sat U32 (Z.min k (2 ^ 32 - 1) + 1) = Z.min (k + 1) (2 ^ 32 - 1).
Proof. mint. Qed.

Lemma double_min_pow t j m : 0 <= j -> 0 <= m -> min_int t = 0 -> m * 2 < modulus t ->
  Z.min (wrap t (Z.min (2 ^ j) m * 2)) m = Z.min (2 ^ (j + 1)) m.
Proof.
  intros Hj Hm H0 Hr. rewrite Z.pow_add_r by lia. change (2 ^ 1) with 2.
  assert (0 < 2 ^ j) by (apply Z.pow_pos_nonneg; lia).
  rewrite wrap_id; [lia|]. unfold in_range, max_int. lia.
Qed.

(** The state of the hybrid strategy after [k] empty checks that follow a reset. *)
Definition hybrid_after (spin yield max : Z) (k : Z) : HybridAdaptiveStrategy :=
  mkHybrid (Z.min k (2 ^ 32 - 1)) spin yield (if k <=? spin + yield then 1 else Z.min (2 ^ (k - spin - yield)) max) max.
Definition hybrid_schedule (spin yield max : Z) (k : Z) : wait_action :=
  if k <? spin then Spin
  else if k <? spin + yield then YieldNow
  else Sleep (from_micros (Z.min (2 ^ (k - spin - yield)) max)).

Lemma hybrid_idle_after spin yield max k : 0 <= spin -> 0 <= yield -> spin + yield < 2 ^ 32 - 1 -> 1 <= max < 2 ^ 31 -> 0 <= k ->
  hybrid_idle (hybrid_after spin yield max k) = (hybrid_after spin yield max (k + 1), hybrid_schedule spin yield max k).
Proof.
  intros Hs Hy Hsy Hm Hk. unfold hybrid_idle, hybrid_after, hybrid_schedule.
  cbn [h_counter h_spin_limit h_yield_limit h_current_sleep_us h_max_sleep_us]. rewrite sat_count by done.
  rewrite (wrap_id U32 (spin + yield)) by mint.
  destruct (Z.ltb_spec k spin), (Z.leb_spec (Z.min (k + 1) (2 ^ 32 - 1)) spin); try lia.
  - rewrite !(proj2 (Z.leb_le _ (spin + yield))) by lia. done.
  - destruct (Z.ltb_spec k (spin + yield)), (Z.leb_spec (Z.min (k + 1) (2 ^ 32 - 1)) (spin + yield)); try lia.
    + rewrite !(proj2 (Z.leb_le _ (spin + yield))) by lia. done.
    + rewrite (proj2 (Z.leb_gt (k + 1) _)) by lia.
      replace (k + 1 - spin - yield) with (k - spin - yield + 1) by lia.
      assert ((if k <=? spin + yield then 1 else Z.min (2 ^ (k - spin - yield)) max) = Z.min (2 ^ (k - spin - yield)) max) as ->.
      { destruct (Z.leb_spec k (spin + yield)); [|done]. replace (k - spin - yield) with 0 by lia. cbn. lia. }
      by rewrite (double_min_pow U32) by (cbn [modulus min_int]; lia).
Qed.

Definition power_after (spin low high : Z) (k : Z) : PowerEfficientStrategy :=
  mkPower (Z.min k (2 ^ 32 - 1)) spin low high (if k <=? spin then low else Z.min (low * 2 ^ (k - spin)) high).
Definition power_schedule (spin low high : Z) (k : Z) : wait_action :=
  if k <? spin then Spin else Sleep (from_micros (Z.min (low * 2 ^ (k - spin)) high)).

Lemma power_idle_after spin low high k : 0 <= spin < 2 ^ 32 - 1 -> 0 <= low <= high -> high < 2 ^ 63 -> 0 <= k ->
  power_idle (power_after spin low high k) = (power_after spin low high (k + 1), power_schedule spin low high k).
Proof.
  intros Hs Hl Hh Hk. unfold power_idle, power_after, power_schedule.
  cbn [p_counter p_spin_limit p_min_sleep_us p_max_sleep_us p_current_sleep_us]. rewrite sat_count by done.
  destruct (Z.ltb_spec k spin), (Z.leb_spec (Z.min (k + 1) (2 ^ 32 - 1)) spin); try lia.
  - rewrite !(proj2 (Z.leb_le _ spin)) by lia. done.
  - rewrite (proj2 (Z.leb_gt (k + 1) _)) by lia.
    replace (k + 1 - spin) with (k - spin + 1) by lia.
    assert ((if k <=? spin then low else Z.min (low * 2 ^ (k - spin)) high) = Z.min (low * 2 ^ (k - spin)) high) as ->.
    { destruct (Z.leb_spec k spin); [|done]. replace (k - spin) with 0 by lia. cbn. lia. }
    assert (0 < 2 ^ (k - spin)) by (apply Z.pow_pos_nonneg; lia).
    rewrite wrap_id by mint. rewrite Z.pow_add_r by lia. change (2 ^ 1) with 2.
    do 2 f_equal. nia.
Qed.

Lemma hybrid_idles spin yield max clock k : 0 <= spin -> 0 <= yield -> spin + yield < 2 ^ 32 - 1 -> 1 <= max < 2 ^ 31 ->
  idles clock k (hybrid_after spin yield max 0) = hybrid_after spin yield max (Z.of_nat k).
Proof.
  intros. induction k as [|k IH]; [done|]. cbn [idles]. rewrite IH. cbn [idle hybrid_adaptive].
  rewrite hybrid_idle_after by lia. cbn [fst]. f_equal. lia.
Qed.

Lemma power_idles spin low high clock k : 0 <= spin < 2 ^ 32 - 1 -> 0 <= low <= high -> high < 2 ^ 63 ->
  idles clock k (power_after spin low high 0) = power_after spin low high (Z.of_nat k).
Proof.
  intros. induction k as [|k IH]; [done|]. cbn [idles]. rewrite IH. cbn [idle power_efficient].
  rewrite power_idle_after by lia. cbn [fst]. f_equal. lia.
Qed.

(** ** The contract: an invariant under which every wait sleeps at most [bound] nanoseconds *)

Definition sleeps_at_most (bound : Z) (a : wait_action) : Prop :=
  match a with Sleep nanos => 0 <= nanos <= bound | _ => True end.

Class BoundedWait (W : Type) `{WaitStrategy W} (inv : W -> Prop) (bound : Z) := {
  inv_reset now s : inv s -> inv (reset now s);
  inv_idle now s : inv s -> inv (idle now s).1;
  idle_bound now s : inv s -> sleeps_at_most bound (idle now s).2;
}.

#[global] Instance busy_bounded : BoundedWait BusySpinStrategy (fun _ => True) 0.
Proof. done. Qed.

Definition hybrid_ok (max_us : Z) (s : HybridAdaptiveStrategy) : Prop :=
  1 <= h_max_sleep_us s <= max_us /\ 0 <= h_current_sleep_us s <= h_max_sleep_us s.
#[global] Instance hybrid_bounded max_us : BoundedWait HybridAdaptiveStrategy (hybrid_ok max_us) (from_micros max_us).
Proof.
  split; cbn [reset idle hybrid_adaptive]; unfold hybrid_ok, hybrid_reset, hybrid_idle, from_micros; intros _ s Hs.
  - cbn. lia.
  - cbn. repeat case_match; cbn; try lia. pose proof (wrap_range U32 (h_current_sleep_us s * 2)) as Hw.
    unfold in_range in Hw. cbn [min_int] in Hw. lia.
  - repeat case_match; cbn; lia.
Qed.

Definition power_ok (max_us : Z) (s : PowerEfficientStrategy) : Prop :=
  0 <= p_min_sleep_us s <= p_max_sleep_us s /\ p_max_sleep_us s <= max_us /\ 0 <= p_current_sleep_us s <= p_max_sleep_us s.
#[global] Instance power_bounded max_us : BoundedWait PowerEfficientStrategy (power_ok max_us) (from_micros max_us).
Proof.
  split; cbn [reset idle power_efficient]; unfold power_ok, power_reset, power_idle, from_micros; intros _ s Hs.
  - cbn. lia.
  - pose proof (wrap_range U64 (p_current_sleep_us s * 2)) as Hw. unfold in_range in Hw. cbn [min_int] in Hw.
    case_match; cbn; lia.
  - case_match; cbn; lia.
Qed.

#[global] Instance burst_bounded {W} `{BoundedWait W inv bound} :
  BoundedWait (AdaptiveBurstWaitStrategy W) (fun s => inv (b_inner s)) bound.
Proof.
  split; cbn [reset idle adaptive_burst]; intros now s Hs.
  - unfold record_tick. repeat case_match; cbn; by apply inv_reset.
  - destruct (is_in_burst_mode now s); [done|]. pose proof (inv_idle now _ Hs) as Hi.
    destruct (idle now (b_inner s)). exact Hi.
  - destruct (is_in_burst_mode now s); [done|]. pose proof (idle_bound now _ Hs) as Hi.
    destruct (idle now (b_inner s)). exact Hi.
Qed.

Definition dynamic_ok (max_us : Z) (s : DynamicWaitStrategy) : Prop :=
  match s with
  | Busy _ => True
  | Hybrid s => hybrid_ok max_us s
  | Power s => power_ok max_us s
  | Burst s => hybrid_ok max_us (b_inner s)
  end.
#[global] Instance dynamic_bounded max_us : BoundedWait DynamicWaitStrategy (dynamic_ok max_us) (from_micros max_us).
Proof.
  split; intros now [s|s|s|s] Hs; try done.
  - exact (inv_reset now s Hs).
  - exact (inv_reset now s Hs).
  - exact (inv_reset now s Hs).
  - exact (inv_idle now s Hs).
  - exact (inv_idle now s Hs).
  - exact (inv_idle now s Hs).
  - exact (idle_bound now s Hs).
  - exact (idle_bound now s Hs).
  - exact (idle_bound now s Hs).
Qed.

Lemma wait_for_tier_ok now tier : dynamic_ok 1000 (wait_for_tier now tier).
Proof. destruct tier; cbn; [unfold power_ok|unfold hybrid_ok|]; cbn; lia. Qed.

(** ** The blocking pops against the contract *)

Section PopsOk.
Context {T W : Type} `{BoundedWait W inv bound} (N : Z) (HN : pow2_capacity N).

Definition idle_ring (s : SpscRingBuffer T) (q : list T) : Prop := spsc_rep N (mkConf s PIdle CIdle) q.

Lemma try_pop_producer (s : SpscRingBuffer T) : producer_cursor (try_pop N s).1 = producer_cursor s.
Proof.
  unfold try_pop, start_pop. destruct (_ <=? _); cbn [run_consumer consumer_step]; [destruct (_ <=? _); [done|]|].
  - destruct (buffer s !! slot_index N (consumer_cursor s)) eqn:E; cbn; by rewrite ?E.
  - destruct (buffer s !! slot_index N (consumer_cursor s)) eqn:E; cbn; by rewrite ?E.
Qed.

Lemma try_push_producer (s : SpscRingBuffer T) item : 0 <= producer_cursor s ->
  0 <= producer_cursor (try_push N s item).1 <= producer_cursor s + 1.
Proof.
  intros Hp. unfold try_push, start_push.
  assert (0 <= producer_cursor s +[U64] 1 <= producer_cursor s + 1) by mint.
  destruct (_ <=? _); cbn [run_producer producer_step]; [|done].
  destruct (_ <=? _); cbn; lia.
Qed.

Lemma rep_producer s q : idle_ring s q -> 0 <= producer_cursor s.
Proof. intros Hr. pose proof (rep_cursors _ _ _ Hr) as Hc. cbn in Hc. lia. Qed.

(** Pushing keeps what was there and drops what does not fit. *)
Lemma push_all_rep items : forall s q, idle_ring s q -> producer_cursor s + Z.of_nat (length items) < 2 ^ 62 ->
  idle_ring (push_all N s items) (take (Z.to_nat N) (q ++ items)) /\
  producer_cursor (push_all N s items) <= producer_cursor s + Z.of_nat (length items).
Proof.
  induction items as [|x items IH]; intros s q Hr Hb; unfold push_all; cbn [fold_left].
  - pose proof (rep_cursors _ _ _ Hr) as Hc. cbn in Hc. rewrite app_nil_r, take_ge by lia. split; [done|cbn; lia].
  - cbn [length] in *. rewrite Nat2Z.inj_succ in *. pose proof (rep_producer _ _ Hr). pose proof (try_push_producer s x ltac:(done)) as Hp.
    pose proof (try_push_rep N s q x HN ltac:(lia) Hr) as Hpush.
    pose proof (rep_cursors _ _ _ Hr) as Hc. cbn in Hc.
    destruct (Z.ltb_spec (Z.of_nat (length q)) N).
    + destruct Hpush as (s' & E & Hr'). rewrite E in Hp |- *. cbn [fst] in Hp |- *.
      destruct (IH s' (q ++ [x]) Hr' ltac:(lia)) as [Hr2 Hp2]. unfold push_all in *. rewrite <- app_assoc in Hr2. split; [exact Hr2|lia].
    + destruct Hpush as (s' & E & Hr'). rewrite E in Hp |- *. cbn [fst] in Hp |- *.
      destruct (IH s' q Hr' ltac:(lia)) as [Hr2 Hp2]. unfold push_all in *. split; [|lia].
      rewrite take_app_le in * by lia. exact Hr2.
Qed.

(** One turn that finds the ring empty. *)
Lemma empty_turn s items : idle_ring s [] -> producer_cursor s + Z.of_nat (length items) < 2 ^ 62 ->
  exists s', try_pop N s = (s', None) /\ idle_ring (push_all N s' items) (take (Z.to_nat N) items) /\
    producer_cursor (push_all N s' items) <= producer_cursor s + Z.of_nat (length items).
Proof.
  intros Hr Hb. destruct (try_pop_rep N s [] HN ltac:(lia) Hr) as (s' & E & Hr').
  pose proof (try_pop_producer s) as Hp. rewrite E in Hp. cbn in Hp. rewrite <- Hp in *.
  exists s'. split; [done|]. exact (push_all_rep items s' [] Hr' Hb).
Qed.

Context (wait_clock : nat -> Z) (arrive : nat -> list T).

(** The items that arrive during [k] turns from turn [i] on. *)
Definition arriving (i k : nat) : list T := concat (map arrive (seq i k)).

Lemma pop_blocking_rep k : forall i s st q x rest, idle_ring s q -> inv st ->
  producer_cursor s + Z.of_nat (length (arriving i k)) < 2 ^ 62 -> q ++ arriving i k = x :: rest ->
  exists s' st' acts, inv st' /\ (length acts <= k)%nat /\ Forall (sleeps_at_most bound) acts /\
    forall fuel, (k < fuel)%nat -> pop_blocking N fuel wait_clock arrive i s st = Some (s', reset (wait_clock (i + length acts)) st', x, acts).
Proof.
  induction k as [|k IH]; intros i s st q x rest Hr Hi Hb E; (destruct q as [|y q];
    [|injection E as -> _; destruct (try_pop_rep N s (x :: q) HN ltac:(lia) Hr) as (s' & Ep & Hr');
      exists s', st, []; split; [done|]; split; [cbn; lia|]; split; [constructor|];
      intros [|fuel] Hf; [lia|]; cbn [pop_blocking length]; rewrite Ep, Nat.add_0_r; done]).
  - done.
  - unfold arriving in Hb, E. cbn [seq map concat app] in Hb, E. rewrite length_app in Hb.
    destruct (empty_turn s (arrive i) Hr ltac:(lia)) as (s1 & Ep & Hr1 & Hp1).
    assert (exists r, take (Z.to_nat N) (arrive i) ++ arriving (S i) k = x :: r) as [r Er].
    { unfold arriving. pose proof (capacity_bounds N HN). destruct (Z.to_nat N) as [|n] eqn:En; [lia|].
      destruct (arrive i) as [|y l]; [cbn in *; eauto|]. injection E as -> _. cbn. eauto. }
    destruct (IH (S i) _ (idle (wait_clock i) st).1 _ x r Hr1 (inv_idle _ _ Hi) ltac:(unfold arriving; lia) Er)
      as (s' & st' & acts & Hi' & Hl & Hacts & Hrun).
    exists s', st', ((idle (wait_clock i) st).2 :: acts). split; [done|]. split; [cbn; lia|].
    split; [constructor; [by apply idle_bound|done]|].
    intros [|fuel] Hf; [lia|]. cbn [pop_blocking]. rewrite Ep.
    destruct (idle (wait_clock i) st) as [st1 a]. cbn [fst snd] in *. rewrite Hrun by lia. cbn [opt_bind length].
    by rewrite Nat.add_succ_comm.
Qed.

Lemma timeout_loop_rep clock deadline k : forall i fuel s st q, idle_ring s q -> inv st ->
  producer_cursor s + Z.of_nat (length (arriving i (S k))) < 2 ^ 62 -> (k < fuel)%nat -> deadline <= clock (i + k)%nat ->
  exists s' st' r acts, timeout_loop N fuel clock wait_clock arrive deadline i s st = Some (s', st', r, acts) /\
    inv st' /\ Forall (sleeps_at_most bound) acts /\ (length acts <= k)%nat /\
    (forall j, (i <= j < i + length acts)%nat -> clock j < deadline) /\
    match r with
    | Some x => exists rest, q ++ arriving i (length acts) = x :: rest
    | None => q ++ arriving i (length acts) = [] /\ deadline <= clock (i + length acts)%nat
    end.
Proof.
  induction k as [|k IH]; intros i [|fuel] s st q Hr Hi Hb Hfuel Hk; try lia; cbn [timeout_loop]; (destruct q as [|x q];
    [|destruct (try_pop_rep N s (x :: q) HN ltac:(lia) Hr) as (s' & -> & Hr'); do 4 eexists; split; [reflexivity|];
      split; [by apply inv_reset|]; split; [constructor|]; split; [cbn; lia|]; split; [cbn; lia|]; by exists (q ++ arriving i 0)]);
    unfold arriving in Hb; cbn [seq map concat] in Hb; rewrite length_app in Hb;
    destruct (empty_turn s (arrive i) Hr ltac:(lia)) as (s1 & -> & Hr1 & Hp1).
  - rewrite Nat.add_0_r in Hk. rewrite (proj2 (Z.leb_le _ _) Hk). do 4 eexists. split; [reflexivity|]. split; [done|].
    split; [constructor|]. cbn [length]. rewrite Nat.add_0_r. split; [done|]. split; [lia|done].
  - destruct (Z.leb_spec deadline (clock i)).
    { do 4 eexists. split; [reflexivity|]. split; [done|]. split; [constructor|]. cbn [length]. rewrite Nat.add_0_r.
      split; [lia|]. split; [lia|done]. }
    pose proof (inv_idle (wait_clock i) st Hi) as Hi1. pose proof (idle_bound (wait_clock i) st Hi) as Ha.
    destruct (idle (wait_clock i) st) as [st1 a]. cbn [fst snd] in *.
    destruct (IH (S i) fuel _ st1 _ Hr1 Hi1 ltac:(unfold arriving; cbn [seq map concat]; rewrite length_app; cbn [seq map concat] in Hb; rewrite length_app in Hb; lia) ltac:(lia) ltac:(by rewrite Nat.add_succ_comm))
      as (s' & st' & r & acts & -> & Hi' & Hacts & Hl & Hdl & Hres). cbn [opt_bind].
    do 4 eexists. split; [reflexivity|]. split; [done|]. split; [by constructor|]. cbn [length]. split; [lia|].
    rewrite <- Nat.add_succ_comm. split.
    { intros j Hj. destruct (decide (j = i)) as [->|]; [done|]. apply Hdl. lia. }
    unfold arriving in *. cbn [seq map concat app]. pose proof (capacity_bounds N HN).
    destruct (Z.to_nat N) as [|n] eqn:En; [lia|]. destruct (arrive i) as [|y l]; [exact Hres|].
    cbn [take app] in *. destruct r as [x|]; [|by destruct Hres]. destruct Hres as [rest [= -> _]]. eauto.
Qed.
End PopsOk.

(** Ticks of one window are counted, without end. *)
Lemma ticks_in_one_window {W} `{WaitStrategy W} (ts : list Z) : forall s : AdaptiveBurstWaitStrategy W,
  Forall (fun t => duration_since t (window_start s) < window_duration s) ts -> 0 <= ticks_in_window s <= 2 ^ 32 - 1 ->
  let s' := fold_left (fun s t => record_tick t s) ts s in
  ticks_in_window s' = Z.min (ticks_in_window s + Z.of_nat (length ts)) (2 ^ 32 - 1) /\ burst_until s' = burst_until s /\
  window_start s' = window_start s /\ window_duration s' = window_duration s /\
  burst_threshold_ticks s' = burst_threshold_ticks s /\ burst_decay_duration s' = burst_decay_duration s.
Proof.
  induction ts as [|t ts IH]; intros s Hts Hn; cbn [fold_left]; [cbn; repeat split; lia|].
  apply Forall_cons_1 in Hts as [Ht Hts].
  assert (sat U32 (ticks_in_window s + 1) = Z.min (ticks_in_window s + 1) (2 ^ 32 - 1)) as Hsat by mint.
  assert (ticks_in_window (record_tick t s) = Z.min (ticks_in_window s + 1) (2 ^ 32 - 1) /\
    burst_until (record_tick t s) = burst_until s /\ window_start (record_tick t s) = window_start s /\
    window_duration (record_tick t s) = window_duration s /\
    burst_threshold_ticks (record_tick t s) = burst_threshold_ticks s /\
    burst_decay_duration (record_tick t s) = burst_decay_duration s) as (E1 & E2 & E3 & E4 & E5 & E6).
  { unfold record_tick. rewrite (proj2 (Z.leb_gt _ _)) by done. rewrite Hsat. done. }
  destruct (IH (record_tick t s)) as (F1 & F2 & F3 & F4 & F5 & F6); [by rewrite E3, E4|lia|].
  rewrite F1, F2, F3, F4, F5, F6, E1, E2, E3, E4, E5, E6. cbn [length]. repeat split; lia.
Qed.

Module WaitStrategy.

(** After a reset, whatever the clock says, the [k]th empty check of the hybrid strategy spins
    [spin_limit] times, then yields [yield_limit] times, then sleeps 1, 2, 4, ... microseconds up to
    the maximum for ever; the power-efficient one spins and then doubles its least sleep up to the
    maximum. *)
Theorem wait_schedules (h : HybridAdaptiveStrategy) (p : PowerEfficientStrategy) (now : Z) (clock : nat -> Z) (k : nat)
    (Hh : 0 <= h_spin_limit h /\ 0 <= h_yield_limit h /\ h_spin_limit h + h_yield_limit h < 2 ^ 32 - 1 /\
          1 <= h_max_sleep_us h < 2 ^ 31)
    (Hp : 0 <= p_spin_limit p < 2 ^ 32 - 1 /\ 0 <= p_min_sleep_us p <= p_max_sleep_us p /\ p_max_sleep_us p < 2 ^ 63) :
  idle_action clock k (reset now h) =
    (if Z.of_nat k <? h_spin_limit h then Spin
     else if Z.of_nat k <? h_spin_limit h + h_yield_limit h then YieldNow
     else Sleep (from_micros (Z.min (2 ^ (Z.of_nat k - h_spin_limit h - h_yield_limit h)) (h_max_sleep_us h)))) /\
  idle_action clock k (reset now p) =
    (if Z.of_nat k <? p_spin_limit p then Spin
     else Sleep (from_micros (Z.min (p_min_sleep_us p * 2 ^ (Z.of_nat k - p_spin_limit p)) (p_max_sleep_us p)))).
Proof.
  destruct Hh as (H1 & H2 & H3 & H4), Hp as (P1 & P2 & P3). unfold idle_action. split.
  - assert (reset now h = hybrid_after (h_spin_limit h) (h_yield_limit h) (h_max_sleep_us h) 0) as ->.
    { unfold hybrid_after. cbn. unfold hybrid_reset. rewrite (proj2 (Z.leb_le _ _)) by lia. done. }
    rewrite hybrid_idles by done. cbn [idle hybrid_adaptive]. by rewrite hybrid_idle_after by lia.
  - assert (reset now p = power_after (p_spin_limit p) (p_min_sleep_us p) (p_max_sleep_us p) 0) as ->.
    { unfold power_after. cbn. unfold power_reset. rewrite (proj2 (Z.leb_le _ _)) by lia. done. }
    rewrite power_idles by done. cbn [idle power_efficient]. by rewrite power_idle_after by lia.
Qed.

Lemma wait_schedules_witness :
  idle_action (fun _ => 0) 1280 (reset 0 hybrid_default) = Sleep 1000 /\
  idle_action (fun _ => 0) 1290 (reset 0 hybrid_default) = Sleep 50000 /\
  idle_action (fun _ => 0) 34 (reset 0 power_default) = Sleep 40000.
Proof.
  pose proof (fun k => wait_schedules hybrid_default power_default 0 (fun _ => 0) k ltac:(cbn; lia) ltac:(cbn; lia)) as P.
  split; [exact (proj1 (P 1280%nat))|split; [exact (proj1 (P 1290%nat))|exact (proj2 (P 34%nat))]].
Defined.



(** C34: [pop_blocking] returns as soon as an item is there: if the queue and what arrives during [k]
    turns is not empty, then within [k] empty checks, each a bounded wait, it gives the first item, and leaves
    the strategy reset. *)
Theorem pop_blocking_returns {T W} `{BoundedWait W inv bound} (N : Z) (s : SpscRingBuffer T) (st : W) (q : list T)
    (wait_clock : nat -> Z) (arrive : nat -> list T) (k : nat) (x : T) (rest : list T) (HN : pow2_capacity N)
    (Hr : spsc_rep N (mkConf s PIdle CIdle) q) (Hst : inv st)
    (Hb : producer_cursor s + Z.of_nat (length (arriving arrive 0 k)) < 2 ^ 62)
    (Hx : q ++ arriving arrive 0 k = x :: rest) :
  exists s' st' acts, inv st' /\ (length acts <= k)%nat /\ Forall (sleeps_at_most bound) acts /\
    forall fuel, (k < fuel)%nat ->
      pop_blocking N fuel wait_clock arrive 0 s st = Some (s', reset (wait_clock (length acts)) st', x, acts).
Proof. exact (pop_blocking_rep N HN wait_clock arrive k 0 s st q x rest Hr Hst Hb Hx). Qed.

Lemma pop_blocking_returns_witness :
  exists s' st' acts, (length acts <= 3)%nat /\
    pop_blocking 4 10 (fun _ => 0) (fun i => if (i =? 2)%nat then [7; 8] else []) 0 (spsc_empty 4 0)
      (wait_for_tier 0 Tier2CloudVirtualized) = Some (s', st', 7, acts).
Proof.
  destruct (pop_blocking_returns (inv := dynamic_ok 1000) (bound := from_micros 1000) 4 (spsc_empty 4 0)
    (wait_for_tier 0 Tier2CloudVirtualized) [] (fun _ => 0) (fun i => if (i =? 2)%nat then [7; 8] else []) 3 7 [8]
    Spsc.pow2_capacity_4 (spsc_empty_rep 4 0 Spsc.pow2_capacity_4) (wait_for_tier_ok 0 Tier2CloudVirtualized)
    ltac:(cbn; lia) eq_refl) as (s' & st' & acts & _ & Hl & _ & Hrun).
  exists s', (reset 0 st'), acts. split; [exact Hl|]. apply (Hrun 10%nat). lia.
Defined.

(** Bursts: ticks of one window are only counted; the first tick after it opens a burst exactly
    when the ticks reach the threshold, and starts a new window; until the burst ends every wait
    spins and changes nothing. *)
Theorem burst_promotion {W} `{WaitStrategy W} (s : AdaptiveBurstWaitStrategy W) (ts : list Z) (t : Z)
    (Hts : Forall (fun t => duration_since t (window_start s) < window_duration s) ts)
    (Ht : window_duration s <= duration_since t (window_start s)) (Hn : 0 <= ticks_in_window s <= 2 ^ 32 - 1) :
  let n := Z.min (ticks_in_window s + Z.of_nat (length ts) + 1) (2 ^ 32 - 1) in
  let s' := record_tick t (fold_left (fun s t => record_tick t s) ts s) in
  window_start s' = t /\ ticks_in_window s' = 0 /\
  burst_until s' = (if burst_threshold_ticks s <=? n then Some (t + burst_decay_duration s) else burst_until s) /\
  forall now, (if burst_until s' is Some expiry then now < expiry else False) ->
    idle now s' = (s', Spin) /\ kind now s' = BusySpin /\ forall timeout, park_timeout now timeout s' = (s', Spin).
Proof.
  intros n s'. pose proof (ticks_in_one_window ts s Hts Hn) as Htick. cbv zeta in Htick.
  subst s'. revert Htick. generalize (fold_left (fun s t => record_tick t s) ts s). intros s1 (E1 & E2 & E3 & E4 & E5 & E6).
  assert (sat U32 (ticks_in_window s1 + 1) = n) as Hsat by (subst n; rewrite E1; mint).
  assert (window_start (record_tick t s1) = t /\ ticks_in_window (record_tick t s1) = 0 /\
    burst_until (record_tick t s1) = (if burst_threshold_ticks s <=? n then Some (t + burst_decay_duration s) else burst_until s))
    as (F1 & F2 & F3).
  { unfold record_tick. rewrite E3, E4, (proj2 (Z.leb_le _ _)) by done. rewrite Hsat, E5, E6, E2. done. }
  split; [exact F1|]. split; [exact F2|]. split; [exact F3|]. intros now Hnow.
  assert (is_in_burst_mode now (record_tick t s1) = true) as Hburst.
  { unfold is_in_burst_mode. destruct (burst_until (record_tick t s1)); [by apply Z.ltb_lt|done]. }
  cbn [idle kind park_timeout adaptive_burst]. by rewrite Hburst.
Qed.

Lemma burst_promotion_witness :
  let s := record_tick 60 (fold_left (fun s t => record_tick t s) [10; 20] (burst_new 0 hybrid_default 3 50 100)) in
  burst_until s = Some 160 /\ idle 100 s = (s, Spin).
Proof.
  destruct (burst_promotion (burst_new 0 hybrid_default 3 50 100) [10; 20] 60 ltac:(repeat constructor)
    ltac:(by_eval) ltac:(split; by_eval)) as (_ & _ & E & Hidle).
  split; [exact E|]. apply Hidle. vm_compute. reflexivity.
Defined.
End WaitStrategy.
