(* ===== verification/Scheduler.v ===== *)
(** * core-engine/src/scheduler: execution plans and the cooperative loop

    The plan computed from the cores, capabilities and quota of a host, with its summary text; the
    cooperative cycle over pipeline stages and the loop that runs it until it is stopped.  A stage
    is any type with the operations of the trait; the operating system's affinity call is seen
    as the mask it is given. *)

From Stdlib Require Import SpecFloat.
From stdpp Require Import gmap sorting.
From S2P Require Import Prelude Bytes Decimal Text.

(** ** scheduler/topology_plan.rs *)

Inductive WorkerRole :=
| Ingestion | ParserNormalizer | SequencerOrderBook | ShmEgress | NetworkEgress | Telemetry.

#[global] Instance WorkerRole_eq_dec : EqDecision WorkerRole.
Proof. solve_decision. Defined.

Definition role_index (r : WorkerRole) : nat :=
  match r with
  | Ingestion => 0 | ParserNormalizer => 1 | SequencerOrderBook => 2
  | ShmEgress => 3 | NetworkEgress => 4 | Telemetry => 5
  end%nat.
Definition all_roles : list WorkerRole :=
  [Ingestion; ParserNormalizer; SequencerOrderBook; ShmEgress; NetworkEgress; Telemetry].
#[global] Program Instance WorkerRole_countable : Countable WorkerRole :=
  inj_countable role_index (fun i => all_roles !! i) _.
Next Obligation. by intros []. Qed.

Definition role_as_str (r : WorkerRole) : bytes :=
  match r with
  | Ingestion => lit "Ingestion"
  | ParserNormalizer => lit "ParserNormalizer"
  | SequencerOrderBook => lit "SequencerOrderBook"
  | ShmEgress => lit "ShmEgress"
  | NetworkEgress => lit "NetworkEgress"
  | Telemetry => lit "Telemetry"
  end.

Record WorkerGroup := mkGroup {
  g_name : bytes;
  g_roles : list WorkerRole;
  assigned_core : option nat;
  real_time_priority : option Z;
}.

Inductive ExecutionTopologyPlan :=
| DedicatedPinned (core_mapping : gmap WorkerRole nat)
| GroupedAffinity (groups : list WorkerGroup)
| CooperativeMultiplexed (worker_threads : nat).

#[global] Instance WorkerGroup_eq_dec : EqDecision WorkerGroup.
Proof. solve_decision. Defined.
#[global] Instance ExecutionTopologyPlan_eq_dec : EqDecision ExecutionTopologyPlan.
Proof. solve_decision. Defined.

Definition thread_count (p : ExecutionTopologyPlan) : nat :=
  match p with
  | DedicatedPinned core_mapping => size core_mapping
  | GroupedAffinity groups => length groups
  | CooperativeMultiplexed worker_threads => worker_threads
  end.

(** Formatting: a [usize], and [sort] on strings, which compare byte by byte. *)
Definition show_nat (n : nat) : bytes := digits 20 (Z.of_nat n).
Definition show_option (o : option nat) : bytes :=
  match o with Some n => lit "Some(" ++ show_nat n ++ lit ")" | None => lit "None" end.
Fixpoint str_leb (a b : bytes) : bool :=
  match a, b with
  | [], _ => true
  | _, [] => false
  | x :: a, y :: b => (x <? y) || (x =? y) && str_leb a b
  end.
Definition str_le (a b : bytes) : Prop := str_leb a b = true.
#[global] Instance str_le_dec : RelDecision str_le.
Proof. intros a b. unfold str_le. apply _. Defined.
Definition str_sort (l : list bytes) : list bytes := merge_sort str_le l.

(** [mappings] is the order in which the hash map gives its entries. *)
Definition mapping_text (e : WorkerRole * nat) : bytes := role_as_str e.1 ++ lit ":Core" ++ show_nat e.2.
Definition pinned_summary (mappings : list (WorkerRole * nat)) : bytes :=
  lit "DedicatedPinned [" ++ join (lit ", ") (str_sort (map mapping_text mappings)) ++ lit "]".
Definition group_text (g : WorkerGroup) : bytes :=
  g_name g ++ lit "(core=" ++ show_option (assigned_core g) ++ lit "): [" ++
    join (lit "+") (map role_as_str (g_roles g)) ++ lit "]".
Definition summary (p : ExecutionTopologyPlan) : bytes :=
  match p with
  | DedicatedPinned core_mapping => pinned_summary (map_to_list core_mapping)
  | GroupedAffinity groups =>
      lit "GroupedAffinity [" ++ show_nat (length groups) ++ lit " groups: " ++ join (lit "; ") (map group_text groups) ++ lit "]"
  | CooperativeMultiplexed worker_threads => lit "CooperativeMultiplexed [threads: " ++ show_nat worker_threads ++ lit "]"
  end.

(** ** scheduler/mod.rs: affinity and plan *)

(** The mask handed to [sched_setaffinity], whose own result is ignored. *)
Definition set_current_thread_affinity (core_id : Z) : result (list Z) bytes :=
  let byte_idx := Z.to_nat (core_id / 8) in
  let bit_idx := core_id mod 8 in
  if (byte_idx <? 128)%nat then
    Ok (<[byte_idx := Z.lor 0 (1 <<[U8] bit_idx)]> (replicate 128 0))
  else Err (lit "Core ID " ++ digits 20 core_id ++ lit " exceeds 1024-cpu mask capacity").

(** [quota.floor() as usize]: the conversion saturates, and sends NaN to 0. *)
Definition floor_usize (q : spec_float) : Z :=
  match q with
  | S754_finite false m e => Z.min (if 0 <=? e then Z.shiftl (Zpos m) e else Z.shiftr (Zpos m) (- e)) (max_int U64)
  | S754_infinity false => max_int U64
  | _ => 0
  end.

Definition pinned_map : gmap WorkerRole nat :=
  <[Telemetry := 6%nat]> (<[NetworkEgress := 5%nat]> (<[ShmEgress := 4%nat]>
    (<[SequencerOrderBook := 3%nat]> (<[ParserNormalizer := 2%nat]> (<[Ingestion := 1%nat]> ∅))))).
Definition affinity_groups : list WorkerGroup :=
  [mkGroup (lit "ingress_worker") [Ingestion; ParserNormalizer] (Some 0%nat) None;
   mkGroup (lit "engine_worker") [SequencerOrderBook] (Some 1%nat) None;
   mkGroup (lit "distribution_worker") [ShmEgress; NetworkEgress; Telemetry] (Some 2%nat) None].

Definition effective_cores (available_cores : Z) (cgroup_quota_cores : option spec_float) : Z :=
  match cgroup_quota_cores with
  | Some quota => Z.min (Z.max (floor_usize quota) 1) available_cores
  | None => available_cores
  end.

Definition compute_plan (available_cores : Z) (is_bare_metal has_affinity_cap : bool)
    (cgroup_quota_cores : option spec_float) : ExecutionTopologyPlan :=
  let effective := effective_cores available_cores cgroup_quota_cores in
  if is_bare_metal && (8 <=? effective) && has_affinity_cap then DedicatedPinned pinned_map
  else if (4 <=? effective) && has_affinity_cap then GroupedAffinity affinity_groups
  else CooperativeMultiplexed (Z.to_nat (Z.max 1 (Z.min effective 2))).

(** ** scheduler/mod.rs: the cooperative loop *)

Inductive StepResult := Continue | Yield | Exhausted.

#[global] Instance StepResult_eq_dec : EqDecision StepResult.
Proof. solve_decision. Defined.

Class PipelineStage (S : Type) := {
  role : S -> WorkerRole;
  step : S -> S * StepResult;
  stage_active : S -> bool;
  shutdown : S -> S;
}.

Section Loop.
Context {St : Type} `{PipelineStage St}.

(** [for stage in stages]: the stages, [work_done] and [all_exhausted]. *)
Fixpoint step_loop (stages : list St) (work_done all_exhausted : bool) : list St * bool * bool :=
  match stages with
  | [] => ([], work_done, all_exhausted)
  | stage :: stages =>
      if stage_active stage then
        let (stage, r) := step stage in
        let work_done := match r with Continue => true | _ => work_done end in
        let '(stages, work_done, all_exhausted) := step_loop stages work_done false in
        (stage :: stages, work_done, all_exhausted)
      else
        let '(stages, work_done, all_exhausted) := step_loop stages work_done all_exhausted in
        (stage :: stages, work_done, all_exhausted)
  end.

Definition step_cooperative (stages : list St) : list St * StepResult :=
  let '(stages, work_done, all_exhausted) := step_loop stages false true in
  (stages, if all_exhausted then Exhausted else if work_done then Continue else Yield).

(** What the thread does in a cycle, besides the stages' own steps. *)
Inductive loop_action := YieldNow | SleepMicros (us : Z).

Definition idle_actions (idle_counter : Z) : list loop_action :=
  (if 64 <? idle_counter then [YieldNow] else []) ++ (if 256 <? idle_counter then [SleepMicros 200] else []).

(** [stop i] is the reading of the stop flag before cycle [i]; the result has the actions of every cycle. *)
Fixpoint cooperative_loop (fuel : nat) (stop : nat -> bool) (i : nat) (idle_counter : Z) (stages : list St) :
    option (list St * list (list loop_action)) :=
  match fuel with
  | O => None
  | S fuel =>
      if stop i then Some (stages, [])
      else
        match step_cooperative stages with
        | (stages, Continue) =>
            let- r := cooperative_loop fuel stop (S i) 0 stages in Some (r.1, [] :: r.2)
        | (stages, Yield) =>
            let idle_counter := idle_counter +[I32] 1 in
            let- r := cooperative_loop fuel stop (S i) idle_counter stages in
            Some (r.1, idle_actions idle_counter :: r.2)
        | (stages, Exhausted) => Some (stages, [])
        end
  end.

Definition run_cooperative_loop (fuel : nat) (stop : nat -> bool) (stages : list St) : option (list St * list (list loop_action)) :=
  let- r := cooperative_loop fuel stop 0 0 stages in Some (map shutdown r.1, r.2).
End Loop.

(** ** scheduler/mod.rs: the scheduler *)

(** [sched_setscheduler(pid, policy, priority)], whose result is ignored. *)
Definition SCHED_FIFO : Z := 1.
Definition set_realtime_priority (sched_setscheduler : Z -> Z -> Z -> Z) (priority : Z) : result unit bytes :=
  let _res := sched_setscheduler 0 SCHED_FIFO priority in Ok tt.

Record ElasticScheduler (St : Type) := mkElastic { es_plan : ExecutionTopologyPlan; stages : list St }.
Arguments mkElastic {St} _ _.
Arguments es_plan {St} _.
Arguments stages {St} _.

Definition elastic_new {St} (plan : ExecutionTopologyPlan) : ElasticScheduler St := mkElastic plan [].
Definition add_stage {St} (s : ElasticScheduler St) (stage : St) : ElasticScheduler St :=
  mkElastic (es_plan s) (stages s ++ [stage]).

(** ** The summary does not depend on the hash map's order *)

#[global] Instance str_le_total : Total str_le.
Proof.
  unfold Total, str_le. intros a. induction a as [|x a IH]; intros [|y b]; cbn; auto.
  destruct (Z.ltb_spec x y), (Z.ltb_spec y x), (Z.eqb_spec x y), (Z.eqb_spec y x); cbn; auto; try lia.
Qed.
#[global] Instance str_le_trans : Transitive str_le.
Proof.
  unfold Transitive, str_le. intros a. induction a as [|x a IH]; intros [|y b] [|z c]; cbn; try done.
  rewrite !orb_true_iff, !andb_true_iff, !Z.ltb_lt, !Z.eqb_eq. intros [?|[? ?]] [?|[? ?]]; try (left; lia).
  right. split; [lia|eauto].
Qed.
#[global] Instance str_le_antisymm : AntiSymm (=) str_le.
Proof.
  unfold AntiSymm, str_le. intros a. induction a as [|x a IH]; intros [|y b]; cbn; try done.
  rewrite !orb_true_iff, !andb_true_iff, !Z.ltb_lt, !Z.eqb_eq. intros [?|[? ?]] [?|[? ?]]; try lia.
  f_equal; [done|auto].
Qed.

Lemma str_sort_perm l1 l2 : l1 ≡ₚ l2 -> str_sort l1 = str_sort l2.
Proof.
  intros HP. apply (Sorted_unique str_le).
  - apply Sorted_merge_sort, _.
  - apply Sorted_merge_sort, _.
  - unfold str_sort. by rewrite !merge_sort_Permutation.
Qed.

(** ** The cooperative loop *)

Lemma least (P : nat -> bool) k : P k = true -> exists j, (j <= k)%nat /\ P j = true /\ forall i, (i < j)%nat -> P i = false.
Proof.
  induction k as [k IH] using lt_wf_ind. intros Hk. destruct (existsb P (seq 0 k)) eqn:E.
  - apply existsb_exists in E as (i & Hi%in_seq & HP). destruct (IH i ltac:(lia) HP) as (j & Hj & Hrest).
    exists j. split; [lia|done].
  - exists k. split; [done|]. split; [done|]. intros i Hi. destruct (P i) eqn:HP; [|done].
    assert (existsb P (seq 0 k) = true) by (apply existsb_exists; exists i; split; [apply in_seq; lia|done]). congruence.
Qed.

Section LoopOk.
Context {St : Type} `{PipelineStage St}.

Definition stage_cycle (s : St) : St := if stage_active s then (step s).1 else s.
Definition worked (s : St) : bool := stage_active s && (if (step s).2 is Continue then true else false).
Definition cycle_result (stages : list St) : StepResult :=
  if existsb stage_active stages then if existsb worked stages then Continue else Yield else Exhausted.

Lemma step_loop_spec stages : forall w e, step_loop stages w e =
  (map stage_cycle stages, w || existsb worked stages, e && negb (existsb stage_active stages)).
Proof.
  induction stages as [|s stages IH]; intros w e; cbn [step_loop map existsb]; [by rewrite orb_false_r, andb_true_r|].
  unfold stage_cycle at 1, worked at 1. destruct (stage_active s); cbn [andb orb negb].
  - destruct (step s) as [s' r]. rewrite IH. cbn [fst snd]. rewrite andb_false_r.
    by destruct r, w.
  - by rewrite IH.
Qed.

Lemma step_cooperative_spec stages : step_cooperative stages = (map stage_cycle stages, cycle_result stages).
Proof.
  unfold step_cooperative, cycle_result. rewrite step_loop_spec. by destruct (existsb stage_active stages).
Qed.

(** The stages after [j] cycles, and what the thread does in [k] cycles that begin with the counter [n]. *)
Definition cycles (j : nat) (stages : list St) : list St := map (Nat.iter j stage_cycle) stages.
Fixpoint trace (k : nat) (n : Z) (stages : list St) : list (list loop_action) :=
  match k with
  | O => []
  | S k =>
      match cycle_result stages with
      | Continue => [] :: trace k 0 (map stage_cycle stages)
      | _ => idle_actions (n +[I32] 1) :: trace k (n +[I32] 1) (map stage_cycle stages)
      end
  end.

Lemma cycles_S j stages : cycles (S j) stages = cycles j (map stage_cycle stages).
Proof. unfold cycles. rewrite map_map. apply map_ext. intros s. apply Nat.iter_succ_r. Qed.

Lemma trace_length k : forall n stages, length (trace k n stages) = k.
Proof. induction k; intros n stages; cbn; [done|]. destruct (cycle_result stages); cbn; by rewrite IHk. Qed.

Lemma inactive_fixed stages : cycle_result stages = Exhausted -> map stage_cycle stages = stages.
Proof.
  unfold cycle_result. destruct (existsb stage_active stages) eqn:E; [by destruct (existsb worked stages)|]. intros _.
  induction stages as [|s stages IH]; [done|]. cbn in *. apply orb_false_iff in E as [E1 E2]. unfold stage_cycle at 1.
  rewrite E1. by rewrite IH.
Qed.

(** The loop stops at the first cycle where the flag is set or no stage is active. *)
Lemma loop_stops stop k : forall i n stages,
  (forall j, (j < k)%nat -> stop (i + j)%nat = false /\ cycle_result (cycles j stages) <> Exhausted) ->
  stop (i + k)%nat = true \/ cycle_result (cycles k stages) = Exhausted ->
  forall fuel, (k < fuel)%nat -> cooperative_loop fuel stop i n stages = Some (cycles k stages, trace k n stages).
Proof.
  induction k as [|k IH]; intros i n stages Hrun Hend [|fuel] Hf; [lia| |lia|]; cbn [cooperative_loop trace].
  - assert (cycles 0 stages = stages) as E by (unfold cycles; cbn; apply map_id). rewrite Nat.add_0_r, E in *.
    destruct (stop i); [done|]. destruct Hend as [|Hend]; [done|]. rewrite step_cooperative_spec, Hend.
    by rewrite inactive_fixed.
  - destruct (Hrun 0%nat ltac:(lia)) as [Hs Hc]. rewrite Nat.add_0_r in Hs.
    assert (cycles 0 stages = stages) as E by (unfold cycles; cbn; apply map_id). rewrite E in Hc.
    rewrite Hs, step_cooperative_spec, cycles_S.
    assert (forall n', cooperative_loop fuel stop (S i) n' (map stage_cycle stages) =
      Some (cycles k (map stage_cycle stages), trace k n' (map stage_cycle stages))) as Hnext.
    { intros n'. apply IH; [|by rewrite <- cycles_S, Nat.add_succ_comm|lia].
      intros j Hj. rewrite <- cycles_S, Nat.add_succ_comm. apply Hrun. lia. }
    destruct (cycle_result stages); [| |done]; by rewrite Hnext.
Qed.

Lemma first_end stop k stages : stop k = true \/ cycle_result (cycles k stages) = Exhausted ->
  exists j, (j <= k)%nat /\ (forall i, (i < j)%nat -> stop i = false /\ cycle_result (cycles i stages) <> Exhausted) /\
    (stop j = true \/ cycle_result (cycles j stages) = Exhausted).
Proof.
  intros Hk.
  destruct (least (fun i => stop i || (if cycle_result (cycles i stages) is Exhausted then true else false)) k ltac:(cbn; destruct Hk as [->| ->]; [done|apply orb_true_r]))
    as (j & Hj & Hend & Hbefore). exists j. split; [done|]. split.
  - intros i Hi%Hbefore. apply orb_false_iff in Hi as [-> Hi]. split; [done|].
    by destruct (cycle_result (cycles i stages)).
  - apply orb_true_iff in Hend as [->|Hend]; [by left|]. right.
    by destruct (cycle_result (cycles j stages)).
Qed.

(** While every cycle yields, the counter is the number of cycles, modulo [2^32]. *)
Lemma quiet_trace k : forall n stages, (forall j, (j < k)%nat -> cycle_result (cycles j stages) = Yield) ->
  trace k n stages = map (fun i => idle_actions (n + Z.of_nat i +[I32] 1)) (seq 0 k).
Proof.
  induction k as [|k IH]; intros n stages Hy; [done|]. cbn [trace seq map].
  pose proof (Hy 0%nat ltac:(lia)) as H0. assert (cycles 0 stages = stages) as E by (unfold cycles; cbn; apply map_id).
  rewrite E in H0. rewrite H0. rewrite IH by (intros j Hj; rewrite <- cycles_S; apply Hy; lia).
  rewrite <- seq_shift, map_map. rewrite Z.add_0_r. f_equal. apply map_ext. intros i. f_equal.
  rewrite <- Z.add_assoc, wrap_add_l. f_equal. lia.
Qed.
End LoopOk.

(** ** The plan *)

Definition plan_cores (p : ExecutionTopologyPlan) : list nat :=
  match p with
  | DedicatedPinned m => map snd (map_to_list m)
  | GroupedAffinity gs => omap assigned_core gs
  | CooperativeMultiplexed _ => []
  end.
(** The roles a plan runs.  A cooperative plan names none: its threads run [step_cooperative] over whatever stages there
    are, so a role is run when a stage of that role is stepped. *)
Record ProbeStage := mkProbe { probe_role : WorkerRole; stepped : bool }.
#[local] Instance probe : PipelineStage ProbeStage := {
  role := probe_role;
  step s := (mkProbe (probe_role s) true, Continue);
  stage_active _ := true;
  shutdown s := s;
}.
Definition cooperative_runs (r : WorkerRole) : bool := forallb stepped (step_cooperative [mkProbe r false]).1.
Definition plan_roles (p : ExecutionTopologyPlan) : list WorkerRole :=
  match p with
  | DedicatedPinned m => map fst (map_to_list m)
  | GroupedAffinity gs => mjoin (map g_roles gs)
  | CooperativeMultiplexed _ => List.filter cooperative_runs all_roles
  end.

Lemma pinned_entries : map_to_list pinned_map ≡ₚ
  [(Ingestion, 1%nat); (ParserNormalizer, 2%nat); (SequencerOrderBook, 3%nat); (ShmEgress, 4%nat); (NetworkEgress, 5%nat); (Telemetry, 6%nat)].
Proof.
  apply NoDup_Permutation; [apply NoDup_map_to_list|apply (bool_decide_unpack _); vm_compute; exact I|].
  intros [r c]. rewrite elem_of_map_to_list.
  assert (pinned_map !! r = Some (S (role_index r))) as -> by (destruct r; vm_compute; reflexivity).
  destruct r; cbn; set_solver.
Qed.

Lemma effective_cores_bounds n q : 0 <= n < 2 ^ 64 ->
  0 <= effective_cores n q <= n /\ (0 < n -> 0 < effective_cores n q) /\
  match q with Some q => effective_cores n (Some q) <= Z.max 1 (floor_usize q) | None => True end.
Proof. intros Hn. unfold effective_cores. destruct q; lia. Qed.

(** The mask's bit of a CPU. *)
Definition mask_bit (mask : list Z) (cpu : Z) : bool :=
  match mask !! Z.to_nat (cpu / 8) with Some b => Z.testbit b (cpu mod 8) | None => false end.

Module Scheduler.

(** C35: a computed plan places every worker role exactly once, on cores that differ and that the host
    has, never runs more threads than the effective cores (the quota's, at least one), and is
    pinned exactly on bare metal with affinity and at least eight of them, grouped with affinity
    and at least four otherwise. *)
Theorem plan_fits (available : Z) (bare affinity : bool) (quota : option spec_float) (Ha : 0 <= available < 2 ^ 64) :
  let e := effective_cores available quota in
  let p := compute_plan available bare affinity quota in
  e <= available /\ match quota with Some q => e <= Z.max 1 (floor_usize q) | None => e = available end /\
  1 <= Z.of_nat (thread_count p) <= Z.max 1 e /\
  plan_roles p ≡ₚ all_roles /\ NoDup (plan_cores p) /\ Forall (fun c => Z.of_nat c < e) (plan_cores p) /\
  match p with
  | DedicatedPinned _ => bare = true /\ affinity = true /\ 8 <= e
  | GroupedAffinity _ => affinity = true /\ 4 <= e /\ (bare = true -> e < 8)
  | CooperativeMultiplexed n => (affinity = false \/ e < 4) /\ Z.of_nat n = Z.max 1 (Z.min e 2)
  end.
Proof.
  intros e p. pose proof (effective_cores_bounds available quota Ha) as (Hb & _ & Hq). fold e in Hb.
  split; [lia|]. split; [subst e; destruct quota; [exact Hq|done]|]. subst p. unfold compute_plan. fold e. clearbody e.
  destruct bare, affinity, (Z.leb_spec 8 e), (Z.leb_spec 4 e); cbn [andb]; try lia;
    try (split; [cbn; lia|]; split; [done|]; split; [constructor|]; split; [constructor|]; split; [auto; lia|cbn; lia]);
    try (split; [cbn; lia|]; split; [done|]; split; [apply (bool_decide_unpack _); vm_compute; exact I|];
         split; [repeat constructor; lia|]; split; [done|]; split; [done|]; intros; (lia || done)).
  assert (thread_count (DedicatedPinned pinned_map) = 6%nat) as -> by (vm_compute; reflexivity).
  split; [lia|]. cbn [plan_roles plan_cores]. rewrite pinned_entries. split; [done|].
  split; [apply (bool_decide_unpack _); vm_compute; exact I|].
  split; [repeat constructor; cbn; lia|done].
Qed.

(** A host of 32 cores in a container with a quota of one and a half. *)
Lemma plan_fits_witness :
  compute_plan 32 true true (Some (S754_finite false 3 (-1))) = CooperativeMultiplexed 1 /\
  Z.of_nat (thread_count (compute_plan 32 true true (Some (S754_finite false 3 (-1))))) <= 1.
Proof.
  destruct (plan_fits 32 true true (Some (S754_finite false 3 (-1))) ltac:(lia)) as (_ & _ & H & _).
  split; [vm_compute; reflexivity|]. exact (proj2 H).
Defined.

(** The summary of a pinned plan is the same whatever order the hash map gives its entries in. *)
Theorem summary_order_independent (m : gmap WorkerRole nat) (mappings : list (WorkerRole * nat))
    (Hm : mappings ≡ₚ map_to_list m) :
  summary (DedicatedPinned m) = pinned_summary mappings.
Proof.
  unfold summary, pinned_summary. do 3 f_equal. apply str_sort_perm. by rewrite Hm.
Qed.

Lemma summary_order_independent_witness :
  summary (DedicatedPinned pinned_map) =
    lit "DedicatedPinned [Ingestion:Core1, NetworkEgress:Core5, ParserNormalizer:Core2, SequencerOrderBook:Core3, ShmEgress:Core4, Telemetry:Core6]".
Proof.
  rewrite (summary_order_independent pinned_map _ (symmetry pinned_entries)). vm_compute. reflexivity.
Defined.

(** The affinity mask of a core below 1024 has that core's bit and no other; a higher core is
    refused. *)
Theorem affinity_mask_exact (core : Z) (Hc : 0 <= core) :
  match set_current_thread_affinity core with
  | Ok mask => core < 1024 /\ length mask = 128%nat /\ forall cpu, 0 <= cpu < 1024 -> mask_bit mask cpu = (cpu =? core)
  | Err _ => 1024 <= core
  end.
Proof.
  unfold set_current_thread_affinity.
  destruct (Nat.ltb_spec (Z.to_nat (core / 8)) 128) as [Hlt|Hge]; [|zdm].
  assert (core < 1024) as Hc1 by zdm. split; [done|]. split; [by rewrite length_insert, length_replicate|].
  intros cpu Hcpu. unfold mask_bit. rewrite Z.lor_0_l.
  assert (0 <= core mod 8 < 8) as Hm by (apply Z.mod_pos_bound; lia).
  assert (0 <= cpu mod 8 < 8) as Hm' by (apply Z.mod_pos_bound; lia).
  assert (1 <<[U8] core mod 8 = 2 ^ (core mod 8)) as ->.
  { rewrite Z.shiftl_1_l. apply wrap_id.
    assert (core mod 8 = 0 \/ core mod 8 = 1 \/ core mod 8 = 2 \/ core mod 8 = 3 \/ core mod 8 = 4 \/ core mod 8 = 5 \/
      core mod 8 = 6 \/ core mod 8 = 7) as Hcase by lia.
    destruct Hcase as [->|[->|[->|[->|[->|[->|[->| ->]]]]]]]; mint. }
  destruct (decide (Z.to_nat (core / 8) = Z.to_nat (cpu / 8))) as [E|E].
  - rewrite E, list_lookup_insert_eq by (rewrite length_replicate; zdm).
    rewrite Z.pow2_bits_eqb by lia. assert (core / 8 = cpu / 8) by zdm.
    destruct (Z.eqb_spec (core mod 8) (cpu mod 8)), (Z.eqb_spec cpu core); zdm.
  - rewrite list_lookup_insert_ne by done. rewrite lookup_replicate_2 by zdm. rewrite Z.bits_0.
    destruct (Z.eqb_spec cpu core); [by subst|done].
Qed.

Lemma affinity_mask_exact_witness :
  match set_current_thread_affinity 11 with Ok mask => mask_bit mask 11 = true /\ mask_bit mask 3 = false | Err _ => False end.
Proof.
  assert (exists mask, set_current_thread_affinity 11 = Ok mask) as [mask E] by (eexists; reflexivity).
  pose proof (affinity_mask_exact 11 ltac:(lia)) as P. rewrite E in *. destruct P as (_ & _ & P).
  split; [exact (P 11 ltac:(lia))|exact (P 3 ltac:(lia))].
Defined.

(** C36: if the stop flag is set by cycle [k], or no stage is active any more by then, the flag set or not, the cooperative loop
    ends: after the first cycles up to that point, in each of which every active stage has taken exactly one step and
    no other changed, every stage is shut down once. *)
Theorem cooperative_run_stops {St} `{PipelineStage St} (stop : nat -> bool) (stages : list St) (k : nat)
    (Hk : stop k = true \/ existsb stage_active (cycles k stages) = false) :
  exists j acts, (j <= k)%nat /\ length acts = j /\
    (forall i, (i < j)%nat -> stop i = false /\ existsb stage_active (cycles i stages) = true) /\
    (stop j = true \/ existsb stage_active (cycles j stages) = false) /\
    forall fuel, (j < fuel)%nat ->
      run_cooperative_loop fuel stop stages = Some (map (fun s => shutdown (Nat.iter j stage_cycle s)) stages, acts).
Proof.
  assert (forall l : list St, cycle_result l = Exhausted <-> existsb stage_active l = false) as Hex.
  { intros l. unfold cycle_result. destruct (existsb stage_active l); [|done]. by destruct (existsb worked l). }
  destruct (first_end stop k stages ltac:(destruct Hk as [?|?]; [by left|right; by apply Hex])) as (j & Hj & Hbefore & Hend).
  exists j, (trace j 0 stages). split; [done|]. split; [apply trace_length|]. split.
  { intros i Hi. destruct (Hbefore i Hi) as [Hs Hc]. rewrite Hex in Hc. split; [done|]. by apply not_false_is_true. }
  split; [rewrite <- Hex; exact Hend|]. intros fuel Hf. unfold run_cooperative_loop.
  rewrite (loop_stops stop j 0 0 stages Hbefore Hend fuel Hf). cbn [opt_bind fst snd]. unfold cycles. by rewrite map_map.
Qed.

(** Stages that work a number of times and then only yield, as the repository's tests have them. *)
Record CountdownStage := mkCountdown { cd_active : bool; work_items : nat; steps_executed : nat }.
#[local] Instance countdown : PipelineStage CountdownStage := {
  role _ := Ingestion;
  step s := match work_items s with
            | O => (mkCountdown (cd_active s) 0 (S (steps_executed s)), Yield)
            | S n => (mkCountdown (cd_active s) n (S (steps_executed s)), Continue)
            end;
  stage_active := cd_active;
  shutdown s := mkCountdown false (work_items s) (steps_executed s);
}.

(** Stages that finish their work and go inactive, without a stop flag. *)
Record FiniteStage := mkFinite { items_left : nat; items_done : nat; shut : bool }.
#[local] Instance finite : PipelineStage FiniteStage := {
  role _ := Ingestion;
  step s := (mkFinite (pred (items_left s)) (S (items_done s)) (shut s), Continue);
  stage_active s := (0 <? items_left s)%nat;
  shutdown s := mkFinite (items_left s) (items_done s) true;
}.

Lemma cooperative_run_stops_witness :
  (exists acts, run_cooperative_loop 10 (fun i => (4 <=? i)%nat) [mkCountdown true 3 0; mkCountdown true 2 0; mkCountdown false 9 0] =
    Some ([mkCountdown false 0 4; mkCountdown false 0 4; mkCountdown false 9 0], acts)) /\
  (exists acts, run_cooperative_loop 10 (fun _ => false) [mkFinite 3 0 false; mkFinite 1 0 false] =
    Some ([mkFinite 0 3 true; mkFinite 0 1 true], acts)).
Proof.
  split.
  - destruct (cooperative_run_stops (fun i => (4 <=? i)%nat) [mkCountdown true 3 0; mkCountdown true 2 0; mkCountdown false 9 0]
      4 (or_introl eq_refl)) as (j & acts & Hj & _ & Hbefore & Hend & Hrun).
    assert (j = 4%nat) as ->.
    { destruct j as [|[|[|[|[|j]]]]]; try done; try lia; destruct Hend as [Hend|Hend]; vm_compute in Hend; congruence. }
    exists acts. rewrite Hrun by lia. reflexivity.
  - destruct (cooperative_run_stops (fun _ => false) [mkFinite 3 0 false; mkFinite 1 0 false] 5 ltac:(right; vm_compute; reflexivity))
      as (j & acts & Hj & _ & Hbefore & Hend & Hrun).
    assert (j = 3%nat) as ->.
    { destruct j as [|[|[|[|j]]]]; try done; [destruct Hend as [Hend|Hend]; vm_compute in Hend; congruence..|].
      destruct (Hbefore 3%nat ltac:(lia)) as [_ H3]. vm_compute in H3. congruence. }
    exists acts. rewrite Hrun by lia. reflexivity.
Defined.

(** A quiet loop: while every cycle yields, the loop spins for 64 cycles, yields the processor up to
    the 256th, and then also sleeps 200 microseconds each cycle, up to cycle [2^31 - 1]; there the
    32-bit counter turns negative, and for the next [2^31 + 64] cycles the loop neither yields nor sleeps. *)
Theorem quiet_loop_spins {St} `{PipelineStage St} (stop : nat -> bool) (k : nat) (stages : list St)
    (Hstop : stop k = true) (Hq : forall j, (j < k)%nat -> stop j = false /\ cycle_result (cycles j stages) = Yield) :
  exists final acts, (forall fuel, (k < fuel)%nat -> run_cooperative_loop fuel stop stages = Some (final, acts)) /\
    forall i, (i < k)%nat ->
      (Z.of_nat i < 64 -> acts !! i = Some []) /\
      (64 <= Z.of_nat i < 256 -> acts !! i = Some [YieldNow]) /\
      (256 <= Z.of_nat i < 2 ^ 31 - 1 -> acts !! i = Some [YieldNow; SleepMicros 200]) /\
      (2 ^ 31 - 1 <= Z.of_nat i < 2 ^ 32 + 64 -> acts !! i = Some []).
Proof.
  exists (map shutdown (cycles k stages)), (trace k 0 stages). split.
  { intros fuel Hf. unfold run_cooperative_loop. rewrite (loop_stops stop k 0 0 stages); [done| |by left|done].
    intros j Hj. destruct (Hq j Hj) as [Hs Hc]. split; [exact Hs|by rewrite Hc]. }
  intros i Hi. rewrite quiet_trace by (intros j Hj; by apply Hq).
  assert (map (fun i => idle_actions (0 + Z.of_nat i +[I32] 1)) (seq 0 k) !! i = Some (idle_actions (wrap I32 (Z.of_nat i + 1)))) as ->.
  { rewrite list_lookup_fmap, lookup_seq_lt by done. reflexivity. }
  assert (forall z, 64 < z -> z <= 256 -> idle_actions z = [YieldNow]) as H1
    by (intros; unfold idle_actions; rewrite (proj2 (Z.ltb_lt 64 z)), (proj2 (Z.ltb_ge 256 z)) by lia; done).
  assert (forall z, z <= 64 -> idle_actions z = []) as H0
    by (intros; unfold idle_actions; rewrite (proj2 (Z.ltb_ge 64 z)), (proj2 (Z.ltb_ge 256 z)) by lia; done).
  assert (forall z, 256 < z -> idle_actions z = [YieldNow; SleepMicros 200]) as H2
    by (intros; unfold idle_actions; rewrite (proj2 (Z.ltb_lt 64 z)), (proj2 (Z.ltb_lt 256 z)) by lia; done).
  split; [intros; by rewrite H0 by mint|]. split; [intros; by rewrite H1 by mint|]. split; [intros; by rewrite H2 by mint|].
  intros. by rewrite H0 by mint.
Qed.

Lemma quiet_loop_spins_witness :
  exists final acts, run_cooperative_loop 400 (fun i => (i =? 300)%nat) [mkCountdown true 0 0] = Some (final, acts) /\
    acts !! 299%nat = Some [YieldNow; SleepMicros 200].
Proof.
  destruct (quiet_loop_spins (fun i => (i =? 300)%nat) 300 [mkCountdown true 0 0] eq_refl) as (final & acts & Hrun & Hacts).
  { intros j Hj. split; [apply Nat.eqb_neq; lia|]. unfold cycle_result, cycles. cbn [map].
    assert (forall n s, cd_active s = true -> work_items s = 0%nat ->
      cd_active (Nat.iter n stage_cycle s) = true /\ work_items (Nat.iter n stage_cycle s) = 0%nat) as Hidle.
    { intros n s Ha Hw. induction n as [|n [IH1 IH2]]; [done|]. rewrite Nat.iter_succ. unfold stage_cycle at 1 3.
      cbn [stage_active step countdown]. by rewrite IH1, IH2. }
    destruct (Hidle j (mkCountdown true 0 0) eq_refl eq_refl) as [Ha Hw]. cbn [existsb]. unfold worked.
    cbn [stage_active step countdown]. by rewrite Ha, Hw. }
  exists final, acts. split; [apply Hrun; lia|]. apply (Hacts 299%nat ltac:(lia)). lia.
Defined.
End Scheduler.
