(* ===== verification/Simulator.v ===== *)
(** * core-engine/src/simulator.rs: the feed simulator

    The xorshift generator, whose state never reaches zero, and the generation of a burst of market
    events, written in a state monad whose values may panic.  The proofs use a small logic of
    triples on that monad. *)

From S2P Require Import Prelude Models.

(** ** The generator *)

Record FastPrng := mkPrng { prng_state : Z }.

Definition prng_new (seed : Z) : FastPrng := mkPrng (if seed =? 0 then 16045690984503098046 else seed).

(** The state that follows [x]: three xorshifts on 64 bits. *)
Definition xorshift (x : Z) : Z :=
  let x := Z.lxor x (Z.shiftr x 12) in
  let x := Z.lxor x (x <<[U64] 25) in
  Z.lxor x (Z.shiftr x 27).

Definition next_u64 (p : FastPrng) : Z * FastPrng :=
  let x := xorshift (prng_state p) in (x *[U64] 2685821657736338717, mkPrng x).

(** ** Events *)

Inductive SimulatedVenue := BinanceCeFi | OkxCeFi | UniswapV3DeFi.
Inductive FeedEventKind := KindBbo | KindTrade.

Record SimulatedFeedEvent := mkEvent {
  ev_kind : FeedEventKind;
  ev_venue_id : Z;
  ev_market_id : Z;
  ev_bbo : NormalizedBbo;
  ev_trade : UnifiedTrade;
}.
Definition event_default : SimulatedFeedEvent := mkEvent KindBbo 0 0 Bbo_default Trade_default.
Definition from_bbo (b : NormalizedBbo) : SimulatedFeedEvent :=
  mkEvent KindBbo (bbo_venue b) (bbo_market_id b) b Trade_default.
Definition from_trade (t : UnifiedTrade) : SimulatedFeedEvent :=
  mkEvent KindTrade (tr_venue t) (tr_market_id t) Bbo_default t.

Record FeedBurstConfig := mkBurstConfig {
  target_msg_rate_per_sec : Z;
  burst_size : nat;
  burst_interval_micros : Z;
  jitter_min_ns : Z;
  jitter_max_ns : Z;
  base_btc_price : Z;
  base_eth_price : Z;
  base_sol_price : Z;
}.
Definition burst_config_default : FeedBurstConfig :=
  mkBurstConfig 250000 1000 4000 200 3500 6500000000000 350000000000 15000000000.

Record MockExchangeFeedSimulator := mkSim {
  prng : FastPrng;
  btc_cur_price : Z;
  eth_cur_price : Z;
  sol_cur_price : Z;
  binance_seq : Z;
  okx_seq : Z;
  uniswap_seq : Z;
  trade_id_counter : Z;
}.
Definition simulator_new (seed : Z) (config : FeedBurstConfig) : MockExchangeFeedSimulator :=
  mkSim (prng_new seed) (base_btc_price config) (base_eth_price config) (base_sol_price config)
    100000000 200000000 1000000 50000000.

(** ** The monad *)

Definition sim (A : Type) : Type := MockExchangeFeedSimulator -> outcome (A * MockExchangeFeedSimulator).
Definition ret {A} (a : A) : sim A := fun s => Done (a, s).
Definition bind {A B} (m : sim A) (k : A -> sim B) : sim B := fun s => let! r := m s in k r.1 r.2.
Definition get : sim MockExchangeFeedSimulator := fun s => Done (s, s).
Definition modify (f : MockExchangeFeedSimulator -> MockExchangeFeedSimulator) : sim unit := fun s => Done (tt, f s).
Notation "'let*' x ':=' m 'in' k" := (bind m (fun x => k)) (at level 10, x pattern, m at level 200, k at level 200).

Definition with_prng (s : MockExchangeFeedSimulator) (p : FastPrng) : MockExchangeFeedSimulator :=
  mkSim p (btc_cur_price s) (eth_cur_price s) (sol_cur_price s) (binance_seq s) (okx_seq s) (uniswap_seq s) (trade_id_counter s).
Definition next : sim Z := fun s => let (x, p) := next_u64 (prng s) in Done (x, with_prng s p).

(** The remainder panics when the range is all of [u64]. *)
Definition gen_range (min max : Z) : sim Z :=
  if max <=? min then ret min
  else
    let* x := next in
    let span := max -[U64] min +[U64] 1 in
    if span =? 0 then fun _ => Panic else ret (min +[U64] (x mod span)).

Definition gen_price_delta (max_tick_jump : Z) : sim Z :=
  let* x := next in
  let span := wrap U64 (max_tick_jump *[I64] 2 +[I64] 1) in
  if span =? 0 then fun _ => Panic else ret (wrap I64 (x mod span) -[I64] max_tick_jump).

(** ** The steps of [generate_burst] *)

Definition set_market_price (market_id price : Z) (s : MockExchangeFeedSimulator) : MockExchangeFeedSimulator :=
  if market_id =? 1001 then mkSim (prng s) price (eth_cur_price s) (sol_cur_price s) (binance_seq s) (okx_seq s) (uniswap_seq s) (trade_id_counter s)
  else if market_id =? 1002 then mkSim (prng s) (btc_cur_price s) price (sol_cur_price s) (binance_seq s) (okx_seq s) (uniswap_seq s) (trade_id_counter s)
  else mkSim (prng s) (btc_cur_price s) (eth_cur_price s) price (binance_seq s) (okx_seq s) (uniswap_seq s) (trade_id_counter s).
Definition bump_binance (s : MockExchangeFeedSimulator) : MockExchangeFeedSimulator :=
  mkSim (prng s) (btc_cur_price s) (eth_cur_price s) (sol_cur_price s) (binance_seq s +[U64] 1) (okx_seq s) (uniswap_seq s) (trade_id_counter s).
Definition bump_okx (s : MockExchangeFeedSimulator) : MockExchangeFeedSimulator :=
  mkSim (prng s) (btc_cur_price s) (eth_cur_price s) (sol_cur_price s) (binance_seq s) (okx_seq s +[U64] 1) (uniswap_seq s) (trade_id_counter s).
Definition bump_uniswap (s : MockExchangeFeedSimulator) : MockExchangeFeedSimulator :=
  mkSim (prng s) (btc_cur_price s) (eth_cur_price s) (sol_cur_price s) (binance_seq s) (okx_seq s) (uniswap_seq s +[U64] 1) (trade_id_counter s).
Definition bump_trade_id (s : MockExchangeFeedSimulator) : MockExchangeFeedSimulator :=
  mkSim (prng s) (btc_cur_price s) (eth_cur_price s) (sol_cur_price s) (binance_seq s) (okx_seq s) (uniswap_seq s) (trade_id_counter s +[U64] 1).

(** The market chosen, its price and its largest tick jump. *)
Definition choose_market (asset_choice : Z) (s : MockExchangeFeedSimulator) : Z * Z * Z :=
  if asset_choice <? 50 then (1001, btc_cur_price s, 500000)
  else if asset_choice <? 85 then (1002, eth_cur_price s, 100000)
  else (1003, sol_cur_price s, 10000).

(** The random walk of the price. *)
Definition walk (asset_choice : Z) : sim (Z * Z) :=
  let* s := get in
  let '(market_id, base_price, tick_jump) := choose_market asset_choice s in
  let* delta := gen_price_delta tick_jump in
  let base_price := Z.max (base_price +[I64] delta) 100000000 in
  let* _ := modify (set_market_price market_id base_price) in
  ret (market_id, base_price).

Definition stamps (config : FeedBurstConfig) (base_timestamp_ns : Z) (i : nat) : sim TelemetryTimestamps :=
  let* jitter_ns := gen_range (jitter_min_ns config) (jitter_max_ns config) in
  let t0 := base_timestamp_ns +[U64] (wrap U64 (Z.of_nat i) *[U64] 10) in
  let t1 := t0 +[U64] jitter_ns in
  let* engine := gen_range 500 1500 in
  let t2 := t1 +[U64] engine in
  let* wire := gen_range 200 800 in
  ret (mkTelemetry t0 t1 t2 (t2 +[U64] wire)).

(** A trade on an exchange, with its size between two bounds. *)
Definition trade_event (t : TelemetryTimestamps) (market_id price : Z) (venue : VenueId)
    (sequence_of : MockExchangeFeedSimulator -> Z) (size_min size_max : Z) : sim SimulatedFeedEvent :=
  let* _ := modify bump_trade_id in
  let* r := next in
  let side := if Z.land r 1 =? 0 then 1 else 2 in
  let* size := gen_range size_min size_max in
  let* s := get in
  ret (from_trade (mkTrade t market_id (VenueId_code venue) (ChainId_code OffChain) (sequence_of s) (trade_id_counter s)
    price size side false)).

Definition half_spread (price spread_bps : Z) : Z := Z.quot (price *[I64] spread_bps) 20000.

(** A quote on an exchange. *)
Definition quote_event (t : TelemetryTimestamps) (market_id price : Z) (venue : VenueId)
    (sequence_of : MockExchangeFeedSimulator -> Z) (spread_min spread_max qty_min qty_max : Z) : sim SimulatedFeedEvent :=
  let* spread := gen_range spread_min spread_max in
  let spread_bps := wrap U16 spread in
  let half := half_spread price spread_bps in
  let* bid_qty := gen_range qty_min qty_max in
  let* ask_qty := gen_range qty_min qty_max in
  let* s := get in
  ret (from_bbo (mkBbo t market_id (VenueId_code venue) (ChainId_code OffChain) (sequence_of s)
    (price -[I64] half) bid_qty (price +[I64] half) ask_qty spread_bps 0)).

(** A quote of the automated market maker. *)
Definition amm_event (t : TelemetryTimestamps) (market_id price : Z) : sim SimulatedFeedEvent :=
  let* spread := gen_range 5 15 in
  let spread_bps := wrap U16 spread in
  let half := half_spread price spread_bps in
  let* pool_liquidity := gen_range 5000000000 20000000000 in
  let* s := get in
  ret (from_bbo (mkBbo t market_id (VenueId_code UniswapV3) (ChainId_code Ethereum) (uniswap_seq s)
    (price -[I64] half) pool_liquidity (price +[I64] half) pool_liquidity spread_bps 1)).

Definition next_event (config : FeedBurstConfig) (base_timestamp_ns : Z) (i : nat) : sim SimulatedFeedEvent :=
  let* venue := next in
  let* asset := next in
  let* kind := next in
  let venue_choice := venue mod 10 in
  let is_trade := kind mod 100 <? 15 in
  let* m := walk (asset mod 100) in
  let (market_id, base_price) := m : Z * Z in
  let* telemetry := stamps config base_timestamp_ns i in
  if venue_choice <? 5 then
    let* _ := modify bump_binance in
    if is_trade then trade_event telemetry market_id base_price Binance binance_seq 100000000 2500000000
    else quote_event telemetry market_id base_price Binance binance_seq 1 3 500000000 5000000000
  else if venue_choice <? 8 then
    let* _ := modify bump_okx in
    if is_trade then trade_event telemetry market_id base_price Okx okx_seq 50000000 1500000000
    else quote_event telemetry market_id base_price Okx okx_seq 2 5 200000000 3000000000
  else
    let* _ := modify bump_uniswap in
    amm_event telemetry market_id base_price.

(** [for i in 0..count]: the events written from index [i] on. *)
Fixpoint burst_loop (config : FeedBurstConfig) (base_timestamp_ns : Z) (count i : nat) (out_buffer : list SimulatedFeedEvent) :
    sim (list SimulatedFeedEvent) :=
  match count with
  | O => ret out_buffer
  | S count =>
      let* event := next_event config base_timestamp_ns i in
      burst_loop config base_timestamp_ns count (S i) (<[i := event]> out_buffer)
  end.

Definition generate_burst (config : FeedBurstConfig) (out_buffer : list SimulatedFeedEvent) (base_timestamp_ns : Z) :
    sim (list SimulatedFeedEvent * nat) :=
  let count := Nat.min (burst_size config) (length out_buffer) in
  let* out_buffer := burst_loop config base_timestamp_ns count 0 out_buffer in
  ret (out_buffer, count).

(** ** The generator's orbit *)

Lemma xor_shiftr_inj k x y : 0 < k -> 0 <= x -> 0 <= y ->
  Z.lxor x (Z.shiftr x k) = Z.lxor y (Z.shiftr y k) -> x = y.
Proof.
  intros Hk Hx Hy E. apply Z.lxor_eq.
  assert (Z.lxor (Z.lxor x y) (Z.shiftr (Z.lxor x y) k) = 0) as E0.
  { rewrite Z.shiftr_lxor, <- (Z.lxor_nilpotent (Z.lxor x (Z.shiftr x k))). rewrite E at 2.
    rewrite !Z.lxor_assoc. f_equal. rewrite <- !Z.lxor_assoc. f_equal. apply Z.lxor_comm. }
  assert (0 <= Z.lxor x y) as Hd by (by apply Z.lxor_nonneg).
  revert Hd E0. generalize (Z.lxor x y). intros d Hd E0%Z.lxor_eq. rewrite Z.shiftr_div_pow2 in E0 by lia.
  assert (2 <= 2 ^ k) by (change 2 with (2 ^ 1) at 1; apply Z.pow_le_mono_r; lia).
  destruct (decide (d = 0)); [done|]. assert (d / 2 ^ k < d) by (apply Z.div_lt; lia). lia.
Qed.

Lemma wrap64_land x : wrap U64 x = Z.land x (Z.ones 64).
Proof. rewrite wrap_unsigned by done. rewrite Z.land_ones by lia. reflexivity. Qed.

Lemma xor_shiftl_inj x y : in_range U64 x -> in_range U64 y ->
  Z.lxor x (x <<[U64] 25) = Z.lxor y (y <<[U64] 25) -> x = y.
Proof.
  intros Hx Hy E. apply Z.lxor_eq.
  assert (Z.lxor (Z.lxor x y) (Z.lxor x y <<[U64] 25) = 0) as E0.
  { rewrite Z.shiftl_lxor, wrap64_land. rewrite !wrap64_land in E.
    assert (Z.land (Z.lxor (Z.shiftl x 25) (Z.shiftl y 25)) (Z.ones 64) =
      Z.lxor (Z.land (Z.shiftl x 25) (Z.ones 64)) (Z.land (Z.shiftl y 25) (Z.ones 64))) as ->.
    { rewrite (Z.land_comm _ (Z.ones 64)), (Z.land_comm (Z.shiftl x 25)), (Z.land_comm (Z.shiftl y 25)).
      apply Z.bits_inj'. intros n Hn. rewrite ?Z.land_spec, ?Z.lxor_spec, ?Z.land_spec.
      by destruct (Z.testbit (Z.ones 64) n), (Z.testbit (Z.shiftl x 25) n), (Z.testbit (Z.shiftl y 25) n). }
    rewrite <- (Z.lxor_nilpotent (Z.lxor x (Z.land (Z.shiftl x 25) (Z.ones 64)))). rewrite E at 2.
    rewrite !Z.lxor_assoc. f_equal. rewrite <- !Z.lxor_assoc. f_equal. apply Z.lxor_comm. }
  assert (0 <= Z.lxor x y < 2 ^ 64) as Hd.
  { split; [apply Z.lxor_nonneg; mint|]. destruct (decide (Z.lxor x y = 0)) as [->|Hne]; [lia|].
    assert (0 <= Z.lxor x y) by (apply Z.lxor_nonneg; mint).
    apply Z.log2_lt_pow2; [lia|]. pose proof (Z.log2_lxor x y ltac:(mint) ltac:(mint)) as Hl.
    assert (forall z, 0 <= z < 2 ^ 64 -> Z.log2 z < 64) as Hlog.
    { intros z Hz. destruct (decide (z = 0)) as [->|]; [done|]. apply Z.log2_lt_pow2; lia. }
    pose proof (Hlog x ltac:(mint)). pose proof (Hlog y ltac:(mint)). lia. }
  revert Hd E0. generalize (Z.lxor x y). intros d Hd E0%Z.lxor_eq. rewrite Z.shiftl_mul_pow2 in E0 by lia.
  mint.
Qed.

Lemma lxor_range x y : in_range U64 x -> in_range U64 y -> in_range U64 (Z.lxor x y).
Proof.
  intros Hx Hy. assert (Z.lxor x y = Z.land (Z.lxor x y) (Z.ones 64)) as ->.
  { assert (x = Z.land x (Z.ones 64)) as Ex by (rewrite <- wrap64_land; symmetry; by apply wrap_id).
    assert (y = Z.land y (Z.ones 64)) as Ey by (rewrite <- wrap64_land; symmetry; by apply wrap_id).
    rewrite Ex, Ey. apply Z.bits_inj'. intros n Hn. rewrite ?Z.land_spec, ?Z.lxor_spec, ?Z.land_spec.
    by destruct (Z.testbit (Z.ones 64) n), (Z.testbit x n), (Z.testbit y n). }
  rewrite <- wrap64_land. apply wrap_range.
Qed.

Lemma shiftr_range x k : 0 <= k -> in_range U64 x -> in_range U64 (Z.shiftr x k).
Proof.
  intros Hk Hx. rewrite Z.shiftr_div_pow2 by done. assert (0 < 2 ^ k) by (apply Z.pow_pos_nonneg; lia).
  assert (0 <= x / 2 ^ k <= x) by (split; [apply Z.div_pos|apply Z.div_le_upper_bound]; mint_unfold; nia). mint.
Qed.

Lemma xorshift_range x : in_range U64 x -> in_range U64 (xorshift x).
Proof.
  intros Hx. unfold xorshift.
  assert (in_range U64 (Z.lxor x (Z.shiftr x 12))) as H1 by (apply lxor_range; [done|by apply shiftr_range]).
  assert (in_range U64 (Z.lxor (Z.lxor x (Z.shiftr x 12)) (Z.lxor x (Z.shiftr x 12) <<[U64] 25))) as H2
    by (apply lxor_range; [done|apply wrap_range]).
  apply lxor_range; [done|by apply shiftr_range].
Qed.

Lemma xorshift_inj x y : in_range U64 x -> in_range U64 y -> xorshift x = xorshift y -> x = y.
Proof.
  intros Hx Hy E. unfold xorshift in E.
  assert (forall z, in_range U64 z -> in_range U64 (Z.lxor z (Z.shiftr z 12))) as R1
    by (intros; apply lxor_range; [done|apply shiftr_range; [lia|done]]).
  assert (forall z, in_range U64 z -> in_range U64 (Z.lxor z (z <<[U64] 25))) as R2
    by (intros; apply lxor_range; [done|apply wrap_range]).
  apply xor_shiftr_inj in E; [|lia|pose proof (R2 _ (R1 _ Hx)); mint|pose proof (R2 _ (R1 _ Hy)); mint].
  apply xor_shiftl_inj in E; [|by apply R1|by apply R1].
  apply xor_shiftr_inj in E; [done|lia|mint|mint].
Qed.

(** ** Triples: [runs m s Q] says that [m] run on [s] does not panic and ends in [Q] *)

Definition runs {A} (m : sim A) (s : MockExchangeFeedSimulator) (Q : A -> MockExchangeFeedSimulator -> Prop) : Prop :=
  exists a s', m s = Done (a, s') /\ Q a s'.

Lemma runs_ret {A} (a : A) s (Q : A -> MockExchangeFeedSimulator -> Prop) : Q a s -> runs (ret a) s Q.
Proof. intros HQ. by exists a, s. Qed.
Lemma runs_bind {A B} (m : sim A) (k : A -> sim B) s Q :
  runs m s (fun a s' => runs (k a) s' Q) -> runs (bind m k) s Q.
Proof. intros (a & s' & E & b & s2 & E2 & HQ). exists b, s2. unfold bind. rewrite E. by cbn [outcome_bind fst snd]. Qed.
Lemma runs_get s (Q : MockExchangeFeedSimulator -> MockExchangeFeedSimulator -> Prop) : Q s s -> runs get s Q.
Proof. intros HQ. by exists s, s. Qed.
Lemma runs_modify f s (Q : unit -> MockExchangeFeedSimulator -> Prop) : Q tt (f s) -> runs (modify f) s Q.
Proof. intros HQ. by exists tt, (f s). Qed.
Lemma runs_impl {A} (m : sim A) s (Q Q' : A -> MockExchangeFeedSimulator -> Prop) :
  runs m s Q -> (forall a s', Q a s' -> Q' a s') -> runs m s Q'.
Proof. intros (a & s' & E & HQ) Himp. exists a, s'. auto. Qed.

(** Only the generator differs. *)
Definition same_market (s s' : MockExchangeFeedSimulator) : Prop := s' = with_prng s (prng s').

Lemma same_market_refl s : same_market s s.
Proof. by destruct s. Qed.
Lemma same_market_trans s1 s2 s3 : same_market s1 s2 -> same_market s2 s3 -> same_market s1 s3.
Proof. unfold same_market. intros -> ->. by destruct s1, s3. Qed.

Lemma runs_next s (Q : Z -> MockExchangeFeedSimulator -> Prop) :
  (forall x s', in_range U64 x -> same_market s s' -> Q x s') -> runs next s Q.
Proof. intros HQ. do 2 eexists. split; [reflexivity|]. apply HQ; [apply wrap_range|done]. Qed.

Lemma runs_gen_range lo hi s (Q : Z -> MockExchangeFeedSimulator -> Prop) :
  0 <= lo -> hi <= max_int U64 -> (lo = 0 -> hi <> max_int U64) ->
  (forall x s', lo <= x <= Z.max lo hi -> same_market s s' -> Q x s') -> runs (gen_range lo hi) s Q.
Proof.
  intros Hlo Hhi Hfull HQ. unfold gen_range. destruct (Z.leb_spec hi lo).
  { apply runs_ret, HQ; [lia|apply same_market_refl]. }
  apply runs_bind, runs_next. intros x s' Hx Hs.
  assert (hi -[U64] lo +[U64] 1 = hi - lo + 1) as -> by mint.
  rewrite (proj2 (Z.eqb_neq _ _)) by lia. apply runs_ret. pose proof (Z.mod_pos_bound x (hi - lo + 1) ltac:(lia)).
  rewrite wrap_id by mint. apply HQ; [lia|done].
Qed.

Lemma runs_price_delta jump s (Q : Z -> MockExchangeFeedSimulator -> Prop) : 0 <= jump <= 2 ^ 32 ->
  (forall d s', - jump <= d <= jump -> same_market s s' -> Q d s') -> runs (gen_price_delta jump) s Q.
Proof.
  intros Hj HQ. unfold gen_price_delta. apply runs_bind, runs_next. intros x s' Hx Hs.
  assert (wrap U64 (jump *[I64] 2 +[I64] 1) = jump * 2 + 1) as -> by mint.
  rewrite (proj2 (Z.eqb_neq _ _)) by lia. apply runs_ret. pose proof (Z.mod_pos_bound x (jump * 2 + 1) ltac:(lia)).
  assert (wrap I64 (x mod (jump * 2 + 1)) = x mod (jump * 2 + 1)) as -> by (apply wrap_id; mint).
  rewrite wrap_id by mint. apply HQ; [lia|done].
Qed.

(** ** One event *)

Definition prices_within (B : Z) (s : MockExchangeFeedSimulator) : Prop :=
  - 2 ^ 62 <= btc_cur_price s <= B /\ - 2 ^ 62 <= eth_cur_price s <= B /\ - 2 ^ 62 <= sol_cur_price s <= B.

Definition seq_of (venue : Z) (s : MockExchangeFeedSimulator) : Z :=
  if venue =? VenueId_code Binance then binance_seq s
  else if venue =? VenueId_code Okx then okx_seq s else uniswap_seq s.
Definition seqs_within (B : Z) (s : MockExchangeFeedSimulator) : Prop :=
  0 <= binance_seq s <= B /\ 0 <= okx_seq s <= B /\ 0 <= uniswap_seq s <= B.

Definition is_venue (v : Z) : Prop := v = VenueId_code Binance \/ v = VenueId_code Okx \/ v = VenueId_code UniswapV3.

Definition ev_telemetry (e : SimulatedFeedEvent) : TelemetryTimestamps :=
  match ev_kind e with KindBbo => bbo_telemetry (ev_bbo e) | KindTrade => tr_telemetry (ev_trade e) end.
Definition ev_sequence (e : SimulatedFeedEvent) : Z :=
  match ev_kind e with KindBbo => bbo_sequence (ev_bbo e) | KindTrade => tr_sequence (ev_trade e) end.

Definition stamps_ok (config : FeedBurstConfig) (base : Z) (i : nat) (t : TelemetryTimestamps) : Prop :=
  t0_exchange_ns t = base + 10 * Z.of_nat i /\
  t0_exchange_ns t + jitter_min_ns config <= t1_ingest_nic_ns t <= t0_exchange_ns t + Z.max (jitter_min_ns config) (jitter_max_ns config) /\
  t1_ingest_nic_ns t + 500 <= t2_engine_proc_ns t <= t1_ingest_nic_ns t + 1500 /\
  t2_engine_proc_ns t + 200 <= t3_egress_ns t <= t2_engine_proc_ns t + 800.

(** A quote around [mid], half the spread on either side, or a trade. *)
Definition quote_around (mid : Z) (b : NormalizedBbo) : Prop :=
  1 <= spread_bps b <= 15 /\ bid_price b = mid - mid * spread_bps b / 20000 /\
  ask_price b = mid + mid * spread_bps b / 20000 /\ 0 < bid_qty b /\ 0 < ask_qty b.
Definition event_sane (config : FeedBurstConfig) (base : Z) (i : nat) (e : SimulatedFeedEvent) : Prop :=
  (ev_market_id e = 1001 \/ ev_market_id e = 1002 \/ ev_market_id e = 1003) /\ is_venue (ev_venue_id e) /\
  stamps_ok config base i (ev_telemetry e) /\
  exists mid, 100000000 <= mid /\
    match ev_kind e with
    | KindBbo => quote_around mid (ev_bbo e)
    | KindTrade => tr_price (ev_trade e) = mid /\ 0 < tr_size (ev_trade e) /\ (tr_side (ev_trade e) = 1 \/ tr_side (ev_trade e) = 2)
    end.

(** The event carries the next sequence number of its venue; the other venues' stay. *)
Definition advances (e : SimulatedFeedEvent) (s s' : MockExchangeFeedSimulator) : Prop :=
  ev_sequence e = seq_of (ev_venue_id e) s + 1 /\
  forall v, is_venue v -> seq_of v s' = if v =? ev_venue_id e then seq_of v s + 1 else seq_of v s.

Lemma same_market_seqs s s' v : same_market s s' -> seq_of v s' = seq_of v s.
Proof. unfold same_market, seq_of. intros ->. by repeat case_match. Qed.

Section Burst.
Context (config : FeedBurstConfig) (base : Z).

(** The configuration's jitter is not all of [u64], and no time stamp of [n] events overflows. *)
Definition times_fit (n : nat) : Prop :=
  0 <= base /\ 0 <= jitter_min_ns config /\ 0 <= jitter_max_ns config /\
  base + 10 * Z.of_nat n + Z.max (jitter_min_ns config) (jitter_max_ns config) + 2300 < 2 ^ 64.

Lemma runs_stamps n i s (Q : TelemetryTimestamps -> MockExchangeFeedSimulator -> Prop) : times_fit n -> (i < n)%nat ->
  (forall t s', stamps_ok config base i t -> same_market s s' -> Q t s') -> runs (stamps config base i) s Q.
Proof.
  intros (Hb & Hj0 & Hj1 & Hfit) Hi HQ. unfold stamps.
  apply runs_bind, runs_gen_range; [done|mint|mint|]. intros jitter s1 Hj Hs1.
  assert (base +[U64] (wrap U64 (Z.of_nat i) *[U64] 10) = base + 10 * Z.of_nat i) as -> by mint.
  apply runs_bind, runs_gen_range; [done|mint|done|]. intros engine s2 He Hs2.
  apply runs_bind, runs_gen_range; [done|mint|done|]. intros wire s3 Hw Hs3.
  apply runs_ret, HQ; [|eauto using same_market_trans].
  assert (base + 10 * Z.of_nat i +[U64] jitter = base + 10 * Z.of_nat i + jitter) as -> by mint.
  assert (base + 10 * Z.of_nat i + jitter +[U64] engine = base + 10 * Z.of_nat i + jitter + engine) as -> by mint.
  assert (base + 10 * Z.of_nat i + jitter + engine +[U64] wire = base + 10 * Z.of_nat i + jitter + engine + wire) as -> by mint.
  unfold stamps_ok. cbn. lia.
Qed.

Lemma runs_walk B a s (Q : Z * Z -> MockExchangeFeedSimulator -> Prop) : 0 <= B <= 2 ^ 59 -> prices_within B s ->
  (forall m p s', (m = 1001 \/ m = 1002 \/ m = 1003) -> 100000000 <= p <= Z.max 100000000 (B + 500000) ->
    prices_within (Z.max 100000000 (B + 500000)) s' -> (forall v, seq_of v s' = seq_of v s) -> Q (m, p) s') ->
  runs (walk a) s Q.
Proof.
  intros HB Hp HQ. unfold walk. apply runs_bind, runs_get.
  assert (exists m p jump, choose_market a s = (m, p, jump) /\ (m = 1001 \/ m = 1002 \/ m = 1003) /\
    - 2 ^ 62 <= p <= B /\ 0 <= jump <= 500000) as (m & p & jump & -> & Hm & Hpr & Hj).
  { unfold choose_market, prices_within in *. repeat case_match; do 3 eexists; (split; [reflexivity|]); lia. }
  apply runs_bind, runs_price_delta; [lia|]. intros d s1 Hd Hs1.
  assert (p +[I64] d = p + d) as -> by mint.
  apply runs_bind, runs_modify, runs_ret. apply HQ; [done|lia| |].
  - unfold same_market in Hs1. rewrite Hs1. unfold prices_within, set_market_price in *. repeat case_match; cbn; lia.
  - intros v. rewrite <- (same_market_seqs _ _ v Hs1). unfold seq_of, set_market_price. by repeat case_match.
Qed.

Lemma half_spread_eq price spread : 0 <= price <= 2 ^ 59 + 500000 -> 0 <= spread <= 15 ->
  half_spread price spread = price * spread / 20000 /\ 0 <= price * spread / 20000 <= price.
Proof.
  intros Hp Hs. unfold half_spread. rewrite wrap_id by (mint_unfold; nia).
  rewrite Z.quot_div_nonneg by nia. split; [done|]. assert (0 <= price * spread <= 15 * price) by nia. zdm.
Qed.

Definition good_event (i : nat) (e : SimulatedFeedEvent) (s s' : MockExchangeFeedSimulator) : Prop :=
  event_sane config base i e /\ ev_sequence e = seq_of (ev_venue_id e) s /\ forall v, seq_of v s' = seq_of v s.

Lemma runs_quote i t m price venue (seqf : MockExchangeFeedSimulator -> Z) slo shi qlo qhi s :
  stamps_ok config base i t -> (m = 1001 \/ m = 1002 \/ m = 1003) -> 100000000 <= price <= 2 ^ 59 + 500000 ->
  is_venue (VenueId_code venue) -> (forall s, seqf s = seq_of (VenueId_code venue) s) ->
  1 <= slo <= shi -> shi <= 15 -> 0 < qlo <= qhi -> qhi < max_int U64 ->
  runs (quote_event t m price venue seqf slo shi qlo qhi) s (fun e s' => good_event i e s s' /\ ev_venue_id e = VenueId_code venue /\
    same_market s s').
Proof.
  intros Ht Hm Hp Hv Hseq Hs Hs15 Hq Hqm. unfold quote_event.
  apply runs_bind, runs_gen_range; [lia|mint|lia|]. intros spread s1 Hspread Hs1.
  assert (wrap U16 spread = spread) as -> by mint.
  destruct (half_spread_eq price spread ltac:(lia) ltac:(lia)) as [-> Hhalf].
  apply runs_bind, runs_gen_range; [lia|lia|lia|]. intros bq s2 Hbq Hs2.
  apply runs_bind, runs_gen_range; [lia|lia|lia|]. intros aq s3 Haq Hs3.
  apply runs_bind, runs_get, runs_ret. assert (same_market s s3) as Hs4 by eauto using same_market_trans.
  split; [|by split]. split; [|split; [|intros v; by apply same_market_seqs]].
  - split; [done|]. split; [done|]. split; [done|]. exists price. split; [lia|]. cbn [ev_kind from_bbo ev_bbo].
    assert (price -[I64] price * spread / 20000 = price - price * spread / 20000) as -> by (apply wrap_id; mint_unfold; lia).
    assert (price +[I64] price * spread / 20000 = price + price * spread / 20000) as -> by (apply wrap_id; mint_unfold; lia).
    unfold quote_around. cbn. lia.
  - cbn. by rewrite Hseq, (same_market_seqs _ _ _ Hs4).
Qed.

Lemma runs_trade i t m price venue (seqf : MockExchangeFeedSimulator -> Z) slo shi s :
  stamps_ok config base i t -> (m = 1001 \/ m = 1002 \/ m = 1003) -> 100000000 <= price ->
  is_venue (VenueId_code venue) -> (forall s, seqf s = seq_of (VenueId_code venue) s) ->
  0 < slo <= shi -> shi < max_int U64 ->
  runs (trade_event t m price venue seqf slo shi) s (fun e s' => good_event i e s s' /\ ev_venue_id e = VenueId_code venue /\
    same_market (bump_trade_id s) s').
Proof.
  intros Ht Hm Hp Hv Hseq Hs Hsm. unfold trade_event.
  apply runs_bind, runs_modify, runs_bind, runs_next. intros r s1 Hr Hs1.
  apply runs_bind, runs_gen_range; [lia|lia|lia|]. intros size s2 Hsize Hs2.
  apply runs_bind, runs_get, runs_ret. assert (same_market (bump_trade_id s) s2) as Hs3 by eauto using same_market_trans.
  assert (forall v, seq_of v s2 = seq_of v s) as Hsq.
  { intros v. rewrite (same_market_seqs _ _ v Hs3). reflexivity. }
  split; [|by split]. split; [|split; [cbn; by rewrite Hseq, Hsq|exact Hsq]].
  split; [done|]. split; [done|]. split; [done|]. exists price. split; [done|]. cbn.
  split; [done|]. split; [lia|]. case_match; auto.
Qed.

Lemma runs_amm i t m price s :
  stamps_ok config base i t -> (m = 1001 \/ m = 1002 \/ m = 1003) -> 100000000 <= price <= 2 ^ 59 + 500000 ->
  runs (amm_event t m price) s (fun e s' => good_event i e s s' /\ ev_venue_id e = VenueId_code UniswapV3 /\ same_market s s').
Proof.
  intros Ht Hm Hp. unfold amm_event.
  apply runs_bind, runs_gen_range; [lia|mint|lia|]. intros spread s1 Hspread Hs1.
  assert (wrap U16 spread = spread) as -> by mint.
  destruct (half_spread_eq price spread ltac:(lia) ltac:(lia)) as [-> Hhalf].
  apply runs_bind, runs_gen_range; [lia|mint|lia|]. intros liq s2 Hliq Hs2.
  apply runs_bind, runs_get, runs_ret. assert (same_market s s2) as Hs3 by eauto using same_market_trans.
  split; [|by split]. split; [|split; [|intros v; by apply same_market_seqs]].
  - split; [done|]. split; [right; right; done|]. split; [done|]. exists price. split; [lia|]. cbn [ev_kind from_bbo ev_bbo].
    assert (price -[I64] price * spread / 20000 = price - price * spread / 20000) as -> by (apply wrap_id; mint_unfold; lia).
    assert (price +[I64] price * spread / 20000 = price + price * spread / 20000) as -> by (apply wrap_id; mint_unfold; lia).
    unfold quote_around. cbn. lia.
  - exact (same_market_seqs _ _ (VenueId_code UniswapV3) Hs3).
Qed.

(** What one event does to the simulator. *)
Definition event_post (B : Z) (i : nat) (s : MockExchangeFeedSimulator) (e : SimulatedFeedEvent) (s' : MockExchangeFeedSimulator) : Prop :=
  event_sane config base i e /\ advances e s s' /\ prices_within B s'.

Lemma good_post B i e s s1 s' venue (bump : MockExchangeFeedSimulator -> MockExchangeFeedSimulator) :
  (forall v, seq_of v s1 = seq_of v s) ->
  (forall v, is_venue v -> seq_of v (bump s1) = if v =? VenueId_code venue then seq_of v s1 + 1 else seq_of v s1) ->
  is_venue (VenueId_code venue) ->
  prices_within B s' -> good_event i e (bump s1) s' -> ev_venue_id e = VenueId_code venue -> event_post B i s e s'.
Proof.
  intros Hs1 Hbump Hv Hp (Hsane & Hseq & Hsame) Hev. split; [done|]. split; [|done]. rewrite Hev in Hseq. unfold advances. rewrite Hev.
  split.
  - rewrite Hseq, Hbump, Z.eqb_refl, Hs1 by done. done.
  - intros v Hv'. rewrite Hsame, Hbump, Hs1 by done. done.
Qed.

Lemma same_market_prices B s s' : same_market s s' -> prices_within B s -> prices_within B s'.
Proof. unfold same_market. by intros ->. Qed.

Lemma runs_next_event n i B s : times_fit n -> (i < n)%nat -> 100000000 <= B <= 2 ^ 59 -> prices_within B s ->
  seqs_within (2 ^ 64 - 2) s ->
  runs (next_event config base i) s (event_post (B + 500000) i s).
Proof.
  intros Hn Hi HB Hp Hq. unfold next_event.
  apply runs_bind, runs_next. intros x1 s1 _ Hs1. apply runs_bind, runs_next. intros x2 s2 _ Hs2.
  apply runs_bind, runs_next. intros x3 s3 _ Hs3.
  assert (same_market s s3) as Hs by eauto using same_market_trans. clear Hs1 Hs2 Hs3.
  apply runs_bind, (runs_walk B); [lia|by eapply same_market_prices|]. intros m p s4 Hm Hpr Hp4 Hs4.
  rewrite Z.max_r in Hpr, Hp4 by lia.
  apply runs_bind, (runs_stamps n); [done|done|]. intros t s5 Ht Hs5. apply (same_market_prices _ _ _ Hs5) in Hp4.
  assert (forall v, seq_of v s5 = seq_of v s) as Hseqs.
  { intros v. by rewrite (same_market_seqs _ _ _ Hs5), Hs4, (same_market_seqs _ _ _ Hs). }
  assert (seqs_within (2 ^ 64 - 2) s5) as Hq5.
  { unfold seqs_within in *. pose proof (Hseqs (VenueId_code Binance)) as E1. pose proof (Hseqs (VenueId_code Okx)) as E2.
    pose proof (Hseqs (VenueId_code UniswapV3)) as E3. unfold seq_of in E1, E2, E3. cbn in E1, E2, E3. lia. }
  clear Hs4 Hs5 Hs. unfold seqs_within in Hq5.
  assert (binance_seq s5 +[U64] 1 = binance_seq s5 + 1) as E1 by mint.
  assert (okx_seq s5 +[U64] 1 = okx_seq s5 + 1) as E2 by mint.
  assert (uniswap_seq s5 +[U64] 1 = uniswap_seq s5 + 1) as E3 by mint.
  assert (forall v, is_venue v -> seq_of v (bump_binance s5) = if v =? VenueId_code Binance then seq_of v s5 + 1 else seq_of v s5) as B1
    by (intros v [->|[->| ->]]; cbn; by rewrite ?E1).
  assert (forall v, is_venue v -> seq_of v (bump_okx s5) = if v =? VenueId_code Okx then seq_of v s5 + 1 else seq_of v s5) as B2
    by (intros v [->|[->| ->]]; cbn; by rewrite ?E2).
  assert (forall v, is_venue v -> seq_of v (bump_uniswap s5) = if v =? VenueId_code UniswapV3 then seq_of v s5 + 1 else seq_of v s5) as B3
    by (intros v [->|[->| ->]]; cbn; by rewrite ?E3).
  assert (is_venue (VenueId_code Binance) /\ is_venue (VenueId_code Okx) /\ is_venue (VenueId_code UniswapV3)) as (V1 & V2 & V3)
    by (unfold is_venue; auto).
  destruct (x1 mod 10 <? 5); [|destruct (x1 mod 10 <? 8)]; apply runs_bind, runs_modify; [destruct (x3 mod 100 <? 15)..|].
  - eapply runs_impl; [apply (runs_trade i); try done; lia|]. intros e s' (Hg & He & Hsm).
    eapply (good_post _ _ _ s s5 s' Binance bump_binance); eauto. eapply same_market_prices; [exact Hsm|exact Hp4].
  - eapply runs_impl; [apply (runs_quote i); try done; try lia; mint|]. intros e s' (Hg & He & Hsm).
    eapply (good_post _ _ _ s s5 s' Binance bump_binance); eauto. eapply same_market_prices; [exact Hsm|exact Hp4].
  - eapply runs_impl; [apply (runs_trade i); try done; lia|]. intros e s' (Hg & He & Hsm).
    eapply (good_post _ _ _ s s5 s' Okx bump_okx); eauto. eapply same_market_prices; [exact Hsm|exact Hp4].
  - eapply runs_impl; [apply (runs_quote i); try done; try lia; mint|]. intros e s' (Hg & He & Hsm).
    eapply (good_post _ _ _ s s5 s' Okx bump_okx); eauto. eapply same_market_prices; [exact Hsm|exact Hp4].
  - eapply runs_impl; [apply (runs_amm i); try done; lia|]. intros e s' (Hg & He & Hsm).
    eapply (good_post _ _ _ s s5 s' UniswapV3 bump_uniswap); eauto. eapply same_market_prices; [exact Hsm|exact Hp4].
Qed.
End Burst.

(** ** A burst *)

(** The sequence numbers of one venue's events, in order. *)
Definition venue_seqs (v : Z) (es : list SimulatedFeedEvent) : list Z :=
  map ev_sequence (List.filter (fun e => ev_venue_id e =? v) es).

Definition burst_post (config : FeedBurstConfig) (base : Z) (count i : nat) (s s' : MockExchangeFeedSimulator) (es : list SimulatedFeedEvent) : Prop :=
  length es = count /\ (forall k e, es !! k = Some e -> event_sane config base (i + k) e) /\
  forall v, is_venue v -> venue_seqs v es = seqZ (seq_of v s + 1) (Z.of_nat (length (venue_seqs v es))) /\
    seq_of v s' = seq_of v s + Z.of_nat (length (venue_seqs v es)).

Lemma advances_seqs B e s s' : advances e s s' -> is_venue (ev_venue_id e) -> seqs_within B s -> seqs_within (B + 1) s'.
Proof.
  intros [_ Ha] _ Hs. unfold seqs_within in *.
  pose proof (Ha (VenueId_code Binance) ltac:(unfold is_venue; auto)) as E1.
  pose proof (Ha (VenueId_code Okx) ltac:(unfold is_venue; auto)) as E2.
  pose proof (Ha (VenueId_code UniswapV3) ltac:(unfold is_venue; auto)) as E3.
  revert E1 E2 E3. repeat case_match; cbn; lia.
Qed.

Lemma burst_post_cons config base count i s e s1 s' es : event_sane config base i e -> advances e s s1 ->
  burst_post config base count (S i) s1 s' es -> burst_post config base (S count) i s s' (e :: es).
Proof.
  intros Hsane [Hseq Hadv] (Hl & Hes & Hv). split; [cbn; lia|]. split.
  - intros [|k] e' Hk; cbn in Hk; [injection Hk as <-; by rewrite Nat.add_0_r|]. rewrite <- Nat.add_succ_comm. by apply Hes.
  - intros v Hven. destruct (Hv v Hven) as [H1 H2]. specialize (Hadv v Hven). unfold venue_seqs in *. cbn [List.filter].
    rewrite (Z.eqb_sym (ev_venue_id e) v). destruct (Z.eqb_spec v (ev_venue_id e)) as [Ev|Hne].
    + rewrite <- Ev in Hseq. cbn [map length]. rewrite seqZ_cons by lia. rewrite Hadv in H1, H2. split; [|lia].
      f_equal; [exact Hseq|]. rewrite H1 at 1. f_equal; lia.
    + rewrite Hadv in H1, H2. split; [exact H1|exact H2].
Qed.

Lemma runs_burst config base n count : forall i B s buf,
  times_fit config base n -> (i + count <= n)%nat -> (i + count <= length buf)%nat ->
  100000000 <= B -> B + 500000 * Z.of_nat count <= 2 ^ 59 -> prices_within B s ->
  seqs_within (2 ^ 64 - 2 - Z.of_nat count) s ->
  runs (burst_loop config base count i buf) s (fun buf' s' => exists es,
    buf' = take i buf ++ es ++ drop (i + count) buf /\ burst_post config base count i s s' es /\
    prices_within (B + 500000 * Z.of_nat count) s').
Proof.
  induction count as [|count IH]; intros i B s buf Hn Hi Hl HB HBc Hp Hq; cbn [burst_loop].
  - apply runs_ret. exists []. rewrite Nat.add_0_r, app_nil_l, take_drop. split; [done|]. split.
    { split; [done|]. split; [done|]. intros v Hv. split; [done|]. cbn. lia. }
    by replace (B + 500000 * Z.of_nat 0) with B by lia.
  - apply runs_bind. eapply runs_impl; [apply (runs_next_event config base n i B)|]; [done|lia|lia|done| |].
    { unfold seqs_within in *. lia. }
    intros e s1 (Hsane & Hadv & Hp1).
    pose proof (advances_seqs _ _ _ _ Hadv (proj1 (proj2 Hsane)) Hq) as Hq1.
    eapply runs_impl; [apply (IH (S i) (B + 500000) s1)|]; [done|lia|rewrite length_insert; lia|lia|lia|done| |].
    { unfold seqs_within in *. lia. }
    intros buf' s' (es & -> & Hpost & Hp'). exists (e :: es).
    split; [|split; [by eapply burst_post_cons|]].
    2: { by replace (B + 500000 * Z.of_nat (S count)) with (B + 500000 + 500000 * Z.of_nat count) by lia. }
    rewrite <- Nat.add_succ_comm. cbn [Nat.add].
    assert (take (S i) (<[i:=e]> buf) = take i buf ++ [e]) as ->.
    { rewrite (take_S_r _ _ e) by (rewrite list_lookup_insert_eq; [done|lia]). by rewrite take_insert_ge. }
    rewrite drop_insert_lt by lia. by rewrite <- app_assoc.
Qed.

Lemma burst_post_seqs config base count i s s' es Q : burst_post config base count i s s' es -> seqs_within Q s ->
  seqs_within (Q + Z.of_nat count) s'.
Proof.
  intros (Hl & _ & Hv) Hs. assert (forall v, (length (venue_seqs v es) <= count)%nat) as Hle.
  { intros v. unfold venue_seqs. rewrite length_map, <- Hl. apply List.filter_length_le. }
  pose proof (Hle (VenueId_code Binance)). pose proof (Hle (VenueId_code Okx)). pose proof (Hle (VenueId_code UniswapV3)).
  destruct (Hv (VenueId_code Binance)) as [_ E1]; [unfold is_venue; auto|].
  destruct (Hv (VenueId_code Okx)) as [_ E2]; [unfold is_venue; auto|].
  destruct (Hv (VenueId_code UniswapV3)) as [_ E3]; [unfold is_venue; auto|].
  cbn [seq_of Z.eqb VenueId_code Pos.eqb] in E1, E2, E3. unfold seqs_within in *.
  change (seq_of 1 s') with (binance_seq s') in E1. change (seq_of 1 s) with (binance_seq s) in E1.
  change (seq_of 4 s') with (okx_seq s') in E2. change (seq_of 4 s) with (okx_seq s) in E2.
  change (seq_of 102 s') with (uniswap_seq s') in E3. change (seq_of 102 s) with (uniswap_seq s) in E3.
  cbn [VenueId_code] in *. lia.
Qed.

Module Simulator.

(** The generator's state is a 64-bit number that is never zero, so it is never stuck, and different
    states have different successors; a range it is asked for holds its result, whatever the
    state, unless the range is all of [u64]. *)
Theorem prng_never_stuck (seed : Z) (n : nat) (x y : Z) (Hseed : in_range U64 seed)
    (Hx : in_range U64 x) (Hy : in_range U64 y) :
  let state := prng_state (Nat.iter n (fun p => (next_u64 p).2) (prng_new seed)) in
  in_range U64 state /\ state <> 0 /\
  (prng_state (next_u64 (mkPrng x)).2 = prng_state (next_u64 (mkPrng y)).2 -> x = y) /\
  forall s, (x <> 0 \/ y <> max_int U64) -> exists r s', gen_range x y s = Done (r, s') /\ x <= r <= Z.max x y.
Proof.
  intros state. assert (in_range U64 state /\ state <> 0) as [H1 H2].
  { subst state. induction n as [|n [IH1 IH2]]; cbn [Nat.iter].
    - cbn. destruct (Z.eqb_spec seed 0); [split; [mint|done]|done].
    - rewrite Nat.iter_succ. cbn [next_u64 snd prng_state]. split; [by apply xorshift_range|].
      intros E. change 0 with (xorshift 0) in E. apply xorshift_inj in E; [done|done|mint]. }
  split; [done|]. split; [done|]. split; [by apply xorshift_inj|].
  intros s Hfull. destruct (runs_gen_range x y s (fun r _ => x <= r <= Z.max x y)) as (r & s' & E & Hr); [mint|mint|lia|auto|].
  by exists r, s'.
Qed.

Lemma prng_never_stuck_witness :
  prng_state (Nat.iter 100 (fun p => (next_u64 p).2) (prng_new 0)) <> 0 /\
  exists r s', gen_range 500 1500 (simulator_new 42 burst_config_default) = Done (r, s') /\ 500 <= r <= 1500.
Proof.
  destruct (prng_never_stuck 0 100 500 1500 ltac:(mint) ltac:(mint) ltac:(mint)) as (_ & H & _ & Hr).
  split; [exact H|]. exact (Hr _ ltac:(left; lia)).
Defined.

(** A burst fills the front of the buffer, leaves the rest, and never panics; each event is a sane
    quote around, or a trade at, a price of at least one unit, stamped with times that follow each
    other within the configured jitter; and the sequence numbers of each venue's events are the
    next ones, without gaps, in order. *)
Theorem burst_sane (config : FeedBurstConfig) (base : Z) (s : MockExchangeFeedSimulator) (buf : list SimulatedFeedEvent) (B : Z)
    (Htimes : times_fit config base (Nat.min (burst_size config) (length buf)))
    (HB : 100000000 <= B) (HBn : B + 500000 * Z.of_nat (Nat.min (burst_size config) (length buf)) <= 2 ^ 59)
    (Hp : prices_within B s) (Hq : seqs_within (2 ^ 64 - 2 - Z.of_nat (length buf)) s) :
  let count := Nat.min (burst_size config) (length buf) in
  exists es s', generate_burst config buf base s = Done ((es ++ drop count buf, count), s') /\
    burst_post config base count 0 s s' es.
Proof.
  intros count. unfold generate_burst. fold count.
  assert (seqs_within (2 ^ 64 - 2 - Z.of_nat count) s) as Hq' by (subst count; unfold seqs_within in *; lia).
  destruct (runs_burst config base count count 0 B s buf Htimes ltac:(lia) ltac:(subst count; lia) HB HBn Hp Hq')
    as (buf' & s' & E & es & -> & Hpost & _).
  exists es, s'. split; [|exact Hpost]. unfold bind. rewrite E. reflexivity.
Qed.

(** A burst of three with the default configuration. *)
Definition demo_sim : MockExchangeFeedSimulator := simulator_new 1337 burst_config_default.

Lemma burst_sane_witness :
  exists es s', generate_burst burst_config_default (replicate 3 event_default) 1700000000000000000 demo_sim = Done ((es, 3%nat), s') /\
    length es = 3%nat /\ forall k e, es !! k = Some e -> event_sane burst_config_default 1700000000000000000 k e.
Proof.
  destruct (burst_sane burst_config_default 1700000000000000000 demo_sim (replicate 3 event_default) 6500000000000) as (es & s' & E & Hl & Hes & _).
  - unfold times_fit. cbn. lia.
  - lia.
  - cbn. lia.
  - unfold prices_within. cbn. lia.
  - unfold seqs_within. cbn. lia.
  - exists es, s'. rewrite E. cbn [Nat.min burst_size burst_config_default length replicate] in *. split; [by rewrite app_nil_r|].
    split; [exact Hl|exact Hes].
Defined.

(** A jitter range of all of [u64] makes the generation panic. *)
Example full_jitter_panics :
  next_event (mkBurstConfig 0 1 0 0 (max_int U64) 0 0 0) 0 0 demo_sim = Panic.
Proof. vm_compute. reflexivity. Qed.
End Simulator.
