(* ===== verification/FeedHarness.v ===== *)
(** * core-engine/examples/feed_simulator.rs: the stress harness

    A producer thread pushes every generated event first to the queue of a fast consumer, which must
    accept it, then to the queue of a slow one, which may evict; each consumer thread pops its own queue
    until it is told to stop and its queue is empty.  The three threads are interleaved one shared access
    at a time, on the accesses of ConsumerQueue.v.  Whatever the schedule, and whatever the slow consumer does,
    the producer is wait-free and the fast consumer gets every event once and in order, unless a push to it was
    dropped, which stops the producer. Sleeps and yields take a turn and change nothing.

    As elsewhere memory is sequentially consistent.  The source reads the stop flag and the cursors of
    [is_empty] with relaxed loads: on weaker memory a consumer could see the flag before the last pushes. *)

From S2P Require Import Prelude Models Spsc ConsumerQueue Simulator.

(** ** The threads *)

Section Harness.
Context {T : Type} (N : Z).

(** Where a consumer thread is: about to read the flag, the two cursors of [is_empty], or to call
    [try_pop]; inside the call; sleeping or yielding; finished. *)
Inductive consumer_at :=
| CoLoop
| CoTail
| CoHead (tail : Z)
| CoStart
| CoPop (pc : pop_pc (T:=T))
| CoPause
| CoExit.

(** [seen] are the events popped so far: [processed] of the source is their number. *)
Record Worker := mkWorker { w_at : consumer_at; w_seen : list T; w_batch : nat }.
Definition processed (w : Worker) : nat := length (w_seen w).
Definition worker_new : Worker := mkWorker CoLoop [] 0.

Definition go (w : Worker) (at' : consumer_at) : Worker := mkWorker at' (w_seen w) (w_batch w).

(** A popped event: the fast consumer goes on, the slow one pauses after every hundred. *)
Definition consume (slow : bool) (w : Worker) (e : T) : Worker :=
  if slow then
    let batch := S (w_batch w) in
    if (100 <=? batch)%nat then mkWorker CoPause (w_seen w ++ [e]) 0 else mkWorker CoLoop (w_seen w ++ [e]) batch
  else mkWorker CoLoop (w_seen w ++ [e]) (w_batch w).

Definition worker_step (slow running : bool) (q : IsolatedConsumerQueue T) (w : Worker) : IsolatedConsumerQueue T * Worker :=
  match w_at w with
  | CoLoop => (q, go w (if running then CoStart else CoTail))
  | CoTail => (q, go w (CoHead (q_consumer_cursor q)))
  | CoHead tail => (q, go w (if q_producer_cursor q <=? tail then CoExit else CoStart))
  | CoStart => (q, go w (CoPop (begin_pop q)))
  | CoPop (PopDone (Some e)) => (q, consume slow w e)
  | CoPop (PopDone None) => (q, go w CoPause)
  | CoPop pc => let (q, pc) := pop_step N q pc in (q, go w (CoPop pc))
  | CoPause => (q, go w CoLoop)
  | CoExit => (q, w)
  end.

(** Where the producer is: at the head of its loop, in one of the two pushes of an event, finished (the
    flag is cleared), or stopped by the assertion. *)
Inductive producer_at :=
| PrNext
| PrFast (e : T) (pc : push_pc (T:=T))
| PrSlow (e : T) (pc : push_pc (T:=T))
| PrDone
| PrPanicked (e : T).

Record Harness := mkHarness {
  h_rest : list T;
  h_producer : producer_at;
  h_running : bool;
  h_fast : IsolatedConsumerQueue T;
  h_slow : IsolatedConsumerQueue T;
  h_fast_worker : Worker;
  h_slow_worker : Worker;
}.

Definition producer_turn (h : Harness) : Harness :=
  let at_ p fast slow := mkHarness (h_rest h) p (h_running h) fast slow (h_fast_worker h) (h_slow_worker h) in
  match h_producer h with
  | PrNext =>
      match h_rest h with
      | e :: rest => mkHarness rest (PrFast e (begin_push N (h_fast h) e DropNewest)) (h_running h) (h_fast h) (h_slow h)
                       (h_fast_worker h) (h_slow_worker h)
      | [] => mkHarness [] PrDone false (h_fast h) (h_slow h) (h_fast_worker h) (h_slow_worker h)
      end
  | PrFast e (PushDone Enqueued) => at_ (PrSlow e (begin_push N (h_slow h) e DropOldest)) (h_fast h) (h_slow h)
  | PrFast e (PushDone _) => at_ (PrPanicked e) (h_fast h) (h_slow h)
  | PrFast e pc => let (q, pc) := push_step N (h_fast h) pc in at_ (PrFast e pc) q (h_slow h)
  | PrSlow e (PushDone _) => at_ PrNext (h_fast h) (h_slow h)
  | PrSlow e pc => let (q, pc) := push_step N (h_slow h) pc in at_ (PrSlow e pc) (h_fast h) q
  | PrDone | PrPanicked _ => h
  end.

Definition fast_step (h : Harness) : Harness :=
  let (q, w) := worker_step false (h_running h) (h_fast h) (h_fast_worker h) in
  mkHarness (h_rest h) (h_producer h) (h_running h) q (h_slow h) w (h_slow_worker h).
Definition slow_step (h : Harness) : Harness :=
  let (q, w) := worker_step true (h_running h) (h_slow h) (h_slow_worker h) in
  mkHarness (h_rest h) (h_producer h) (h_running h) (h_fast h) q (h_fast_worker h) w.

Inductive thread := TProducer | TFast | TSlow.
Definition harness_step (h : Harness) (t : thread) : Harness :=
  match t with TProducer => producer_turn h | TFast => fast_step h | TSlow => slow_step h end.

(** The harness that is to push [es], on two new queues. *)
Definition harness_new (q : IsolatedConsumerQueue T) (es : list T) : Harness :=
  mkHarness es PrNext true q q worker_new worker_new.
Definition harness_run (h : Harness) (schedule : list thread) : Harness := fold_left harness_step schedule h.

(** The assertions on the fast consumer and on the slow one after both threads are joined. *)
Definition fast_checks (total_generated : nat) (h : Harness) : bool :=
  (total_dropped (q_metrics (h_fast h)) =? 0) && (processed (h_fast_worker h) =? total_generated)%nat.
Definition slow_checks (h : Harness) : bool :=
  (0 <? saturation_events (q_metrics (h_slow h))) && (0 <? total_evicted (q_metrics (h_slow h))).

(** ** Nothing is lost, nothing is duplicated *)

(** The events not yet in the fast queue. *)
Definition unpublished (h : Harness) : list T :=
  match h_producer h with
  | PrFast e (PushDone Enqueued) => h_rest h
  | PrFast e _ | PrPanicked e => e :: h_rest h
  | _ => h_rest h
  end.
(** The event the fast consumer has taken off the queue and not yet counted. *)
Definition in_hand (w : Worker) : list T := match w_at w with CoPop (PopDone (Some e)) => [e] | _ => [] end.

Definition fast_push (h : Harness) : option (push_pc (T:=T)) := match h_producer h with PrFast _ pc => Some pc | _ => None end.
Definition fast_pop (h : Harness) : option (pop_pc (T:=T)) := match w_at (h_fast_worker h) with CoPop pc => Some pc | _ => None end.

Definition carries (e : T) (pc : push_pc (T:=T)) : Prop :=
  match pc with
  | PushReload x _ _ | PushEvict x _ _ | PushWrite x _ _ | PushPublish x _ _ => x = e
  | PushDone _ => True
  end.

(** What the fast consumer's place says of the flag and of its queue [l]. *)
Definition worker_ok (h : Harness) (l : list T) : Prop :=
  match w_at (h_fast_worker h) with
  | CoTail => h_running h = false
  | CoHead t => h_running h = false /\ t = q_consumer_cursor (h_fast h)
  | CoExit => h_running h = false /\ l = []
  | _ => True
  end.

Definition producer_ok (h : Harness) : Prop :=
  match h_producer h with
  | PrDone => h_running h = false /\ h_rest h = []
  | PrFast e pc => h_running h = true /\ carries e pc
  | _ => h_running h = true
  end.

Definition refused (h : Harness) : Prop :=
  match h_producer h with PrFast _ (PushDone DroppedNewest) | PrPanicked _ => True | _ => False end.

Record harness_inv (es : list T) (h : Harness) (l : list T) : Prop := {
  hi_queue : at_once N (h_fast h) l (fast_push h) (fast_pop h);
  hi_conserved : es = w_seen (h_fast_worker h) ++ in_hand (h_fast_worker h) ++ l ++ unpublished h;
  hi_cursor : q_producer_cursor (h_fast h) + Z.of_nat (length (unpublished h)) = Z.of_nat (length es);
  hi_worker : worker_ok h l;
  hi_producer : producer_ok h;
  hi_dropped : refused h \/ total_dropped (q_metrics (h_fast h)) = 0;
}.

Context (HN : pow2_capacity N) (es : list T) (Hes : Z.of_nat (length es) < 2 ^ 62).

Lemma queue_new_at_once d (q : IsolatedConsumerQueue T) : queue_new N d = Done q -> at_once N q [] None None /\ q_producer_cursor q = 0 /\
  total_dropped (q_metrics q) = 0.
Proof.
  unfold queue_new. destruct (negb _); [done|]. intros [= <-]. split; [|done]. pose proof (capacity_bounds N HN).
  split; [|done|done]. split; cbn; try done; try lia. rewrite length_replicate. lia.
Qed.

Lemma harness_new_inv d (q : IsolatedConsumerQueue T) : queue_new N d = Done q -> harness_inv es (harness_new q es) [].
Proof.
  intros Hq. destruct (queue_new_at_once d q Hq) as (Hao & Hc & Hm). split; cbn; try done; [lia|by right].
Qed.

Lemma at_once_cursor (q : IsolatedConsumerQueue T) l push pop : at_once N q l push pop ->
  0 <= q_consumer_cursor q /\ q_producer_cursor q = q_consumer_cursor q + Z.of_nat (length l).
Proof. intros [[_ (? & ? & _) _ _] _ _]. done. Qed.

Lemma inv_bound (h : Harness) l : harness_inv es h l -> q_producer_cursor (h_fast h) < 2 ^ 62.
Proof. intros [_ _ Hc _ _ _]. lia. Qed.

(** A step of a push under way to the fast queue. *)
Lemma fast_push_step (h : Harness) l e pc : harness_inv es h l -> h_producer h = PrFast e pc -> (forall r, pc <> PushDone r) ->
  exists l', harness_inv es (producer_turn h) l'.
Proof.
  intros Hi Hp Hnd. pose proof (inv_bound h l Hi) as Hb. destruct Hi as [Hq Hes' Hc Hw Hpr Hd].
  unfold fast_push in Hq. rewrite Hp in Hq.
  destruct (push_step_at N _ _ _ _ Hb HN Hnd Hq) as (Hq' & Hdrop & Htail & Hre).
  pose proof (at_once_cursor _ _ _ _ Hq) as [Hcz Hcl].
  unfold producer_ok in Hpr. rewrite Hp in Hpr. destruct Hpr as [Hrun Hcar].
  exists (l ++ pushed_by pc).
  assert (producer_turn h = let qp := push_step N (h_fast h) pc in
    mkHarness (h_rest h) (PrFast e qp.2) (h_running h) qp.1 (h_slow h) (h_fast_worker h) (h_slow_worker h)) as ->.
  { unfold producer_turn. rewrite Hp. destruct pc; [..|by exfalso; eapply Hnd]; by destruct (push_step _ _ _). }
  cbn zeta. unfold unpublished, worker_ok in *. rewrite Hp in *. pose proof (ao_push _ _ _ _ _ Hq) as Hpa.
  split; cbn [h_fast h_producer h_rest h_fast_worker h_running fast_push fast_pop].
  - exact Hq'.
  - rewrite Hes'. f_equal. f_equal. rewrite <- app_assoc. f_equal. unfold unpublished. cbn [h_producer h_rest].
    destruct pc as [x pol hd| |x hd res|x hd res|r]; cbn in Hcar, Hpa; [| done | | |by exfalso; eapply Hnd]; subst x.
    + destruct Hpa as [-> _]. cbn [push_step pushed_by]. by destruct (_ <? _).
    + done.
    + destruct Hpa as (_ & _ & -> & _). done.
  - unfold unpublished. cbn [h_producer h_rest].
    destruct pc as [x pol hd| |x hd res|x hd res|r]; cbn in Hcar, Hpa; [| done | | |by exfalso; eapply Hnd]; subst x.
    + destruct Hpa as [-> _]. cbn [push_step]. by destruct (_ <? _).
    + exact Hc.
    + destruct Hpa as (-> & _ & -> & _). cbn [push_step fst snd q_producer_cursor put_head count length] in *.
      rewrite wrap_id by mint. lia.
  - unfold worker_ok. cbn [h_fast_worker h_running h_fast]. rewrite Htail. destruct (w_at (h_fast_worker h)); try done.
    destruct Hw as [Hw _]. congruence.
  - unfold producer_ok. cbn [h_producer h_running]. split; [done|].
    destruct pc as [x pol hd| |x hd res|x hd res|r]; cbn in Hcar, Hpa; [| done | | |by exfalso; eapply Hnd]; subst x; try done.
    cbn [push_step]. destruct (_ <? _); [done|]. by destruct pol.
  - unfold refused. cbn [h_producer h_fast]. destruct Hdrop as [->|Hsame]; [by left|].
    right. rewrite Hsame. destruct Hd as [Hd|Hd]; [|done]. unfold refused in Hd. rewrite Hp in Hd.
    destruct pc; try done. by exfalso; eapply Hnd.
Qed.

Lemma at_once_begin (q : IsolatedConsumerQueue T) l x pop : q_producer_cursor q < 2 ^ 62 -> at_once N q l None pop ->
  at_once N q l (Some (begin_push N q x DropNewest)) pop /\ carries x (begin_push N q x DropNewest) /\
  (forall r, begin_push N q x DropNewest <> PushDone r).
Proof. intros Hb Hq. split; [by apply begin_push_at|]. unfold begin_push. by destruct (_ <? _). Qed.

Lemma producer_turn_inv (h : Harness) l : harness_inv es h l -> exists l', harness_inv es (producer_turn h) l'.
Proof.
  intros Hi. pose proof (inv_bound h l Hi) as Hb. pose proof Hi as [Hq Hes' Hc Hw Hpr Hd].
  destruct h as [rest p running fast slow fw sw]. unfold fast_push, fast_pop, unpublished, worker_ok, producer_ok, refused in *.
  cbn [h_producer h_rest h_running h_fast h_slow h_fast_worker h_slow_worker] in *.
  destruct p as [|e pc|e pc| |e]; cbn [producer_turn] in *.
  - unfold producer_turn. cbn [h_producer h_rest h_running h_fast h_slow h_fast_worker h_slow_worker]. destruct rest as [|e rest].
    + exists l. split; cbn; try done. unfold worker_ok in *. cbn. destruct (w_at fw); intuition.
    + destruct (at_once_begin fast l e _ Hb Hq) as (Hq' & Hcar & Hnd).
      unfold begin_push in *. destruct (_ <? _); exists l; split; cbn; try done; (destruct Hd as [|Hd]; [done|by right]).
  - destruct pc as [x pol hd|x hd nt|x hd res|x hd res|r].
    1-4: by eapply fast_push_step; [exact Hi|reflexivity|].
    exists l. assert (r <> EvictedOldest) as Hr by exact (ao_push _ _ _ _ _ Hq). destruct Hq as [Hq1 _ Hq3].
    destruct r; [| |done]; unfold producer_turn; cbn [h_producer h_rest h_running h_fast h_slow h_fast_worker h_slow_worker].
    + split; cbn; try done; by destruct Hpr.
    + split; cbn; try done; first [by destruct Hpr | by left].
  - exists l. unfold producer_turn. cbn [h_producer h_rest h_running h_fast h_slow h_fast_worker h_slow_worker].
    destruct pc as [x pol hd|x hd nt|x hd res|x hd res|r]; try destruct (push_step N slow _);
      split; cbn; try done; (destruct Hd as [|Hd]; [done|by right]).
  - by exists l.
  - by exists l.
Qed.

Lemma fast_step_inv (h : Harness) l : harness_inv es h l -> exists l', harness_inv es (fast_step h) l'.
Proof.
  intros Hi. pose proof (inv_bound h l Hi) as Hb. pose proof Hi as [Hq Hes' Hc Hw Hpr Hd].
  destruct h as [rest p running fast slow [at' seen batch] sw].
  unfold fast_step, worker_step, fast_pop, worker_ok, in_hand in *.
  cbn [h_producer h_rest h_running h_fast h_slow h_fast_worker h_slow_worker w_at w_seen w_batch] in *.
  assert (forall at2 l2, at_once N fast l2 (fast_push (mkHarness rest p running fast slow (mkWorker at' seen batch) sw))
      match at2 with CoPop pc => Some pc | _ => None end ->
    match at2 with CoPop (PopDone (Some e)) => [e] | _ => [] end ++ l2 =
      match at' with CoPop (PopDone (Some e)) => [e] | _ => [] end ++ l ->
    match at2 with
    | CoTail => running = false
    | CoHead t => running = false /\ t = q_consumer_cursor fast
    | CoExit => running = false /\ l2 = []
    | _ => True end -> exists l', harness_inv es (mkHarness rest p running fast slow (mkWorker at2 seen batch) sw) l') as Hgo.
  { intros at2 l2 H1 H2 H3. exists l2. split; cbn; try done. unfold in_hand. cbn. rewrite Hes'. f_equal.
    rewrite !app_assoc. f_equal. symmetry. exact H2. }
  pose proof (at_once_cursor _ _ _ _ Hq) as [Hcz Hcl].
  destruct at' as [| |t| |pc| |]; cbn [w_at go w_seen w_batch].
  - apply (Hgo _ l); [by destruct running|by destruct running|by destruct running].
  - by apply (Hgo _ l).
  - destruct Hw as [-> ->]. destruct (Z.leb_spec (q_producer_cursor fast) (q_consumer_cursor fast)).
    + apply (Hgo _ l); [done|done|]. split; [done|]. destruct l; [done|]. cbn [length] in *. lia.
    + by apply (Hgo _ l).
  - apply (Hgo _ l); [|by unfold begin_pop; destruct (_ <=? _)|done].
    apply begin_pop_at. exact Hq.
  - destruct pc as [t|t|x t|o].
    4: { destruct o as [e|]; [|by apply (Hgo _ l); [destruct Hq; split| |]].
         exists l. split; cbn; try done; [by destruct Hq; split|]. unfold in_hand. cbn. rewrite Hes', <- app_assoc. done. }
    all: match type of Hq with at_once _ _ _ _ (Some ?pc) => 
      destruct (pop_step_at N _ _ _ pc Hb HN ltac:(done) Hq) as (l' & Hq' & Hl & Hcur & Hdrop & Hdone);
      destruct (pop_step N fast pc) as [q' pc'] eqn:Ep; cbn [fst snd] in * end.
    all: exists l'; split; cbn; try done;
      [|by rewrite Hcur|by destruct Hd as [Hd|Hd]; [left|right; rewrite Hdrop]].
    all: rewrite Hes', Hl; unfold in_hand; cbn [w_at]; f_equal.
    + cbn [pop_step] in Ep. destruct (_ <=? _) in Ep; by injection Ep as <- <-.
    + cbn [pop_step] in Ep. destruct (_ !! _) in Ep; by injection Ep as <- <-.
    + cbn [pop_step] in Ep. by injection Ep as <- <-.
  - by apply (Hgo _ l).
  - by exists l.
Qed.

Lemma slow_step_inv (h : Harness) l : harness_inv es h l -> harness_inv es (slow_step h) l.
Proof. intros []. unfold slow_step. destruct (worker_step _ _ _ _). by split. Qed.

Lemma harness_run_inv schedule : forall (h : Harness) l, harness_inv es h l -> exists l', harness_inv es (harness_run h schedule) l'.
Proof.
  induction schedule as [|t schedule IH]; intros h l Hi; [by exists l|]. cbn [harness_run fold_left].
  assert (exists l', harness_inv es (harness_step h t) l') as (l' & Hi').
  { destruct t; [by eapply producer_turn_inv|by eapply fast_step_inv|eexists; by apply slow_step_inv]. }
  by apply (IH _ l').
Qed.

(** ** The producer is wait-free *)

Definition push_rank (pc : push_pc (T:=T)) : nat :=
  match pc with PushReload _ _ _ => 4 | PushEvict _ _ _ => 3 | PushWrite _ _ _ => 2 | PushPublish _ _ _ => 1 | PushDone _ => 0 end.
(** Turns the producer needs at most, of its own. *)
Definition producer_work (h : Harness) : nat :=
  match h_producer h with
  | PrNext => 11 * length (h_rest h) + 1
  | PrFast _ pc => 11 * length (h_rest h) + 7 + push_rank pc
  | PrSlow _ pc => 11 * length (h_rest h) + 2 + push_rank pc
  | PrDone | PrPanicked _ => 0
  end.

Lemma begin_push_rank q x policy : (push_rank (begin_push N q x policy) <= 4)%nat.
Proof. unfold begin_push. case_match; cbn; lia. Qed.
Lemma push_step_rank q pc : (forall r, pc <> PushDone r) -> (push_rank (push_step N q pc).2 < push_rank pc)%nat.
Proof.
  intros Hnd. destruct pc as [x pol h|x h t|x h res|x h res|r]; cbn [push_step]; [..|by exfalso; eapply Hnd];
    repeat case_match; cbn; lia.
Qed.

Lemma producer_turn_work (h : Harness) : (producer_work (producer_turn h) <= producer_work h - 1)%nat.
Proof.
  destruct h as [rest p running fast slow fw sw]. unfold producer_turn, producer_work. cbn [h_producer h_rest h_fast h_slow].
  destruct p as [|e pc|e pc| |e]; try (cbn; lia).
  - destruct rest as [|e rest]; cbn [h_producer h_rest h_fast h_slow length]; [lia|]. pose proof (begin_push_rank fast e DropNewest). lia.
  - destruct pc as [x pol hd|x hd nt|x hd res|x hd res|r].
    1-4: match goal with |- context [push_step N ?q ?pc] => pose proof (push_step_rank q pc ltac:(done)); destruct (push_step N q pc) end;
      cbn [h_producer h_rest snd] in *; lia.
    destruct r; cbn [h_producer h_rest push_rank]; try lia. pose proof (begin_push_rank slow e DropOldest). lia.
  - destruct pc as [x pol hd|x hd nt|x hd res|x hd res|r]; [..|cbn; lia].
    all: match goal with |- context [push_step N ?q ?pc] => pose proof (push_step_rank q pc ltac:(done)); destruct (push_step N q pc) end;
      cbn [h_producer h_rest snd] in *; lia.
Qed.

Definition is_producer (t : thread) : bool := match t with TProducer => true | _ => false end.
Definition is_fast (t : thread) : bool := match t with TFast => true | _ => false end.
Definition turns (p : thread -> bool) (schedule : list thread) : nat := length (List.filter p schedule).

Lemma other_step_work (h : Harness) t : is_producer t = false -> producer_work (harness_step h t) = producer_work h.
Proof. destruct t; [done| |]; intros _; cbn; unfold fast_step, slow_step; by destruct (worker_step _ _ _ _). Qed.

Lemma producer_finishes schedule : forall (h : Harness), (producer_work h <= turns is_producer schedule)%nat ->
  producer_work (harness_run h schedule) = 0%nat.
Proof.
  induction schedule as [|t schedule IH]; intros h Hw; [cbn in *; lia|]. cbn [harness_run fold_left]. apply IH.
  unfold turns in *. cbn [List.filter] in Hw. destruct (is_producer t) eqn:Et.
  - destruct t; [|done|done]. pose proof (producer_turn_work h). cbn [length harness_step] in *. lia.
  - by rewrite other_step_work.
Qed.

Lemma no_work (h : Harness) : producer_work h = 0%nat -> h_producer h = PrDone \/ exists e, h_producer h = PrPanicked e.
Proof. unfold producer_work. destruct (h_producer h); cbn; try lia; eauto. Qed.

(** ** The fast consumer drains its queue *)

(** Turns the fast consumer needs at most once the producer has finished, with [n] events queued. *)
Definition drain_work (n : nat) (at' : consumer_at) : nat :=
  match at' with
  | CoLoop => 10 * n + 3
  | CoTail => 10 * n + 2
  | CoHead _ => 10 * n + 1
  | CoStart => if (n =? 0)%nat then 8 else 10 * n
  | CoPop (PopReload _) => if (n =? 0)%nat then 7 else 10 * n - 1
  | CoPop (PopRead _) => 10 * n - 2
  | CoPop (PopPublish _ _) => 10 * n - 3
  | CoPop (PopDone (Some _)) => 10 * n + 5
  | CoPop (PopDone None) => 10 * n + 5
  | CoPause => 10 * n + 4
  | CoExit => 0
  end.

Lemma fast_step_drains (h : Harness) l : h_producer h = PrDone -> harness_inv es h l ->
  exists l', harness_inv es (fast_step h) l' /\ h_producer (fast_step h) = PrDone /\
    (drain_work (length l') (w_at (h_fast_worker (fast_step h))) <= drain_work (length l) (w_at (h_fast_worker h)) - 1)%nat.
Proof.
  intros Hp Hi. destruct (fast_step_inv h l Hi) as (l' & Hi'). exists l'. split; [done|].
  pose proof (hi_queue _ _ _ Hi) as Hq. pose proof (at_once_cursor _ _ _ _ Hq) as [Hcz Hcl].
  pose proof (at_once_cursor _ _ _ _ (hi_queue _ _ _ Hi')) as [_ Hcl']. pose proof (hi_producer _ _ _ Hi) as Hpr.
  pose proof (hi_worker _ _ _ Hi) as Hw. pose proof (inv_bound h l Hi) as Hb. unfold producer_ok in Hpr. rewrite Hp in Hpr.
  unfold fast_pop, worker_ok in *. revert Hcl' Hi'. unfold fast_step, worker_step.
  destruct h as [rest p running fast slow [at' seen batch] sw].
  cbn [h_producer h_rest h_running h_fast h_slow h_fast_worker h_slow_worker w_at] in *. destruct Hpr as [-> _].
  destruct at' as [| |t| |pc| |]; cbn [h_producer h_fast h_fast_worker w_at go].
  - intros Hcl' _. replace (length l') with (length l) by lia. cbn. split; [done|lia].
  - intros Hcl' _. replace (length l') with (length l) by lia. cbn. split; [done|lia].
  - intros Hcl' _. replace (length l') with (length l) by lia. destruct Hw as [_ ->].
    destruct (Z.leb_spec (q_producer_cursor fast) (q_consumer_cursor fast)); (split; [done|]); cbn [drain_work]; [lia|].
    rewrite (proj2 (Nat.eqb_neq _ _)) by lia. lia.
  - intros Hcl' _. replace (length l') with (length l) by lia. split; [done|]. unfold begin_pop.
    destruct (Z.leb_spec (q_cached_producer_cursor fast) (q_consumer_cursor fast)) as [|Hlt]; cbn [drain_work].
    + destruct (length l); cbn; lia.
    + destruct (ao_rep _ _ _ _ _ Hq) as [_ _ [_ Hcp] _]. rewrite (proj2 (Nat.eqb_neq _ _)) by lia. lia.
  - pose proof (ao_pop _ _ _ _ _ Hq) as Hpa. cbn in Hpa.
    destruct pc as [t|t|x t|o]; cbn [pop_step h_producer h_fast h_fast_worker w_at go].
    + subst t. destruct (Z.leb_spec (q_producer_cursor fast) (q_consumer_cursor fast)); cbn [h_producer h_fast h_fast_worker w_at go];
        intros Hcl' _; cbn in Hcl'; replace (length l') with (length l) by lia; (split; [done|]); cbn [drain_work].
      * replace (length l) with 0%nat by lia. cbn. lia.
      * rewrite (proj2 (Nat.eqb_neq _ _)) by lia. lia.
    + destruct Hpa as [-> Hne]. destruct l as [|x l]; [done|]. destruct (ao_rep _ _ _ _ _ Hq) as [_ _ _ Hcells].
      pose proof (Hcells 0%nat x eq_refl) as Hx. rewrite Z.add_0_r in Hx. rewrite Hx. cbn [h_producer h_fast h_fast_worker w_at go].
      intros Hcl' _. replace (length l') with (length (x :: l)) by lia. split; [done|]. cbn [drain_work]. lia.
    + destruct Hpa as [-> [l2 ->]]. intros Hcl' _. cbn in Hcl'. cbn [length] in *. rewrite wrap_id in Hcl' by mint.
      replace (length l') with (length l2) by lia. split; [done|]. cbn [drain_work]. lia.
    + destruct o as [e|]; cbn [h_producer h_fast h_fast_worker w_at go consume];
        intros Hcl' _; replace (length l') with (length l) by lia; (split; [done|]); cbn; lia.
  - intros Hcl' _. replace (length l') with (length l) by lia. cbn. split; [done|lia].
  - intros Hcl' _. split; [done|]. cbn. lia.
Qed.
End Harness.

Arguments PrNext {T}.
Arguments PrDone {T}.

Lemma fast_exit {T} (N : Z) (HN : pow2_capacity N) (es : list T) (Hes : Z.of_nat (length es) < 2 ^ 62) schedule :
  forall h l, harness_inv N es h l -> h_producer h = PrDone ->
  (drain_work (length l) (w_at (h_fast_worker h)) <= turns is_fast schedule)%nat ->
  exists l', harness_inv N es (harness_run N h schedule) l' /\ h_producer (harness_run N h schedule) = PrDone /\
    drain_work (length l') (w_at (h_fast_worker (harness_run N h schedule))) = 0%nat.
Proof.
  induction schedule as [|t schedule IH]; intros h l Hi Hp Hw.
  - exists l. split; [done|]. split; [done|]. cbn in *. lia.
  - cbn [harness_run fold_left]. unfold turns in *. cbn [List.filter] in Hw. destruct t; cbn [is_fast length harness_step] in *.
    + assert (producer_turn N h = h) as -> by (unfold producer_turn; by rewrite Hp). by apply (IH h l).
    + destruct (fast_step_drains N HN es Hes h l Hp Hi) as (l' & Hi' & Hp' & Hd). apply (IH _ l' Hi' Hp'). lia.
    + apply (IH _ l); [by apply slow_step_inv| |]; unfold slow_step; by destruct (worker_step _ _ _ _).
Qed.

(** At zero the consumer has finished, or is in a state the queue excludes. *)
Lemma drained {T} (N : Z) (es : list T) h l : harness_inv N es h l -> drain_work (length l) (w_at (h_fast_worker h)) = 0%nat ->
  w_at (h_fast_worker h) = CoExit.
Proof.
  intros Hi H. pose proof (ao_pop _ _ _ _ _ (hi_queue _ _ _ _ Hi)) as Hp. unfold fast_pop in Hp.
  destruct (w_at (h_fast_worker h)) as [| |t| |[t|t|x t|[e|]]| |]; cbn [drain_work] in H; cbn in Hp; try lia; try done.
  - destruct (Nat.eqb_spec (length l) 0); lia.
  - destruct (Nat.eqb_spec (length l) 0); lia.
  - destruct Hp as [_ Hne]. destruct l; [done|]. cbn in H. lia.
  - destruct Hp as [_ [l' ->]]. cbn in H. lia.
Qed.

(** ** The events of the harness *)

Definition QUEUE_CAPACITY : Z := 16384.
Definition harness_config : FeedBurstConfig :=
  mkBurstConfig 500000 2500 5000 250 2500 6542000000000 351000000000 15250000000.
Definition num_bursts : nat := 50.

(** [for b in 0..num_bursts], from burst [b] on: the events in the order they are pushed. *)
Fixpoint generate_all (n b : nat) (burst_buf : list SimulatedFeedEvent) : sim (list SimulatedFeedEvent) :=
  match n with
  | O => ret []
  | S n =>
      let now_ns := 1700000000000000000 +[U64] (wrap U64 (Z.of_nat b) *[U64] 5000000) in
      let* r := generate_burst harness_config burst_buf now_ns in
      let* rest := generate_all n (S b) r.1 in
      ret (take r.2 r.1 ++ rest)
  end.
Definition harness_events : outcome (list SimulatedFeedEvent) :=
  let! r := generate_all num_bursts 0 (replicate 2500 event_default) (simulator_new 42 harness_config) in Done r.1.

Lemma runs_generate_burst base s buf B : length buf = 2500%nat -> 0 <= base < 2 ^ 63 -> 100000000 <= B -> B + 500000 * 2500 <= 2 ^ 59 ->
  prices_within B s -> seqs_within (2 ^ 62) s ->
  runs (generate_burst harness_config buf base) s (fun r s' => length r.1 = 2500%nat /\ r.2 = 2500%nat /\
    prices_within (B + 500000 * 2500) s' /\ (forall Q, seqs_within Q s -> seqs_within (Q + 2500) s') /\
    forall k e, r.1 !! k = Some e -> event_sane harness_config base k e).
Proof.
  intros Hl Hb HB HBn Hp Hq. unfold generate_burst.
  assert (Nat.min (burst_size harness_config) (length buf) = 2500%nat) as -> by (rewrite Hl; reflexivity).
  apply runs_bind. eapply runs_impl; [apply (runs_burst harness_config base 2500 2500 0 B)|].
  - unfold times_fit. cbn [jitter_min_ns jitter_max_ns harness_config]. lia.
  - lia.
  - lia.
  - done.
  - lia.
  - done.
  - unfold seqs_within in *. lia.
  - intros buf' s' (es & -> & Hpost & Hp'). apply runs_ret. cbn [fst snd]. rewrite take_0, app_nil_l, drop_ge, app_nil_r by lia.
    pose proof Hpost as (Hles & Hes & _). split; [done|]. split; [done|]. split; [exact Hp'|].
    split; [|exact Hes]. intros Q HQ. exact (burst_post_seqs _ _ _ _ _ _ _ _ Hpost HQ).
Qed.

Lemma runs_generate_all n : forall b s buf, length buf = 2500%nat -> (b + n <= 50)%nat ->
  prices_within (7000000000000 + 1250000000 * Z.of_nat b) s -> seqs_within (300000000 + 2500 * Z.of_nat b) s ->
  runs (generate_all n b buf) s (fun es _ => length es = (n * 2500)%nat).
Proof.
  induction n as [|n IH]; intros b s buf Hl Hb Hp Hq; cbn [generate_all]; [by apply runs_ret|].
  assert (1700000000000000000 +[U64] (wrap U64 (Z.of_nat b) *[U64] 5000000) = 1700000000000000000 + Z.of_nat b * 5000000) as -> by mint.
  apply runs_bind. eapply runs_impl; [apply (runs_generate_burst _ s buf (7000000000000 + 1250000000 * Z.of_nat b))|]; try done; try lia.
  { unfold seqs_within in *. lia. }
  intros [buf' count] s' (Hl' & -> & Hp' & Hq' & _). cbn [fst snd] in *.
  apply runs_bind. eapply runs_impl; [apply IH|]; [done|lia| | |].
  - unfold prices_within in *. lia.
  - specialize (Hq' _ Hq). unfold seqs_within in *. lia.
  - intros es s2 Hes. apply runs_ret. cbn beta in Hes. rewrite length_app, length_take, Hes. lia.
Qed.

Lemma harness_generates : exists es, harness_events = Done es /\ Z.of_nat (length es) = 125000.
Proof.
  destruct (runs_generate_all num_bursts 0 (simulator_new 42 harness_config) (replicate 2500 event_default)) as (es & s' & E & Hl).
  - apply length_replicate.
  - unfold num_bursts. lia.
  - unfold prices_within. cbn. lia.
  - unfold seqs_within. cbn. lia.
  - exists es. unfold harness_events. rewrite E. split; [done|]. rewrite Hl. unfold num_bursts. lia.
Qed.

Module FeedHarness.

(** C6: whatever the schedule of the three threads and whatever becomes of the slow consumer's queue, the fast
    consumer has received the first of the generated events, in order, each once, and the rest is still
    on its way; the producer finishes within eleven of its own turns for each event, however the
    others are scheduled, unless a push to the fast queue is refused; and from then on the fast consumer exits
    within ten of its own turns for each event left, having received all of them, so that the
    assertions on it hold. *)
Theorem slow_consumer_isolated {T} (N : Z) (d : T) (es : list T) (q : IsolatedConsumerQueue T) (before after : list thread)
    (HN : pow2_capacity N) (Hes : Z.of_nat (length es) < 2 ^ 62) (Hq : queue_new N d = Done q) :
  let h := harness_run N (harness_new q es) before in
  let w := h_fast_worker h in
  (exists l, es = w_seen w ++ in_hand w ++ l ++ unpublished h /\ queue_rep N (h_fast h) l) /\
  ((11 * length es + 1 <= turns is_producer before)%nat ->
     (exists e, h_producer h = PrPanicked e) \/
     (h_producer h = PrDone /\ total_dropped (q_metrics (h_fast h)) = 0 /\
      ((10 * length es + 8 <= turns is_fast after)%nat ->
         let h' := harness_run N h after in
         w_at (h_fast_worker h') = CoExit /\ w_seen (h_fast_worker h') = es /\ fast_checks (length es) h' = true))).
Proof.
  intros h w. destruct (harness_run_inv N HN es Hes before _ _ (harness_new_inv N HN es d q Hq)) as (l & Hi). fold h in Hi.
  split. { exists l. split; [apply (hi_conserved _ _ _ _ Hi)|apply (ao_rep _ _ _ _ _ (hi_queue _ _ _ _ Hi))]. }
  intros Ht. destruct (no_work es h) as [Hp|He]; [by apply producer_finishes| |by left]. right. split; [done|]. split.
  { destruct (hi_dropped _ _ _ _ Hi) as [Hr|]; [|done]. unfold refused in Hr. by rewrite Hp in Hr. }
  intros Ha h'. destruct (fast_exit N HN es Hes after h l Hi Hp) as (l' & Hi' & Hp' & Hd).
  { assert (length l <= length es)%nat as Hl by (rewrite (hi_conserved _ _ _ _ Hi); rewrite !length_app; lia).
    etransitivity; [|exact Ha]. destruct (w_at (h_fast_worker h)) as [| |t| |[t|t|x t|[e|]]| |]; cbn [drain_work];
      repeat case_match; lia. }
  fold h' in Hi', Hp', Hd. pose proof (drained N es h' l' Hi' Hd) as Hx. split; [done|].
  pose proof (hi_worker _ _ _ _ Hi') as Hw. pose proof (hi_producer _ _ _ _ Hi') as Hpr. pose proof (hi_conserved _ _ _ _ Hi') as Hc.
  unfold worker_ok in Hw. unfold producer_ok in Hpr. unfold in_hand, unpublished in Hc. rewrite Hx in Hw, Hc. rewrite Hp' in Hpr, Hc.
  destruct Hw as [_ ->]. destruct Hpr as [_ Hrest]. rewrite Hrest, !app_nil_r in Hc. split; [done|].
  unfold fast_checks, processed. rewrite <- Hc, Nat.eqb_refl. destruct (hi_dropped _ _ _ _ Hi') as [Hr|Hr]; [|by rewrite Hr].
  unfold refused in Hr. by rewrite Hp' in Hr.
Qed.

(** The producer alone, then each consumer: three events through a queue of four. *)
Lemma slow_consumer_isolated_witness :
  let h := harness_run 4 (harness_new (mkQueue 0 0 0 0 [0; 0; 0; 0] metrics_new) [7; 8; 9]) (replicate 34 TProducer) in
  h_producer h = PrDone /\ w_seen (h_fast_worker (harness_run 4 h (replicate 38 TFast))) = [7; 8; 9].
Proof.
  intros h. assert (pow2_capacity 4) as HN by (by exists 2).
  destruct (slow_consumer_isolated 4 0 [7; 8; 9] _ (replicate 34 TProducer) (replicate 38 TFast) HN ltac:(by_eval) eq_refl) as [_ H].
  destruct (H ltac:(vm_compute; lia)) as [[e He]|(Hp & _ & Hd)]; [vm_compute in He; discriminate|].
  split; [exact Hp|]. exact (proj1 (proj2 (Hd ltac:(vm_compute; lia)))).
Defined.

(** The assertion does fail when the fast consumer is not scheduled while its queue fills up. *)
Example fast_assertion_can_fail :
  h_producer (harness_run 1 (harness_new (mkQueue 0 0 0 0 [0] metrics_new) [7; 8]) (replicate 20 TProducer)) = PrPanicked 8.
Proof. vm_compute. reflexivity. Qed.

(** The assertions on the slow consumer depend on the schedule: they fail when it keeps up. *)
Example slow_checks_can_fail :
  let h := harness_run 4 (harness_new (mkQueue 0 0 0 0 [0; 0; 0; 0] metrics_new) [7; 8; 9]) (replicate 34 TProducer) in
  h_producer h = PrDone /\ slow_checks h = false.
Proof. vm_compute. done. Qed.
End FeedHarness.
