(* ===== verification/Records.v ===== *)
(** * The records of the program are well formed

    The records of the venue parsers and the events of the exchange session: whatever bytes they are given, each field
    fits its Rust type, which is what the lemmas on the codecs, the router and the ring ask of a
    record ([Bbo_ok], [Trade_ok]).  These are lemmas for Pipeline.v and Runner.v. *)

From S2P Require Import Prelude Bytes Models Sbe FixedPoint JsonScan Iso8601 FeedParser LiveSession.

Create HintDb ranges discriminated.

(** ** Machine values of the extractors *)

Lemma sat_range t z : min_int t <= max_int t -> in_range t (sat t z).
Proof. unfold in_range, sat. lia. Qed.

Lemma quot10_range z : in_range I64 z -> in_range I64 (Z.quot z 10).
Proof. mint_unfold. intros. assert (Z.abs (Z.quot z 10) <= Z.abs z) by zdm. zdm. Qed.

Lemma iter_inv {A} (P : A -> Prop) (f : A -> A) n x : (forall y, P y -> P (f y)) -> P x -> P (Nat.iter n f x).
Proof. intros Hf Hx. by apply Nat.iter_invariant. Qed.

Lemma parse_step_range st b : in_range I64 st.1 -> in_range I64 (parse_step st b).1.
Proof. destruct st as [r dp]. intros H. unfold parse_step. destruct (b =? 46); [done|]. destruct (_ && _); [apply wrap_range|done]. Qed.

Lemma fixed_point_range v : in_range I64 (parse_fixed_point_8 v).
Proof.
  unfold parse_fixed_point_8. set (neg := negb _ && _).
  assert (forall l st, in_range I64 st.1 -> in_range I64 (fold_left parse_step l st).1) as Hl.
  { intros l. induction l as [|b l IH]; intros st H; [done|]. cbn. by apply IH, parse_step_range. }
  destruct (fold_left _ _ _) as [r dp] eqn:E.
  assert (in_range I64 r) as Hr by (specialize (Hl (drop (if neg then 1%nat else 0%nat) v) (0, -1)); rewrite E in Hl; apply Hl; by_eval).
  destruct neg; [apply wrap_range|]. apply iter_inv; [apply quot10_range|]. apply iter_inv; [intros; apply wrap_range|done].
Qed.

Lemma read_digits_range l n f : in_range U64 n -> in_range U64 (read_digits l n f).1.
Proof.
  revert n f. induction l as [|b l IH]; intros n f Hn; cbn; [done|]. split_if; [|done]. apply IH, wrap_range.
Qed.

Lemma int_field_range src key n : extract_json_int_field src key = Some n -> in_range U64 n.
Proof.
  unfold extract_json_int_field. destruct (find_subsequence src key); [|done].
  destruct (read_digits _ 0 false) as [m f] eqn:E. destruct f; [|done]. intros [= <-].
  change m with (m, true).1. rewrite <- E. apply read_digits_range. by_eval.
Qed.

Lemma default_int_range src key : in_range U64 (default 0 (extract_json_int_field src key)).
Proof. destruct (extract_json_int_field src key) eqn:E; [by eapply int_field_range|by_eval]. Qed.

Lemma ok_or_int_range src key e n : ok_or (extract_json_int_field src key) e = Ok n -> in_range U64 n.
Proof. unfold ok_or. destruct (extract_json_int_field src key) eqn:E; [|done]. intros [= <-]. by eapply int_field_range. Qed.

Lemma iso_range s n : parse_iso8601_utc_ns s = Some n -> in_range U64 n.
Proof.
  unfold parse_iso8601_utc_ns, opt_bind. intros H. repeat case_match; simplify_eq; apply wrap_range.
Qed.

Lemma time_of_range r : in_range U64 (time_of r).
Proof. destruct r as [v|]; cbn; [|mint]. destruct (parse_iso8601_utc_ns v) eqn:E; [by eapply iso_range|by_eval]. Qed.

Lemma spread_of_range a b : in_range U16 (spread_of a b).
Proof. unfold spread_of. case_match; [apply wrap_range|by_eval]. Qed.

Lemma venue_range v : in_range U16 (VenueId_code v).
Proof. by destruct v. Qed.
Lemma chain_range c : in_range U16 (ChainId_code c).
Proof. by destruct c. Qed.

#[export] Hint Resolve wrap_range fixed_point_range default_int_range ok_or_int_range time_of_range spread_of_range
  venue_range chain_range : ranges.
#[export] Hint Extern 1 (in_range _ 0) => by_eval : ranges.
#[export] Hint Extern 1 (in_range _ (Zpos _)) => by_eval : ranges.
#[export] Hint Extern 3 (in_range _ (if _ then _ else _)) => case_match : ranges.

(** Splits a record's well-formedness into its fields. *)
Ltac fields := repeat (
  match goal with
  | |- Bbo_ok _ => apply Build_Bbo_ok
  | |- Trade_ok _ => apply Build_Trade_ok
  | |- Telemetry_ok (mkTelemetry _ _ _ _) => apply Build_Telemetry_ok
  end; cbn [bbo_telemetry bbo_market_id bbo_venue bbo_chain bbo_sequence bid_price bid_qty ask_price
  ask_qty spread_bps bbo_flags tr_telemetry tr_market_id tr_venue tr_chain tr_sequence tr_trade_id tr_price tr_size tr_side
  t0_exchange_ns t1_ingest_nic_ns t2_engine_proc_ns t3_egress_ns]).

(** ** The parsers *)

Section Parsers.
Context (market_id t1 : Z) (Hm : in_range U32 market_id) (Ht : in_range U64 t1).

(** Follows a chain of [let?] to the record at its end. *)
Ltac parsed H :=
  unfold result_bind in H; repeat case_match; simplify_eq; fields; eauto with ranges.

Lemma binance_bbo_ok payload b : parse_binance_bbo market_id payload t1 = Ok b -> Bbo_ok b.
Proof. intros H. unfold parse_binance_bbo in H. parsed H. Qed.

Lemma okx_bbo_ok payload b : parse_okx_bbo market_id payload t1 = Ok b -> Bbo_ok b.
Proof.
  intros H. unfold parse_okx_bbo in H.
  assert (forall v, in_range U64 (wrap U64 (parse_fixed_point_8 v) / 100000000)) as Hd
    by (intros v; pose proof (wrap_range U64 (parse_fixed_point_8 v)); mint_unfold; zdm).
  set (ts := match extract_json_str_field payload (jlit "'ts':") with Ok v => v | Err _ => lit "0" end) in H.
  clearbody ts. cbv zeta in H. specialize (Hd ts). set (ms := wrap U64 (parse_fixed_point_8 ts) / 100000000) in *.
  clearbody ms. parsed H.
Qed.

Lemma coinbase_bbo_ok payload b : parse_coinbase_ticker_bbo market_id payload t1 = Ok b -> Bbo_ok b.
Proof. intros H. unfold parse_coinbase_ticker_bbo in H. parsed H. Qed.

Lemma binance_trade_ok payload b : parse_binance_trade market_id payload t1 = Ok b -> Trade_ok b.
Proof. intros H. unfold parse_binance_trade in H. parsed H. Qed.

Lemma coinbase_trade_ok payload b : parse_coinbase_ticker_trade market_id payload t1 = Ok b -> Trade_ok b.
Proof. intros H. unfold parse_coinbase_ticker_trade in H. parsed H. Qed.
End Parsers.

(** ** The exchange session *)

Definition event_ok (e : Event) : Prop := match e with EvBbo b => Bbo_ok b | EvTrade t => Trade_ok t end.
Definition session_ok (s : Session) : Prop := Forall (fun p => in_range U32 (p_market_id p)) (products s).

Lemma session_ok_same s s' : products s' = products s -> session_ok s -> session_ok s'.
Proof. unfold session_ok. by intros ->. Qed.

Lemma session_ok_put s i p q : session_ok s -> products s !! i = Some p -> p_market_id q = p_market_id p ->
  session_ok (put_product s i q).
Proof.
  intros Hs Hi Hq. unfold session_ok, put_product. cbn. apply Forall_insert; [done|]. rewrite Hq.
  by apply (Forall_lookup_1 _ _ _ _ Hs Hi).
Qed.

(** What an input may carry: the time of receipt is a [u64]. *)
Definition input_ok (i : Input) : Prop := match i with Message _ t1 _ => in_range U64 t1 | _ => True end.

Lemma session_new_ok names stale : session_ok (session_new names stale).
Proof.
  unfold session_ok. apply Forall_lookup_2. intros i p Hi. cbn in Hi. rewrite list_lookup_imap in Hi.
  destruct (names !! i); [|done]. injection Hi as <-. apply wrap_range.
Qed.

Lemma product_index_ok s payload s' r : product_index s payload = (s', r) -> session_ok s -> session_ok s'.
Proof. intros E. apply product_index_cases in E as (Hp & _). by apply session_ok_same. Qed.

Lemma on_ticker_ok s payload t1 out s' out' a : in_range U64 t1 -> session_ok s -> Forall event_ok out ->
  on_ticker s payload t1 out = Done (s', out', a) -> session_ok s' /\ Forall event_ok out'.
Proof.
  intros Ht Hs Ho. unfold on_ticker. destruct (product_index _ payload) as [s1 r] eqn:Ei.
  pose proof (product_index_ok _ _ _ _ Ei Hs) as Hs1. destruct r as [i|]; [|intros [= <- <- <-]; done].
  destruct (products s1 !! i) as [p|] eqn:Hi; [|done].
  destruct (parse_coinbase_ticker_bbo _ _ _) as [bbo|] eqn:Eb; [|intros [= <- <- <-]; done].
  destruct (parse_coinbase_ticker_trade _ _ _) as [trade|] eqn:Et; [|intros [= <- <- <-]; done].
  pose proof (Forall_lookup_1 _ _ _ _ Hs1 Hi) as Hm. cbn beta in Hm.
  apply coinbase_bbo_ok in Eb; [|done..]. apply coinbase_trade_ok in Et; [|done..].
  assert (forall s2 q, products s2 = products s1 -> p_market_id q = p_market_id p -> session_ok (put_product s2 i q)) as Hput.
  { intros s2 q E2 Eq. apply (session_ok_put _ _ p); [by apply (session_ok_same s1)|by rewrite E2|done]. }
  assert (Forall event_ok (out ++ [EvBbo bbo])) as Ho1 by (apply Forall_app; split; [done|by constructor]).
  assert (Forall event_ok ((out ++ [EvBbo bbo]) ++ [EvTrade trade])) as Ho2 by (apply Forall_app; split; [done|by constructor]).
  repeat case_match; simplify_eq; intros [= <- <- <-]; (split; [|done]); try apply (session_ok_same (put_product _ i _) _ eq_refl);
    by apply Hput.
Qed.

Lemma on_heartbeat_ok s payload s' a : session_ok s -> on_heartbeat s payload = Done (s', a) -> session_ok s'.
Proof.
  intros Hs H. destruct (on_heartbeat_effect s payload []) as (s2 & a2 & E & He). rewrite E in H. injection H as -> ->.
  inversion He as [| |? idx p seq]; subst; [by eapply session_ok_same|].
  eapply (session_ok_same (put_product s idx _)); [cbn; eassumption|]. by eapply session_ok_put.
Qed.

Lemma on_message_ok s payload t1 now out s' out' a : in_range U64 t1 -> session_ok s -> Forall event_ok out ->
  on_message s payload t1 now out = Done (s', out', a) -> session_ok s' /\ Forall event_ok out'.
Proof.
  intros Ht Hs Ho. unfold on_message. change (mkSession _ now _ _) with (received s now).
  assert (session_ok (received s now)) as Hr by exact Hs.
  destruct (coinbase_message_type payload) as [ty|]; [|intros [= <- <- <-]; done].
  repeat case_bool_decide; [by apply on_ticker_ok| |intros [= <- <- <-]; done..].
  destruct (on_heartbeat _ payload) as [[s2 a2]|] eqn:E; [|done]. intros [= <- <- <-].
  split; [by eapply on_heartbeat_ok|done].
Qed.

Lemma reset_ok s : session_ok s -> session_ok (reset_baselines s).
Proof. unfold session_ok, reset_baselines. cbn. rewrite Forall_fmap. done. Qed.

Lemma apply_input_ok s out i s' out' a : input_ok i -> session_ok s -> Forall event_ok out ->
  apply_input s out i = Done (s', out', a) -> session_ok s' /\ Forall event_ok out'.
Proof.
  intros Hi Hs Ho. destruct i; cbn; [|by apply on_message_ok|..]; intros [= <- <- <-]; (split; [|done]); [| |done];
    by apply reset_ok.
Qed.

Lemma run_ok ins : forall s out s' out' acts, Forall input_ok ins -> session_ok s -> Forall event_ok out ->
  run s out ins = Done (s', out', acts) -> session_ok s' /\ Forall event_ok out'.
Proof.
  induction ins as [|i ins IH]; intros s out s' out' acts Hi Hs Ho; cbn [run]; [intros [= <- <- <-]; done|].
  apply Forall_cons_1 in Hi as [Hi Hins]. destruct (apply_input s out i) as [[[s1 out1] a1]|] eqn:E; [|done]. cbn [outcome_bind fst snd].
  destruct (apply_input_ok _ _ _ _ _ _ Hi Hs Ho E) as [Hs1 Ho1].
  destruct (run s1 out1 ins) as [[[s2 out2] acts2]|] eqn:Er; [|done]. intros [= <- <- <-]. by eapply IH.
Qed.
