(* ===== verification/Pipeline.v ===== *)
(** * From an exchange's message to a client's record

    The parts joined end to end: a venue parser makes a record of an exchange's message
    (cefi-ingest/src/lib.rs), the router picks the clients and the engine frames the record for each, in binary or as
    JSON (distribution/src/router.rs, websocket.rs, sbe.rs, fast_json.rs).  What a frame carries is stated with the program's
    own readers, one at a time: the frame header decoder gives the payload, and then the SBE decoder gives back
    the record, or the field extractors and the fixed-point parser give back each field of it. *)

From Stdlib Require Import SpecFloat.
From S2P Require Import Prelude Bytes Decimal Text Models Sbe FixedPoint Json Bitmap Topic Session Router WebSocket.
From S2P Require Import JsonScan FeedParser Records.

(** ** What a frame carries *)

(** [frame] is one whole unmasked frame of kind [op], with that payload. *)
Definition framed (op : WsOpcode) (payload frame : bytes) : Prop :=
  exists h, decode_ws_frame_header frame = Ok h /\ fin h = true /\ masked h = false /\ opcode h = op /\
    payload_len h = Z.of_nat (length payload) /\ drop (header_len h) frame = payload.

(** The fields read out of a JSON text: numbers, and prices in quotes. *)
Definition ints_read (text : bytes) (fields : list (bytes * Z)) : Prop :=
  Forall (fun f => extract_json_int_field text f.1 = Some f.2) fields.
Definition prices_read (text : bytes) (fields : list (bytes * Z)) : Prop :=
  Forall (fun f => exists v, extract_json_str_field text f.1 = Ok v /\ parse_fixed_point_8 v = f.2) fields.

Definition stamps_read (text : bytes) (ts : TelemetryTimestamps) : Prop :=
  ints_read text [(jlit "'t0':", t0_exchange_ns ts); (jlit "'t1':", t1_ingest_nic_ns ts);
    (jlit "'t2':", t2_engine_proc_ns ts); (jlit "'t3':", t3_egress_ns ts)].

(** The JSON text carries every field of the quote.  A quantity is printed as a signed number, so it is read as it
    is below 2^63 and as its negative two's complement above. *)
Definition quote_json (text : bytes) (b : NormalizedBbo) : Prop :=
  extract_json_str_field text (jlit "'type':") = Ok (lit "bbo") /\
  ints_read text [(jlit "'market_id':", bbo_market_id b); (jlit "'venue':", bbo_venue b); (jlit "'chain':", bbo_chain b);
    (jlit "'sequence':", bbo_sequence b); (jlit "'spread_bps':", spread_bps b); (jlit "'flags':", bbo_flags b)] /\
  prices_read text [(jlit "'bid_px':", bid_price b); (jlit "'bid_qty':", wrap I64 (bid_qty b));
    (jlit "'ask_px':", ask_price b); (jlit "'ask_qty':", wrap I64 (ask_qty b))] /\
  stamps_read text (bbo_telemetry b).

Definition trade_json (text : bytes) (t : UnifiedTrade) : Prop :=
  extract_json_str_field text (jlit "'type':") = Ok (lit "trade") /\
  ints_read text [(jlit "'market_id':", tr_market_id t); (jlit "'venue':", tr_venue t); (jlit "'chain':", tr_chain t);
    (jlit "'sequence':", tr_sequence t); (jlit "'trade_id':", tr_trade_id t); (jlit "'side':", tr_side t)] /\
  prices_read text [(jlit "'price':", tr_price t); (jlit "'size':", wrap I64 (tr_size t))] /\
  extract_json_bool_field text (jlit "'is_liquidation':") = Some (tr_is_liquidation t) /\
  stamps_read text (tr_telemetry t).

(** The frame a client of the given protocol is sent for a record. *)
Definition record_frame (p : WireProtocol) (in_sbe in_json : bytes -> Prop) (frame : bytes) : Prop :=
  match p with
  | ProtoSbe => exists payload, framed OpBinary payload frame /\ in_sbe payload
  | ProtoJson => exists payload, framed OpText payload frame /\ in_json payload
  end.
Definition quote_frame (p : WireProtocol) (b : NormalizedBbo) : bytes -> Prop :=
  record_frame p (fun payload => decode_bbo_sbe payload = Ok b) (fun text => quote_json text b).
Definition trade_frame (p : WireProtocol) (t : UnifiedTrade) : bytes -> Prop :=
  record_frame p (fun payload => decode_trade_sbe payload = Ok t) (fun text => trade_json text t).

(** ** The JSON texts are objects, whose last field is an object *)

(** The fields of a text whose numbers are the given texts. *)
Definition telemetry_fields (t0 t1 t2 t3 : bytes) : list field :=
  [(lit "t0", FRaw t0); (lit "t1", FRaw t1); (lit "t2", FRaw t2); (lit "t3", FRaw t3)].

Section Texts.
Context (m v c s t0 t1 t2 t3 : bytes).

Definition head_fields : list field :=
  [(lit "market_id", FRaw m); (lit "venue", FRaw v); (lit "chain", FRaw c); (lit "sequence", FRaw s)].
Definition bbo_fields (bp bq ap aq sp fl : bytes) : list field :=
  head_fields ++ [(lit "bid_px", FStr bp); (lit "bid_qty", FStr bq); (lit "ask_px", FStr ap); (lit "ask_qty", FStr aq);
    (lit "spread_bps", FRaw sp); (lit "flags", FRaw fl)].
Definition trade_fields (id p sz sd l : bytes) : list field :=
  head_fields ++ [(lit "trade_id", FRaw id); (lit "price", FStr p); (lit "size", FStr sz); (lit "side", FRaw sd);
    (lit "is_liquidation", FRaw l)].
Definition record_text (ty : bytes) (fs : list field) : bytes :=
  nested_object (lit "type", FStr ty) fs (lit "telemetry") (telemetry_fields t0 t1 t2 t3).
End Texts.

Definition bbo_object (b : NormalizedBbo) : bytes :=
  let t := bbo_telemetry b in
  record_text (u64_text (t0_exchange_ns t)) (u64_text (t1_ingest_nic_ns t)) (u64_text (t2_engine_proc_ns t)) (u64_text (t3_egress_ns t))
    (lit "bbo")
    (bbo_fields (u64_text (bbo_market_id b)) (u64_text (bbo_venue b)) (u64_text (bbo_chain b)) (u64_text (bbo_sequence b))
       (fixed_text (bid_price b)) (fixed_text (wrap I64 (bid_qty b))) (fixed_text (ask_price b)) (fixed_text (wrap I64 (ask_qty b)))
       (u64_text (spread_bps b)) (u64_text (bbo_flags b))).
Definition trade_object (t : UnifiedTrade) : bytes :=
  let ts := tr_telemetry t in
  record_text (u64_text (t0_exchange_ns ts)) (u64_text (t1_ingest_nic_ns ts)) (u64_text (t2_engine_proc_ns ts)) (u64_text (t3_egress_ns ts))
    (lit "trade")
    (trade_fields (u64_text (tr_market_id t)) (u64_text (tr_venue t)) (u64_text (tr_chain t)) (u64_text (tr_sequence t))
       (u64_text (tr_trade_id t)) (fixed_text (tr_price t)) (fixed_text (wrap I64 (tr_size t))) (u64_text (tr_side t))
       (if tr_is_liquidation t then lit "true" else lit "false")).

Ltac flatten_text := repeat (rewrite <- ?app_assoc, <- ?app_comm_cons; cbn [app]).

Lemma bbo_json_object b : bbo_json_text b = bbo_object b.
Proof.
  unfold bbo_json_text, telemetry_json_text, bbo_object, record_text, bbo_fields, head_fields, telemetry_fields, nested_object.
  cbn [flat_object fields_tail fields_open app]. unfold field_text, key_text, value_text. cbn [fst snd].
  flatten_text. reflexivity.
Qed.
Lemma trade_json_object t : trade_json_text t = trade_object t.
Proof.
  unfold trade_json_text, telemetry_json_text, trade_object, record_text, trade_fields, head_fields, telemetry_fields, nested_object.
  cbn [flat_object fields_tail fields_open app]. unfold field_text, key_text, value_text. cbn [fst snd].
  flatten_text. reflexivity.
Qed.

(** ** Reading the texts *)

Lemma read_digits_dec l : forall n f, all_digits l ->
  read_digits l (wrap U64 n) f = (wrap U64 (dec_acc n l), f || (0 <? length l)%nat).
Proof.
  induction l as [|b l IH]; intros n f H; cbn [read_digits]; [by rewrite orb_false_r|].
  apply Forall_cons_1 in H as [Hb Hl]. unfold is_digit in Hb. rewrite Hb.
  rewrite wrap_mul_l, wrap_add_l, IH by done. cbn [length Nat.ltb Nat.leb]. by rewrite orb_true_r.
Qed.

Lemma digits_quote_free l : all_digits l -> no_quote l.
Proof. intros H. eapply List.Forall_impl; [|exact H]. intros b Hb. unfold is_digit in Hb. breflect. lia. Qed.

Lemma int_text_digits l : all_digits l -> l <> [] -> int_text l = Some (wrap U64 (dec l)).
Proof.
  intros Hl Hne. unfold int_text. destruct l as [|b l]; [done|].
  apply Forall_cons_1 in Hl as Hb. destruct Hb as [Hb _]. cbn [skip_while].
  assert (is_blank b || (b =? 34) = false) as -> by (unfold is_digit, is_blank in *; breflect; lia).
  change 0 with (wrap U64 0). by rewrite read_digits_dec.
Qed.

Lemma int_text_u64 n : in_range U64 n -> int_text (u64_text n) = Some n.
Proof.
  intros Hn. assert (0 <= n < 10 ^ Z.of_nat 20) as H by mint. unfold u64_text.
  rewrite int_text_digits; [by rewrite dec_digits, wrap_id|apply all_digits_digits; lia|].
  pose proof (length_digits 19 n). intros E. rewrite E in *. cbn in *. lia.
Qed.

Lemma u64_digits n : in_range U64 n -> all_digits (u64_text n).
Proof. intros Hn. apply all_digits_digits. mint. Qed.
Lemma u64_quote_free n : in_range U64 n -> no_quote (u64_text n).
Proof. intros Hn. by apply digits_quote_free, u64_digits. Qed.

Lemma fixed_quote_free v : no_quote (fixed_text v).
Proof.
  unfold fixed_text, no_quote. rewrite !Forall_app. split; [unfold sign_text; destruct (v <? 0); by_eval|].
  split; [|split; [by_eval|apply digits_quote_free, all_digits_pad]]. apply digits_quote_free, all_digits_digits. zdm.
Qed.

(** One field of a record's text, by the program's extractors. *)
Section ReadRecord.
Context (t0 t1 t2 t3 ty : bytes) (fs : list field).
Let all : list field := ((lit "type", FStr ty) :: fs) ++ telemetry_fields t0 t1 t2 t3.
Context (Hf : Forall field_ok all).
Local Abbreviation text := (record_text t0 t1 t2 t3 ty fs).

Lemma record_reads k key : key = key_text k -> plain_name k -> lit "telemetry" <> k ->
  extract_json_str_field text key = str_field k all /\
  extract_json_int_field text key = int_field k all /\
  extract_json_bool_field text key = bool_field k all.
Proof. intros -> Hk Hne. unfold record_text. apply extract_nested; [done|done|by_eval|done]. Qed.

Lemma record_int k key v n : key = key_text k -> plain_name k -> lit "telemetry" <> k ->
  lookup_field k all = Some (FRaw v) -> int_text v = Some n -> extract_json_int_field text key = Some n.
Proof.
  intros H1 H2 H3 E <-. destruct (record_reads k key H1 H2 H3) as (_ & -> & _). unfold int_field. by rewrite E.
Qed.
Lemma record_str k key v : key = key_text k -> plain_name k -> lit "telemetry" <> k ->
  lookup_field k all = Some (FStr v) -> extract_json_str_field text key = Ok v.
Proof.
  intros H1 H2 H3 E. destruct (record_reads k key H1 H2 H3) as (-> & _ & _). unfold str_field. by rewrite E.
Qed.
Lemma record_fixed k key n : key = key_text k -> plain_name k -> lit "telemetry" <> k -> in_range I64 n ->
  lookup_field k all = Some (FStr (fixed_text n)) ->
  exists v, extract_json_str_field text key = Ok v /\ parse_fixed_point_8 v = n.
Proof.
  intros H1 H2 H3 Hn E. exists (fixed_text n). rewrite (record_str k key (fixed_text n)) by done. by rewrite fixed_parse.
Qed.
Lemma record_bool k key (b : bool) : key = key_text k -> plain_name k -> lit "telemetry" <> k ->
  lookup_field k all = Some (FRaw (if b then lit "true" else lit "false")) -> extract_json_bool_field text key = Some b.
Proof.
  intros H1 H2 H3 E. destruct (record_reads k key H1 H2 H3) as (_ & _ & ->). unfold bool_field. rewrite E. by destruct b.
Qed.
End ReadRecord.

Lemma bool_quote_free (b : bool) : no_quote (if b then lit "true" else lit "false").
Proof. destruct b; by_eval. Qed.

Create HintDb json_fields.
#[export] Hint Resolve int_text_u64 u64_quote_free fixed_quote_free bool_quote_free wrap_range : json_fields.

(** A number of any unsigned width fits the 64 bits the extractor reads. *)
Lemma widen t z : in_range t z -> min_int t = 0 -> max_int t <= max_int U64 -> in_range U64 z.
Proof. mint. Qed.
#[export] Hint Extern 5 (in_range U64 _) => eapply widen; [eauto with mint|reflexivity|done] : json_fields.

(** Reads the field [k] of a record whose fields satisfy [Hf]. *)
Ltac read_int Hf k :=
  apply List.Forall_cons; [cbn [fst snd]; eapply (record_int _ _ _ _ _ _ Hf (lit k));
    first [exact eq_refl | apply int_text_u64; eauto 6 with json_fields mint | by_eval]|].
Ltac read_price Hf k :=
  apply List.Forall_cons; [cbn [fst snd]; apply (record_fixed _ _ _ _ _ _ Hf (lit k));
    first [exact eq_refl | solve [eauto 6 with json_fields mint] | by_eval]|].
Ltac read_stamps Hf :=
  read_int Hf "t0"%string; read_int Hf "t1"%string; read_int Hf "t2"%string; read_int Hf "t3"%string; apply List.Forall_nil.
Ltac record_fields :=
  cbn [app bbo_fields trade_fields head_fields telemetry_fields];
  repeat (apply List.Forall_cons; [split; [by_eval|cbn [fst snd]; first [solve [eauto 6 with json_fields mint] | by_eval]]|]);
  apply List.Forall_nil.

(** The fields of the texts are fields; the type comes first. *)
Ltac open_record Hf :=
  match goal with |- context [record_text ?a ?b ?c ?d ?ty ?fs] =>
    assert (Forall field_ok (((lit "type", FStr ty) :: fs) ++ telemetry_fields a b c d)) as Hf by record_fields end;
  split; [exact (record_str _ _ _ _ _ _ Hf (lit "type") (jlit "'type':") _ eq_refl ltac:(by_eval) ltac:(done) eq_refl)|].

Lemma read_bbo_text b : Bbo_ok b -> quote_json (bbo_json_text b) b.
Proof.
  intros Hb. rewrite bbo_json_object. unfold bbo_object, quote_json. open_record Hf. split; [|split].
  - read_int Hf "market_id"%string. read_int Hf "venue"%string. read_int Hf "chain"%string. read_int Hf "sequence"%string.
    read_int Hf "spread_bps"%string. read_int Hf "flags"%string. apply List.Forall_nil.
  - read_price Hf "bid_px"%string. read_price Hf "bid_qty"%string. read_price Hf "ask_px"%string. read_price Hf "ask_qty"%string.
    apply List.Forall_nil.
  - read_stamps Hf.
Qed.

Lemma read_trade_text t : Trade_ok t -> trade_json (trade_json_text t) t.
Proof.
  intros Ht. rewrite trade_json_object. unfold trade_object, trade_json. open_record Hf. split; [|split; [|split]].
  - read_int Hf "market_id"%string. read_int Hf "venue"%string. read_int Hf "chain"%string. read_int Hf "sequence"%string.
    read_int Hf "trade_id"%string. read_int Hf "side"%string. apply List.Forall_nil.
  - read_price Hf "price"%string. read_price Hf "size"%string. apply List.Forall_nil.
  - exact (record_bool _ _ _ _ _ _ Hf (lit "is_liquidation") _ (tr_is_liquidation t) eq_refl ltac:(by_eval) ltac:(done) eq_refl).
  - read_stamps Hf.
Qed.

(** ** The frames carry them *)

Lemma framed_server op payload : Z.of_nat (length payload) < 2 ^ 63 -> framed op payload (server_frame op payload).
Proof.
  intros Hp. unfold framed, server_frame. rewrite decode_header_spec by first [by left | lia | done]. eexists. split; [reflexivity|].
  cbn [Z.eqb fin masked opcode header_len payload_len]. repeat (split; [done|]). apply drop_app_length.
Qed.

Lemma quote_framed p b : Bbo_ok b ->
  quote_frame p b (broadcast_frame p (payload (bbo_wire b) (bbo_json_text b) p)).
Proof.
  intros Hb. pose proof (length_bbo_text b Hb). unfold broadcast_frame. destruct p; eexists; (split; [apply framed_server|]); cbn [payload].
  - rewrite length_bbo_wire. by_eval.
  - rewrite <- (app_nil_r (bbo_wire b)). by apply decode_bbo_wire.
  - lia.
  - by apply read_bbo_text.
Qed.
Lemma trade_framed p t : Trade_ok t ->
  trade_frame p t (broadcast_frame p (payload (trade_wire t) (trade_json_text t) p)).
Proof.
  intros Ht. pose proof (length_trade_text t Ht). unfold broadcast_frame. destruct p; eexists; (split; [apply framed_server|]); cbn [payload].
  - rewrite length_trade_wire. by_eval.
  - rewrite <- (app_nil_r (trade_wire t)). by apply decode_trade_wire.
  - lia.
  - by apply read_trade_text.
Qed.

(** ** Who is sent a frame *)

(** The client is in range, has bit set for the topic, and is registered, active, within its filter and
    granted a token. *)
Definition receives (passes : ClientFilterPredicate -> bool) (now : Z) (e : WebSocketServerEngine) (member : bool) (id : Z) : Prop :=
  0 <= id < MAX_CLIENT_CAPACITY /\ member = true /\
  exists s, clients e !! id = Some s /\ is_active s = true /\ passes (filter s) = true /\ (try_consume_token s 1 now).2 = true.

Lemma classify_delivered passes now cs id p :
  classify passes now cs id = Delivered p <->
  exists s, cs !! id = Some s /\ is_active s = true /\ passes (filter s) = true /\ (try_consume_token s 1 now).2 = true /\ p = protocol s.
Proof.
  unfold classify. split.
  - destruct (cs !! id) as [s|]; [|done]. destruct (is_active s) eqn:E1; [|done]. destruct (passes (filter s)) eqn:E2; [|done].
    destruct (try_consume_token s 1 now).2 eqn:E3; [|done]. cbn. intros [= <-]. by exists s.
  - intros (s & -> & -> & -> & -> & ->). done.
Qed.

Section Deliveries.
Context (passes : ClientFilterPredicate -> bool) (sbe json : bytes) (now : Z) (cs : gmap Z ClientSession).

Lemma deliveries_cons id ids : deliveries passes sbe json now cs (id :: ids) =
  match classify passes now cs id with Delivered p => [(id, p, payload sbe json p)] | _ => [] end ++
  deliveries passes sbe json now cs ids.
Proof. unfold deliveries. cbn. by destruct (classify _ _ _ id). Qed.

Lemma deliveries_ids ids :
  (forall id, id ∈ map (fun d => d.1.1) (deliveries passes sbe json now cs ids) <->
     id ∈ ids /\ exists p, classify passes now cs id = Delivered p) /\
  (NoDup ids -> NoDup (map (fun d => d.1.1) (deliveries passes sbe json now cs ids))).
Proof.
  induction ids as [|i ids [IH1 IH2]]; [split; [set_solver|intros; constructor]|]. rewrite deliveries_cons, map_app.
  assert (forall id, id ∈ map (fun d : Z * WireProtocol * bytes => d.1.1)
    match classify passes now cs i with Delivered p => [(i, p, payload sbe json p)] | _ => [] end <->
    id = i /\ exists p, classify passes now cs i = Delivered p) as Hi.
  { intros id. destruct (classify passes now cs i); cbn; rewrite ?list_elem_of_singleton, ?elem_of_nil; naive_solver. }
  split.
  - intros id. rewrite elem_of_app, Hi, IH1, elem_of_cons. naive_solver.
  - intros [Hni Hnd]%list.NoDup_cons. apply list.NoDup_app. split; [destruct (classify _ _ _ i); repeat constructor; set_solver|].
    split; [|auto]. intros id [-> _]%Hi. rewrite IH1. tauto.
Qed.

(** Each frame is the one of the protocol the client chose. *)
Lemma deliveries_frames (ok : WireProtocol -> bytes -> Prop) ids :
  (forall p, ok p (broadcast_frame p (payload sbe json p))) ->
  Forall (fun f => exists s, cs !! f.1 = Some s /\ ok (protocol s) f.2)
    (map (fun d => (d.1.1, broadcast_frame d.1.2 d.2)) (deliveries passes sbe json now cs ids)).
Proof.
  intros Hok. induction ids as [|id ids IH]; [constructor|]. rewrite deliveries_cons, map_app. apply Forall_app. split; [|exact IH].
  destruct (classify _ _ _ id) eqn:E; repeat constructor.
  apply classify_delivered in E as (s & Hs & _ & _ & _ & ->). exists s. cbn [fst snd]. auto.
Qed.
End Deliveries.

Lemma sent_map {A} (f : WireProtocol -> bytes -> A) (ds : list (Z * WireProtocol * bytes)) :
  (map (fun d => (d.1.1, f d.1.2 d.2)) ds).*1 = map (fun d => d.1.1) ds.
Proof. by induction ds as [|d ds IH]; cbn; [|rewrite IH]. Qed.

(** The frames of a broadcast: each is right for its client's protocol, and they go once each to the clients that are to
    receive it. *)
Definition broadcast_reaches (e : WebSocketServerEngine) (frames : list (Z * bytes)) (ok : WireProtocol -> bytes -> Prop)
    (to : Z -> Prop) : Prop :=
  Forall (fun f => exists s, clients e !! f.1 = Some s /\ ok (protocol s) f.2) frames /\
  NoDup frames.*1 /\ forall id, id ∈ frames.*1 <-> to id.

Lemma deliveries_reach passes sbe json now e b ok :
  bitmap_ok b ->
  (forall p, ok p (broadcast_frame p (payload sbe json p))) ->
  broadcast_reaches e (map (fun d => (d.1.1, broadcast_frame d.1.2 d.2)) (deliveries passes sbe json now (clients e) (client_ids b))) ok
    (fun id => receives passes now e (bitmap_contains b id) id).
Proof.
  intros Hb Hok. destruct (deliveries_ids passes sbe json now (clients e) (client_ids b)) as [Hids Hnd].
  pose proof (client_ids_NoDup b) as Hb'. pose proof (fun id => bitmap_contains_spec b id Hb) as Hc.
  revert Hids Hnd Hb' Hc. generalize (client_ids b). intros ids Hids Hnd Hb' Hc.
  split; [by apply deliveries_frames|]. rewrite sent_map. split; [by apply Hnd|].
  intros id. rewrite Hids, list_elem_of_In, Hc. unfold receives. split.
  - intros [[Hid Hm] (p & (s & H1 & H2 & H3 & H4 & _)%classify_delivered)]. split; [done|]. split; [done|]. by exists s.
  - intros (Hid & Hm & s & H1 & H2 & H3 & H4). split; [done|]. exists (protocol s). apply classify_delivered. by exists s.
Qed.

(** A broadcast of a quote, from any engine with well-formed bitmaps. *)
Definition quote_topics (e : WebSocketServerEngine) (bbo : NormalizedBbo) (id : Z) : bool :=
  let key f := TopicKey_new (wrap U8 (bbo_venue bbo)) (bbo_market_id bbo) STREAM_TYPE_BBO f in
  subscribed e (key (bbo_flags bbo)) id || subscribed e (key 0) id.

Lemma broadcast_quote e bbo now : router_wf e -> Bbo_ok bbo ->
  broadcast_reaches e (broadcast_bbo e bbo now).2 (fun p => quote_frame p bbo)
    (fun id => receives (bbo_passes bbo) now e (quote_topics e bbo id) id).
Proof.
  intros Hr Hb.
  rewrite WebSocket.broadcast_bbo_frames by done. cbn [snd].
  pose proof (dispatch_bbo_correct e bbo now Hr Hb) as H. destruct (dispatch_bbo e bbo now) as [[e' m] ds].
  destruct H as (-> & _). cbn [snd].
  destruct (deliveries_reach (bbo_passes bbo) (bbo_wire bbo) (bbo_json_text bbo) now e (bbo_candidates e bbo) (fun p => quote_frame p bbo))
    as (H1 & H2 & H3); [by apply bbo_candidates_ok|intros p; by apply quote_framed|].
  split; [done|]. split; [done|]. intros id. rewrite H3. unfold receives, quote_topics.
  split; intros (Hid & Hc & Hs); (split; [done|]); (split; [|done]); [by rewrite <- (bbo_candidates_contains e bbo id)|].
  by rewrite (bbo_candidates_contains e bbo id).
Qed.

(** ** Subscribing *)

(** What a client sends to subscribe to the quotes of a market. *)
Definition subscribe_request (venue market_id : Z) : bytes :=
  flat_object [(lit "action", FStr (lit "subscribe")); (lit "venue", FRaw (u64_text venue));
    (lit "market_id", FRaw (u64_text market_id)); (lit "stream_type", FRaw (lit "1"))].

Lemma str_find_after pat l :
  (fun p => drop (p + length pat) l) <$> str_find pat l = after_key pat l.
Proof.
  induction l as [|b l IH]; cbn [str_find after_key]; destruct (is_prefix pat _); try done.
  rewrite <- IH. by destruct (str_find pat l).
Qed.

Lemma utf8_ascii l : Forall (fun b => b < 128) l -> utf8_valid l = true.
Proof. induction 1 as [|b l Hb _ IH]; [done|]. cbn [utf8_valid]. by rewrite (proj2 (Z.ltb_lt _ _)). Qed.

Lemma leading_digits_app l t : all_digits l -> (forall b t', t = b :: t' -> is_digit b = false) -> leading_digits (l ++ t) = l.
Proof.
  intros Hl Ht. induction Hl as [|b l Hb _ IH]; cbn [app leading_digits]; [|by rewrite Hb, IH].
  destruct t as [|b t]; [done|]. cbn [leading_digits]. by rewrite (Ht b t).
Qed.

Lemma trim_start_digit b l : is_digit b = true -> trim_start (b :: l) = b :: l.
Proof.
  unfold is_digit. intros Hb. breflect. cbn [trim_start].
  assert (((9 <=? b) && (b <=? 13)) || (b =? 32) = false) as -> by (breflect; lia).
  destruct l as [|b1 l]; [done|]. rewrite (proj2 (Z.eqb_neq b 194)) by lia. cbn [andb].
  destruct l as [|b2 l]; [done|]. rewrite (proj2 (Z.eqb_neq b 225)), (proj2 (Z.eqb_neq b 226)), (proj2 (Z.eqb_neq b 227)) by lia. done.
Qed.

(** The number of a field of a flat object. *)
Lemma extract_u64_flat k fs n : plain_name k -> Forall field_ok fs -> in_range U64 n ->
  lookup_field k fs = Some (FRaw (u64_text n)) -> extract_json_u64 (flat_object fs) k = Some n.
Proof.
  intros Hk Hf Hn E. unfold extract_json_u64. change ([34] ++ k ++ [34; 58]) with (key_text k).
  pose proof (str_find_after (key_text k) (flat_object fs)) as Ha. rewrite (after_key_flat k fs Hk Hf), E in Ha.
  destruct (str_find _ _) as [pos|]; [|done]. cbn [opt_bind].
  assert (drop (pos + length (key_text k)) (flat_object fs) = value_text (FRaw (u64_text n)) ++ fields_tail (rest_after k fs)) as ->
    by (by injection Ha).
  cbn [value_text].
  assert (0 <= n) as H0 by mint. unfold u64_text. pose proof (all_digits_digits 19 n H0) as Hd. pose proof (length_digits 19 n) as Hl.
  destruct (fields_tail_end (rest_after k fs)) as (b & t & -> & Hb).
  assert (trim_start (digits 19 n ++ b :: t) = digits 19 n ++ b :: t) as ->.
  { destruct (digits 19 n) as [|c l]; [cbn in Hl; lia|]. apply trim_start_digit. by apply Forall_inv in Hd. }
  rewrite leading_digits_app by (done || (intros ? ? [= <- <-]; by destruct Hb as [-> | ->])).
  rewrite (proj2 (Nat.ltb_lt _ _)) by lia. unfold parse_u64. rewrite dec_digits by mint.
  by rewrite (proj2 (Z.leb_le _ _)) by mint.
Qed.

(** No match of [pat] begins in [a], whatever follows it. *)
Fixpoint compatible (p a : bytes) : bool :=
  match p, a with x :: p, y :: a => (x =? y) && compatible p a | _, _ => true end.
Fixpoint clean (pat a : bytes) : bool :=
  match a with [] => true | _ :: r => negb (compatible pat a) && clean pat r end.

Lemma compatible_prefix pat a t : is_prefix pat (a ++ t) = true -> compatible pat a = true.
Proof.
  revert a. induction pat as [|p pat IH]; intros [|y a]; cbn [app is_prefix compatible]; try done.
  intros [E H]%andb_true_iff. by rewrite E, (IH a H).
Qed.

Lemma after_key_clean pat a t : clean pat a = true -> after_key pat (a ++ t) = after_key pat t.
Proof.
  induction a as [|y a IH]; [done|]. cbn [clean]. intros [Hc Ha]%andb_true_iff. cbn [app]. rewrite after_key_cons.
  destruct (is_prefix pat (y :: a ++ t)) eqn:E; [|by apply IH].
  change (y :: a ++ t) with ((y :: a) ++ t) in E. apply compatible_prefix in E. by rewrite E in Hc.
Qed.

Lemma contains_after l pat : contains l pat = match after_key pat l with Some _ => true | None => false end.
Proof. rewrite <- str_find_after. unfold contains. by destruct (str_find pat l). Qed.

Section Request.
Context (x y : bytes) (Hx : no_quote x) (Hy : no_quote y).

Definition request_text : bytes :=
  jlit "{'action':'subscribe','venue':" ++ x ++ jlit ",'market_id':" ++ y ++ jlit ",'stream_type':1}".

(** A pattern that begins with a quote and is in none of the three pieces. *)
Lemma request_without needle :
  clean (34 :: needle) (jlit "{'action':'subscribe','venue':") = true -> clean (34 :: needle) (jlit ",'market_id':") = true ->
  clean (34 :: needle) (jlit ",'stream_type':1}") = true -> after_key (34 :: needle) request_text = None.
Proof.
  intros H1 H2 H3. unfold request_text.
  rewrite after_key_clean, after_key_skip, after_key_clean, after_key_skip by done.
  rewrite <- (app_nil_r (jlit ",'stream_type':1}")). by rewrite after_key_clean.
Qed.

Definition request_action (a : bytes) : bool :=
  contains request_text (jlit "'action':'" ++ a ++ [34]) || contains request_text (jlit "'action': '" ++ a ++ [34]).
Lemma request_actions :
  request_action (lit "ping") = false /\ request_action (lit "pong") = false /\ request_action (lit "subscribe") = true.
Proof.
  unfold request_action. rewrite !contains_after.
  change (jlit "'action':'" ++ ?a ++ [34]) with (34 :: drop 1 (jlit "'action':'" ++ a ++ [34])).
  change (jlit "'action': '" ++ ?a ++ [34]) with (34 :: drop 1 (jlit "'action': '" ++ a ++ [34])).
  rewrite !(request_without (drop 1 (jlit "'action':'" ++ lit "ping" ++ [34]))), !(request_without (drop 1 (jlit "'action': '" ++ lit "ping" ++ [34]))),
    !(request_without (drop 1 (jlit "'action':'" ++ lit "pong" ++ [34]))), !(request_without (drop 1 (jlit "'action': '" ++ lit "pong" ++ [34])))
    by reflexivity.
  done.
Qed.

Lemma request_utf8 : all_digits x -> all_digits y -> utf8_valid request_text = true.
Proof.
  intros Dx Dy. apply utf8_ascii. unfold request_text.
  assert (forall l, all_digits l -> Forall (fun b => b < 128) l) as Hd.
  { intros l H. eapply List.Forall_impl; [|exact H]. intros b Hb. unfold is_digit in Hb. breflect. lia. }
  rewrite !Forall_app. repeat split; first [by apply Hd | apply (bool_decide_unpack _); vm_compute; exact I].
Qed.
End Request.

Lemma subscribe_request_text venue market_id :
  subscribe_request venue market_id = request_text (u64_text venue) (u64_text market_id).
Proof.
  unfold subscribe_request, request_text. cbn [flat_object fields_tail]. unfold field_text, key_text, value_text. cbn [fst snd].
  flatten_text. reflexivity.
Qed.

Lemma parse_request venue market_id : in_range U8 venue -> in_range U32 market_id ->
  parse_client_command (subscribe_request venue market_id) =
    Some (CmdSubscribe (TopicKey_new venue market_id STREAM_TYPE_BBO 0)).
Proof.
  intros Hv Hm.
  pose proof (widen U8 venue Hv eq_refl ltac:(done)) as Hv'. pose proof (widen U32 market_id Hm eq_refl ltac:(done)) as Hm'.
  set (fs := [(lit "action", FStr (lit "subscribe")); (lit "venue", FRaw (u64_text venue));
    (lit "market_id", FRaw (u64_text market_id)); (lit "stream_type", FRaw (lit "1"))]).
  assert (Forall field_ok fs) as Hf by (unfold fs; record_fields).
  pose proof (subscribe_request_text venue market_id) as E.
  pose proof (request_actions (u64_text venue) (u64_text market_id) ltac:(auto with json_fields) ltac:(auto with json_fields)) as Ha.
  assert (extract_json_u64 (flat_object fs) (lit "flags") = None) as Hflags.
  { unfold extract_json_u64.
    pose proof (str_find_after (key_text (lit "flags")) (flat_object fs)) as H1.
    rewrite (after_key_flat (lit "flags") fs ltac:(by_eval) Hf) in H1. change ([34] ++ lit "flags" ++ [34; 58]) with (key_text (lit "flags")).
    change (lookup_field (lit "flags") fs) with (@None fvalue) in H1. destruct (str_find _ _); [done|].
    pose proof (str_find_after ([34] ++ lit "flags" ++ [34; 32; 58]) (flat_object fs)) as H2.
    change (flat_object fs) with (subscribe_request venue market_id) in H2 |- *. rewrite E in H2 |- *.
    change ([34] ++ lit "flags" ++ [34; 32; 58]) with (34 :: lit "flags" ++ [34; 32; 58]) in H2 |- *.
    rewrite request_without in H2 by first [reflexivity | auto with json_fields]. by destruct (str_find _ _). }
  destruct Ha as (A1 & A2 & A3). unfold request_action in A1, A2, A3. unfold parse_client_command. rewrite E.
  rewrite request_utf8, A1, A2, A3 by auto using u64_digits. cbn [negb]. rewrite <- E.
  change (subscribe_request venue market_id) with (flat_object fs). rewrite Hflags.
  rewrite (extract_u64_flat (lit "venue") fs venue), (extract_u64_flat (lit "market_id") fs market_id),
    (extract_u64_flat (lit "stream_type") fs 1) by first [exact eq_refl | assumption | by_eval].
  cbn [opt_bind default]. by rewrite !wrap_id by (done || mint).
Qed.

(** *** A fresh client's bucket grants the first token *)

(** The tokens, as the 32-bit number the program computes, that the first refill of a bucket made at [t0] adds.  (A bucket
    keeps the low forty bits of a time.) *)
Definition first_refill (rate t0 now : Z) : Z := wrap U32 ((now - t0 mod 2 ^ 40) *[U64] rate / 1000).

Lemma bucket_state_new rate cap t0 : in_range U64 t0 -> 0 <= cap < 2 ^ 24 ->
  Z.shiftr (tb_state (bucket_new rate cap t0)) 24 = t0 mod 2 ^ 40 /\
  Z.land (tb_state (bucket_new rate cap t0)) 16777215 = cap.
Proof.
  intros Ht Hc. assert (tb_state (bucket_new rate cap t0) = tb_state (bucket_new rate cap (t0 mod 2 ^ 40))) as ->.
  { unfold bucket_new. cbn [tb_state]. f_equal. rewrite !Z.shiftl_mul_pow2 by lia.
    rewrite !wrap_unsigned by done. change (modulus U64) with (2 ^ 40 * 2 ^ 24).
    rewrite !Z.mul_mod_distr_r by lia. by rewrite Z.mod_mod. }
  destruct (tb_pack (t0 mod 2 ^ 40) cap) as (_ & Hl & Ha); [apply Z.mod_pos_bound; lia|].
  unfold tb_last, tb_avail in Hl, Ha. unfold bucket_new. cbn [tb_state]. rewrite Hl, Ha.
  split; [done|]. apply Z.mod_small. lia.
Qed.

Lemma fresh_bucket_grants rate cap t0 now : 1 <= cap < 2 ^ 24 -> in_range U64 t0 -> in_range U64 now ->
  cap +[U32] first_refill rate t0 now <> 0 -> (try_consume (bucket_new rate cap t0) 1 now).2 = true.
Proof.
  intros Hc Ht Hn Hb. unfold try_consume, bucket_attempt.
  destruct (bucket_state_new rate cap t0 Ht ltac:(lia)) as [-> ->]. cbn [refill_rate_per_sec burst_capacity bucket_new].
  pose proof (Z.mod_pos_bound t0 (2 ^ 40) ltac:(lia)). destruct (Z.ltb_spec (t0 mod 2 ^ 40) now).
  - rewrite (wrap_id U64 (now - _)) by mint. fold (first_refill rate t0 now). destruct (Z.ltb_spec 0 (first_refill rate t0 now)).
    + assert (1 <= cap +[U32] first_refill rate t0 now) as Hg.
      { pose proof (wrap_range U32 (cap + first_refill rate t0 now)). mint. }
      revert Hg. generalize (cap +[U32] first_refill rate t0 now). intros g Hg.
      destruct (Z.leb_spec cap (Z.min g cap)); by rewrite (proj2 (Z.ltb_ge (Z.min g cap) 1)) by lia.
    + by rewrite (proj2 (Z.ltb_ge cap 1)) by lia.
  - by rewrite (proj2 (Z.ltb_ge cap 1)) by lia.
Qed.

(** *** The reply to a subscription *)

Lemma ignore_seq m1 m2 w w' : (m1 ;;; m2) w = (w', Ok tt) -> exists w1, m1 w = (w1, Ok tt) /\ m2 w1 = (w', Ok tt).
Proof. unfold jseq. destruct (m1 w) as [w1 [[]|]]; [|done]. by exists w1. Qed.

Lemma write_reply_text size prefix n : in_range U64 n -> (length prefix + 21 <= size)%nat ->
  write_reply size prefix n = prefix ++ u64_text n ++ [125].
Proof.
  intros Hn Hs. set (bs := prefix ++ u64_text n ++ [125]).
  assert (length bs <= size)%nat as Hl.
  { unfold bs, u64_text. rewrite !length_app. pose proof (length_digits 19 n). cbn [length]. lia. }
  pose proof (emits_seq _ _ _ _ (emits_bytes prefix) (emits_seq _ _ _ _ (emits_u64 n Hn) (emits_bytes [125]))
    (writer_new (replicate size 0)) (Nat.le_0_l _)) as H.
  fold bs in H. cbn [pos buf writer_new] in H. rewrite length_replicate, (proj2 (Nat.leb_le _ _)) in H by lia.
  apply ignore_seq in H as (w1 & E1 & (w2 & E2 & E3)%ignore_seq).
  unfold write_reply, ignore, write_str. rewrite E1. cbn [fst]. rewrite E2. cbn [fst].
  change (jlit "}") with [125]. rewrite E3. cbn [fst pos buf]. unfold splice. rewrite take_0. cbn [app Nat.add].
  apply take_app_length.
Qed.

Lemma respond_text op payload size : Z.of_nat (length payload) < 2 ^ 63 -> (length payload + 10 <= size)%nat ->
  respond op payload size = Ok [server_frame op payload].
Proof.
  intros Hp Hs. unfold respond. rewrite encode_ws_frame_spec by done. cbv zeta. rewrite length_replicate.
  pose proof (length_server_frame op payload). rewrite (proj2 (Nat.ltb_ge _ _)) by lia. cbn [result_bind].
  by rewrite take_app_length.
Qed.

(** The reply frame, and the engine after the subscription. *)
Definition subscribed_reply (topic : Z) : bytes :=
  server_frame OpText (jlit "{'type':'subscribed','topic':" ++ u64_text topic ++ [125]).
Definition with_client (e : WebSocketServerEngine) (s : ClientSession) : WebSocketServerEngine :=
  mkRouter (topics e) (<[cs_id s := s]> (clients e)).

Lemma request_bytes venue market_id : in_range U8 venue -> in_range U32 market_id ->
  is_bytes (subscribe_request venue market_id) /\ (length (subscribe_request venue market_id) <= 120)%nat.
Proof.
  intros Hv Hm. rewrite subscribe_request_text. unfold request_text. split.
  - assert (forall l, all_digits l -> is_bytes l) as Hd.
    { intros l H. eapply List.Forall_impl; [|exact H]. intros b Hb. unfold is_digit in Hb. breflect. mint. }
    assert (is_bytes (u64_text venue) /\ is_bytes (u64_text market_id)) as [H1 H2]
      by (split; apply Hd, u64_digits; mint).
    unfold is_bytes in *. rewrite !Forall_app. repeat split; first [assumption | apply (bool_decide_unpack _); vm_compute; exact I].
  - rewrite !length_app. unfold u64_text. pose proof (length_digits 19 venue). pose proof (length_digits 19 market_id).
    change (length (jlit "{'action':'subscribe','venue':")) with 30%nat. change (length (jlit ",'market_id':")) with 13%nat.
    change (length (jlit ",'stream_type':1}")) with 17%nat. lia.
Qed.

Lemma id_u32 id : 0 <= id < MAX_CLIENT_CAPACITY -> in_range U32 id.
Proof. intros H. change MAX_CLIENT_CAPACITY with 1024 in H. mint. Qed.

Lemma with_client_ok e s : router_wf e -> clients e !! cs_id s = None -> in_range U32 (cs_id s) -> router_wf (with_client e s).
Proof. intros Hr Hn Hi. pose proof (register_wf e s Hr Hi) as H. unfold register_client in H. by rewrite Hn in H. Qed.

(** A subscriber is in its topic. *)
Lemma subscribed_topic e id t : router_wf e -> 0 <= id < MAX_CLIENT_CAPACITY -> subscribed (subscribe_topics e id t) t id = true.
Proof.
  intros Hr Hid. unfold subscribed, subscribe_topics. cbn [topics]. rewrite lookup_insert_eq. cbn [from_option].
  destruct (insert_spec _ id (topic_bitmap_ok e t Hr) Hid) as (_ & _ & Hin). rewrite Hin by done. by rewrite Z.eqb_refl.
Qed.

Lemma subscribe_handled e s mask venue market_id now :
  clients e !! cs_id s = None -> is_bytes mask -> length mask = 4%nat -> in_range U8 venue -> in_range U32 market_id ->
  let key := TopicKey_new venue market_id STREAM_TYPE_BBO 0 in
  handle_inbound_frame (with_client e s) (cs_id s) (client_frame OpText mask (subscribe_request venue market_id)) now =
    Done (subscribe_topics (with_client e (set_state s Subscribed)) (cs_id s) key, [subscribed_reply key], Ok tt).
Proof.
  intros Hnew Hm Hl Hv Hmk key. destruct (request_bytes venue market_id Hv Hmk) as [Hb Hlen].
  rewrite <- (app_nil_r (client_frame _ _ _)), inbound_complete by (done || lia).
  unfold handle_payload. rewrite parse_request by done. fold key. unfold handle_command, subscribe, subscribe_clients.
  unfold with_client. cbn [clients topics]. rewrite lookup_insert_eq, insert_insert_eq.
  rewrite write_reply_text; [|by apply Topic.topic_key_roundtrip|by_eval].
  rewrite respond_text; [done| |].
  - rewrite !length_app. pose proof (length_digits 19 key). unfold u64_text. cbn [length]. change (length (jlit _)) with 29%nat. lia.
  - rewrite !length_app. pose proof (length_digits 19 key). unfold u64_text. cbn [length]. change (length (jlit _)) with 29%nat. lia.
Qed.

(** The engine of a reachable configuration has well-formed bitmaps. *)
Lemma reachable_wf callers c : rtc router_step (conf_new callers) c -> router_wf (cf_router c).
Proof. intros Hc. exact (conf_wf _ (confs_ok _ _ Hc (conf_new_ok callers))). Qed.

(** Two clients of the quotes of market 7 on Coinbase: the third chose JSON, the fifth binary. *)
Definition two_clients : WebSocketServerEngine :=
  let key := TopicKey_new 2 7 STREAM_TYPE_BBO 0 in
  let e := (register_client engine_new (ClientSession_new 3 ProtoJson 1000 10 0)).1 in
  let e := (register_client e (ClientSession_new 5 ProtoSbe 1000 10 0)).1 in
  let e := (subscribe e 3 key).1 in
  (subscribe e 5 key).1.

Lemma two_clients_reachable : rtc router_step (conf_new 1) (mkConf two_clients [Idle] ∅).
Proof.
  unfold two_clients. generalize (TopicKey_new 2 7 STREAM_TYPE_BBO 0). intros key. cbv zeta.
  do 2 (etransitivity; [|apply alone_subscribe; by_eval]).
  do 2 (etransitivity; [|apply alone_register; by_eval]). apply rtc_refl.
Qed.

Module Pipeline.

(** C1: every quote a venue parser makes of an exchange's message, broadcast from any state of the engine that concurrent
    callers can reach (the broadcast itself running without a call in between), is framed once for each client
    that is in its topic, active, within its filter and granted a token, and for no one else.  The frame is the one of the protocol the client
    chose: a binary frame whose payload the SBE decoder reads back as the quote, or a text frame from which the
    field extractors and the fixed-point parser read every field of the quote, a quantity as the signed
    number it is printed as (the quantity itself below 2^63). *)
Theorem quote_reaches_clients (callers : nat) (c : router_conf) (market_id t1 now : Z) (message : bytes) (bbo : NormalizedBbo)
    (Hc : rtc router_step (conf_new callers) c) (Hm : in_range U32 market_id) (Ht : in_range U64 t1)
    (Hp : parse_binance_bbo market_id message t1 = Ok bbo \/ parse_okx_bbo market_id message t1 = Ok bbo \/
          parse_coinbase_ticker_bbo market_id message t1 = Ok bbo) :
  let e := cf_router c in
  broadcast_reaches e (broadcast_bbo e bbo now).2 (fun p => quote_frame p bbo)
    (fun id => receives (bbo_passes bbo) now e (quote_topics e bbo id) id).
Proof.
  assert (Bbo_ok bbo) as Hb by (destruct Hp as [?|[?|?]]; eauto using binance_bbo_ok, okx_bbo_ok, coinbase_bbo_ok).
  apply broadcast_quote; [by eapply reachable_wf|done].
Qed.

(** The Coinbase demo message reaches both clients, each in its protocol. *)
Lemma quote_reaches_clients_witness :
  exists bbo f3 f5, parse_coinbase_ticker_bbo 7 (flat_object FeedParser.demo_ticker) 5 = Ok bbo /\ bid_price bbo = 7732856000000 /\
    (broadcast_bbo two_clients bbo 0).2 = [(3, f3); (5, f5)] /\ quote_frame ProtoJson bbo f3 /\ quote_frame ProtoSbe bbo f5.
Proof.
  eexists _, _, _. split; [vm_compute; reflexivity|]. split; [reflexivity|]. split; [vm_compute; reflexivity|].
  match goal with |- quote_frame _ ?bbo ?f3 /\ quote_frame _ _ ?f5 =>
    assert ((broadcast_bbo two_clients bbo 0).2 = [(3, f3); (5, f5)]) as E by (vm_compute; reflexivity);
    destruct (quote_reaches_clients 1 (mkConf two_clients [Idle] ∅) 7 5 0 (flat_object FeedParser.demo_ticker) bbo two_clients_reachable
      ltac:(by_eval) ltac:(by_eval) ltac:(right; right; vm_compute; reflexivity)) as [H _] end.
  cbn [cf_router] in H. rewrite E in H. apply Forall_cons_1 in H as [(s3 & H3 & F3) [(s5 & H5 & F5) _]%Forall_cons_1].
  cbn [fst snd] in *. vm_compute in H3, H5. injection H3 as <-. injection H5 as <-. split; [exact F3|exact F5].
Defined.

(** C4: a client with an id below the 1024 the bitmaps hold that connects to any reachable engine with a burst of 1 to 2^24 - 1
    tokens and sends the request for a market, as a masked frame with any mask, is answered with the topic's
    key; and the next quote of that market, whatever its flags, is framed for it as in C1, in the protocol it chose,
    unless the 32-bit sum of its burst and the first refill is exactly zero.  (No other call runs in between.) *)
Theorem subscriber_gets_quote (callers : nat) (c : router_conf) (id : Z) (p : WireProtocol)
    (rate burst connected subscribed_at now : Z) (mask : bytes) (bbo : NormalizedBbo)
    (Hc : rtc router_step (conf_new callers) c) (Hnew : clients (cf_router c) !! id = None)
    (Hid : 0 <= id < MAX_CLIENT_CAPACITY) (Hburst : 1 <= burst < 2 ^ 24)
    (Ht : in_range U64 connected) (Hn : in_range U64 now) (Hrefill : burst +[U32] first_refill rate connected now <> 0)
    (Hm : is_bytes mask) (Hl : length mask = 4%nat) (Hb : Bbo_ok bbo) (Hv : in_range U8 (bbo_venue bbo)) :
  let key := TopicKey_new (bbo_venue bbo) (bbo_market_id bbo) STREAM_TYPE_BBO 0 in
  let e1 := (handle_client_connect (cf_router c) id p rate burst connected).1 in
  exists e2, handle_inbound_frame e1 id (client_frame OpText mask (subscribe_request (bbo_venue bbo) (bbo_market_id bbo))) subscribed_at
      = Done (e2, [subscribed_reply key], Ok tt) /\
    exists frame, (id, frame) ∈ (broadcast_bbo e2 bbo now).2 /\ quote_frame p bbo frame.
Proof.
  intros key e1. set (e := cf_router c) in *. set (s := ClientSession_new id p rate burst connected).
  assert (e1 = with_client e s) as ->.
  { unfold e1, handle_client_connect, register_client. cbn [cs_id ClientSession_new]. by rewrite Hnew. }
  assert (router_wf (with_client e (set_state s Subscribed))) as Hr1
    by (apply with_client_ok; [by eapply reachable_wf|done|by apply id_u32]).
  exists (subscribe_topics (with_client e (set_state s Subscribed)) id key).
  split; [apply (subscribe_handled e s mask (bbo_venue bbo) (bbo_market_id bbo)); try done; apply Hb|].
  set (e2 := subscribe_topics _ _ _).
  assert (clients e2 !! id = Some (set_state s Subscribed)) as He2 by apply lookup_insert_eq.
  destruct (broadcast_quote e2 bbo now) as (Hread & _ & Hto); [apply subscribe_topics_wf; [done|by apply id_u32]|done|].
  assert (id ∈ (broadcast_bbo e2 bbo now).2.*1) as Hin.
  { apply Hto. split; [done|]. split.
    - unfold quote_topics. rewrite (wrap_id U8) by done. fold key. unfold e2. by rewrite (subscribed_topic _ id key), orb_true_r.
    - exists (set_state s Subscribed). split; [done|]. split; [by rewrite is_active_set|].
      split; [done|]. unfold try_consume_token. cbn [rate_limiter set_state s ClientSession_new].
      pose proof (fresh_bucket_grants rate burst connected now Hburst Ht Hn Hrefill).
      by destruct (try_consume _ _ _). }
  apply list_elem_of_fmap in Hin as ([id' frame] & -> & Hf). exists frame. split; [done|].
  destruct (proj1 (list.Forall_forall _ _) Hread _ Hf) as (s' & Hs' & Hok). cbn [fst snd] in *. by simplify_eq.
Qed.

Definition demo_quote : NormalizedBbo := mkBbo Telemetry_default 7 1 0 1 100 (2 ^ 63) 101 1 5 9.

(** With times of day in milliseconds since 1970. *)
Lemma subscriber_gets_quote_witness :
  exists e2 frame, (3, frame) ∈ (broadcast_bbo e2 demo_quote 1700000001000).2 /\ quote_frame ProtoJson demo_quote frame /\
    (broadcast_bbo e2 demo_quote 1700000001000).2.*1 = [3].
Proof.
  destruct (subscriber_gets_quote 1 (conf_new 1) 3 ProtoJson 100 10 1700000000000 1700000000500 1700000001000 [1; 2; 3; 4] demo_quote)
    as (e2 & E & frame & Hin & Hr);
    [apply rtc_refl|reflexivity|by_eval|lia|by_eval|by_eval|by_eval|by_eval|by_eval|repeat constructor; by_eval|by_eval|].
  exists e2, frame. split; [exact Hin|]. split; [exact Hr|].
  assert (Done (e2, [subscribed_reply (TopicKey_new 1 7 STREAM_TYPE_BBO 0)], @Ok unit WsError tt) =
    handle_inbound_frame (handle_client_connect engine_new 3 ProtoJson 100 10 1700000000000).1 3
      (client_frame OpText [1; 2; 3; 4] (subscribe_request 1 7)) 1700000000500) as E' by (symmetry; exact E).
  vm_compute in E'. injection E' as ->. vm_compute. reflexivity.
Defined.

(** The same for trades: a trade of an exchange's message is framed for the clients of its
    topic whose minimum notional it reaches, each in the protocol it chose. *)
Theorem trade_reaches_clients (callers : nat) (c : router_conf) (market_id t1 now : Z) (notional : f64) (message : bytes) (trade : UnifiedTrade)
    (Hc : rtc router_step (conf_new callers) c) (Hm : in_range U32 market_id) (Ht : in_range U64 t1)
    (Hp : parse_binance_trade market_id message t1 = Ok trade \/ parse_coinbase_ticker_trade market_id message t1 = Ok trade) :
  let e := cf_router c in
  broadcast_reaches e (broadcast_trade e trade notional now).2 (fun p => trade_frame p trade)
    (fun id => receives (fun f => matches_trade f notional) now e
       (subscribed e (TopicKey_new (wrap U8 (tr_venue trade)) (tr_market_id trade) STREAM_TYPE_TRADE 0) id) id).
Proof.
  cbv zeta. set (e := cf_router c).
  assert (Trade_ok trade) as Hb by (destruct Hp as [?|?]; eauto using binance_trade_ok, coinbase_trade_ok).
  assert (router_wf e) as Hr by by eapply reachable_wf.
  rewrite WebSocket.broadcast_trade_frames by done. cbn [snd].
  pose proof (dispatch_trade_correct e trade notional now Hr Hb) as H. destruct (dispatch_trade e trade notional now) as [[e' m] ds].
  destruct H as (-> & _). cbn [snd].
  apply deliveries_reach; [by apply topic_bitmap_ok|]. intros p. by apply trade_framed.
Qed.

Lemma trade_reaches_clients_witness :
  exists trade, parse_coinbase_ticker_trade 7 (flat_object FeedParser.demo_ticker) 5 = Ok trade /\
    NoDup (broadcast_trade two_clients trade (S754_zero false) 0).2.*1.
Proof.
  eexists. split; [vm_compute; reflexivity|].
  eapply (trade_reaches_clients 1 (mkConf two_clients [Idle] ∅) 7 5 0 (S754_zero false) (flat_object FeedParser.demo_ticker));
    [exact two_clients_reachable|by_eval|by_eval|]. right. vm_compute. reflexivity.
Defined.
End Pipeline.
