(* ===== verification/Runner.v ===== *)
(** * live-feed/src/bin/live_feed.rs: the exchange client

    The runner that owns the socket: it reads its arguments, connects, waits for the next of its events
    (the deadline, an interrupt, a tick of its timer, a message), lets the session decide, hands each quote
    across the ring and encodes it, answers on the socket, and reconnects with a growing pause.  What the
    outside does is data: an [Attempt] lists what [select!] gives in order, with the clock readings that go with
    it, and says which sends succeed.  The theorems show that the runner is a run of the session of LiveSession.v, that
    each action the session asks for is taken before the next message, and that the loop ends. *)

From Stdlib Require Import Sorted.
From stdpp Require Import sorting.
From S2P Require Import Prelude Bytes Decimal Text Models Sbe FeedParser LiveSession Spsc Records.

(** ** Arguments *)

Definition DEFAULT_URL : bytes := lit "wss://ws-feed.exchange.coinbase.com".
Definition STALE_AFTER_MS : Z := 10000.
(** Durations are in nanoseconds. *)
Definition MAX_BACKOFF : Z := 30 * SECOND.

Record Args := mkArgs {
  url : bytes;
  arg_products : list bytes;
  seconds : Z;
  min_messages : Z;
}.
Definition args_default : Args := mkArgs DEFAULT_URL [lit "BTC-USD"; lit "ETH-USD"] 30 0.

(** One flag with its value; an unknown flag ends the process with code 2. *)
Definition set_flag (a : Args) (flag val : bytes) : result Args Z :=
  if bool_decide (flag = lit "--url") then Ok (mkArgs val (arg_products a) (seconds a) (min_messages a))
  else if bool_decide (flag = lit "--products")
  then Ok (mkArgs (url a) (map trim (split_char 44 val)) (seconds a) (min_messages a))
  else if bool_decide (flag = lit "--seconds")
  then Ok (mkArgs (url a) (arg_products a) (default 30 (parse_uint val)) (min_messages a))
  else if bool_decide (flag = lit "--min-messages")
  then Ok (mkArgs (url a) (arg_products a) (seconds a) (default 0 (parse_uint val)))
  else Err 2.

(** [it] is what is left of the arguments after the program's name. *)
Fixpoint parse_args_from (a : Args) (it : list bytes) : result Args Z :=
  match it with
  | [] => Ok a
  | [flag] => set_flag a flag []
  | flag :: val :: it => let? a := set_flag a flag val in parse_args_from a it
  end.
Definition parse_args (it : list bytes) : result Args Z := parse_args_from args_default it.

Definition sub_msg (kind : bytes) (products : list bytes) : bytes :=
  let ids := map (fun p => [34] ++ p ++ [34]) products in
  jlit "{'type':'" ++ kind ++ jlit "','product_ids':[" ++ join (lit ",") ids ++ jlit "],'channels':['ticker','heartbeat']}".

(** ** The sink *)

Definition ring_capacity : Z := 1024.

Record Sink := mkSink {
  ring : SpscRingBuffer NormalizedBbo;
  buf : bytes;
  bbos : Z;
  trades : Z;
  process_ns : list Z;
  exchange_to_local_ns : list Z;
}.
Definition sink_new : outcome Sink :=
  let! ring := spsc_new ring_capacity Bbo_default in
  Done (mkSink ring (replicate TOTAL_SBE_BBO_LEN 0) 0 0 [] []).

Section Runner.

(** The nanoseconds the hand-off of the [n]-th quote takes. *)
Context (elapsed : Z -> Z).

Definition handle (k : Sink) (ev : Event) : Sink :=
  match ev with
  | EvBbo b =>
      let (ring, _) := try_push ring_capacity (ring k) b in
      let (ring, popped) := try_pop ring_capacity ring in
      let buf := match popped with Some x => (encode_bbo_sbe x (buf k)).1 | None => buf k end in
      let '(process_ns, exchange_to_local_ns) :=
        if Z.of_nat (length (process_ns k)) <? 1000000
        then (process_ns k ++ [elapsed (bbos k)],
              exchange_to_local_ns k ++
                [wrap I64 (t1_ingest_nic_ns (bbo_telemetry b)) -[I64] wrap I64 (t0_exchange_ns (bbo_telemetry b))])
        else (process_ns k, exchange_to_local_ns k) in
      mkSink ring buf (bbos k +[U64] 1) (trades k) process_ns exchange_to_local_ns
  | EvTrade _ => mkSink (ring k) (buf k) (bbos k) (trades k +[U64] 1) (process_ns k) (exchange_to_local_ns k)
  end.

(** ** One connection *)

(** A WebSocket message, received or sent; [WsOther] is a message the runner does not look at. *)
Inductive WsMessage := WsText (text : bytes) | WsPing (p : bytes) | WsPong (p : bytes) | WsClose | WsOther.

Inductive RunError := ConnectTimedOut | ConnectError | WsError.
Inductive Outcome := Finished | OutReconnect (r : Reason).

(** What [select!] may give: the deadline's sleep, the interrupt, the timer, the socket's next item. *)
Inductive Select :=
| DeadlineReached
| CtrlC
| TimerTick (elapsed_ms : Z)
| WsNext (msg : option (result WsMessage RunError)) (wall_ns elapsed_ms : Z).

(** [sent] is what went out on this connection. *)
Record Conn := mkConn {
  session : Session;
  sink : Sink;
  got_message : bool;
  sent : list WsMessage;
}.

(** The connection goes on, or [run_connection] returns. *)
Inductive Flow := Goes (c : Conn) | Returns (c : Conn) (r : result Outcome RunError).

(** [accepts n]: the send number [n] of the connection succeeds. *)
Context (args : Args) (accepts : nat -> bool).

(** [ws.send(m).await?], then [k]. *)
Definition send (m : WsMessage) (c : Conn) (k : Conn -> Flow) : Flow :=
  if accepts (length (sent c)) then k (mkConn (session c) (sink c) (got_message c) (sent c ++ [m]))
  else Returns c (Err WsError).

Definition with_session (c : Conn) (s : Session) : Conn := mkConn s (sink c) (got_message c) (sent c).

Definition subscribe_msg : WsMessage := WsText (sub_msg (lit "subscribe") (arg_products args)).
Definition unsubscribe_msg : WsMessage := WsText (sub_msg (lit "unsubscribe") (arg_products args)).

Definition on_text (c : Conn) (text : bytes) (wall_ns elapsed_ms : Z) : outcome Flow :=
  let! r := on_message (session c) text wall_ns elapsed_ms [] in
  let '(s, events, action) := r : Session * list Event * option Action in
  let c := mkConn s (fold_left handle events (sink c)) true (sent c) in
  Done match action with
  | Some (Resubscribe r) =>
      send unsubscribe_msg (with_session c (note_action_taken s (Resubscribe r))) (fun c => send subscribe_msg c Goes)
  | Some (Reconnect r) => Returns (with_session c (note_action_taken s (Reconnect r))) (Ok (OutReconnect r))
  | None => Goes c
  end.

(** One turn of the loop; the deadline's branch is disabled when there is none. *)
Definition on_select (deadline : bool) (c : Conn) (e : Select) : outcome Flow :=
  match e with
  | DeadlineReached => Done (if deadline then Returns c (Ok Finished) else Goes c)
  | CtrlC => Done (Returns c (Ok Finished))
  | TimerTick now =>
      Done match on_tick (session c) now with
      | Some action =>
          let c := with_session c (note_action_taken (session c) action) in
          match action with Reconnect r => Returns c (Ok (OutReconnect r)) | Resubscribe _ => Goes c end
      | None => Goes c
      end
  | WsNext None _ _ => Done (Returns c (Ok (OutReconnect Disconnected)))
  | WsNext (Some (Err e)) _ _ => Done (Returns c (Err e))
  | WsNext (Some (Ok (WsText text))) wall now => on_text c text wall now
  | WsNext (Some (Ok (WsPing p))) _ _ => Done (send (WsPong p) c Goes)
  | WsNext (Some (Ok WsClose)) _ _ => Done (Returns c (Ok (OutReconnect Disconnected)))
  | WsNext (Some (Ok _)) _ _ => Done (Goes c)
  end.

(** The loop, on the events as they come; it is still waiting when there are no more. *)
Fixpoint conn_loop (deadline : bool) (c : Conn) (script : list Select) : outcome Flow :=
  match script with
  | [] => Done (Goes c)
  | e :: script =>
      let! f := on_select deadline c e in
      match f with
      | Goes c => conn_loop deadline c script
      | Returns c r => Done (Returns c r)
      end
  end.

(** [connect] is the elapsed time read after connecting, or why it failed. *)
Definition run_connection (deadline : bool) (s : Session) (k : Sink) (connect : result Z RunError) (script : list Select) :
    outcome Flow :=
  match connect with
  | Err e => Done (Returns (mkConn s k false []) (Err e))
  | Ok now =>
      match send subscribe_msg (mkConn (on_connected s now) k false []) Goes with
      | Goes c => conn_loop deadline c script
      | Returns c r => Done (Returns c r)
      end
  end.
End Runner.

(** ** The reconnecting loop *)

(** What the outside does on one turn of the loop: the connection, how long it lasts, and by how much
    the sleep after it oversleeps, in nanoseconds. *)
Record Attempt := mkAttempt {
  at_connect : result Z RunError;
  at_script : list Select;
  at_accepts : nat -> bool;
  at_lasts : Z;
  at_oversleeps : Z;
}.

Record MainState := mkMain {
  m_session : Session;
  m_sink : Sink;
  m_backoff : Z;
  m_clock : Z;
  m_sleeps : list Z;
}.

(** The loop broke; or it still runs, after the attempts of [fuel] or waiting in the last one. *)
Inductive MainEnd := Stopped (m : MainState) | Running (m : MainState) | Connected_still (m : MainState).

Section Main.
Context (elapsed : Z -> Z) (args : Args).

Definition main_turn (deadline : option Z) (m : MainState) (a : Attempt) : outcome MainEnd :=
  let! f := run_connection elapsed args (at_accepts a) (match deadline with Some _ => true | None => false end)
              (m_session m) (m_sink m) (at_connect a) (at_script a) in
  match f with
  | Goes c => Done (Connected_still (mkMain (session c) (sink c) (m_backoff m) (m_clock m) (m_sleeps m)))
  | Returns c r =>
      let backoff := if got_message c then SECOND else m_backoff m in
      let now := m_clock m + at_lasts a in
      match r with
      | Ok Finished => Done (Stopped (mkMain (session c) (sink c) backoff now (m_sleeps m)))
      | Ok (OutReconnect _) | Err _ =>
          let! late :=
            match deadline with Some d => let! t := instant_add now backoff in Done (d <=? t) | None => Done false end in
          if late : bool then Done (Stopped (mkMain (session c) (sink c) backoff now (m_sleeps m)))
          else Done (Running (mkMain (session c) (sink c) (Z.min (backoff * 2) MAX_BACKOFF)
                 (now + backoff + at_oversleeps a) (m_sleeps m ++ [backoff])))
      end
  end.

Fixpoint main_loop (deadline : option Z) (m : MainState) (world : list Attempt) : outcome MainEnd :=
  match world with
  | [] => Done (Running m)
  | a :: world =>
      let! e := main_turn deadline m a in
      match e with Running m => main_loop deadline m world | _ => Done e end
  end.

(** [start] is the clock when the program starts. *)
Definition main_deadline (start : Z) : outcome (option Z) :=
  if seconds args =? 0 then Done None
  else let! d := instant_add start (seconds args * SECOND) in Done (Some d).
Definition main_init (start : Z) (sink : Sink) : MainState :=
  mkMain (session_new (arg_products args) STALE_AFTER_MS) sink SECOND start [].
Definition main (start : Z) (world : list Attempt) : outcome MainEnd :=
  let! sink := sink_new in
  let! deadline := main_deadline start in main_loop deadline (main_init start sink) world.
End Main.

(** ** The summary *)

(** [sorted[i]] on an index the code has put in range. *)
Definition pct (sorted : list Z) (p : nat) : Z :=
  if (length sorted =? 0)%nat then 0
  else nth (Nat.min (length sorted * p / 100) (length sorted - 1)) sorted 0.

Definition sort_unstable (l : list Z) : list Z := merge_sort Z.le l.

(** The numbers of the printed summary: the median and the 99th percentile of the processing time, how
    many were taken, and the median delay when there is one. *)
Definition summary_of (k : Sink) : Z * Z * nat * option Z :=
  let p := sort_unstable (process_ns k) in
  let d := sort_unstable (exchange_to_local_ns k) in
  (pct p 50, pct p 99, length p,
   if (length d =? 0)%nat then None else Some (nth (length d / 2) d 0)).

Definition exit_code (args : Args) (m : MainState) : Z :=
  if messages (stats (m_session m)) <? min_messages args then 1 else 0.

(** ** Runs of the session, in pieces *)

Lemma on_ticker_frame s p t out :
  on_ticker s p t out = let! r := on_ticker s p t [] in Done (r.1.1, out ++ r.1.2, r.2).
Proof.
  unfold on_ticker. destruct (product_index _ p) as [s1 [i|]]; [|by cbn; rewrite app_nil_r].
  destruct (products s1 !! i) as [q|]; [|done].
  destruct (parse_coinbase_ticker_bbo _ _ _) as [b|]; [|by cbn; rewrite app_nil_r].
  destruct (parse_coinbase_ticker_trade _ _ _) as [t'|]; [|by cbn; rewrite app_nil_r].
  destruct (match last_seq q with Some _ => _ | None => _ end) as [s2 a].
  destruct (match last_trade_id q with Some _ => _ | None => _ end) as [s3 a'].
  by case_match; cbn; rewrite <- ?app_assoc.
Qed.

Lemma apply_input_frame s out i :
  apply_input s out i = let! r := apply_input s [] i in Done (r.1.1, out ++ r.1.2, r.2).
Proof.
  destruct i; cbn [apply_input outcome_bind fst snd]; rewrite ?app_nil_r; try done.
  unfold on_message. destruct (coinbase_message_type payload); [|by cbn; rewrite app_nil_r].
  repeat case_match; [apply on_ticker_frame| |by cbn; rewrite app_nil_r..].
  destruct (on_heartbeat _ payload) as [[]|]; cbn; by rewrite ?app_nil_r.
Qed.

Lemma run_frame ins : forall s out,
  run s out ins = let! r := run s [] ins in Done (r.1.1, out ++ r.1.2, r.2).
Proof.
  induction ins as [|i ins IH]; intros s out; cbn [run]; [by cbn; rewrite app_nil_r|].
  rewrite apply_input_frame. destruct (apply_input s [] i) as [[[s1 o1] a1]|]; [|done]. cbn [outcome_bind fst snd].
  rewrite IH, (IH s1 o1). destruct (run s1 [] ins) as [[[s2 o2] a2]|]; [|done]. cbn. by rewrite app_assoc.
Qed.

(** The session gives the answers of the trace to its inputs, and emits [evs]. *)
Definition serves (s : Session) (tr : list (Input * option Action)) (evs : list Event) (s' : Session) : Prop :=
  run s [] tr.*1 = Done (s', evs, tr.*2).

Lemma serves_nil s : serves s [] [] s.
Proof. done. Qed.

Lemma serves_cons s i a evs1 s1 tr evs2 s2 :
  apply_input s [] i = Done (s1, evs1, a) -> serves s1 tr evs2 s2 -> serves s ((i, a) :: tr) (evs1 ++ evs2) s2.
Proof. unfold serves. intros Hi Hr. cbn. rewrite Hi. cbn [outcome_bind fst snd]. by rewrite run_frame, Hr. Qed.

Lemma serves_one s i a evs s' : apply_input s [] i = Done (s', evs, a) -> serves s [(i, a)] evs s'.
Proof. intros H. rewrite <- (app_nil_r evs). eapply serves_cons; [done|apply serves_nil]. Qed.

Lemma serves_app s tr1 evs1 s1 tr2 evs2 s2 :
  serves s tr1 evs1 s1 -> serves s1 tr2 evs2 s2 -> serves s (tr1 ++ tr2) (evs1 ++ evs2) s2.
Proof.
  revert s evs1. induction tr1 as [|[i a] tr1 IH]; intros s evs1 H1 H2; [by injection H1 as -> <-|].
  unfold serves in H1. cbn in H1. destruct (apply_input s [] i) as [[[s' o'] a']|] eqn:E; [|done]. cbn [outcome_bind fst snd] in H1.
  rewrite run_frame in H1. destruct (run s' [] tr1.*1) as [[[s3 o3] a3]|] eqn:Er; [|done]. cbn [outcome_bind fst snd] in H1. 
  injection H1 as -> <- -> ->. rewrite <- app_assoc. cbn [app]. eapply serves_cons; [done|]. by apply IH.
Qed.

(** ** The trace of a connection *)

(** Every action the session asks for is taken at once, nothing else is; after a reconnection the next
    thing the session hears of is a connection. *)
Definition is_action_taken (i : Input) : bool := match i with ActionTaken _ => true | _ => false end.
Definition starts_connected (tr : list (Input * option Action)) : Prop :=
  match tr with [] => True | (Connected _, _) :: _ => True | _ => False end.
Inductive obedient : list (Input * option Action) -> Prop :=
| ObedientNil : obedient []
| ObedientQuiet i tr : is_action_taken i = false -> obedient tr -> obedient ((i, None) :: tr)
| ObedientTaken i a tr : is_action_taken i = false -> obedient tr ->
    match a with Reconnect _ => starts_connected tr | Resubscribe _ => True end ->
    obedient ((i, Some a) :: (ActionTaken a, None) :: tr).

Lemma obedient_app tr1 tr2 : obedient tr1 -> obedient tr2 -> starts_connected tr2 -> obedient (tr1 ++ tr2).
Proof.
  intros H1 H2 Hs. induction H1 as [|i tr Hi H1 IH|i a tr Hi H1 IH Ha]; cbn [app]; [done|by constructor|].
  constructor; [done|done|]. destruct a; [done|]. by destruct tr as [|[[]]].
Qed.

(** What an event of [select!] and the session's answer to it mean: inputs of the session, messages
    sent, and how the connection ends. *)
Definition inputs_of (x : Select * option Action) : list (Input * option Action) :=
  let taken := match x.2 with Some a => [(ActionTaken a, None)] | None => [] end in
  match x.1 with
  | TimerTick now => (Tick now, x.2) :: taken
  | WsNext (Some (Ok (WsText p))) wall now => (Message p wall now, x.2) :: taken
  | _ => []
  end.

Definition replies_of (args : Args) (x : Select * option Action) : list WsMessage :=
  match x with
  | (WsNext (Some (Ok (WsPing p))) _ _, _) => [WsPong p]
  | (WsNext (Some (Ok (WsText _))) _ _, Some (Resubscribe _)) => [unsubscribe_msg args; subscribe_msg args]
  | _ => []
  end.

Definition ending (deadline : bool) (x : Select * option Action) : option (result Outcome RunError) :=
  match x with
  | (DeadlineReached, _) => if deadline then Some (Ok Finished) else None
  | (CtrlC, _) => Some (Ok Finished)
  | (TimerTick _, Some (Reconnect r)) | (WsNext (Some (Ok (WsText _))) _ _, Some (Reconnect r)) => Some (Ok (OutReconnect r))
  | (WsNext None _ _, _) | (WsNext (Some (Ok WsClose)) _ _, _) => Some (Ok (OutReconnect Disconnected))
  | (WsNext (Some (Err e)) _ _, _) => Some (Err e)
  | _ => None
  end.

Definition is_text (x : Select * option Action) : bool :=
  match x.1 with WsNext (Some (Ok (WsText _))) _ _ => true | _ => false end.

Definition flow_conn (f : Flow) : Conn := match f with Goes c | Returns c _ => c end.

Section Connection.
Context (elapsed : Z -> Z) (args : Args) (accepts : nat -> bool) (deadline : bool).
Abbreviation handle := (handle elapsed).

(** The turn from [c] that gave [f] is the one of [x], which emitted [evs]. *)
(** The messages [l] were to go out from [c] on.  All of them did, or the connection ended at the first send that failed. *)
Definition all_sent (c c' : Conn) (l : list WsMessage) : Prop :=
  sent c' = sent c ++ l /\ forall n, (length (sent c) <= n < length (sent c'))%nat -> accepts n = true.
Definition send_failed (c c' : Conn) (l : list WsMessage) : Prop :=
  accepts (length (sent c')) = false /\ (forall n, (length (sent c) <= n < length (sent c'))%nat -> accepts n = true) /\
  exists m rest, sent c' ++ m :: rest = sent c ++ l.

Definition turn_ok (c : Conn) (f : Flow) (x : Select * option Action) (evs : list Event) : Prop :=
  let c' := flow_conn f in
  serves (session c) (inputs_of x) evs (session c') /\
  sink c' = fold_left handle evs (sink c) /\ got_message c' = got_message c || is_text x /\
  match f with
  | Goes _ => all_sent c c' (replies_of args x) /\ ending deadline x = None
  | Returns _ r =>
      (ending deadline x = Some r /\ all_sent c c' (replies_of args x)) \/
      (ending deadline x = None /\ r = Err WsError /\ send_failed c c' (replies_of args x))
  end.

Lemma all_sent_nil c c' : sent c' = sent c -> all_sent c c' [].
Proof. intros E. unfold all_sent. rewrite E, app_nil_r. split; [done|lia]. Qed.

Lemma turn_quiet c x : inputs_of x = [] -> replies_of args x = [] -> is_text x = false ->
  turn_ok c (match ending deadline x with Some r => Returns c r | None => Goes c end) x [].
Proof.
  intros Hi Hr Ht. unfold turn_ok. rewrite Hi, Hr, Ht.
  destruct (ending deadline x) eqn:E; cbn; rewrite orb_false_r; (do 3 (split; [done|])); [left|]; by split; try apply all_sent_nil.
Qed.

Lemma on_tick_reconnects s now a : on_tick s now = Some a -> a = Reconnect Stale.
Proof. unfold on_tick. case_match; [|done]. by intros [= <-]. Qed.

Lemma on_text_turn c p wall now :
  exists f a evs, on_text elapsed args accepts c p wall now = Done f /\
    turn_ok c f (WsNext (Some (Ok (WsText p))) wall now, a) evs.
Proof.
  unfold on_text. destruct (on_message_effect (session c) p wall now []) as (s' & evs & a & E & _).
  rewrite E. cbn [outcome_bind]. eexists _, a, evs. split; [reflexivity|].
  assert (apply_input (session c) [] (Message p wall now) = Done (s', evs, a)) as Ei by exact E.
  assert (forall b, serves s' [(ActionTaken b, None)] [] (note_action_taken s' b)) as Htaken by done.
  assert (forall s2 tr, serves s' tr [] s2 -> serves (session c) ((Message p wall now, a) :: tr) evs s2) as Hserve.
  { intros s2 tr Hs. rewrite <- (app_nil_r evs). by eapply serves_cons. }
  assert (forall s2 k, got_message (mkConn s2 k true (sent c)) = got_message c || true) as Hgot by (intros; by rewrite orb_true_r).
  destruct a as [[r|r]|]; unfold turn_ok, send; cbn [inputs_of replies_of is_text ending fst snd].
  - unfold with_session. cbn [sent]. destruct (accepts (length (sent c))) eqn:E1; cbn [sent];
      [destruct (accepts (length (sent c ++ _))) eqn:E2|];
      cbn [flow_conn session sink got_message]; rewrite orb_true_r; (split; [by apply Hserve|]); (split; [done|]); (split; [done|]).
    + split; [|done]. split; cbn [sent]; [by rewrite <- app_assoc|]. intros n Hn. rewrite !length_app in *. cbn [length] in *.
      assert (n = length (sent c) \/ n = (length (sent c) + 1)%nat) as [->| ->] by lia; done.
    + right. split; [done|]. split; [done|]. split; cbn [sent]; [done|]. split.
      * intros n Hn. rewrite length_app in Hn. cbn [length] in Hn. by replace n with (length (sent c)) by lia.
      * eexists _, []. by rewrite <- app_assoc.
    + right. split; [done|]. split; [done|]. split; cbn [sent]; [done|]. split; [lia|]. by eexists _, [_].
  - cbn. rewrite orb_true_r. split; [by apply Hserve|]. do 2 (split; [done|]). left. split; [done|]. by apply all_sent_nil.
  - cbn. rewrite orb_true_r. split; [by apply (Hserve _ [])|]. do 2 (split; [done|]). split; [by apply all_sent_nil|done].
Qed.

Lemma on_select_turn c e :
  exists f a evs, on_select elapsed args accepts deadline c e = Done f /\ turn_ok c f (e, a) evs.
Proof.
  assert (forall m wall now, replies_of args (WsNext (Some (Ok m)) wall now, None) = [] -> is_text (WsNext (Some (Ok m)) wall now, None) = false ->
    ending deadline (WsNext (Some (Ok m)) wall now, None) = None -> turn_ok c (Goes c) (WsNext (Some (Ok m)) wall now, None) []) as Hquiet.
  { intros m wall now Hr Ht He. pose proof (turn_quiet c (WsNext (Some (Ok m)) wall now, None)) as Hq. rewrite He in Hq.
    apply Hq; [|done|done]. by destruct m. }
  destruct e as [| |now|[[[p|p|p| |]|err]|] wall now]; cbn [on_select].
  - eexists _, None, []. split; [reflexivity|]. pose proof (turn_quiet c (DeadlineReached, None) eq_refl eq_refl eq_refl) as H.
    cbn in H. by destruct deadline.
  - eexists _, None, []. split; [reflexivity|]. by apply (turn_quiet c (CtrlC, None)).
  - eexists _, (on_tick (session c) now), []. split; [reflexivity|].
    assert (apply_input (session c) [] (Tick now) = Done (session c, [], on_tick (session c) now)) as Ei by done.
    unfold turn_ok. cbn [inputs_of fst snd replies_of is_text].
    destruct (on_tick (session c) now) as [a|] eqn:E; [rewrite (on_tick_reconnects _ _ _ E) in *|]; cbn;
      rewrite orb_false_r.
    + split; [by eapply (serves_cons _ _ _ [] _ _ [])|]. do 2 (split; [done|]). left. split; [done|]. by apply all_sent_nil.
    + split; [by eapply serves_one|]. do 2 (split; [done|]). split; [by apply all_sent_nil|done].
  - destruct (on_text_turn c p wall now) as (f & a & evs & E & Ht). by exists f, a, evs.
  - eexists _, None, []. split; [reflexivity|]. unfold send, turn_ok. cbn [inputs_of replies_of is_text ending fst snd].
    destruct (accepts (length (sent c))) eqn:E; cbn; rewrite orb_false_r; (do 3 (split; [done|])).
    + split; [|done]. split; cbn [sent]; [done|]. intros n Hn. rewrite length_app in Hn. cbn [length] in Hn.
      by replace n with (length (sent c)) by lia.
    + right. split; [done|]. split; [done|]. split; [done|]. split; [lia|]. by eexists _, [].
  - eexists _, None, []. split; [reflexivity|]. by apply Hquiet.
  - eexists _, None, []. split; [reflexivity|]. by apply (turn_quiet c (WsNext (Some (Ok WsClose)) wall now, None)).
  - eexists _, None, []. split; [reflexivity|]. by apply Hquiet.
  - eexists _, None, []. split; [reflexivity|]. by apply (turn_quiet c (WsNext (Some (Err err)) wall now, None)).
  - eexists _, None, []. split; [reflexivity|]. by apply (turn_quiet c (WsNext None wall now, None)).
Qed.

Definition all_inputs (T : list (Select * option Action)) : list (Input * option Action) := mjoin (map inputs_of T).
Definition all_replies (T : list (Select * option Action)) : list WsMessage := mjoin (map (replies_of args) T).
Definition goes_on (x : Select * option Action) : Prop := ending deadline x = None.

(** The loop from [c] over [script] gave [f]; its trace is [T], a prefix of the script with the answers. *)
Definition loop_ok (c : Conn) (script : list Select) (f : Flow) (T : list (Select * option Action)) (evs : list Event) : Prop :=
  let c' := flow_conn f in
  serves (session c) (all_inputs T) evs (session c') /\
  sink c' = fold_left handle evs (sink c) /\ got_message c' = got_message c || existsb is_text T /\
  match f with
  | Goes _ => T.*1 = script /\ all_sent c c' (all_replies T) /\ Forall goes_on T
  | Returns _ r => T.*1 `prefix_of` script /\ exists T0 x, T = T0 ++ [x] /\ Forall goes_on T0 /\
      ((ending deadline x = Some r /\ all_sent c c' (all_replies T)) \/
       (ending deadline x = None /\ r = Err WsError /\ send_failed c c' (all_replies T)))
  end.

Lemma loop_ok_nil c : loop_ok c [] (Goes c) [] [].
Proof. unfold loop_ok. cbn. rewrite orb_false_r. do 4 (split; [done|]). split; [by apply all_sent_nil|constructor]. Qed.

Lemma loop_ok_return c e script c1 r a evs :
  turn_ok c (Returns c1 r) (e, a) evs -> loop_ok c (e :: script) (Returns c1 r) [(e, a)] evs.
Proof.
  unfold turn_ok, loop_ok, all_inputs, all_replies. cbn. rewrite !app_nil_r, orb_false_r.
  intros (Hs & Hk & Hg & Hr). do 3 (split; [done|]).
  split; [apply prefix_cons, prefix_nil|]. by exists [], (e, a).
Qed.

(** Sending on. *)
Lemma all_sent_app c c1 c2 l1 l2 : all_sent c c1 l1 -> all_sent c1 c2 l2 -> all_sent c c2 (l1 ++ l2).
Proof.
  intros [E1 H1] [E2 H2]. split; [by rewrite E2, E1, app_assoc|]. intros n Hn.
  destruct (Nat.lt_ge_cases n (length (sent c1))); [apply H1|apply H2]; lia.
Qed.
Lemma send_failed_app c c1 c2 l1 l2 : all_sent c c1 l1 -> send_failed c1 c2 l2 -> send_failed c c2 (l1 ++ l2).
Proof.
  intros [E1 H1] (Hf & H2 & m & rest & E). split; [done|]. split.
  - intros n Hn. destruct (Nat.lt_ge_cases n (length (sent c1))); [apply H1|apply H2]; lia.
  - exists m, rest. by rewrite E, E1, app_assoc.
Qed.

Lemma loop_ok_cons c e script c1 a evs1 f T evs2 :
  turn_ok c (Goes c1) (e, a) evs1 -> loop_ok c1 script f T evs2 -> loop_ok c (e :: script) f ((e, a) :: T) (evs1 ++ evs2).
Proof.
  unfold turn_ok, loop_ok, all_inputs, all_replies. cbn [flow_conn map mjoin list_join existsb].
  intros (Hs1 & Hk1 & Hg1 & Hr1 & He1) (Hs & Hk & Hg & Hr).
  split; [by eapply serves_app|]. split; [by rewrite Hk, Hk1, fold_left_app|]. split; [by rewrite Hg, Hg1, orb_assoc|].
  destruct f as [c2|c2 r]; cbn [flow_conn] in *.
  - destruct Hr as (HT & Hse & Hf). split; [cbn; by rewrite HT|]. split; [by eapply all_sent_app|by constructor].
  - destruct Hr as (HT & T0 & x & -> & Hf & He). split; [by apply prefix_cons|]. exists ((e, a) :: T0), x.
    split; [done|]. split; [by constructor|]. destruct He as [[He Hse]|(He & Er & Hse)]; [left|right].
    + split; [done|]. by eapply all_sent_app.
    + split; [done|]. split; [done|]. by eapply send_failed_app.
Qed.

Lemma conn_loop_ok script : forall c,
  exists f T evs, conn_loop elapsed args accepts deadline c script = Done f /\ loop_ok c script f T evs.
Proof.
  induction script as [|e script IH]; intros c; cbn [conn_loop].
  { exists (Goes c), [], []. split; [done|apply loop_ok_nil]. }
  destruct (on_select_turn c e) as (f & a & evs & E & Ht). rewrite E. cbn [outcome_bind]. destruct f as [c1|c1 r].
  - destruct (IH c1) as (f & T & evs2 & E2 & Hl). exists f, ((e, a) :: T), (evs ++ evs2). split; [done|by eapply loop_ok_cons].
  - exists (Returns c1 r), [(e, a)], evs. split; [done|by apply loop_ok_return].
Qed.

Lemma obedient_turn x tr : ending deadline x = None -> obedient tr -> obedient (inputs_of x ++ tr).
Proof.
  intros He Ho. destruct x as [[| |now|[[[]|]|]] [[]|]]; cbn in *; try done;
    try (apply ObedientTaken; done); by apply ObedientQuiet.
Qed.

Lemma obedient_last x : obedient (inputs_of x).
Proof.
  destruct x as [[| |now|[[[]|]|]] [[]|]]; cbn in *; try apply ObedientNil; try (apply ObedientTaken; [done|apply ObedientNil|done]);
    by apply ObedientQuiet, ObedientNil.
Qed.

Lemma obedient_all T0 T1 : Forall goes_on T0 -> obedient (all_inputs T1) -> obedient (all_inputs (T0 ++ T1)).
Proof.
  unfold all_inputs. intros H Ho. induction H as [|x T0 Hx H IH]; [done|]. cbn. by apply obedient_turn.
Qed.

Lemma loop_obedient c script f T evs : loop_ok c script f T evs -> obedient (all_inputs T).
Proof.
  intros (_ & _ & _ & H). destruct f.
  - destruct H as (_ & _ & H). rewrite <- (app_nil_r T). by apply obedient_all; [|apply ObedientNil].
  - destruct H as (_ & T0 & x & -> & H & _). apply obedient_all; [done|]. unfold all_inputs. cbn. rewrite app_nil_r. apply obedient_last.
Qed.

(** Where the messages the session heard came from. *)
Lemma inputs_ok T : Forall (fun x => match x.1 with WsNext _ wall _ => in_range U64 wall | _ => True end) T ->
  Forall input_ok (all_inputs T).*1.
Proof.
  intros H. unfold all_inputs. induction H as [|x T Hx H IH]; [constructor|]. cbn. rewrite fmap_app. apply Forall_app. split; [|done].
  destruct x as [[| |now|[[[]|]|]] [a|]]; cbn in *; repeat (apply List.Forall_cons; [done|]); apply List.Forall_nil.
Qed.
End Connection.

(** ** The trace of the program *)

Definition main_state (e : MainEnd) : MainState := match e with Stopped m | Running m | Connected_still m => m end.
Definition has_deadline (deadline : option Z) : bool := match deadline with Some _ => true | None => false end.

(** What the session hears on the turn [a] whose connection had the trace [T]. *)
Definition turn_inputs (a : Attempt) (T : list (Select * option Action)) : list (Input * option Action) :=
  match at_connect a with Ok now => (Connected now, None) :: all_inputs T | Err _ => [] end.
Definition main_inputs (world : list Attempt) (Ts : list (list (Select * option Action))) : list (Input * option Action) :=
  mjoin (zip_with turn_inputs world Ts).

(** The pauses of the turns that heard a message or not, from the pause [b] on. *)
Fixpoint pauses (b : Z) (heard : list bool) : list Z :=
  match heard with
  | [] => []
  | h :: heard => let b := if h then SECOND else b in b :: pauses (Z.min (b * 2) MAX_BACKOFF) heard
  end.

(** How many turns ago a message was heard, or the first turn was. *)
Fixpoint quiet_turns (heard : nat -> bool) (k : nat) : nat :=
  match k with
  | O => O
  | S k' => if heard k then O else S (quiet_turns heard k')
  end.


Section Program.
Context (elapsed : Z -> Z) (args : Args) (deadline : option Z).

Lemma run_connection_ok a s k :
  exists f T evs, run_connection elapsed args (at_accepts a) (has_deadline deadline) s k (at_connect a) (at_script a) = Done f /\
    let c := flow_conn f in
    serves s (turn_inputs a T) evs (session c) /\ sink c = fold_left (handle elapsed) evs k /\
    got_message c = existsb is_text T /\ T.*1 `prefix_of` at_script a /\ obedient (turn_inputs a T) /\
    match f with Goes _ => T.*1 = at_script a /\ Forall (goes_on (has_deadline deadline)) T | Returns _ _ => True end.
Proof.
  unfold run_connection, turn_inputs, send. destruct (at_connect a) as [now|e].
  2: { eexists _, [], []. split; [reflexivity|]. cbn. do 3 (split; [done|]). split; [apply prefix_nil|]. split; [apply ObedientNil|done]. }
  cbn [sent length]. destruct (at_accepts a 0).
  - destruct (conn_loop_ok elapsed args (at_accepts a) (has_deadline deadline) (at_script a)
      (mkConn (on_connected s now) k false [subscribe_msg args])) as (f & T & evs & E & Hl).
    cbn in *. rewrite E. exists f, T, evs. split; [done|]. pose proof (loop_obedient _ _ _ _ _ _ _ _ _ Hl) as Ho.
    destruct Hl as (Hs & Hk & Hg & Hr). cbn in Hs, Hk, Hg.
    split; [by eapply (serves_cons _ _ _ [])|]. do 2 (split; [done|]).
    split; [destruct f; [by destruct Hr as [-> _]|by destruct Hr]|].
    split; [by apply ObedientQuiet|]. by destruct f; [destruct Hr as (? & ? & ?)|].
  - eexists _, [], []. split; [reflexivity|]. cbn. split; [by apply serves_one|]. do 2 (split; [done|]).
    split; [apply prefix_nil|]. split; [by apply ObedientQuiet, ObedientNil|done].
Qed.

(** How many of [n] turns were followed by a pause. *)
Definition paused_turns (e : MainEnd) (n : nat) : nat := match e with Running _ => n | _ => (n - 1)%nat end.

Definition main_ok (m : MainState) (world : list Attempt) (e : MainEnd) (Ts : list (list (Select * option Action)))
    (evs : list Event) : Prop :=
  let m' := main_state e in
  serves (m_session m) (main_inputs world Ts) evs (m_session m') /\
  m_sink m' = fold_left (handle elapsed) evs (m_sink m) /\
  obedient (main_inputs world Ts) /\ (length Ts <= length world)%nat /\
  Forall2 (fun a T => T.*1 `prefix_of` at_script a) (take (length Ts) world) Ts /\
  m_sleeps m' = m_sleeps m ++ take (paused_turns e (length Ts)) (pauses (m_backoff m) (map (existsb is_text) Ts)).

(** The turn gave [e]; a turn that pauses goes on with the backoff doubled. *)
Definition turn_end (m : MainState) (a : Attempt) (e : MainEnd) (heard : bool) : Prop :=
  let b := if heard then SECOND else m_backoff m in
  match e with
  | Running m' => m_sleeps m' = m_sleeps m ++ [b] /\ m_backoff m' = Z.min (b * 2) MAX_BACKOFF /\
      m_clock m' = m_clock m + at_lasts a + b + at_oversleeps a /\
      match deadline with Some d => m_clock m + at_lasts a + b < d | None => True end
  | Stopped m' | Connected_still m' => m_sleeps m' = m_sleeps m
  end.

Definition clock_fits (t : Z) : Prop := t + MAX_BACKOFF < 2 ^ 63 * SECOND.

Lemma main_turn_ok m a : SECOND <= m_backoff m <= MAX_BACKOFF -> clock_fits (m_clock m + at_lasts a) ->
  exists e T evs, main_turn elapsed args deadline m a = Done e /\
    serves (m_session m) (turn_inputs a T) evs (m_session (main_state e)) /\
    m_sink (main_state e) = fold_left (handle elapsed) evs (m_sink m) /\ obedient (turn_inputs a T) /\
    T.*1 `prefix_of` at_script a /\ turn_end m a e (existsb is_text T) /\
    match e with Connected_still _ => T.*1 = at_script a /\ Forall (goes_on (has_deadline deadline)) T | _ => True end.
Proof.
  intros Hb Hfit. unfold main_turn. destruct (run_connection_ok a (m_session m) (m_sink m)) as (f & T & evs & E & Hs & Hk & Hg & HT & Ho & Hr).
  change (match deadline with Some _ => true | None => false end) with (has_deadline deadline). rewrite E. cbn [outcome_bind].
  destruct f as [c|c r]; cbn [flow_conn] in *.
  { eexists _, T, evs. split; [reflexivity|]. by do 5 (split; [done|]). }
  rewrite Hg. set (b := if existsb is_text T then SECOND else m_backoff m).
  assert (SECOND <= b <= MAX_BACKOFF) as Hb' by (subst b; unfold MAX_BACKOFF, SECOND in *; destruct (existsb _ _); lia).
  set (stop := mkMain (session c) (sink c) b (m_clock m + at_lasts a) (m_sleeps m)).
  set (next := mkMain (session c) (sink c) (Z.min (b * 2) MAX_BACKOFF) (m_clock m + at_lasts a + b + at_oversleeps a) (m_sleeps m ++ [b])).
  assert (forall e, e = Stopped stop \/ (e = Running next /\ match deadline with Some d => m_clock m + at_lasts a + b < d | None => True end) ->
    exists e' T evs, Done e = Done e' /\
    serves (m_session m) (turn_inputs a T) evs (m_session (main_state e')) /\
    m_sink (main_state e') = fold_left (handle elapsed) evs (m_sink m) /\ obedient (turn_inputs a T) /\
    T.*1 `prefix_of` at_script a /\ turn_end m a e' (existsb is_text T) /\
    match e' with Connected_still _ => T.*1 = at_script a /\ Forall (goes_on (has_deadline deadline)) T | _ => True end) as Hfin.
  { intros e He. exists e, T, evs. split; [done|]. destruct He as [->|[-> Hd]]; (do 4 (split; [done|])); split; done. }
  destruct r as [[|r]|err]; [apply Hfin; by left|..].
  all: destruct deadline as [d|]; [|apply Hfin; right; done]; unfold instant_add;
    (rewrite (proj2 (Z.ltb_lt _ _)) by (unfold clock_fits in Hfit; lia)); cbn [outcome_bind];
    destruct (Z.leb_spec d (m_clock m + at_lasts a + b)); apply Hfin; auto.
Qed.

(** The time the turns of a world take, at most. *)
Fixpoint world_time (world : list Attempt) : Z :=
  match world with [] => 0 | a :: world => at_lasts a + MAX_BACKOFF + at_oversleeps a + world_time world end.
Definition forward (a : Attempt) : Prop := 0 <= at_lasts a /\ 0 <= at_oversleeps a.

Lemma world_time_nonneg world : Forall forward world -> 0 <= world_time world.
Proof. intros H. induction H as [|a world [Ha Hb] _ IH]; cbn; unfold MAX_BACKOFF, SECOND in *; lia. Qed.

Lemma main_inputs_nil world : main_inputs world [] = [].
Proof. by destruct world. Qed.
Lemma main_inputs_cons a world T Ts : main_inputs (a :: world) (T :: Ts) = turn_inputs a T ++ main_inputs world Ts.
Proof. done. Qed.

Lemma main_inputs_connected world Ts : starts_connected (main_inputs world Ts).
Proof.
  unfold main_inputs. revert Ts. induction world as [|a world IH]; intros [|T Ts]; cbn; try done.
  unfold turn_inputs at 1. destruct (at_connect a); [done|]. apply IH.
Qed.

Lemma main_ok_last m a world e T evs :
  serves (m_session m) (turn_inputs a T) evs (m_session (main_state e)) ->
  m_sink (main_state e) = fold_left (handle elapsed) evs (m_sink m) -> obedient (turn_inputs a T) ->
  T.*1 `prefix_of` at_script a -> m_sleeps (main_state e) = m_sleeps m ++ take (paused_turns e 1) (pauses (m_backoff m) [existsb is_text T]) ->
  main_ok m (a :: world) e [T] evs.
Proof.
  intros Hs Hk Ho HT Hp. unfold main_ok. rewrite main_inputs_cons, main_inputs_nil, app_nil_r.
  do 3 (split; [done|]). split; [cbn; lia|]. split; [by repeat constructor|done].
Qed.

Lemma main_ok_cons m a world m1 T evs1 e Ts evs2 :
  serves (m_session m) (turn_inputs a T) evs1 (m_session m1) ->
  m_sink m1 = fold_left (handle elapsed) evs1 (m_sink m) -> obedient (turn_inputs a T) ->
  T.*1 `prefix_of` at_script a -> turn_end m a (Running m1) (existsb is_text T) ->
  main_ok m1 world e Ts evs2 -> (Ts = [] -> e = Running m1) -> main_ok m (a :: world) e (T :: Ts) (evs1 ++ evs2).
Proof.
  intros Hs Hk Ho HT (Hsl & Hb & _) (Hs2 & Hk2 & Ho2 & Hl & HF & Hp) Hnil. unfold main_ok. rewrite main_inputs_cons. cbn [length].
  split; [by eapply serves_app|]. split; [by rewrite Hk2, Hk, fold_left_app|].
  split; [apply obedient_app; [done|done|apply main_inputs_connected]|]. split; [lia|]. cbn [take].
  split; [by constructor|]. rewrite Hp, Hsl, <- app_assoc. f_equal. cbn [map pauses].
  assert (paused_turns e (S (length Ts)) = S (paused_turns e (length Ts))) as ->.
  { destruct Ts as [|T' Ts]; [by rewrite Hnil|]. by destruct e; cbn; rewrite ?Nat.sub_0_r. }
  cbn. by rewrite Hb.
Qed.

Lemma main_loop_ok world : forall m, SECOND <= m_backoff m <= MAX_BACKOFF -> Forall forward world ->
  clock_fits (m_clock m + world_time world) ->
  exists e Ts evs, main_loop elapsed args deadline m world = Done e /\ main_ok m world e Ts evs /\
    (Ts = [] -> e = Running m).
Proof.
  induction world as [|a world IH]; intros m Hb Hf Hfit; cbn [main_loop].
  { exists (Running m), [], []. split; [done|]. split; [|done]. unfold main_ok. cbn. rewrite app_nil_r.
    do 2 (split; [done|]). split; [apply ObedientNil|]. split; [lia|]. split; [constructor|done]. }
  apply Forall_cons_1 in Hf as [[Ha1 Ha2] Hf]. pose proof (world_time_nonneg world Hf). cbn [world_time] in Hfit.
  destruct (main_turn_ok m a Hb) as (e & T & evs & E & Hs & Hk & Ho & HT & Hend & _);
    [unfold clock_fits, MAX_BACKOFF, SECOND in *; lia|].
  rewrite E. cbn [outcome_bind]. destruct e as [m1|m1|m1].
  - exists (Stopped m1), [T], evs. split; [done|]. split; [|done]. apply main_ok_last; try done. cbn in *. by rewrite app_nil_r.
  - destruct Hend as (Hsl & Hb1 & Hc & Hd).
    assert (SECOND <= (if existsb is_text T then SECOND else m_backoff m) <= MAX_BACKOFF) as Hb'
      by (destruct (existsb _ _); unfold MAX_BACKOFF, SECOND in *; lia).
    destruct (IH m1) as (e & Ts & evs2 & E2 & Hm & Hnil); [rewrite Hb1; unfold MAX_BACKOFF, SECOND in *; lia|done| |].
    { rewrite Hc. unfold clock_fits, MAX_BACKOFF, SECOND in *. lia. }
    exists e, (T :: Ts), (evs ++ evs2). split; [done|]. split; [|done]. by eapply main_ok_cons.
  - exists (Connected_still m1), [T], evs. split; [done|]. split; [|done]. apply main_ok_last; try done. cbn in *. by rewrite app_nil_r.
Qed.
End Program.

(** ** What the sink holds *)

Definition is_bbo (e : Event) : bool := match e with EvBbo _ => true | EvTrade _ => false end.
Definition quotes (evs : list Event) : list NormalizedBbo := omap (fun e => match e with EvBbo b => Some b | _ => None end) evs.
Definition trades_of (evs : list Event) : list UnifiedTrade := omap (fun e => match e with EvTrade t => Some t | _ => None end) evs.

Lemma ring_pow2 : pow2_capacity ring_capacity.
Proof. by exists 10. Qed.

Lemma try_push_cursor {T} N (s : SpscRingBuffer T) x s' r : try_push N s x = (s', r) ->
  producer_cursor s' = match r with Ok _ => producer_cursor s +[U64] 1 | Err _ => producer_cursor s end.
Proof.
  unfold try_push, start_push. destruct (_ <=? _); cbn; [destruct (_ <=? _); cbn|]; by intros [= <- <-].
Qed.

Lemma try_pop_cursor {T} N (s : SpscRingBuffer T) s' r : try_pop N s = (s', r) -> producer_cursor s' = producer_cursor s.
Proof.
  unfold try_pop, start_pop. destruct (cached_producer_cursor s <=? consumer_cursor s); cbn; [destruct (_ <=? _); cbn|].
  all: try destruct (buffer s !! _); cbn; by intros [= <- <-].
Qed.

(** After the events [evs], less than [2^62] of them. *)
Definition sink_holds (k : Sink) (evs : list Event) : Prop :=
  let n := Z.of_nat (length (quotes evs)) in
  spsc_rep ring_capacity (mkConf (ring k) PIdle CIdle) [] /\ producer_cursor (ring k) = n /\
  bbos k = n /\ trades k = Z.of_nat (length (trades_of evs)) /\
  buf k = match list.last (quotes evs) with Some b => bbo_wire b | None => replicate TOTAL_SBE_BBO_LEN 0 end /\
  Z.of_nat (length (process_ns k)) = Z.min n 1000000 /\ Z.of_nat (length (exchange_to_local_ns k)) = Z.min n 1000000.

Lemma sink_new_holds : exists sink, sink_new = Done sink /\ sink_holds sink [].
Proof.
  unfold sink_new. rewrite (spsc_new_pow2 ring_capacity Bbo_default ring_pow2). eexists. split; [reflexivity|].
  split; [apply (spsc_empty_rep ring_capacity Bbo_default ring_pow2)|done].
Qed.

Lemma hand_off (s : SpscRingBuffer NormalizedBbo) (b : NormalizedBbo) : spsc_rep ring_capacity (mkConf s PIdle CIdle) [] -> 0 <= producer_cursor s < 2 ^ 62 - 1 ->
  exists s1 s2, try_push ring_capacity s b = (s1, Ok tt) /\ try_pop ring_capacity s1 = (s2, Some b) /\
    spsc_rep ring_capacity (mkConf s2 PIdle CIdle) [] /\ producer_cursor s2 = producer_cursor s + 1.
Proof.
  intros Hr Hb. pose proof (try_push_rep ring_capacity s [] b ring_pow2 ltac:(lia) Hr) as (s1 & E1 & Hr1).
  pose proof (try_push_cursor _ _ _ _ _ E1) as Hc. cbn in Hc. rewrite wrap_id in Hc by mint.
  pose proof (try_pop_rep ring_capacity s1 _ ring_pow2 ltac:(lia) Hr1) as (s2 & E2 & Hr2).
  pose proof (try_pop_cursor _ _ _ _ E2). exists s1, s2. split; [done|]. split; [done|]. split; [done|lia].
Qed.

Lemma handle_holds elapsed k evs ev : Z.of_nat (length (evs ++ [ev])) < 2 ^ 62 - 1 -> sink_holds k evs ->
  sink_holds (handle elapsed k ev) (evs ++ [ev]).
Proof.
  unfold sink_holds. cbv zeta. intros Hn (Hr & Hc & Hb & Ht & Hbuf & Hp & Hd). rewrite length_app in Hn. cbn in Hn.
  assert (length (quotes evs) <= length evs)%nat as Hq by (unfold quotes; clear; induction evs as [|[] ? ?]; cbn; lia).
  assert (length (trades_of evs) <= length evs)%nat as Htr by (unfold trades_of; clear; induction evs as [|[] ? ?]; cbn; lia).
  unfold quotes, trades_of in *. rewrite !omap_app. destruct ev as [b|t]; cbn [handle omap list_omap].
  - destruct (hand_off (ring k) b Hr ltac:(lia)) as (s1 & s2 & -> & -> & Hr2 & Hc2).
    rewrite app_nil_r, last_snoc, length_app. cbn [length].
    assert ((encode_bbo_sbe b (buf k)).1 = bbo_wire b) as Hw.
    { assert (length (buf k) = TOTAL_SBE_BBO_LEN) as Hlen.
      { rewrite Hbuf. destruct (list.last _); [apply length_bbo_wire|done]. }
      rewrite encode_bbo_sbe_wire by lia. cbn [fst]. by rewrite drop_ge, app_nil_r by lia. }
    destruct (Z.ltb_spec (Z.of_nat (length (process_ns k))) 1000000); cbn; rewrite ?length_app; cbn [length];
      (split; [done|]); (split; [lia|]); (split; [rewrite Hb, wrap_id by mint; lia|]); (split; [done|]);
      (split; [done|lia]).
  - rewrite !app_nil_r, !length_app. cbn. split; [done|]. do 2 (split; [done|]).
    split; [rewrite Ht, wrap_id by mint; lia|]. done.
Qed.

Lemma sink_run elapsed evs2 : forall evs1 k, Z.of_nat (length (evs1 ++ evs2)) < 2 ^ 62 - 1 -> sink_holds k evs1 ->
  sink_holds (fold_left (handle elapsed) evs2 k) (evs1 ++ evs2).
Proof.
  induction evs2 as [|ev evs2 IH]; intros evs1 k Hn Hk; [by rewrite app_nil_r|]. cbn [fold_left].
  change (ev :: evs2) with ([ev] ++ evs2). rewrite app_assoc. apply IH; [by rewrite <- app_assoc|].
  apply handle_holds; [|done]. rewrite !length_app in *. cbn in *. lia.
Qed.

(** ** The pauses and the end *)

Lemma pauses_next (heard : list bool) : forall b (k : nat) (x : Z) (h : bool), pauses b heard !! k = Some x -> heard !! S k = Some h ->
  pauses b heard !! S k = Some (if h then SECOND else Z.min (x * 2) MAX_BACKOFF).
Proof.
  induction heard as [|h0 heard IH]; intros b k x h; [done|]. cbn [pauses]. destruct k as [|k].
  - cbn. intros [= <-]. destruct heard as [|h1 heard]; [done|]. cbn. intros [= ->]. by destruct h.
  - cbn. apply IH.
Qed.

(** The pause after turn [k]: a second, doubled for every turn since a message was heard, at most thirty. *)
Lemma pauses_closed (heard : list bool) (k : nat) : (k < length heard)%nat ->
  pauses SECOND heard !! k =
    Some (Z.min (2 ^ Z.of_nat (quiet_turns (fun i => nth i heard false) k) * SECOND) MAX_BACKOFF).
Proof.
  induction k as [|k IH]; intros Hk.
  - destruct heard as [|h heard]; [cbn in Hk; lia|]. by destruct h.
  - destruct (lookup_lt_is_Some_2 heard (S k) Hk) as [h Hh].
    rewrite (pauses_next _ _ _ _ h (IH ltac:(lia)) Hh). cbn [quiet_turns]. rewrite (nth_lookup_Some _ _ _ _ Hh).
    f_equal. destruct h; [done|]. rewrite Nat2Z.inj_succ, Z.pow_succ_r by lia.
    unfold MAX_BACKOFF, SECOND. assert (0 < 2 ^ Z.of_nat (quiet_turns (fun i => nth i heard false) k)) by (apply Z.pow_pos_nonneg; lia). lia.
Qed.

Lemma main_loop_stops elapsed args d world : forall m, SECOND <= m_backoff m <= MAX_BACKOFF -> Forall forward world ->
  Forall (fun a => In DeadlineReached (at_script a)) world -> clock_fits (m_clock m + world_time world) ->
  world <> [] -> d - m_clock m <= SECOND * Z.of_nat (length world) ->
  exists m', main_loop elapsed args (Some d) m world = Done (Stopped m').
Proof.
  induction world as [|a world IH]; intros m Hb Hf Hw Hfit Hne Hlen; [done|]. cbn [main_loop].
  apply Forall_cons_1 in Hf as [[Ha1 Ha2] Hf]. apply Forall_cons_1 in Hw as [Ha Hw].
  pose proof (world_time_nonneg world Hf). cbn [world_time] in Hfit.
  destruct (main_turn_ok elapsed args (Some d) m a Hb) as (e & T & evs & E & _ & _ & _ & _ & Hend & Hc);
    [unfold clock_fits, MAX_BACKOFF, SECOND in *; lia|].
  rewrite E. cbn [outcome_bind]. destruct e as [m1|m1|m1]; [by exists m1| |].
  - destruct Hend as (_ & Hb1 & Hclk & Hd).
    assert (SECOND <= (if existsb is_text T then SECOND else m_backoff m) <= MAX_BACKOFF) as Hb'
      by (destruct (existsb _ _); unfold MAX_BACKOFF, SECOND in *; lia).
    apply IH; try done.
    + rewrite Hb1. unfold MAX_BACKOFF, SECOND in *; lia.
    + rewrite Hclk. unfold clock_fits, MAX_BACKOFF, SECOND in *. lia.
    + intros ->. cbn in Hlen. lia.
    + cbn [length] in Hlen. lia.
  - destruct Hc as [HT Hg]. rewrite <- HT in Ha. apply list_elem_of_In, list_elem_of_fmap in Ha as ([x ans] & Ex & Hx). cbn in Ex. subst x.
    rewrite List.Forall_forall in Hg. apply list_elem_of_In in Hx. specialize (Hg _ Hx). done.
Qed.

Ltac one_more := rewrite fmap_app, count_if_app; cbn [fmap list_fmap fst]; rewrite count_if_one; cbn [is_message].

(** The session has counted the messages it was given. *)
Lemma serves_messages names stale tr evs s : serves (session_new names stale) tr evs s ->
  messages (stats s) = wrap U64 (count_if is_message tr.*1).
Proof.
  intros Hs.
  destruct (run_invariant (fun s _ tr => messages (stats s) = wrap U64 (count_if is_message tr.*1)) tr.*1) with
    (s := session_new names stale) (out := @nil Event) (tr := @nil (Input * option Action)) as (s' & out & acts & E & Hl & HI); [|done|].
  - intros s1 out tr1 i _ H1. destruct i as [now|payload t1 now|a|now]; cbn.
    + do 3 eexists. split; [reflexivity|]. one_more. by rewrite Z.add_0_r.
    + destruct (on_message_effect s1 payload t1 now out) as (s' & out' & a & -> & He).
      do 3 eexists. split; [reflexivity|]. one_more. rewrite <- wrap_add_l, <- H1.
      assert (exists n, counted (received s1 now) s' n a) as (n & _ & _ & -> & _) by (inversion He; subst; eauto).
      by destruct s1 as [? ? ? []].
    + do 3 eexists. split; [reflexivity|]. one_more. rewrite Z.add_0_r, <- H1. by destruct s1 as [? ? ? []], a.
    + do 3 eexists. split; [reflexivity|]. one_more. by rewrite Z.add_0_r.
  - unfold serves in Hs. rewrite Hs in E. injection E as <- <- <-. rewrite HI. cbn [app]. by rewrite fst_zip by lia.
Qed.

Definition reading_ok (e : Select) : Prop := match e with WsNext _ wall _ => in_range U64 wall | _ => True end.

Lemma main_inputs_ok world : Forall (fun a => Forall reading_ok (at_script a)) world ->
  forall Ts, Forall2 (fun a T => T.*1 `prefix_of` at_script a) (take (length Ts) world) Ts ->
  Forall input_ok (main_inputs world Ts).*1.
Proof.
  intros H. induction H as [|a world Ha H IH]; intros [|T Ts] HF; [constructor..|].
  rewrite main_inputs_cons, fmap_app. apply Forall_app. apply Forall2_cons_1 in HF as [[l Hl] HF]. split; [|by apply IH].
  rewrite Hl in Ha. apply Forall_app in Ha as [Ha _].
  assert (Forall (reading_ok ∘ fst) T) as HT by (by apply Forall_fmap).
  unfold turn_inputs. destruct (at_connect a); [|constructor]. apply Forall_cons_2; [done|]. apply inputs_ok.
  eapply List.Forall_impl; [|exact HT]. by intros [[] ?].
Qed.

Lemma main_init_backoff args start sink : SECOND <= m_backoff (main_init args start sink) <= MAX_BACKOFF.
Proof. unfold MAX_BACKOFF, SECOND. cbn. unfold SECOND. lia. Qed.

Module Runner.

(** C38: a connection ends exactly at the first event that ends one (the deadline, an interrupt, the end of
    the stream, a close, a socket error, a reconnection asked by the session) or at the first send that fails:
    every send before is accepted, and the one that fails is the next message that was due.
    Until then it answers each ping with its pong and each resubscription the session asks for with
    unsubscribe and subscribe, in order, and sends nothing else; and what it does to the session is to pass on the
    ticks and texts and to take each action asked for before anything else. *)
Theorem connection_protocol (elapsed : Z -> Z) (args : Args) (accepts : nat -> bool) (deadline : bool) (c : Conn)
    (script : list Select) :
  exists f T evs, conn_loop elapsed args accepts deadline c script = Done f /\
    let c' := flow_conn f in
    run (session c) [] (all_inputs T).*1 = Done (session c', evs, (all_inputs T).*2) /\ obedient (all_inputs T) /\
    sink c' = fold_left (handle elapsed) evs (sink c) /\
    match f with
    | Goes _ => T.*1 = script /\ Forall (goes_on deadline) T /\ all_sent accepts c c' (all_replies args T)
    | Returns _ r => T.*1 `prefix_of` script /\
        exists T0 x, T = T0 ++ [x] /\ Forall (goes_on deadline) T0 /\
          ((ending deadline x = Some r /\ all_sent accepts c c' (all_replies args T)) \/
           (goes_on deadline x /\ r = Err WsError /\ send_failed accepts c c' (all_replies args T)))
    end.
Proof.
  destruct (conn_loop_ok elapsed args accepts deadline script c) as (f & T & evs & E & Hl).
  pose proof (loop_obedient _ _ _ _ _ _ _ _ _ Hl) as Ho. destruct Hl as (Hs & Hk & _ & Hr).
  exists f, T, evs. split; [done|]. do 3 (split; [done|]). by destruct f; [destruct Hr as (? & ? & ?)|].
Qed.

(** C3: the whole program, for any sequence of attempts and any failure of the socket, does not panic and is a run of the
    session that starts with the arguments' products: the session hears of every connection and message and
    of nothing else, and each action it asks for is taken at once.  So the trades handed on are distinct over
    all reconnections, each record is well formed, each quote has crossed the ring in order, leaving it
    empty, and the last one is the frame in the buffer, byte for byte, which decodes to it; the counters and the exit code
    are those of the messages heard. *)
Theorem feed_delivers (elapsed : Z -> Z) (args : Args) (start : Z) (world : list Attempt)
    (Hf : Forall forward world) (Hr : Forall (fun a => Forall reading_ok (at_script a)) world)
    (Hp : Z.of_nat (length (arg_products args)) < 4294967295) (Hclock : clock_fits (start + world_time world))
    (Hd : start + seconds args * SECOND < 2 ^ 63 * SECOND) :
  exists e Ts evs, main elapsed args start world = Done e /\
    Forall2 (fun a T => T.*1 `prefix_of` at_script a) (take (length Ts) world) Ts /\
    let m := main_state e in let tr := main_inputs world Ts in
    run (session_new (arg_products args) STALE_AFTER_MS) [] tr.*1 = Done (m_session m, evs, tr.*2) /\ obedient tr /\
    (forall mk, StronglySorted Z.lt (trade_ids mk evs)) /\ Forall event_ok evs /\
    (Z.of_nat (length evs) < 2 ^ 62 - 1 ->
       sink_holds (m_sink m) evs /\
       forall b, list.last (quotes evs) = Some b -> decode_bbo_sbe (buf (m_sink m)) = Ok b) /\
    (count_if is_message tr.*1 < modulus U64 ->
       exit_code args m = if count_if is_message tr.*1 <? min_messages args then 1 else 0).
Proof.
  destruct sink_new_holds as (sink & Esink & Hsink).
  assert (exists deadline, main_deadline args start = Done deadline) as (deadline & Edl).
  { unfold main_deadline, instant_add. destruct (seconds args =? 0); [by eexists|]. rewrite (proj2 (Z.ltb_lt _ _)) by done. by eexists. }
  destruct (main_loop_ok elapsed args deadline world (main_init args start sink) (main_init_backoff args start sink) Hf Hclock)
    as (e & Ts & evs & E & (Hs & Hk & Ho & Hl & HF & _) & _).
  exists e, Ts, evs. unfold main. rewrite Esink. cbn [outcome_bind]. rewrite Edl. split; [done|]. split; [done|]. cbn zeta. split; [done|]. split; [done|].
  pose proof (dedup_run _ [] (main_inputs world Ts).*1 (dedup_inv_new (arg_products args) STALE_AFTER_MS Hp)) as (s & out & acts & Er & _ & HI).
  unfold serves in Hs. cbn [main_init m_session] in Hs. rewrite Hs in Er. injection Er as <- <- <-.
  assert (Forall event_ok evs) as Hev by (by eapply (run_ok _ _ [] _ _ _ (main_inputs_ok _ Hr _ HF) (session_new_ok _ _)); [constructor|]).
  split; [apply HI|]. split; [done|]. split.
  - intros Hn. pose proof (sink_run elapsed evs [] sink Hn Hsink) as Hh. cbn [main_init m_sink] in Hk. rewrite <- Hk in Hh. cbn [app] in Hh. split; [done|].
    intros b Hb. destruct Hh as (_ & _ & _ & _ & -> & _). rewrite Hb, <- (app_nil_r (bbo_wire b)).
    apply decode_bbo_wire. apply list.last_Some_elem_of in Hb. unfold quotes in Hb. 
    apply list_elem_of_omap in Hb as (ev & Hin & Hev'). destruct ev as [b'|]; [|done]. injection Hev' as ->.
    apply (proj1 (list.Forall_forall _ _) Hev _ Hin).
  - intros Hc. unfold exit_code. rewrite (serves_messages (arg_products args) STALE_AFTER_MS _ evs _ Hs).
    rewrite wrap_id; [done|]. unfold count_if in *. mint.
Qed.

(** C39: with a time limit of n seconds the program stops by itself: whatever fails, after at most n attempts
    to connect, provided each connection that stays up sees the deadline.  Between attempts it pauses for
    one second after hearing a message, and for twice as long after each attempt that heard none, up to thirty. *)
Theorem stops_at_deadline (elapsed : Z -> Z) (args : Args) (start : Z) (world : list Attempt)
    (Hf : Forall forward world) (Hclock : clock_fits (start + world_time world))
    (Hd : start + seconds args * SECOND < 2 ^ 63 * SECOND) (Hs : 0 < seconds args <= Z.of_nat (length world))
    (Hw : Forall (fun a => In DeadlineReached (at_script a)) world) :
  exists m Ts, main elapsed args start world = Done (Stopped m) /\ (length Ts <= length world)%nat /\
    Forall2 (fun a T => T.*1 `prefix_of` at_script a) (take (length Ts) world) Ts /\
    forall k x, m_sleeps m !! k = Some x ->
      x = Z.min (2 ^ Z.of_nat (quiet_turns (fun i => nth i (map (existsb is_text) Ts) false) k) * SECOND) MAX_BACKOFF.
Proof.
  destruct sink_new_holds as (sink & Esink & _).
  unfold main, main_deadline, instant_add. rewrite Esink, (proj2 (Z.eqb_neq _ _)), (proj2 (Z.ltb_lt _ _)) by lia. cbn [outcome_bind].
  set (d := start + seconds args * SECOND). pose proof (main_init_backoff args start sink) as Hb.
  destruct (main_loop_stops elapsed args d world (main_init args start sink) Hb Hf Hw Hclock) as (m & Em);
    [by intros ->; cbn in Hs; lia|subst d; cbn; unfold SECOND; lia|].
  destruct (main_loop_ok elapsed args (Some d) world _ Hb Hf Hclock) as (e & Ts & evs & E & (_ & _ & _ & Hl & HF & Hp) & _).
  rewrite Em in E. injection E as <-. exists m, Ts. do 3 (split; [done|]). intros k x Hk.
  cbn [main_state main_init m_sleeps m_backoff app] in Hp. rewrite Hp in Hk. apply lookup_take_Some in Hk as [Hk Hlt].
  assert (k < length (map (existsb is_text) Ts))%nat as Hlen.
  { rewrite length_map. cbn [paused_turns] in Hlt. lia. }
  rewrite (pauses_closed _ _ Hlen) in Hk. by injection Hk as <-.
Qed.

(** A failed attempt, then a connection with a tick, a quote, a ping and the deadline. *)
Definition demo_text : bytes := LiveSession.demo_ticker (lit "5") (lit "7").
Definition demo_world : list Attempt :=
  [mkAttempt (Err ConnectError) [DeadlineReached] (fun _ => true) 5 6;
   mkAttempt (Ok 10) [TimerTick 10; WsNext (Some (Ok (WsText demo_text))) 99 12; WsNext (Some (Ok (WsPing [1]))) 99 13; DeadlineReached]
     (fun _ => true) SECOND 0].
Definition demo_args : Args := mkArgs DEFAULT_URL [lit "BTC-USD"; lit "ETH-USD"] 2 1.

(** Two pings on a socket that takes one message: the second pong is the send that fails. *)
Definition demo_conn : Conn :=
  mkConn (session_new [lit "BTC-USD"] 1000) (mkSink (spsc_empty ring_capacity Bbo_default) [] 0 0 [] []) false [].
Definition demo_pings : list Select := [WsNext (Some (Ok (WsPing [1]))) 9 9; WsNext (Some (Ok (WsPing [2]))) 9 9; CtrlC].
Definition takes_one (n : nat) : bool := (n <? 1)%nat.

Lemma connection_protocol_witness :
  exists c' T, conn_loop (fun n => n) demo_args takes_one false demo_conn demo_pings = Done (Returns c' (Err WsError)) /\
    sent c' = [WsPong [1]] /\ T.*1 `prefix_of` demo_pings /\ send_failed takes_one demo_conn c' (all_replies demo_args T).
Proof.
  destruct (connection_protocol (fun n => n) demo_args takes_one false demo_conn demo_pings) as (f & T & evs & E & _ & _ & _ & Hr).
  assert (match conn_loop (fun n => n) demo_args takes_one false demo_conn demo_pings with
    Done (Returns c' r) => r = Err WsError /\ sent c' = [WsPong [1]] | _ => False end) as Hf by (vm_compute; done).
  rewrite E in Hf. destruct f as [|c' r]; [done|]. destruct Hf as [-> Hsent].
  destruct Hr as (HT & T0 & x & HTx & _ & Hx). exists c', T. split; [exact E|]. split; [exact Hsent|]. split; [exact HT|].
  destruct Hx as [[Hx _]|(_ & _ & Hfail)]; [|exact Hfail]. exfalso.
  assert (x.1 ∈ demo_pings) as Hin.
  { destruct HT as [l ->]. rewrite HTx, fmap_app. set_solver. }
  unfold demo_pings in Hin. rewrite !elem_of_cons, elem_of_nil in Hin. destruct x as [e a]. cbn in Hin.
  destruct Hin as [->|[->|[->|[]]]]; discriminate Hx.
Defined.

Lemma feed_delivers_witness :
  exists e Ts evs, main (fun n => n) demo_args 0 demo_world = Done e /\
    run (session_new (arg_products demo_args) STALE_AFTER_MS) [] (main_inputs demo_world Ts).*1 =
      Done (m_session (main_state e), evs, (main_inputs demo_world Ts).*2) /\ exit_code demo_args (main_state e) = 0.
Proof.
  destruct (feed_delivers (fun n => n) demo_args 0 demo_world) as (e & Ts & evs & E & _ & Hr & _);
    [repeat constructor; by_eval|repeat constructor; by_eval|by_eval|by_eval|by_eval|].
  exists e, Ts, evs. split; [exact E|]. split; [exact Hr|].
  assert (main (fun n => n) demo_args 0 demo_world = Done e) as E' by exact E. vm_compute in E'. injection E' as <-. reflexivity.
Defined.

Lemma stops_at_deadline_witness :
  exists m (Ts : list (list (Select * option Action))), main (fun n => n) demo_args 0 demo_world = Done (Stopped m) /\ (length Ts <= 2)%nat /\ m_sleeps m = [SECOND].
Proof.
  destruct (stops_at_deadline (fun n => n) demo_args 0 demo_world) as (m & Ts & E & Hl & _);
    [repeat constructor; by_eval|by_eval|by_eval|by_eval|repeat constructor; cbn; tauto|].
  exists m, Ts. split; [exact E|]. split; [exact Hl|].
  assert (main (fun n => n) demo_args 0 demo_world = Done (Stopped m)) as E' by exact E. vm_compute in E'. injection E' as <-. reflexivity.
Defined.

(** The quote of the demonstration, decoded from the buffer, and the summary. *)
Example demo_end :
  match main (fun n => 100 + n) demo_args 0 demo_world with
  | Done (Stopped m) => bbos (m_sink m) = 1 /\ trades (m_sink m) = 1 /\ summary_of (m_sink m) = (100, 100, 1%nat, Some 99) /\
      decode_bbo_sbe (buf (m_sink m)) = Ok (mkBbo (mkTelemetry 0 99 0 0) 1 2 0 5 7732856000000 100000000 7732857000000 200000000 0 0)
  | _ => False
  end.
Proof. vm_compute. auto. Qed.

(** The flags that say [a]. *)
Definition flags_of (a : Args) : list bytes :=
  [lit "--url"; url a; lit "--products"; join [44] (arg_products a); lit "--seconds"; digits 20 (seconds a);
   lit "--min-messages"; digits 20 (min_messages a)].

(** Arguments written as flags are read back. *)
Lemma args_roundtrip (a : Args) : arg_products a <> [] ->
  Forall (fun p => trim p = p /\ Forall (fun b => b <> 44) p) (arg_products a) ->
  in_range U64 (seconds a) -> in_range U64 (min_messages a) -> parse_args (flags_of a) = Ok a.
Proof.
  intros Hne Hp Hs Hm. unfold parse_args, flags_of. cbn [parse_args_from].
  unfold set_flag. repeat first [rewrite (bool_decide_true (_ = _)) by done | rewrite (bool_decide_false (_ = _)) by done].
  cbn [result_bind url arg_products seconds min_messages]. rewrite !parse_uint_digits by done.
  rewrite split_char_join; [|done|eapply List.Forall_impl; [|exact Hp]; naive_solver].
  assert (map trim (arg_products a) = arg_products a) as ->; [|by destruct a].
  clear Hne. induction Hp as [|p l [Hx _] _ IH]; cbn; [done|]. by rewrite Hx, IH.
Qed.

(** A time limit that does not fit the clock ends the program with a panic. *)
Example huge_limit_panics :
  match parse_args [lit "--seconds"; lit "18446744073709551615"] with
  | Ok args => main (fun n => n) args 0 [] = Panic
  | Err _ => False
  end.
Proof. vm_compute. reflexivity. Qed.

Example sub_msg_text :
  sub_msg (lit "subscribe") [lit "BTC-USD"; lit "ETH-USD"] =
    jlit "{'type':'subscribe','product_ids':['BTC-USD','ETH-USD'],'channels':['ticker','heartbeat']}".
Proof. reflexivity. Qed.
End Runner.
