(* ===== verification/Health.v ===== *)
(** * core-engine/src/health.rs: the health probes

    The status shared with the engine, the answer to a request, and the accept loop over what the
    listener gives.  The contract is an HTTP client's view: a status line and a body of the announced
    length, chosen by the raw bytes of the request. *)

From S2P Require Import Prelude Bytes Decimal Text.

(** ** The standard library: [String::from_utf8_lossy] *)

(** The rest of a character of several bytes whose second byte is good or not: the indexes of the bytes
    to check after it. *)
Definition utf8_tail (at_ : nat -> Z) (second_ok : bool) (more : list nat) : nat * bool :=
  if second_ok then
    match more with
    | [] => (2%nat, true)
    | i :: more =>
        if cont_byte (at_ i) then
          match more with
          | [] => (3%nat, true)
          | j :: _ => if cont_byte (at_ j) then (4%nat, true) else (3%nat, false)
          end
        else (2%nat, false)
    end
  else (1%nat, false).

(** The length of the first character, or of the first maximal piece that is none. *)
Definition utf8_chunk (l : bytes) : nat * bool :=
  let at_ i := nth i l 0 in
  let b0 := at_ 0%nat in
  let b1 := at_ 1%nat in
  if b0 <? 128 then (1%nat, true)
  else if (194 <=? b0) && (b0 <=? 223) then utf8_tail at_ (cont_byte b1) []
  else if (224 <=? b0) && (b0 <=? 239) then
    utf8_tail at_ (if b0 =? 224 then (160 <=? b1) && (b1 <=? 191)
                   else if b0 =? 237 then (128 <=? b1) && (b1 <=? 159) else cont_byte b1) [2%nat]
  else if (240 <=? b0) && (b0 <=? 244) then
    utf8_tail at_ (if b0 =? 240 then (144 <=? b1) && (b1 <=? 191)
                   else if b0 =? 244 then (128 <=? b1) && (b1 <=? 143) else cont_byte b1) [2%nat; 3%nat]
  else (1%nat, false).

(** Every chunk has a byte, so the length of the text is enough fuel. *)
Fixpoint lossy_fuel (fuel : nat) (l : bytes) : bytes :=
  match fuel, l with
  | S fuel, _ :: _ =>
      let (n, ok) := utf8_chunk l in
      (if ok then take n l else [239; 191; 189]) ++ lossy_fuel fuel (drop n l)
  | _, _ => []
  end.
Definition from_utf8_lossy (l : bytes) : bytes := lossy_fuel (length l) l.

(** ** The status *)

Record HealthStatus := mkHealth {
  is_ready : bool;
  ticks_processed : Z;
  start_time : Z;
  tier_code : Z;
}.

Definition health_new (now : Z) : HealthStatus := mkHealth false 0 now 1.
Definition mark_ready (s : HealthStatus) : HealthStatus := mkHealth true (ticks_processed s) (start_time s) (tier_code s).
Definition set_tier (s : HealthStatus) (tier : Z) : HealthStatus := mkHealth (is_ready s) (ticks_processed s) (start_time s) tier.
Definition inc_ticks (s : HealthStatus) (count : Z) : HealthStatus :=
  mkHealth (is_ready s) (ticks_processed s +[U64] count) (start_time s) (tier_code s).

(** ** The answers *)

Definition crlf : bytes := [13; 10].
Definition nl : bytes := [10].
Definition show_u64 (n : Z) : bytes := digits 20 n.

Definition http_response (status content_type body : bytes) : bytes :=
  lit "HTTP/1.1 " ++ status ++ crlf ++ lit "Content-Type: " ++ content_type ++ crlf ++
  lit "Content-Length: " ++ show_u64 (Z.of_nat (length body)) ++ crlf ++ lit "Connection: close" ++ crlf ++ crlf ++ body.

Definition metrics_body (uptime ticks tier : Z) : bytes :=
  lit "# HELP cmp_engine_uptime_seconds Engine uptime in seconds" ++ nl ++
  lit "# TYPE cmp_engine_uptime_seconds gauge" ++ nl ++
  lit "cmp_engine_uptime_seconds " ++ show_u64 uptime ++ nl ++
  lit "# HELP cmp_engine_ticks_processed_total Total market data ticks processed" ++ nl ++
  lit "# TYPE cmp_engine_ticks_processed_total counter" ++ nl ++
  lit "cmp_engine_ticks_processed_total " ++ show_u64 ticks ++ nl ++
  lit "# HELP cmp_engine_active_tier Negotiated operational hardware tier (1, 2, or 3)" ++ nl ++
  lit "# TYPE cmp_engine_active_tier gauge" ++ nl ++
  lit "cmp_engine_active_tier " ++ show_u64 tier ++ nl.

(** [start_time.elapsed().as_secs()], at the clock reading [now], in nanoseconds. *)
Definition uptime_secs (now : Z) (s : HealthStatus) : Z := Z.max 0 (now - start_time s) / 1000000000.

Definition handle_request (now : Z) (req_bytes : bytes) (s : HealthStatus) : bytes :=
  let req_str := from_utf8_lossy req_bytes in
  let first_line := match lines req_str with line :: _ => line | [] => [] end in
  if is_prefix (lit "GET /healthz") first_line then
    http_response (lit "200 OK") (lit "text/plain") (lit "OK" ++ nl)
  else if is_prefix (lit "GET /readyz") first_line then
    if is_ready s then http_response (lit "200 OK") (lit "text/plain") (lit "READY" ++ nl)
    else http_response (lit "503 Service Unavailable") (lit "text/plain") (lit "INITIALIZING" ++ nl)
  else if is_prefix (lit "GET /metrics") first_line then
    http_response (lit "200 OK") (lit "text/plain; version=0.0.4")
      (metrics_body (uptime_secs now s) (ticks_processed s) (tier_code s))
  else http_response (lit "404 Not Found") (lit "text/plain") (lit "Not Found" ++ nl).

(** ** The accept loop *)

(** What one [accept] gives: a connection, with what its one read gives, or an error. *)
Inductive accepted := Connection (read : result bytes unit) | NoConnection | AcceptError.
Inductive serve_action := Respond (response : bytes) | CloseUnanswered | SleepMillis (ms : Z).

(** At most 1024 bytes are read. *)
Definition serve (now : Z) (s : HealthStatus) (a : accepted) : serve_action :=
  match a with
  | Connection (Ok req) =>
      let req := take 1024 req in
      if (0 <? length req)%nat then Respond (handle_request now req s) else CloseUnanswered
  | Connection (Err _) => CloseUnanswered
  | NoConnection => SleepMillis 10
  | AcceptError => SleepMillis 20
  end.

(** [stop i] and [status i] are what the thread sees at turn [i]. *)
Fixpoint serve_loop (stop : nat -> bool) (status : nat -> HealthStatus) (clock : nat -> Z) (i : nat) (listener : list accepted) :
    list serve_action :=
  match listener with
  | [] => []
  | a :: listener => if stop i then [] else serve (clock i) (status i) a :: serve_loop stop status clock (S i) listener
  end.

(** ** The server: its thread and its owner *)

(** The thread is about to load the stop flag, to accept, or has returned; the owner uses the server, has
    stored the flag and joins the thread, or has dropped the server. *)
Inductive server_thread := TTest | TAccept | TEnd.
Inductive server_owner := OUse | OJoin | ODropped.

(** [listener] is what the accepts to come give; [served] what the thread did, and their number is its turn. *)
Record HealthServer := mkServer {
  listener : list accepted;
  stop_signal : bool;
  handle : server_thread;
  owner : server_owner;
  served : list serve_action;
}.

(** The results of [bind], [set_nonblocking] and [try_clone]. *)
Definition health_bind {E} (bound nonblocking cloned : result unit E) (accepts : list accepted) : result HealthServer E :=
  let? _ := bound in
  let? _ := nonblocking in
  let? _ := cloned in
  Ok (mkServer accepts false TTest OUse []).

Section Server.
Context (status : nat -> HealthStatus) (clock : nat -> Z).

(** A listener with nothing to give would block. *)
Definition thread_turn (s : HealthServer) : HealthServer :=
  match handle s with
  | TTest => mkServer (listener s) (stop_signal s) (if stop_signal s then TEnd else TAccept) (owner s) (served s)
  | TAccept =>
      let i := length (served s) in
      let (a, rest) := match listener s with [] => (NoConnection, []) | a :: rest => (a, rest) end in
      mkServer rest (stop_signal s) TTest (owner s) (served s ++ [serve (clock i) (status i) a])
  | TEnd => s
  end.

(** [drop]: store the flag, then join. *)
Definition drop_turn (s : HealthServer) : HealthServer :=
  match owner s with
  | OUse => mkServer (listener s) true (handle s) OJoin (served s)
  | OJoin => match handle s with TEnd => mkServer (listener s) (stop_signal s) TEnd ODropped (served s) | _ => s end
  | ODropped => s
  end.

(** Who takes each turn. *)
Inductive server_turn := ThreadTurn | DropTurn.
Definition server_step (s : HealthServer) (t : server_turn) : HealthServer :=
  match t with ThreadTurn => thread_turn s | DropTurn => drop_turn s end.
Definition server_run (sched : list server_turn) (s : HealthServer) : HealthServer := fold_left server_step sched s.
Definition thread_turns (sched : list server_turn) : nat :=
  length (List.filter (fun t => match t with ThreadTurn => true | DropTurn => false end) sched).
End Server.

(** ** The client's view *)

(** A line ends with a carriage return and a newline. *)
Fixpoint read_line (l : bytes) : option (bytes * bytes) :=
  match l with
  | 13 :: 10 :: rest => Some ([], rest)
  | b :: l => (fun r => (b :: r.1, r.2)) <$> read_line l
  | [] => None
  end.
(** The headers up to the empty line: the announced length and the rest. *)
Fixpoint read_headers (fuel : nat) (len : option Z) (l : bytes) : option (option Z * bytes) :=
  match fuel with
  | O => None
  | S fuel =>
      let- r := read_line l in
      match r.1 with
      | [] => Some (len, r.2)
      | h => read_headers fuel (if is_prefix (lit "Content-Length: ") h then Some (dec (drop 16 h)) else len) r.2
      end
  end.
(** The status and the body of a response that announces its length truly. *)
Definition client_view (response : bytes) : option (bytes * bytes) :=
  let- r := read_line response in
  let- h := read_headers 16 None r.2 in
  match h.1 with
  | Some len => if (Z.of_nat (length h.2) =? len) && is_prefix (lit "HTTP/1.1 ") r.1 then Some (drop 9 r.1, h.2) else None
  | None => None
  end.

(** The contract, on the raw bytes of the request. *)
Definition probe_spec (now : Z) (req : bytes) (s : HealthStatus) : bytes * bytes :=
  if is_prefix (lit "GET /healthz") req then (lit "200 OK", lit "OK" ++ nl)
  else if is_prefix (lit "GET /readyz") req then
    if is_ready s then (lit "200 OK", lit "READY" ++ nl) else (lit "503 Service Unavailable", lit "INITIALIZING" ++ nl)
  else if is_prefix (lit "GET /metrics") req then
    (lit "200 OK", metrics_body (uptime_secs now s) (ticks_processed s) (tier_code s))
  else (lit "404 Not Found", lit "Not Found" ++ nl).

(** ** Routing looks only at the raw prefix *)

(** A printable pattern. *)
Definition plain (pat : bytes) : Prop := Forall (fun b => 32 <= b <= 126) pat.
(** A line. *)
Definition no_cr (l : bytes) : Prop := Forall (fun b => b <> 13) l.
(** Literals are both, or not, by computation. *)
Ltac chars := unfold no_cr, plain; apply (bool_decide_unpack _); vm_compute; exact I.

Lemma utf8_tail_pos at_ ok more : (1 <= (utf8_tail at_ ok more).1)%nat.
Proof.
  unfold utf8_tail. destruct ok; [|cbn; lia]. destruct more as [|i [|j more]]; [cbn; lia| |];
    destruct (cont_byte (at_ i)); cbn; try lia. destruct (cont_byte (at_ j)); cbn; lia.
Qed.
Lemma utf8_chunk_pos l : (1 <= (utf8_chunk l).1)%nat.
Proof.
  unfold utf8_chunk. repeat match goal with
    | |- context [if ?b then (1%nat, true) else _] => destruct b; [cbn; lia|]
    | |- context [if ?b then utf8_tail ?x ?y ?z else _] => destruct b; [apply utf8_tail_pos|]
    end. cbn. lia.
Qed.

Lemma lossy_prefix pat : forall fuel l, plain pat -> (length l <= fuel)%nat -> is_prefix pat (lossy_fuel fuel l) = is_prefix pat l.
Proof.
  induction pat as [|p pat IH]; intros fuel l Hp Hl; [done|].
  destruct fuel as [|fuel]; [destruct l; [done|cbn in Hl; lia]|]. destruct l as [|b l]; [done|]. cbn [length] in Hl.
  apply Forall_cons_1 in Hp as [Hp Hps]. cbn [lossy_fuel]. pose proof (utf8_chunk_pos (b :: l)) as Hpos.
  destruct (Z.ltb_spec b 128) as [Hb|Hb].
  - assert (utf8_chunk (b :: l) = (1%nat, true)) as ->
      by (unfold utf8_chunk; cbn [nth]; by rewrite (proj2 (Z.ltb_lt _ _))).
    cbn [take drop app is_prefix]. rewrite take_0, drop_0. cbn [app]. by rewrite IH by (done || lia).
  - destruct (utf8_chunk (b :: l)) as [[|n] ok]; cbn [fst] in Hpos; [lia|].
    transitivity false; [|symmetry; cbn [is_prefix]; by rewrite (proj2 (Z.eqb_neq _ _)) by lia].
    destruct ok; cbn [take app is_prefix]; rewrite (proj2 (Z.eqb_neq _ _)) by lia; done.
Qed.

Lemma split_prefix pat l piece pieces : plain pat -> split_char 10 l = piece :: pieces -> is_prefix pat piece = is_prefix pat l.
Proof.
  revert l piece pieces. induction pat as [|p pat IH]; intros l piece pieces Hp E; [done|].
  apply Forall_cons_1 in Hp as [Hp Hps]. destruct l as [|b l]; cbn in E; [by injection E as <- <-|].
  destruct (split_char_cons 10 l) as (q & qs & Eq). rewrite Eq in E. cbn [is_prefix].
  destruct (Z.eqb_spec b 10) as [->|Hb]; injection E as <- <-.
  - symmetry. by rewrite (proj2 (Z.eqb_neq _ _)) by lia.
  - cbn [is_prefix]. by rewrite (IH _ _ _ Hps Eq).
Qed.

Lemma is_prefix_snoc pat l c : plain pat -> ~ (32 <= c <= 126) -> is_prefix pat (l ++ [c]) = is_prefix pat l.
Proof.
  revert l. induction pat as [|p pat IH]; intros l Hp Hc; [done|]. apply Forall_cons_1 in Hp as [Hp Hps].
  destruct l as [|b l]; cbn; [|by rewrite IH]. by rewrite (proj2 (Z.eqb_neq _ _)) by lia.
Qed.

Lemma strip_cr_prefix pat l : plain pat -> is_prefix pat (strip_cr l) = is_prefix pat l.
Proof.
  intros Hp. unfold strip_cr. destruct (rev l) as [|b r] eqn:E; [done|].
  destruct (decide (b = 13)) as [->|Hb].
  - rewrite <- (is_prefix_snoc pat (rev r) 13 Hp) by lia. f_equal. change (rev r ++ [13]) with (rev (13 :: r)).
    by rewrite <- E, rev_involutive.
  - repeat case_match; done.
Qed.

Lemma first_line_prefix pat l : plain pat -> is_prefix pat (match lines l with line :: _ => line | [] => [] end) = is_prefix pat l.
Proof.
  intros Hp. unfold lines. destruct (split_char_cons 10 l) as (piece & pieces & E). rewrite E.
  rewrite <- (split_prefix pat l piece pieces Hp E). destruct pieces as [|q qs]; cbn [lines_of].
  - by destruct piece.
  - by apply strip_cr_prefix.
Qed.

Lemma route_prefix pat req : plain pat ->
  is_prefix pat (match lines (from_utf8_lossy req) with line :: _ => line | [] => [] end) = is_prefix pat req.
Proof. intros Hp. rewrite first_line_prefix by done. unfold from_utf8_lossy. by apply lossy_prefix. Qed.

(** ** The client reads back what was written *)

Lemma read_line_crlf line rest : no_cr line -> read_line (line ++ crlf ++ rest) = Some (line, rest).
Proof.
  induction line as [|b line IH]; intros Hl; [done|]. apply Forall_cons_1 in Hl as [Hb Hl]. cbn [app].
  transitivity ((fun r : bytes * bytes => (b :: r.1, r.2)) <$> read_line (line ++ crlf ++ rest)); [|by rewrite IH].
  cbn [read_line]. repeat case_match; done.
Qed.

Lemma digits_no_cr n : 0 <= n -> no_cr (show_u64 n).
Proof.
  intros Hn. eapply Forall_impl; [|exact (all_digits_digits 20 n Hn)]. cbn. intros b Hb. unfold is_digit in Hb. breflect. lia.
Qed.

Lemma read_headers_line f len h rest : no_cr h -> h <> [] ->
  read_headers (S f) len (h ++ crlf ++ rest) =
    read_headers f (if is_prefix (lit "Content-Length: ") h then Some (dec (drop 16 h)) else len) rest.
Proof. intros Hh Hne. cbn [read_headers]. rewrite read_line_crlf by done. cbn [opt_bind fst snd]. by destruct h. Qed.

Lemma client_view_response status ctype body : no_cr status -> no_cr ctype -> Z.of_nat (length body) < 10 ^ 21 ->
  client_view (http_response status ctype body) = Some (status, body).
Proof.
  intros Hs Hc Hb. unfold client_view, http_response.
  assert (no_cr (lit "HTTP/1.1 " ++ status)) as H1 by (apply Forall_app; split; [chars|done]).
  assert (no_cr (lit "Content-Type: " ++ ctype)) as H2 by (apply Forall_app; split; [chars|done]).
  assert (no_cr (lit "Content-Length: " ++ show_u64 (Z.of_nat (length body)))) as H3
    by (apply Forall_app; split; [chars|apply digits_no_cr; lia]).
  assert (no_cr (lit "Connection: close")) as H4 by (chars).
  rewrite (app_assoc (lit "HTTP/1.1 ")), read_line_crlf by done. cbn [opt_bind fst snd].
  rewrite (app_assoc (lit "Content-Type: ")), read_headers_line by done.
  rewrite (app_assoc (lit "Content-Length: ")), read_headers_line by done.
  rewrite read_headers_line by done. cbn [read_headers].
  pose proof (read_line_crlf [] body ltac:(constructor)) as E. cbn [app] in E. rewrite E. cbn [opt_bind fst snd].
  assert (is_prefix (lit "Content-Length: ") (lit "Content-Length: " ++ show_u64 (Z.of_nat (length body))) = true) as -> by done.
  assert (is_prefix (lit "Content-Length: ") (lit "Connection: close") = false) as -> by done.
  cbn [fst snd]. assert (drop 16 (lit "Content-Length: " ++ show_u64 (Z.of_nat (length body))) = show_u64 (Z.of_nat (length body))) as -> by done.
  unfold show_u64. rewrite dec_digits by (change (Z.of_nat (S 20)) with 21; lia). rewrite Z.eqb_refl.
  assert (is_prefix (lit "HTTP/1.1 ") (lit "HTTP/1.1 " ++ status) = true) as -> by done. done.
Qed.

Lemma metrics_body_length u t k : Z.of_nat (length (metrics_body u t k)) < 10 ^ 21.
Proof.
  unfold metrics_body, show_u64. rewrite !length_app.
  pose proof (length_digits 20 u). pose proof (length_digits 20 t). pose proof (length_digits 20 k).
  change (length nl) with 1%nat.
  repeat match goal with |- context [length (lit ?x)] => let n := eval vm_compute in (length (lit x)) in change (length (lit x)) with n end.
  lia.
Qed.

Lemma handle_request_view now req s : client_view (handle_request now req s) = Some (probe_spec now req s).
Proof.
  unfold handle_request, probe_spec.
  rewrite !route_prefix by (chars).
  destruct (is_prefix (lit "GET /healthz") req); [apply client_view_response; [chars..|by_eval]|].
  destruct (is_prefix (lit "GET /readyz") req).
  { destruct (is_ready s); (apply client_view_response; [chars..|by_eval]). }
  destruct (is_prefix (lit "GET /metrics") req).
  - apply client_view_response; [chars..|apply metrics_body_length].
  - apply client_view_response; [chars..|by_eval].
Qed.

(** ** The life of the server *)

Section Life.
Context (status : nat -> HealthStatus) (clock : nat -> Z) (accepts : list accepted).
Local Abbreviation run := (server_run status clock).

(** What the thread does with the [i]-th accept. *)
Definition answer_of (i : nat) : serve_action := serve (clock i) (status i) (nth i accepts NoConnection).
Definition served_in_order (s : HealthServer) : Prop :=
  served s = map answer_of (seq 0 (length (served s))) /\ listener s = drop (length (served s)) accepts.

Lemma step_in_order s t : served_in_order s -> served_in_order (server_step status clock s t).
Proof.
  intros [Hs Hl]. destruct t; cbn [server_step].
  - unfold thread_turn. destruct (handle s); [by split| |by split].
    assert (match listener s with [] => (NoConnection, []) | a :: rest => (a, rest) end =
      (nth (length (served s)) accepts NoConnection, drop (S (length (served s))) accepts)) as ->.
    { rewrite Hl. clear. revert accepts. induction (length (served s)) as [|n IH]; intros [|a l]; try done. apply (IH l). }
    unfold served_in_order. cbn [served listener]. rewrite length_app, Nat.add_1_r, seq_S, map_app, <- Hs. by split.
  - unfold drop_turn. destruct (owner s); [by split| |by split]. by destruct (handle s).
Qed.

Lemma run_in_order sched : forall s, served_in_order s -> served_in_order (run sched s).
Proof. induction sched as [|t sched IH]; intros s H; [done|]. by apply IH, step_in_order. Qed.

(** The turns the thread needs before it has returned, once the flag is set, and the accepts it may still do. *)
Definition thread_left (s : HealthServer) : nat := match handle s with TTest => 1 | TAccept => 2 | TEnd => 0 end.
Definition accepts_left (s : HealthServer) : nat := match handle s with TAccept => 1 | _ => 0 end.
Definition stopping (s : HealthServer) : Prop := stop_signal s = true /\ owner s <> OUse.

Lemma stopping_step s t : stopping s ->
  let s' := server_step status clock s t in
  stopping s' /\ (length (served s') + accepts_left s' = length (served s) + accepts_left s)%nat /\
  (thread_left s' = thread_left s - match t with ThreadTurn => 1 | DropTurn => 0 end)%nat.
Proof.
  intros [Hs Ho]. unfold stopping, thread_left, accepts_left. destruct s as [l f h o v]. cbn in Hs, Ho. subst f.
  destruct t; cbn; [destruct h|destruct o; [done|destruct h|]]; cbn; rewrite ?Nat.sub_0_r; try (by repeat split).
  destruct l; cbn; rewrite length_app; cbn; repeat split; try done; lia.
Qed.

Lemma stopping_run sched : forall s, stopping s ->
  stopping (run sched s) /\ (length (served (run sched s)) <= length (served s) + accepts_left s)%nat /\
  (thread_left (run sched s) = thread_left s - thread_turns sched)%nat.
Proof.
  induction sched as [|t sched IH]; intros s H; cbn [server_run fold_left].
  - split; [done|]. unfold thread_turns. cbn. lia.
  - destruct (stopping_step s t H) as (H1 & H2 & H3). destruct (IH _ H1) as (H4 & H5 & H6). unfold server_run in *.
    split; [done|]. split; [lia|]. rewrite H6, H3. unfold thread_turns. destruct t; cbn; lia.
Qed.
End Life.

Module Health.

(** C37: whatever bytes a request has, valid UTF-8 or not, the answer an HTTP client reads back, status
    and body of the announced length, is the one its first bytes call for: liveness always,
    readiness by the flag, the metrics with the counters, and 404 for all else. *)
Theorem probes_answer (now : Z) (req : bytes) (s : HealthStatus) :
  client_view (handle_request now req s) = Some (probe_spec now req s).
Proof. apply handle_request_view. Qed.

(** The readiness probe before and after [mark_ready]; a request that is not text. *)
Example ready_after_mark :
  let s := health_new 0 in
  client_view (handle_request 5 (lit "GET /readyz HTTP/1.1" ++ crlf ++ crlf) s) =
    Some (lit "503 Service Unavailable", lit "INITIALIZING" ++ nl) /\
  client_view (handle_request 5 (lit "GET /readyz HTTP/1.1" ++ crlf ++ crlf) (mark_ready s)) = Some (lit "200 OK", lit "READY" ++ nl) /\
  client_view (handle_request 5 [255; 71; 237; 160; 128] s) = Some (lit "404 Not Found", lit "Not Found" ++ nl).
Proof. vm_compute. auto. Qed.

(** Nothing but a request for it makes a live process fail its liveness probe: at every turn before the
    stop, a connection that sends a liveness request is answered 200. *)
Lemma serve_liveness stop status clock i req listener :
  stop i = false -> req <> [] -> is_prefix (lit "GET /healthz") (take 1024 req) = true ->
  exists response rest, serve_loop stop status clock i (Connection (Ok req) :: listener) = Respond response :: rest /\
    client_view response = Some (lit "200 OK", lit "OK" ++ nl).
Proof.
  intros Hs Hne Hp. cbn [serve_loop]. rewrite Hs. unfold serve. rewrite (proj2 (Nat.ltb_lt _ _)).
  - do 2 eexists. split; [reflexivity|]. rewrite handle_request_view. unfold probe_spec. by rewrite Hp.
  - destruct req; [done|cbn; lia].
Qed.

(** Dropping the server ends its thread, under every schedule: after the flag is stored two turns of the
    thread are enough for the join to return, at most one more accept is served meanwhile, and every accept has been served
    once, in order. *)
Theorem drop_ends_server (status : nat -> HealthStatus) (clock : nat -> Z) (accepts : list accepted) (before after : list server_turn)
    (Hb : Forall (fun t => t = ThreadTurn) before) (Ha : (2 <= thread_turns after)%nat) :
  exists s, @health_bind unit (Ok tt) (Ok tt) (Ok tt) accepts = Ok s /\
    let s1 := server_run status clock before s in
    let s2 := server_run status clock (DropTurn :: after ++ [DropTurn]) s1 in
    owner s2 = ODropped /\ handle s2 = TEnd /\ (length (served s2) <= S (length (served s1)))%nat /\
    served s2 = map (answer_of status clock accepts) (seq 0 (length (served s2))).
Proof.
  eexists. split; [reflexivity|]. cbv zeta. set (s0 := mkServer _ _ _ _ _). set (s1 := server_run _ _ before s0).
  assert (owner s1 = OUse) as Ho.
  { unfold s1. assert (owner s0 = OUse) as H0 by done. revert H0. generalize s0. induction Hb as [|t l -> _ IH]; intros s H; [done|].
    cbn [fold_left]. apply IH. destruct s as [l' f h o v]. cbn in H. subst o. by destruct h; [|destruct l'|]. }
  assert (stopping (drop_turn s1)) as Hs by (unfold drop_turn; rewrite Ho; by split).
  assert (served (drop_turn s1) = served s1 /\ handle (drop_turn s1) = handle s1) as [Hv Hh] by (unfold drop_turn; by rewrite Ho).
  set (sched := DropTurn :: _).
  assert (served_in_order status clock accepts (server_run status clock sched s1)) as [Hord _].
  { apply run_in_order. apply run_in_order. by split. }
  unfold server_run, sched in *. cbn [fold_left] in *. rewrite fold_left_app in *. cbn [fold_left server_step] in *.
  destruct (stopping_run status clock after (drop_turn s1) Hs) as ([_ Hown] & Hlen & Hleft). unfold server_run in *.
  set (s3 := fold_left _ after _) in *.
  assert (handle s3 = TEnd) as He.
  { unfold thread_left in Hleft. destruct (handle s3); [..|done]; destruct (handle (drop_turn s1)); lia. }
  assert (served (drop_turn s3) = served s3 /\ owner (drop_turn s3) = ODropped /\ handle (drop_turn s3) = TEnd) as (E1 & E2 & E3)
    by (unfold drop_turn; destruct (owner s3) eqn:Eo; [done|by rewrite He|by repeat split]).
  split; [done|]. split; [done|]. split; [|exact Hord]. rewrite E1. rewrite Hv in Hlen. unfold accepts_left in Hlen.
  destruct (handle _); lia.
Qed.

Lemma drop_ends_server_witness :
  let s2 := server_run (fun _ => health_new 0) (fun _ => 7) ([ThreadTurn; ThreadTurn; ThreadTurn] ++ DropTurn :: [ThreadTurn; ThreadTurn] ++ [DropTurn])
    (mkServer [Connection (Ok (lit "GET /healthz")); AcceptError; NoConnection] false TTest OUse []) in
  owner s2 = ODropped /\ (length (served s2) <= 2)%nat.
Proof.
  destruct (drop_ends_server (fun _ => health_new 0) (fun _ => 7) [Connection (Ok (lit "GET /healthz")); AcceptError; NoConnection]
    [ThreadTurn; ThreadTurn; ThreadTurn] [ThreadTurn; ThreadTurn]) as (s & [= <-] & H1 & _ & H2 & _);
    [repeat constructor|unfold thread_turns; cbn; lia|]. cbv zeta in H1, H2 |- *. split; [exact H1|]. exact H2.
Defined.
End Health.
