(* ===== verification/Calibrate.v ===== *)
(** * core-engine/src/bin/cmp_calibrate.rs: the decisions of the calibration tool

    The grade given to a host from its measurements, the configuration derived from it, and the
    command line.  The measurements are inputs here, and are modelled in Benchmarks.v; the text of a float
    with two decimals is an input too. *)

From Stdlib Require Import SpecFloat.
From S2P Require Import Prelude Bytes Decimal Topology Shm WaitStrategy.

Inductive HardwareGrade := APlus | GradeA | GradeB | GradeC | GradeF.

Definition grade_as_str (g : HardwareGrade) : bytes :=
  match g with
  | APlus => lit "A+ (Institutional HFT Colocation)"
  | GradeA => lit "A  (High-Performance Bare Metal / Cloud)"
  | GradeB => lit "B  (Standard Cloud Virtualized / High-Spec Laptop)"
  | GradeC => lit "C  (Standard Developer Workstation / VM)"
  | GradeF => lit "F  (Unsuitable / Extreme Jitter Detected)"
  end.

Record HardwareScorecard := mkScorecard {
  rdtsc_overhead_ns : spec_float;
  core_ping_pong_p50_ns : spec_float;
  core_ping_pong_p90_ns : spec_float;
  core_ping_pong_p99_ns : spec_float;
  max_scheduler_jitter_us : spec_float;
  shm_throughput_mb_sec : spec_float;
  grade : HardwareGrade;
  recommended_tier : HardwareTier;
  logical_cores : Z;
  physical_cores : Z;
  sc_hypervisor : bytes;
}.

(** The literal [n.0] of type [f64]. *)
Definition f64_of_Z (n : Z) : spec_float := binary_normalize 53 1024 n 0 false.

Definition grade_of (p50 jitter_us : spec_float) (tier : HardwareTier) : HardwareGrade * HardwareTier :=
  if SFltb p50 (f64_of_Z 35) && SFltb jitter_us (f64_of_Z 5) && bool_decide (tier = Tier3EnterpriseBareMetal)
  then (APlus, Tier3EnterpriseBareMetal)
  else if SFltb p50 (f64_of_Z 75) && SFltb jitter_us (f64_of_Z 50) then (GradeA, Tier2CloudVirtualized)
  else if SFltb p50 (f64_of_Z 150) && SFltb jitter_us (f64_of_Z 200) then (GradeB, Tier2CloudVirtualized)
  else if SFltb jitter_us (f64_of_Z 1000) then (GradeC, Tier1MidRange)
  else (GradeF, Tier1MidRange).

Definition compute_scorecard {P} `{HardwareProbe P} (env : bytes -> option bytes)
    (rdtsc_ns p50 p90 p99 jitter_us shm_mb_s : spec_float) (probe : P) : HardwareScorecard :=
  let profile := negotiate_profile probe env None in
  let (g, tier) := grade_of p50 jitter_us (rp_tier profile) in
  mkScorecard rdtsc_ns p50 p90 p99 jitter_us shm_mb_s g tier (total_logical_cores (cpu profile))
    (total_physical_cores (cpu profile)) (hypervisor_as_str (hypervisor profile)).

(** ** The configuration *)

Definition wait_policy (t : HardwareTier) : bytes :=
  match t with
  | Tier3EnterpriseBareMetal => lit "BusySpin"
  | Tier2CloudVirtualized => lit "HybridAdaptive"
  | Tier1MidRange => lit "PowerEfficient"
  end.
Definition shm_slots (t : HardwareTier) : Z :=
  match t with
  | Tier3EnterpriseBareMetal => 65536
  | Tier2CloudVirtualized => 16384
  | Tier1MidRange => 4096
  end.
(** The derived [Debug] text. *)
Definition tier_debug (t : HardwareTier) : bytes :=
  match t with
  | Tier3EnterpriseBareMetal => lit "Tier3EnterpriseBareMetal"
  | Tier2CloudVirtualized => lit "Tier2CloudVirtualized"
  | Tier1MidRange => lit "Tier1MidRange"
  end.

(** The lines of the file written; [two_decimals] is the format [{:.2}]. *)
Definition quoted (b : bytes) : bytes := jlit "'" ++ b ++ jlit "'".
Definition config_toml (two_decimals : spec_float -> bytes) (c : HardwareScorecard) : list bytes :=
  [lit "# =============================================================================="; lit "# Chain-Market-Price Calibrated Configuration";
   lit "# Auto-generated by 'cmp-calibrate' on AutoCalibrated";
   lit "# Host Qualification Grade: " ++ grade_as_str (grade c);
   lit "# =============================================================================="; [];
   lit "[hardware]";
   lit "detected_tier = " ++ quoted (tier_debug (recommended_tier c));
   lit "recommended_tier = " ++ quoted (tier_debug (recommended_tier c));
   lit "logical_cores = " ++ digits 20 (logical_cores c);
   lit "physical_cores = " ++ digits 20 (physical_cores c);
   lit "hypervisor = " ++ quoted (sc_hypervisor c); [];
   lit "[sync]";
   lit "wait_strategy = " ++ quoted (wait_policy (recommended_tier c));
   lit "spin_limit = 256"; lit "yield_limit = 1024"; lit "enable_burst_promotion = true"; [];
   lit "[shm]";
   lit "ring_slots = " ++ digits 20 (shm_slots (recommended_tier c));
   lit "slot_size_bytes = 64"; lit "backend_policy = " ++ quoted (lit "CascadeFallback"); [];
   lit "[telemetry]";
   lit "rdtsc_overhead_ns = " ++ two_decimals (rdtsc_overhead_ns c);
   lit "core_ping_pong_p50_ns = " ++ two_decimals (core_ping_pong_p50_ns c);
   lit "max_scheduler_jitter_us = " ++ two_decimals (max_scheduler_jitter_us c)].

Definition config_text (two_decimals : spec_float -> bytes) (c : HardwareScorecard) : bytes :=
  mjoin (map (fun l => l ++ [10]) (config_toml two_decimals c)).

(** ** The command line, without the program's name *)

Definition json_mode (args : list bytes) : bool := existsb (fun a => bool_decide (a = lit "--json")) args.
Fixpoint parse_args (args : list bytes) (out_config command : bytes) : bytes * bytes :=
  match args with
  | [] => (out_config, command)
  | arg :: rest =>
      let skip := parse_args rest out_config (if negb (bool_decide (arg = lit "--json")) && negb (is_prefix (lit "-") arg) then arg else command) in
      match rest with
      | value :: rest' => if bool_decide (arg = lit "--output") then parse_args rest' value command else skip
      | [] => skip
      end
  end.
Definition parse_command_line (args : list bytes) : bytes * bytes := parse_args args (lit "cmp-config.toml") (lit "full").

Example command_line :
  parse_command_line [lit "--json"; lit "jitter"; lit "--output"; lit "out.toml"] = (lit "out.toml", lit "jitter") /\
  parse_command_line [lit "tsc"; lit "--output"] = (lit "cmp-config.toml", lit "tsc").
Proof. vm_compute. auto. Qed.

(** ** The order of floats *)

(** The comparison of floats is lexicographic on a class and two integers. *)
Definition float_key (f : spec_float) : option (Z * Z * Z) :=
  match f with
  | S754_nan => None
  | S754_infinity true => Some (0, 0, 0)
  | S754_finite true m e => Some (1, - e, - Zpos m)
  | S754_zero _ => Some (2, 0, 0)
  | S754_finite false m e => Some (3, e, Zpos m)
  | S754_infinity false => Some (4, 0, 0)
  end.
Definition lex_lt '(a, b, c) '(a', b', c') : Prop := a < a' \/ a = a' /\ (b < b' \/ b = b' /\ c < c').

Lemma SFcompare_key x y : SFcompare x y =
  match float_key x, float_key y with
  | Some (a, b, c), Some (a', b', c') => Some (match a ?= a' with Eq => match b ?= b' with Eq => c ?= c' | o => o end | o => o end)
  | _, _ => None
  end.
Proof.
  destruct x as [[]|[]| |[] m e], y as [[]|[]| |[] m' e']; try reflexivity; cbn.
  rewrite Z.compare_opp, (Z.compare_antisym e e'). by destruct (e ?= e').
Qed.

Lemma SFltb_key x y : SFltb x y = true <->
  match float_key x, float_key y with Some k, Some k' => lex_lt k k' | _, _ => False end.
Proof.
  unfold SFltb. rewrite SFcompare_key. destruct (float_key x) as [[[a b] c]|], (float_key y) as [[[a' b'] c']|]; try done.
  unfold lex_lt. destruct (Z.compare_spec a a'), (Z.compare_spec b b'), (Z.compare_spec c c'); split; intros; try done; lia.
Qed.
Lemma SFleb_key x y : SFleb x y = true <->
  match float_key x, float_key y with Some k, Some k' => ~ lex_lt k' k | _, _ => False end.
Proof.
  unfold SFleb. rewrite SFcompare_key. destruct (float_key x) as [[[a b] c]|], (float_key y) as [[[a' b'] c']|]; try done.
  unfold lex_lt. destruct (Z.compare_spec a a'), (Z.compare_spec b b'), (Z.compare_spec c c'); split; intros; try done; try lia.
Qed.

Lemma below_trans x y c : SFleb x y = true -> SFltb y c = true -> SFltb x c = true.
Proof.
  rewrite SFleb_key, !SFltb_key. destruct (float_key x) as [[[a1 a2] a3]|], (float_key y) as [[[b1 b2] b3]|], (float_key c) as [[[c1 c2] c3]|];
    try done. unfold lex_lt. lia.
Qed.

Definition grade_rank (g : HardwareGrade) : nat :=
  match g with APlus => 4 | GradeA => 3 | GradeB => 2 | GradeC => 1 | GradeF => 0 end%nat.

Lemma rank_of_tests (a b c d e f g : bool) (a' b' c' d' e' f' g' : bool) :
  (a = true -> a' = true) -> (b = true -> b' = true) -> (c = true -> c' = true) -> (d = true -> d' = true) ->
  (e = true -> e' = true) -> (f = true -> f' = true) -> (g = true -> g' = true) -> forall t : bool,
  (grade_rank (if a && b && t then APlus else if c && d then GradeA else if e && f then GradeB else if g then GradeC else GradeF) <=
   grade_rank (if a' && b' && t then APlus else if c' && d' then GradeA else if e' && f' then GradeB else if g' then GradeC else GradeF))%nat.
Proof.
  intros H1 H2 H3 H4 H5 H6 H7 t.
  destruct a, b, c, d, e, f, g, t; rewrite ?H1, ?H2, ?H3, ?H4, ?H5, ?H6, ?H7 by done; cbn; repeat case_match; cbn; lia.
Qed.

Lemma grade_of_fst p50 j tier : (grade_of p50 j tier).1 =
  if SFltb p50 (f64_of_Z 35) && SFltb j (f64_of_Z 5) && bool_decide (tier = Tier3EnterpriseBareMetal) then APlus
  else if SFltb p50 (f64_of_Z 75) && SFltb j (f64_of_Z 50) then GradeA
  else if SFltb p50 (f64_of_Z 150) && SFltb j (f64_of_Z 200) then GradeB
  else if SFltb j (f64_of_Z 1000) then GradeC else GradeF.
Proof. unfold grade_of. by repeat case_match. Qed.

Module Calibrate.

(** Better measurements never get a worse grade on the same host, floats compared as IEEE 754 does; the
    best grade needs a host detected as tier 3; and a jitter that is no number fails. *)
Theorem grade_monotone {P} `{HardwareProbe P} (env : bytes -> option bytes) (probe : P)
    (r p50 p90 p99 j m r' p50' p90' p99' j' m' : spec_float)
    (Hp : SFleb p50' p50 = true) (Hj : SFleb j' j = true) :
  let g := grade (compute_scorecard env r p50 p90 p99 j m probe) in
  let g' := grade (compute_scorecard env r' p50' p90' p99' j' m' probe) in
  (grade_rank g <= grade_rank g')%nat /\
  (g = APlus -> rp_tier (negotiate_profile probe env None) = Tier3EnterpriseBareMetal) /\
  grade (compute_scorecard env r p50 p90 p99 S754_nan m probe) = GradeF.
Proof.
  assert (forall r p50 p90 p99 j m, grade (compute_scorecard env r p50 p90 p99 j m probe) =
    (grade_of p50 j (rp_tier (negotiate_profile probe env None))).1) as Hg
    by (intros; unfold compute_scorecard; by destruct (grade_of _ _ _)).
  cbv zeta. rewrite !Hg, !grade_of_fst. split; [apply rank_of_tests; by apply below_trans|]. split.
  - destruct (bool_decide (rp_tier (negotiate_profile probe env None) = Tier3EnterpriseBareMetal)) eqn:E;
      [intros _; by apply bool_decide_eq_true in E|]. rewrite andb_false_r. by repeat case_match.
  - cbn [SFltb SFcompare]. by rewrite !andb_false_r.
Qed.

Lemma grade_monotone_witness :
  grade (compute_scorecard (fun _ => None) S754_nan (f64_of_Z 30) S754_nan S754_nan (f64_of_Z 3) S754_nan new_tier3_bare_metal) = APlus /\
  (grade_rank (grade (compute_scorecard (fun _ => None) S754_nan (f64_of_Z 40) S754_nan S754_nan (f64_of_Z 60) S754_nan new_tier3_bare_metal)) <= 4)%nat.
Proof.
  split; [vm_compute; reflexivity|].
  refine (Nat.le_trans _ _ _ (proj1 (grade_monotone (fun _ => None) new_tier3_bare_metal S754_nan (f64_of_Z 40) S754_nan S754_nan (f64_of_Z 60)
    S754_nan S754_nan (f64_of_Z 30) S754_nan S754_nan (f64_of_Z 3) S754_nan eq_refl eq_refl)) _).
  vm_compute. lia.
Defined.

(** The configuration written is one the engine accepts as it is: the wait policy names the strategy that the
    engine itself chooses for the tier, and the number of slots is a power of two the ring keeps. *)
Theorem config_agrees (t : HardwareTier) (now : Z) :
  wait_policy t = match kind now (wait_for_tier now t) with
                  | BusySpin => lit "BusySpin" | HybridAdaptive => lit "HybridAdaptive"
                  | PowerEfficient => lit "PowerEfficient" | BurstMode => lit "BurstMode"
                  end /\
  is_power_of_two (shm_slots t) = true.
Proof. destruct t; (split; [reflexivity|vm_compute; reflexivity]). Qed.
End Calibrate.
