(* ===== verification/Benchmarks.v ===== *)
(** * core-engine/src/bin/cmp_calibrate.rs: the measurements and the run of the calibration tool

    The four benchmarks and the main function, on the decisions of Calibrate.v.  The two threads of the
    ping-pong are interleaved one shared access at a time; clock readings are data.  The ping-pong ends under
    every fair schedule and its percentiles are ordered members of what was measured; the memory loop writes
    sixteen bytes for each megabyte it reports. *)

From Stdlib Require Import SpecFloat Sorted.
From stdpp Require Import sorting.
From S2P Require Import Prelude Bytes Decimal Topology Calibrate JsonScan.

Definition f64_div (a b : spec_float) : spec_float := SFdiv 53 1024 a b.

(** [black_box] returns its argument. *)
Definition black_box {T} (dummy : T) : T := dummy.

(** ** The clock *)

(** [samples] are the readings of the time-stamp counter, [elapsed_ns] the time of the loop. *)
Definition benchmark_tsc_overhead (samples : Z -> Z) (elapsed_ns iterations : Z) : spec_float * Z :=
  let dummy := fold_left (fun dummy i => Z.lxor dummy (samples i)) (seqZ 0 iterations) 0 in
  (f64_div (f64_of_Z elapsed_ns) (f64_of_Z iterations), black_box dummy).

(** ** The ping-pong *)

(** The measuring thread: about to store round [i] in the first flag, waiting for the second, about to
    raise [stop], to bump the first flag, to join; and the responder's four accesses. *)
Inductive pinger := MStore (i : Z) | MSpin (i : Z) | MStop | MBump | MJoin | MDone.
Inductive ponger := RStop | RFlag1 | RFlag2 (val : Z) | RStore (val : Z) | RExit.

Record PingPong := mkPingPong {
  flag1 : Z;
  flag2 : Z;
  stop : bool;
  ping : pinger;
  pong : ponger;
  latencies_ns : list spec_float;
}.

(** The latency one way, from the nanoseconds of a round trip. *)
Definition one_way (ns : Z) : spec_float := f64_div (f64_of_Z ns) (f64_of_Z 2).

Section PingPong.
(** [round_trip i]: the nanoseconds of round [i]. *)
Context (round_trip : Z -> Z) (iterations : Z).

Definition next_round (i : Z) : pinger := if i <=? iterations then MStore i else MStop.
Definition ping_pong_new : PingPong := mkPingPong 0 0 false (next_round 1) RStop [].

Definition ping_step (s : PingPong) : PingPong :=
  match ping s with
  | MStore i => mkPingPong i (flag2 s) (stop s) (MSpin i) (pong s) (latencies_ns s)
  | MSpin i =>
      if flag2 s <? i then s
      else mkPingPong (flag1 s) (flag2 s) (stop s) (next_round (i + 1)) (pong s)
             (latencies_ns s ++ [one_way (round_trip i)])
  | MStop => mkPingPong (flag1 s) (flag2 s) true MBump (pong s) (latencies_ns s)
  | MBump => mkPingPong (flag1 s +[U64] 1) (flag2 s) (stop s) MJoin (pong s) (latencies_ns s)
  | MJoin => match pong s with RExit => mkPingPong (flag1 s) (flag2 s) (stop s) MDone (pong s) (latencies_ns s) | _ => s end
  | MDone => s
  end.

Definition pong_step (s : PingPong) : PingPong :=
  let at_ r := mkPingPong (flag1 s) (flag2 s) (stop s) (ping s) r (latencies_ns s) in
  match pong s with
  | RStop => at_ (if stop s then RExit else RFlag1)
  | RFlag1 => at_ (RFlag2 (flag1 s))
  | RFlag2 val => at_ (if flag2 s <? val then RStore val else RStop)
  | RStore val => mkPingPong (flag1 s) val (stop s) (ping s) RStop (latencies_ns s)
  | RExit => s
  end.

(** [true] is a turn of the measuring thread. *)
Definition ping_pong_step (s : PingPong) (main : bool) : PingPong := if main then ping_step s else pong_step s.
Definition ping_pong_run (s : PingPong) (schedule : list bool) : PingPong := fold_left ping_pong_step schedule s.

(** ** Each round waits for the responder *)

Definition rounds (s : PingPong) : Z := Z.of_nat (length (latencies_ns s)).
Record ping_pong_ok (s : PingPong) : Prop := {
  pp_main : match ping s with
    | MStore i => rounds s = i - 1 /\ flag1 s = i - 1 /\ flag2 s = i - 1 /\ 1 <= i <= iterations /\ stop s = false
    | MSpin i => rounds s = i - 1 /\ flag1 s = i /\ i - 1 <= flag2 s <= i /\ 1 <= i <= iterations /\ stop s = false
    | MStop => rounds s = iterations /\ flag1 s = iterations /\ flag2 s = iterations /\ stop s = false
    | MBump => rounds s = iterations /\ flag1 s = iterations /\ flag2 s = iterations /\ stop s = true
    | MJoin | MDone => rounds s = iterations /\ flag1 s = iterations + 1 /\ iterations <= flag2 s <= iterations + 1 /\ stop s = true
    end;
  pp_pong : match pong s with
    | RFlag2 val => flag2 s <= val <= flag1 s
    | RStore val => flag2 s < val <= flag1 s
    | RExit => stop s = true
    | _ => True
    end;
  pp_done : ping s = MDone -> pong s = RExit;
  pp_times : latencies_ns s = map (fun i => one_way (round_trip i)) (seqZ 1 (rounds s));
}.

(** Splits a conjunction of linear facts and equations of flags. *)
Ltac conj := repeat match goal with |- _ /\ _ => split end; first [lia | tauto].

Context (Hn : 0 <= iterations < max_int U64).

Lemma ping_pong_new_ok : ping_pong_ok ping_pong_new.
Proof.
  split; cbn; [|done| |done]; unfold next_round, rounds; [|by destruct (1 <=? iterations)]. destruct (Z.leb_spec 1 iterations); cbn; lia.
Qed.

Lemma ping_step_ok s : ping_pong_ok s -> ping_pong_ok (ping_step s).
Proof.
  intros [Hm Hp Hd Ht]. unfold ping_step. destruct s as [f1 f2 st m r ls]. unfold rounds in *. cbn in *.
  destruct m as [i|i| | | |]; cbn.
  - split; unfold rounds; cbn; [conj| |done|done]. destruct r; cbn; try done; lia.
  - destruct (Z.ltb_spec f2 i); [by split|]. unfold next_round.
    assert (ls ++ [one_way (round_trip i)] =
      map (fun j => one_way (round_trip j)) (seqZ 1 (Z.of_nat (length (ls ++ [one_way (round_trip i)]))))) as Hls.
    { rewrite length_app. cbn [length]. rewrite Nat2Z.inj_add, seqZ_app, map_app by lia. rewrite <- Ht. f_equal.
      rewrite seqZ_cons by lia. cbn [map]. rewrite seqZ_nil by lia. cbn [map]. do 3 f_equal. lia. }
    split; unfold rounds; cbn; [|done|by destruct (_ <=? _)|done].
    destruct (Z.leb_spec (i + 1) iterations); rewrite length_app; cbn [length]; conj.
  - split; unfold rounds; cbn; [conj| |done|done]. by destruct r.
  - split; unfold rounds; cbn; [rewrite wrap_id by mint; conj| |done|done]. rewrite wrap_id by mint. destruct r; cbn; try done; lia.
  - destruct r; by split.
  - by split.
Qed.

Lemma pong_step_ok s : ping_pong_ok s -> ping_pong_ok (pong_step s).
Proof.
  intros [Hm Hp Hd Ht]. unfold pong_step. destruct s as [f1 f2 st m r ls]. unfold rounds in *. cbn in *.
  assert (f2 <= f1) by (destruct m; lia).
  destruct r as [| |v|v|]; cbn.
  - split; cbn; [exact Hm|by destruct st|intros E; by specialize (Hd E)|done].
  - split; cbn; [exact Hm|lia|intros E; by specialize (Hd E)|done].
  - split; cbn; [exact Hm| |intros E; by specialize (Hd E)|done]. destruct (Z.ltb_spec f2 v); [lia|done].
  - split; cbn; [unfold rounds; cbn; destruct m; conj|done|intros E; by specialize (Hd E)|done].
  - by split.
Qed.

(** ** Every fair schedule ends it *)

(** What is left for the measuring thread, and the turns the responder needs before it can go on. *)
Definition ping_work (s : PingPong) : Z :=
  match ping s with
  | MStore i => 2 * (iterations - i) + 5 | MSpin i => 2 * (iterations - i) + 4
  | MStop => 3 | MBump => 2 | MJoin => 1 | MDone => 0
  end.
Definition pong_work (s : PingPong) : Z :=
  match ping s with
  | MSpin i =>
      if i <=? flag2 s then 0
      else match pong s with
           | RStore _ => 1 | RFlag2 val => if flag2 s <? val then 2 else 5 | RFlag1 => 3 | RStop => 4 | RExit => 0
           end
  | MJoin => match pong s with
             | RExit => 0 | RStop => 1 | RStore _ => 2 | RFlag2 val => if flag2 s <? val then 3 else 2 | RFlag1 => 4
             end
  | _ => 0
  end.

Lemma pong_work_bound s : 0 <= pong_work s <= 5.
Proof. unfold pong_work. repeat case_match; lia. Qed.

Lemma ping_work_nonneg s : ping_pong_ok s -> 0 <= ping_work s.
Proof. intros [Hm _ _ _]. unfold ping_work. destruct (ping s); lia. Qed.

Lemma pong_step_work s : ping_pong_ok s -> ping_work (pong_step s) = ping_work s /\ pong_work (pong_step s) <= Z.max 0 (pong_work s - 1).
Proof.
  intros [Hm Hp _ _]. unfold pong_step, ping_work, pong_work. destruct s as [f1 f2 st m r ls]. cbn in *.
  destruct r as [| |v|v|]; cbn; (split; [done|]); destruct m as [i|i| | | |]; cbn; try lia.
  all: repeat match goal with |- context [?a <=? ?b] => destruct (Z.leb_spec a b) | |- context [?a <? ?b] => destruct (Z.ltb_spec a b) end;
    try lia; destruct st; try lia; try (exfalso; destruct Hm as (_ & _ & _ & _ & [=]); fail).
  all: try (destruct Hm as (_ & _ & _ & [=])); lia.
Qed.

Lemma ping_step_work s : ping_pong_ok s ->
  (0 < pong_work s /\ ping_step s = s) \/ (ping_work (ping_step s) <= Z.max 0 (ping_work s - 1)).
Proof.
  intros [Hm Hp _ _]. unfold ping_step, ping_work, pong_work. destruct s as [f1 f2 st m r ls]. cbn in *.
  destruct m as [i|i| | | |]; cbn; try (right; lia).
  - destruct (Z.ltb_spec f2 i).
    + left. rewrite (proj2 (Z.leb_gt _ _)) by lia. split; [|done].
      destruct r; try lia; [case_match; lia|]. rewrite Hp in Hm. destruct Hm as (_ & _ & _ & _ & [=]).
    + right. cbn. unfold next_round. destruct (Z.leb_spec (i + 1) iterations); lia.
  - destruct r; [left..|right; cbn; lia]; (split; [|done]); try lia. case_match; lia.
Qed.

(** A part of a schedule in which the responder has five turns and then the measuring thread one. *)
Definition count_turns (main : bool) (l : list bool) : Z := Z.of_nat (length (List.filter (Bool.eqb main) l)).
Definition fair (l : list bool) : Prop := exists l1 l2, l = l1 ++ l2 /\ 5 <= count_turns false l1 /\ 1 <= count_turns true l2.

Lemma ping_pong_run_ok l : forall s, ping_pong_ok s -> ping_pong_ok (ping_pong_run s l).
Proof.
  induction l as [|b l IH]; intros s Hs; [done|]. cbn. apply IH. destruct b; [by apply ping_step_ok|by apply pong_step_ok].
Qed.

Lemma step_work s b : ping_pong_ok s -> ping_work (ping_pong_step s b) <= ping_work s.
Proof.
  intros Hs. pose proof (ping_work_nonneg s Hs). destruct b; cbn.
  - destruct (ping_step_work s Hs) as [[_ ->]|]; lia.
  - destruct (pong_step_work s Hs) as [-> _]. lia.
Qed.

Lemma run_work l : forall s, ping_pong_ok s -> ping_work (ping_pong_run s l) <= ping_work s.
Proof.
  induction l as [|b l IH]; intros s Hs; [cbn; lia|]. cbn.
  assert (ping_pong_ok (ping_pong_step s b)) as Hs' by (destruct b; [by apply ping_step_ok|by apply pong_step_ok]).
  pose proof (IH _ Hs'). pose proof (step_work s b Hs). unfold ping_pong_run in *. lia.
Qed.

(** The responder's turns bring the measuring thread on, or make it ready to go on. *)
Lemma responder_turns l : forall s, ping_pong_ok s ->
  ping_work (ping_pong_run s l) < ping_work s \/
  pong_work (ping_pong_run s l) <= Z.max 0 (pong_work s - count_turns false l) \/ ping_work s = 0.
Proof.
  induction l as [|b l IH]; intros s Hs.
  - right. left. unfold count_turns. cbn. lia.
  - cbn. assert (ping_pong_ok (ping_pong_step s b)) as Hs' by (destruct b; [by apply ping_step_ok|by apply pong_step_ok]).
    pose proof (run_work l _ Hs') as Hr. unfold ping_pong_run in *. destruct b; cbn [ping_pong_step] in *.
    + unfold count_turns. cbn [List.filter Bool.eqb]. pose proof (ping_work_nonneg s Hs).
      destruct (ping_step_work s Hs) as [[_ E]|]; [rewrite E in *; by apply IH|].
      destruct (decide (ping_work s = 0)); [auto|]. left. lia.
    + destruct (pong_step_work s Hs) as [E Hp]. unfold count_turns in *. cbn [List.filter Bool.eqb length].
      destruct (IH _ Hs') as [H|[H|H]]; [left; lia|right; left; lia|right; right; lia].
Qed.

Lemma main_turns l : forall s, ping_pong_ok s -> pong_work s = 0 -> 1 <= count_turns true l ->
  ping_work (ping_pong_run s l) < ping_work s \/ ping_work s = 0.
Proof.
  induction l as [|b l IH]; intros s Hs Hp Hc; [unfold count_turns in Hc; cbn in Hc; lia|].
  assert (ping_pong_ok (ping_pong_step s b)) as Hs' by (destruct b; [by apply ping_step_ok|by apply pong_step_ok]).
  pose proof (run_work l _ Hs') as Hr. pose proof (ping_work_nonneg s Hs). cbn. unfold ping_pong_run in *. destruct b; cbn [ping_pong_step] in *.
  - destruct (ping_step_work s Hs) as [[? _]|]; [lia|]. lia.
  - destruct (pong_step_work s Hs) as [E Hp']. rewrite <- E. apply IH; [done| |exact Hc].
    pose proof (pong_work_bound (pong_step s)). lia.
Qed.

Lemma fair_progress l s : fair l -> ping_pong_ok s ->
  ping_work (ping_pong_run s l) < ping_work s \/ ping_work s = 0.
Proof.
  intros (l1 & l2 & -> & H1 & H2) Hs. unfold ping_pong_run. rewrite fold_left_app.
  pose proof (ping_pong_run_ok l1 s Hs) as Hs1. pose proof (run_work l2 _ Hs1). pose proof (run_work l1 _ Hs).
  pose proof (ping_work_nonneg s Hs). pose proof (responder_turns l1 s Hs) as Hr. unfold ping_pong_run in *.
  destruct Hr as [H'|[H'|H']]; [left; lia| |auto].
  pose proof (pong_work_bound s). pose proof (pong_work_bound (ping_pong_run s l1)). unfold ping_pong_run in *.
  destruct (main_turns l2 _ Hs1 ltac:(lia) H2) as [H''|H'']; [left; unfold ping_pong_run in *; lia|].
  destruct (decide (ping_work s = 0)); [auto|]. left. lia.
Qed.

Lemma fair_ends blocks : forall s, Forall fair blocks -> ping_pong_ok s -> ping_work s <= Z.of_nat (length blocks) ->
  ping_work (ping_pong_run s (mjoin blocks)) = 0.
Proof.
  induction blocks as [|l blocks IH]; intros s Hb Hs Hw.
  - pose proof (ping_work_nonneg s Hs). cbn in *. lia.
  - apply Forall_cons_1 in Hb as [Hl Hb]. change (mjoin (l :: blocks)) with (l ++ mjoin blocks).
    unfold ping_pong_run. rewrite fold_left_app. pose proof (ping_pong_run_ok l s Hs) as Hs1. apply IH; [done|done|].
    pose proof (fair_progress l s Hl Hs). pose proof (run_work l s Hs). cbn [length] in Hw. unfold ping_pong_run in *. lia.
Qed.
End PingPong.

(** ** Percentiles *)

(** [sort_by(|a, b| a.partial_cmp(b).unwrap_or(Equal))]: [a] may stay before [b] unless [b] is less. *)
Definition not_after (a b : spec_float) : Prop := SFltb b a = false.
#[global] Instance not_after_dec : RelDecision not_after.
Proof. intros a b. unfold not_after. apply _. Defined.
#[global] Instance not_after_total : Total not_after.
Proof.
  intros a b. unfold not_after. destruct (SFltb b a) eqn:E; [right|by left].
  apply not_true_is_false. intros E'. rewrite SFltb_key in E, E'.
  destruct (float_key a) as [[[a1 a2] a3]|], (float_key b) as [[[b1 b2] b3]|]; try done. unfold lex_lt in *. lia.
Qed.

(** [v[len * p / 100]]: out of range when the list is empty. *)
Definition percentile (sorted : list spec_float) (p : nat) : outcome spec_float :=
  match sorted !! (length sorted * p / 100)%nat with Some x => Done x | None => Panic end.

(** The result, from the latencies of the ping-pong. *)
Definition percentiles (latencies : list spec_float) : outcome (spec_float * spec_float * spec_float) :=
  let latencies := merge_sort not_after latencies in
  let! p50 := percentile latencies 50 in
  let! p90 := percentile latencies 90 in
  let! p99 := percentile latencies 99 in
  Done (p50, p90, p99).

(** The benchmark, when the two threads run by the schedule. *)
Definition benchmark_core_ping_pong (round_trip : Z -> Z) (iterations : Z) (schedule : list bool) :
    outcome (spec_float * spec_float * spec_float) :=
  percentiles (latencies_ns (ping_pong_run round_trip iterations (ping_pong_new iterations) schedule)).

Lemma not_after_trans a b c : b <> S754_nan -> not_after a b -> not_after b c -> not_after a c.
Proof.
  unfold not_after. intros Hb H1 H2. apply not_true_is_false. intros H3. apply not_true_iff_false in H1, H2.
  rewrite SFltb_key in *. destruct (float_key b) as [[[b1 b2] b3]|] eqn:E; [|by destruct b as [?|[]| |[] ? ?]].
  destruct (float_key a) as [[[a1 a2] a3]|], (float_key c) as [[[c1 c2] c3]|]; try done. unfold lex_lt in *. lia.
Qed.

Lemma sorted_lookup (l : list spec_float) : Forall (fun x => x <> S754_nan) l -> Sorted not_after l ->
  forall (i j : nat) a b, (i <= j)%nat -> l !! i = Some a -> l !! j = Some b -> i = j \/ not_after a b.
Proof.
  intros Hn Hs. assert (StronglySorted not_after l) as Hss.
  { induction Hs as [|x l Hs IH Hr]; [constructor|]. apply Forall_cons_1 in Hn as [Hx Hn]. constructor; [by apply IH|].
    specialize (IH Hn). destruct Hr as [|y l Hxy]; [constructor|]. apply StronglySorted_inv in IH as [_ Hy].
    apply Forall_cons_1 in Hn as [Hyn _]. apply List.Forall_cons; [done|].
    eapply List.Forall_impl; [|exact Hy]. intros z Hz. by apply (not_after_trans x y z). }
  induction Hss as [|x l Hss IH Hx]; intros i j a b Hij Ha Hb; [done|].
  destruct i as [|i], j as [|j]; [by left|right|lia|].
  - injection Ha as <-. cbn in Hb. by apply (proj1 (list.Forall_forall _ _) Hx), (list_elem_of_lookup_2 _ _ _ Hb).
  - apply Forall_cons_1 in Hn as [_ Hn]. inversion Hs; subst. destruct (IH Hn ltac:(done) i j a b ltac:(lia) Ha Hb); [left; lia|by right].
Qed.

(** ** Scheduler jitter *)

(** [elapsed - interval] in whole microseconds, the interval being 200 of them. *)
Definition jitter_delta (elapsed_ns : Z) : option spec_float :=
  if 200000 <? elapsed_ns then Some (f64_of_Z ((elapsed_ns - 200000) / 1000)) else None.
Definition jitter_step (max_jitter_us : spec_float) (elapsed_ns : Z) : spec_float :=
  match jitter_delta elapsed_ns with
  | Some delta => if SFltb max_jitter_us delta then delta else max_jitter_us
  | None => max_jitter_us
  end.
(** [elapsed i]: how long the [i]-th sleep took. *)
Definition benchmark_scheduler_jitter (elapsed : Z -> Z) (iterations : Z) : spec_float :=
  fold_left (fun m i => jitter_step m (elapsed i)) (seqZ 0 iterations) (f64_of_Z 0).

(** ** Memory *)

Definition chunk_size : Z := 65536.
Definition memory_iterations (mb_to_write : Z) : Z := (mb_to_write *[USIZE] 1024 *[USIZE] 1024) / chunk_size.

(** One byte is written per iteration; the index is always in the chunk. *)
Definition memory_write (chunk : list Z) (i : Z) : outcome (list Z) :=
  let k := Z.to_nat (i mod chunk_size) in
  if (k <? length chunk)%nat then Done (<[k := Z.land i 255]> chunk) else Panic.
Fixpoint memory_loop (n : nat) (i : Z) (chunk : list Z) : outcome (list Z) :=
  match n with
  | O => Done chunk
  | S n => let! chunk := memory_write chunk i in memory_loop n (i + 1) chunk
  end.
(** [seconds]: the time of the loop. *)
Definition benchmark_memory_throughput (seconds : spec_float) (mb_to_write : Z) : spec_float :=
  if SFltb (f64_of_Z 0) seconds then f64_div (f64_of_Z mb_to_write) seconds else f64_of_Z 100000.

(** ** Output *)

Section Output.
(** The format [{:.2}] of a float. *)
Context (two_decimals : spec_float -> bytes).

Definition scorecard_json (card : HardwareScorecard) : bytes :=
  jlit "{'grade':'" ++ grade_as_str (grade card) ++ jlit "','recommended_tier':'" ++ tier_debug (recommended_tier card) ++
  jlit "','logical_cores':" ++ digits 20 (logical_cores card) ++ jlit ",'physical_cores':" ++ digits 20 (physical_cores card) ++
  jlit ",'hypervisor':'" ++ sc_hypervisor card ++ jlit "','rdtsc_overhead_ns':" ++ two_decimals (rdtsc_overhead_ns card) ++
  jlit ",'core_ping_pong_p50_ns':" ++ two_decimals (core_ping_pong_p50_ns card) ++
  jlit ",'core_ping_pong_p90_ns':" ++ two_decimals (core_ping_pong_p90_ns card) ++
  jlit ",'core_ping_pong_p99_ns':" ++ two_decimals (core_ping_pong_p99_ns card) ++
  jlit ",'max_scheduler_jitter_us':" ++ two_decimals (max_scheduler_jitter_us card) ++
  jlit ",'shm_throughput_mb_sec':" ++ two_decimals (shm_throughput_mb_sec card) ++ jlit "}".

(** What the host gives when a benchmark is run with a number of iterations, and the error of creating or
    writing a file, if any. *)
Record Host := mkHost {
  host_tsc : Z -> spec_float;
  host_ping_pong : Z -> outcome (spec_float * spec_float * spec_float);
  host_jitter : Z -> spec_float;
  host_memory : Z -> spec_float;
  host_write_error : bytes -> option bytes;
}.

(** Lines printed, lines on the error stream, and the file written with its text. *)
Record Output := mkOutput { out_lines : list bytes; err_lines : list bytes; out_file : option (bytes * bytes) }.

Definition rule : bytes := lit "-------------------------------------------------------------------------------".
Definition banner : list bytes :=
  [lit "==============================================================================="; 
   lit "Chain-Market-Price Hardware Profiler & Latency Calibrator ('cmp-calibrate')";
   lit "==============================================================================="; []].

Definition scorecard_lines (card : HardwareScorecard) : list bytes :=
  [[]; rule; lit "HARDWARE SCORECARD & QUALIFICATION"; rule;
   lit "  CPU Topology:         " ++ digits 20 (physical_cores card) ++ lit " Physical / " ++ digits 20 (logical_cores card) ++ lit " Logical Cores";
   lit "  Hypervisor Detected:  " ++ sc_hypervisor card;
   lit "  TSC Read Overhead:    " ++ two_decimals (rdtsc_overhead_ns card) ++ lit " ns";
   lit "  Core Ping-Pong p50:   " ++ two_decimals (core_ping_pong_p50_ns card) ++ lit " ns";
   lit "  Core Ping-Pong p99:   " ++ two_decimals (core_ping_pong_p99_ns card) ++ lit " ns";
   lit "  Scheduler Jitter:     " ++ two_decimals (max_scheduler_jitter_us card) ++ lit " us";
   lit "  Memory Bandwidth:     " ++ two_decimals (shm_throughput_mb_sec card) ++ lit " MB/s";
   lit "  Hardware Grade:       " ++ grade_as_str (grade card);
   lit "  Recommended Tier:     " ++ tier_debug (recommended_tier card); rule].

(** One benchmark's lines, in the two modes. *)
Definition tsc_lines (json : bool) (x : spec_float) : list bytes :=
  if json then [jlit "{'command':'tsc','overhead_ns':" ++ two_decimals x ++ jlit "}"]
  else [lit "  [+] TSC / Time Reading Overhead: " ++ two_decimals x ++ lit " ns/op"].
Definition latency_lines (json : bool) '(p50, p90, p99) : list bytes :=
  if json then [jlit "{'command':'core-latency','p50_ns':" ++ two_decimals p50 ++ jlit ",'p90_ns':" ++ two_decimals p90 ++
                jlit ",'p99_ns':" ++ two_decimals p99 ++ jlit "}"]
  else [lit "  [+] Core-to-Core Ping-Pong Latency:"; lit "      - p50:   " ++ two_decimals p50 ++ lit " ns";
        lit "      - p90:   " ++ two_decimals p90 ++ lit " ns"; lit "      - p99:   " ++ two_decimals p99 ++ lit " ns"].
Definition jitter_lines (json : bool) (x : spec_float) : list bytes :=
  if json then [jlit "{'command':'jitter','max_jitter_us':" ++ two_decimals x ++ jlit "}"]
  else [lit "  [+] OS / Hypervisor Scheduling Jitter: " ++ two_decimals x ++ lit " us"].
Definition memory_lines (json : bool) (x : spec_float) : list bytes :=
  if json then [jlit "{'command':'shm','throughput_mb_s':" ++ two_decimals x ++ jlit "}"]
  else [lit "  [+] Memory Subsystem Throughput: " ++ two_decimals x ++ lit " MB/s"].

(** The full run. *)
Definition full_run {P} `{HardwareProbe P} (env : bytes -> option bytes) (probe : P) (host : Host) (json : bool)
    (out_config : bytes) : outcome Output :=
  let tsc_ns := host_tsc host 500000 in
  let! lat := host_ping_pong host 10000 in
  let '(p50, p90, p99) := lat in
  let jitter_us := host_jitter host 30 in
  let throughput := host_memory host 128 in
  let card := compute_scorecard env tsc_ns p50 p90 p99 jitter_us throughput probe in
  let shown := if json then [scorecard_json card] else lit "  [*] Running comprehensive diagnostic suite..." :: scorecard_lines card in
  Done match host_write_error host out_config with
  | Some e =>
      mkOutput shown (if json then [] else [lit "  [!] Warning: Failed to write " ++ out_config ++ lit ": " ++ e]) None
  | None =>
      mkOutput (shown ++ if json then [] else [lit "  [✓] Auto-calibrated configuration written to '" ++ out_config ++ lit "'"; []]) []
        (Some (out_config, config_text two_decimals card))
  end.

(** [args] without the program's name. *)
Definition calibrate_main {P} `{HardwareProbe P} (env : bytes -> option bytes) (probe : P) (host : Host) (args : list bytes) :
    outcome Output :=
  let json := json_mode args in
  let '(out_config, command) := parse_command_line args in
  let only lines := Done (mkOutput lines [] None) in
  let! o :=
    if bool_decide (command = lit "tsc") then only (tsc_lines json (host_tsc host 1000000))
    else if bool_decide (command = lit "core-latency") then
      let! lat := host_ping_pong host 10000 in only (latency_lines json lat)
    else if bool_decide (command = lit "jitter") then only (jitter_lines json (host_jitter host 50))
    else if bool_decide (command = lit "shm") then only (memory_lines json (host_memory host 256))
    else full_run env probe host json out_config in
  Done (mkOutput ((if json then [] else banner) ++ out_lines o) (err_lines o) (out_file o)).

(** ** The scorecard as JSON *)

Definition scorecard_fields (card : HardwareScorecard) : list field :=
  [(lit "grade", FStr (grade_as_str (grade card))); (lit "recommended_tier", FStr (tier_debug (recommended_tier card)));
   (lit "logical_cores", FRaw (digits 20 (logical_cores card))); (lit "physical_cores", FRaw (digits 20 (physical_cores card)));
   (lit "hypervisor", FStr (sc_hypervisor card)); (lit "rdtsc_overhead_ns", FRaw (two_decimals (rdtsc_overhead_ns card)));
   (lit "core_ping_pong_p50_ns", FRaw (two_decimals (core_ping_pong_p50_ns card)));
   (lit "core_ping_pong_p90_ns", FRaw (two_decimals (core_ping_pong_p90_ns card)));
   (lit "core_ping_pong_p99_ns", FRaw (two_decimals (core_ping_pong_p99_ns card)));
   (lit "max_scheduler_jitter_us", FRaw (two_decimals (max_scheduler_jitter_us card)));
   (lit "shm_throughput_mb_sec", FRaw (two_decimals (shm_throughput_mb_sec card)))].

Lemma scorecard_json_flat card : scorecard_json card = flat_object (scorecard_fields card).
Proof.
  unfold scorecard_json, scorecard_fields. cbn [flat_object fields_tail]. unfold field_text, key_text, value_text. cbn [fst snd].
  repeat (rewrite <- ?app_assoc, <- ?app_comm_cons; cbn [app]). reflexivity.
Qed.
End Output.

Lemma memory_loop_done n : forall i chunk, Z.of_nat (length chunk) = chunk_size ->
  exists chunk', memory_loop n i chunk = Done chunk' /\ length chunk' = length chunk /\
    forall k, (forall j, i <= j < i + Z.of_nat n -> j mod chunk_size <> Z.of_nat k) -> chunk' !! k = chunk !! k.
Proof.
  unfold chunk_size. induction n as [|n IH]; intros i chunk Hl; cbn [memory_loop]; [by exists chunk|].
  unfold memory_write, chunk_size. pose proof (Z.mod_pos_bound i 65536 ltac:(lia)).
  rewrite (proj2 (Nat.ltb_lt _ _)) by lia. cbn [outcome_bind].
  destruct (IH (i + 1) (<[Z.to_nat (i mod 65536) := Z.land i 255]> chunk)) as (c & E & Hc & Hk); [by rewrite length_insert|].
  exists c. split; [done|]. split; [by rewrite Hc, length_insert|]. intros k Hj. rewrite Hk by (intros; apply Hj; lia).
  apply list_lookup_insert_ne. specialize (Hj i ltac:(lia)). lia.
Qed.

Module Benchmarks.

(** The ping-pong benchmark ends under every fair schedule, one in which the responder gets five turns and
    then the measuring thread one, as often as there are accesses to make: both threads have finished and
    there is one latency per round; and at any point of any schedule a round has been counted only after the
    responder has answered it. *)
Theorem ping_pong_completes (round_trip : Z -> Z) (iterations : Z) (blocks : list (list bool)) (schedule : list bool)
    (Hn : 0 <= iterations < max_int U64) (Hb : Forall fair blocks) (Hl : 2 * iterations + 3 <= Z.of_nat (length blocks)) :
  (let s := ping_pong_run round_trip iterations (ping_pong_new iterations) (mjoin blocks) in
   ping s = MDone /\ pong s = RExit /\ latencies_ns s = map (fun i => one_way (round_trip i)) (seqZ 1 iterations)) /\
  let s := ping_pong_run round_trip iterations (ping_pong_new iterations) schedule in
  rounds s <= flag2 s <= rounds s + 1 /\ rounds s <= iterations.
Proof.
  pose proof (ping_pong_new_ok round_trip iterations Hn) as H0. split.
  - pose proof (ping_pong_run_ok round_trip iterations Hn (mjoin blocks) _ H0) as Hs.
    pose proof (fair_ends round_trip iterations Hn blocks _ Hb H0) as Hw. cbv zeta.
    set (s := ping_pong_run _ _ _ _) in *. assert (ping_work iterations s = 0) as Hz.
    { apply Hw. unfold ping_work, ping_pong_new. cbn. unfold next_round. destruct (Z.leb_spec 1 iterations); lia. }
    destruct Hs as [Hm _ Hd Ht]. unfold ping_work in Hz. destruct (ping s); try lia. split; [done|]. split; [by apply Hd|].
    rewrite Ht. by destruct Hm as [-> _].
  - cbv zeta. pose proof (ping_pong_run_ok round_trip iterations Hn schedule _ H0) as [Hm Hp _ _].
    set (s := ping_pong_run _ _ _ _) in *. destruct (ping s); lia.
Qed.

(** Two rounds, the threads taking turns by five and one. *)
Lemma ping_pong_completes_witness :
  let s := ping_pong_run (fun i => 10 * i) 2 (ping_pong_new 2) (mjoin (replicate 7 ([false; false; false; false; false; true]))) in
  ping s = MDone /\ length (latencies_ns s) = 2%nat.
Proof.
  destruct (ping_pong_completes (fun i => 10 * i) 2 (replicate 7 [false; false; false; false; false; true]) [] ltac:(mint)) as [[H1 [_ H2]] _].
  - apply Forall_replicate. exists [false; false; false; false; false], [true]. by_eval.
  - by_eval.
  - intros s. split; [exact H1|]. subst s. rewrite H2. reflexivity.
Defined.

(** The three percentiles are latencies that were measured, in their order; with no round there is nothing to
    index and the program panics. *)
Theorem percentiles_ordered (latencies : list spec_float) (Hn : Forall (fun x => x <> S754_nan) latencies) :
  match latencies with
  | [] => percentiles latencies = Panic
  | _ => exists p50 p90 p99, percentiles latencies = Done (p50, p90, p99) /\
      In p50 latencies /\ In p90 latencies /\ In p99 latencies /\
      (p50 = p90 \/ not_after p50 p90) /\ (p90 = p99 \/ not_after p90 p99)
  end.
Proof.
  destruct latencies as [|x0 xs]; [reflexivity|]. set (l := x0 :: xs) in *. unfold percentiles.
  pose proof (merge_sort_Permutation not_after l) as Hp. pose proof (Sorted_merge_sort not_after l) as Hs.
  set (v := merge_sort not_after l) in *.
  assert (0 < length v)%nat as Hlen by (rewrite (Permutation_length Hp); subst l; cbn; lia).
  assert (forall p, (p < 100)%nat -> (length v * p / 100 < length v)%nat) as Hidx
    by (intros p Hlt; apply Nat.Div0.div_lt_upper_bound; nia).
  assert (Forall (fun x => x <> S754_nan) v) as Hv by (by rewrite Hp).
  assert (forall p q : nat, (p <= q)%nat -> (length v * p / 100 <= length v * q / 100)%nat) as Hmono
    by (intros; apply Nat.Div0.div_le_mono; nia).
  destruct (lookup_lt_is_Some_2 v _ (Hidx 50%nat ltac:(lia))) as [p50 E50].
  destruct (lookup_lt_is_Some_2 v _ (Hidx 90%nat ltac:(lia))) as [p90 E90].
  destruct (lookup_lt_is_Some_2 v _ (Hidx 99%nat ltac:(lia))) as [p99 E99].
  unfold percentile. rewrite E50. cbn [outcome_bind]. rewrite E90. cbn [outcome_bind]. rewrite E99.
  exists p50, p90, p99. split; [done|].
  assert (forall (i : nat) x, v !! i = Some x -> In x l) as Hin
    by (intros i x Hi; apply list_elem_of_In; rewrite <- Hp; by eapply list_elem_of_lookup_2).
  split; [by eapply Hin|]. split; [by eapply Hin|]. split; [by eapply Hin|]. split.
  - destruct (sorted_lookup v Hv Hs _ _ _ _ (Hmono 50%nat 90%nat ltac:(lia)) E50 E90) as [E|]; [|by right].
    left. rewrite E in E50. congruence.
  - destruct (sorted_lookup v Hv Hs _ _ _ _ (Hmono 90%nat 99%nat ltac:(lia)) E90 E99) as [E|]; [|by right].
    left. rewrite E in E90. congruence.
Qed.

Lemma percentiles_ordered_witness :
  exists p50 p90 p99, percentiles [one_way 30; one_way 10; one_way 20] = Done (p50, p90, p99) /\ (p50 = p90 \/ not_after p50 p90).
Proof.
  destruct (percentiles_ordered [one_way 30; one_way 10; one_way 20]) as (p50 & p90 & p99 & E & _ & _ & _ & H & _).
  - repeat (apply List.Forall_cons; [vm_compute; discriminate|]). apply List.Forall_nil.
  - exists p50, p90, p99. by split.
Defined.

(** The memory benchmark never indexes out of its chunk, and writes sixteen bytes for each megabyte it is
    asked to write and divides by the time. *)
Theorem memory_loop_writes (mb : Z) (chunk : list Z) (Hmb : 0 <= mb < 2 ^ 43) (Hl : Z.of_nat (length chunk) = chunk_size) :
  memory_iterations mb = 16 * mb /\
  exists chunk', memory_loop (Z.to_nat (memory_iterations mb)) 0 chunk = Done chunk' /\
    forall k, 16 * mb <= Z.of_nat k -> chunk' !! k = chunk !! k.
Proof.
  assert (memory_iterations mb = 16 * mb) as E.
  { unfold memory_iterations, chunk_size. rewrite (wrap_id _ (mb * 1024)), wrap_id by mint. zdm. }
  split; [done|]. destruct (memory_loop_done (Z.to_nat (memory_iterations mb)) 0 chunk Hl) as (c & Ec & _ & Hk).
  exists c. split; [done|]. intros k Hk'. apply Hk. intros j Hj.
  assert (j mod chunk_size <= j) by (apply Z.mod_le; unfold chunk_size; lia). lia.
Qed.

Lemma memory_loop_writes_witness : memory_iterations 256 = 4096 /\ memory_iterations 256 < 256 * 1024 * 1024.
Proof.
  destruct (memory_loop_writes 256 (replicate 65536 170) ltac:(lia) ltac:(by rewrite length_replicate)) as [E _].
  rewrite E. lia.
Defined.

(** What the printed JSON says is read back by the program's own extractors. *)
Theorem scorecard_read_back (two_decimals : spec_float -> bytes) (card : HardwareScorecard)
    (Hd : forall x, no_quote (two_decimals x)) (Hh : no_quote (sc_hypervisor card))
    (Hc : 0 <= logical_cores card) (Hpc : 0 <= physical_cores card) :
  extract_json_str_field (scorecard_json two_decimals card) (jlit "'grade':") = Ok (grade_as_str (grade card)) /\
  extract_json_str_field (scorecard_json two_decimals card) (jlit "'recommended_tier':") = Ok (tier_debug (recommended_tier card)) /\
  extract_json_str_field (scorecard_json two_decimals card) (jlit "'hypervisor':") = Ok (sc_hypervisor card).
Proof.
  assert (forall l, all_digits l -> no_quote l) as Hdig.
  { intros l H. eapply List.Forall_impl; [|exact H]. intros b Hb. unfold is_digit in Hb. breflect. lia. }
  assert (Forall field_ok (scorecard_fields two_decimals card)) as Hf.
  { unfold scorecard_fields. repeat (apply List.Forall_cons; [split; [by_eval|cbn [fst snd]; auto using all_digits_digits]|]);
      [..|apply List.Forall_nil]; [destruct (grade card); by_eval|destruct (recommended_tier card); by_eval]. }
  rewrite scorecard_json_flat.
  change (jlit "'grade':") with (key_text (lit "grade")). change (jlit "'recommended_tier':") with (key_text (lit "recommended_tier")).
  change (jlit "'hypervisor':") with (key_text (lit "hypervisor")).
  rewrite !extract_str_flat by (done || by_eval). done.
Qed.

Lemma scorecard_read_back_witness :
  extract_json_str_field (scorecard_json (fun _ => lit "1.00")
    (mkScorecard S754_nan S754_nan S754_nan S754_nan S754_nan S754_nan GradeB Tier1MidRange 8 4 (lit "KVM"))) (jlit "'hypervisor':") = Ok (lit "KVM").
Proof.
  refine (proj2 (proj2 (scorecard_read_back (fun _ => lit "1.00")
    (mkScorecard S754_nan S754_nan S754_nan S754_nan S754_nan S754_nan GradeB Tier1MidRange 8 4 (lit "KVM")) _ _ _ _)));
    [intros; by_eval|by_eval|cbn; lia|cbn; lia].
Defined.

(** The hypervisor's name is not escaped: one with a quote cuts the string short. *)
Example hypervisor_not_escaped :
  extract_json_str_field (scorecard_json (fun _ => lit "1.00")
    (mkScorecard S754_nan S754_nan S754_nan S754_nan S754_nan S754_nan GradeB Tier1MidRange 8 4 (jlit "My 'VM'"))) (jlit "'hypervisor':") =
    Ok (lit "My ").
Proof. vm_compute. reflexivity. Qed.
End Benchmarks.
