(* ===== verification/BotClient.v ===== *)
(** * examples/bot_client.rs: the offline demonstration of a client

    It encodes a quote into a buffer, decodes it as a client would, and prints the quote in dollars, the
    latencies of its time stamps and the arbitrage signal against a fixed price.  The texts of floats with two and
    four decimals are parameters.  For every quote what is printed is computed from the quote that was
    encoded: the run never panics. *)

From Stdlib Require Import SpecFloat.
From S2P Require Import Prelude Bytes Decimal Models Sbe Calibrate Benchmarks.

Definition f64_sub (a b : spec_float) : spec_float := SFsub 53 1024 a b.
Definition f64_mul (a b : spec_float) : spec_float := SFmul 53 1024 a b.

(** The quote of the demonstration. *)
Definition binance_bbo : NormalizedBbo :=
  mkBbo (mkTelemetry 1700000000000000000 1700000000001000000 1700000000001002800 1700000000001003200)
    1001 1 0 400123890 6542050000000 1250000000 6542100000000 820000000 1 0.

(** [x as f64 / 1e8]. *)
Definition scaled (x : Z) : spec_float := f64_div (f64_of_Z x) (f64_of_Z 100000000).
Definition dex_ask_usd : spec_float := f64_of_Z 65380.

Section Printing.
Context (two_decimals four_decimals : spec_float -> bytes).

Definition show (n : Z) : bytes := digits 20 n.
Definition rule : bytes := lit "------------------------------------------------------------".

Definition opening : list bytes :=
  [lit "============================================================";
   lit "  CHAIN-MARKET-PRICE: QUANT ARBITRAGE BOT CLIENT REFERENCE  ";
   lit "============================================================";
   [];
   lit "[offline demo] would connect to ws://127.0.0.1:9001/v1/marketdata ...";
   lit "Negotiated Protocol: Simple Binary Encoding (SBE, Little-Endian)";
   lit "Active Filters: Min Notional USD: $10,000 | Max Spread: 35 bps";
   []].

(** The lines about the decoded quote. *)
Definition quote_lines (b : NormalizedBbo) : list bytes :=
  let engine_latency_us := f64_div (f64_of_Z (internal_processing_latency_ns (bbo_telemetry b))) (f64_of_Z 1000) in
  let wire_latency_us := f64_div (f64_of_Z (wire_to_egress_latency_ns (bbo_telemetry b))) (f64_of_Z 1000) in
  [rule;
   lit "Market ID:          " ++ show (bbo_market_id b);
   lit "Exchange Venue:     Binance (ID: " ++ show (bbo_venue b) ++ lit ")";
   lit "Best Bid:           $" ++ two_decimals (scaled (bid_price b)) ++ lit " (Size: " ++ four_decimals (scaled (bid_qty b)) ++ lit " BTC)";
   lit "Best Ask:           $" ++ two_decimals (scaled (ask_price b)) ++ lit " (Size: " ++ four_decimals (scaled (ask_qty b)) ++ lit " BTC)";
   lit "Spread:             " ++ show (spread_bps b) ++ lit " bps";
   lit "Internal Latency:   " ++ two_decimals engine_latency_us ++ lit " µs (p50 SLA: < 3.2 µs)";
   lit "Total Wire Egress:  " ++ two_decimals wire_latency_us ++ lit " µs";
   rule;
   []].

(** The signal, when the bid is above the other venue's price. *)
Definition signal_lines (bid_usd : spec_float) : list bytes :=
  if SFltb dex_ask_usd bid_usd then
    let arb_spread := f64_sub bid_usd dex_ask_usd in
    let arb_bps := f64_mul (f64_div arb_spread dex_ask_usd) (f64_of_Z 10000) in
    [lit ">>> [ARBITRAGE SIGNAL DETECTED]";
     lit "    Buy on Uniswap v3:  $" ++ two_decimals dex_ask_usd;
     lit "    Sell on Binance:    $" ++ two_decimals bid_usd;
     lit "    Gross Profit:       $" ++ two_decimals arb_spread ++ lit " per BTC (" ++ two_decimals arb_bps ++ lit " bps)";
     lit "    Action: Triggering atomic execution bundle..."]
  else [].

(** The run on a quote: the buffer has 128 bytes, and both [unwrap] and [expect] would panic. *)
Definition bot_run (bbo : NormalizedBbo) : outcome (list bytes) :=
  let (sbe_buffer, r) := encode_bbo_sbe bbo (replicate 128 0) in
  match r with
  | Err _ => Panic
  | Ok encoded_len =>
      match decode_bbo_sbe (take encoded_len sbe_buffer) with
      | Err _ => Panic
      | Ok decoded_bbo =>
          Done (opening ++ [lit ">>> Received binary frame from wire: " ++ show (Z.of_nat encoded_len) ++ lit " bytes"] ++
            quote_lines decoded_bbo ++ signal_lines (scaled (bid_price decoded_bbo)) ++
            [[]; lit "Bot client running in steady-state zero-allocation loop. Listening..."])
      end
  end.
Definition bot_main : outcome (list bytes) := bot_run binance_bbo.
End Printing.

Module BotClient.

(** What is printed is that of the quote which was encoded, for every quote. *)
Theorem bot_prints_quote (two_decimals four_decimals : spec_float -> bytes) (b : NormalizedBbo) (Hb : Bbo_ok b) :
  bot_run two_decimals four_decimals b =
    Done (opening ++ [lit ">>> Received binary frame from wire: 92 bytes"] ++ quote_lines two_decimals four_decimals b ++
      signal_lines two_decimals (scaled (bid_price b)) ++
      [[]; lit "Bot client running in steady-state zero-allocation loop. Listening..."]).
Proof.
  unfold bot_run. rewrite encode_bbo_sbe_wire by by_eval.
  rewrite take_app_length' by by rewrite length_bbo_wire.
  pose proof (decode_bbo_wire b [] Hb) as E. rewrite app_nil_r in E. by rewrite E.
Qed.

Lemma bot_prints_quote_witness :
  exists lines, bot_main (fun _ => []) (fun _ => []) = Done lines /\ length lines = 26%nat.
Proof.
  eexists. split; [apply (bot_prints_quote (fun _ => []) (fun _ => []) binance_bbo); repeat constructor; by_eval|].
  vm_compute. reflexivity.
Defined.

(** The signal of the demonstration: 40.50 dollars, 6.19 basis points; and none when the bid is the price. *)
Example demo_signal :
  f64_sub (scaled (bid_price binance_bbo)) dex_ask_usd = f64_div (f64_of_Z 405) (f64_of_Z 10) /\
  SFltb dex_ask_usd (scaled (bid_price binance_bbo)) = true /\
  signal_lines (fun _ => []) (scaled 6538000000000) = [].
Proof. vm_compute. auto. Qed.
End BotClient.
