(* ===== verification/Testing.v ===== *)
(** * Running the source's own tests on the model

    A test of the source is translated to a computation that panics when one of its assertions fails or when
    it unwraps an error, and [passes] says that it returns.  The tests files (DistributionTests.v, IngestTests.v,
    PoolTests.v, EngineTests.v, RuntimeTests.v, SessionTests.v) translate every unit and integration test that the model covers, so
    the definitions are run on the inputs their authors chose.  Arithmetic wraps as in the release build of the
    rest of the development. *)

From S2P Require Import Prelude Bytes Text.

Definition test : Type := outcome unit.

Definition assert (b : bool) : test := if b then Done tt else Panic.
Definition assert_eq {A} `{EqDecision A} (left right : A) : test := assert (bool_decide (left = right)).
Definition assert_ne {A} `{EqDecision A} (left right : A) : test := assert (negb (bool_decide (left = right))).

(** [unwrap] and [expect], on results and options. *)
Definition unwrap {A E} (r : result A E) : outcome A := match r with Ok a => Done a | Err _ => Panic end.
Definition unwrap_some {A} (o : option A) : outcome A := match o with Some a => Done a | None => Panic end.
Definition is_some {A} (o : option A) : bool := match o with Some _ => true | None => false end.

(** [v[i]]. *)
Definition at_index {A} (l : list A) (i : nat) : outcome A := unwrap_some (l !! i).

Notation "a ;! k" := (outcome_bind a (fun _ => k)) (at level 60, k at level 200, right associativity) : rust_scope.

(** [for x in l { body(x)?; }] on a state. *)
Fixpoint for_each {A S} (body : S -> A -> outcome S) (l : list A) (s : S) : outcome S :=
  match l with
  | [] => Done s
  | x :: l => let! s := body s x in for_each body l s
  end.

Definition passes (t : test) : Prop := t = Done tt.

(** Runs every test of a list. *)
Ltac run_tests := repeat (apply List.Forall_cons; [vm_compute; reflexivity|]); apply List.Forall_nil.

(** [s.contains(..)] for each of the pieces. *)
Definition assert_contains (s : bytes) (pieces : list bytes) : test := assert (forallb (contains s) pieces).

(** A failed assertion and a panic fail the test. *)
Example failing : ~ passes (assert_eq 1 2) /\ ~ passes (let! x := unwrap (@Err Z Z 0) in assert_eq x x).
Proof. split; intros H; discriminate H. Qed.
