(* ===== verification/DistributionTests.v ===== *)
(** * The tests of the distribution crate, run on the model

    distribution/src: the unit tests of lib.rs, bitmap.rs, sbe.rs, fast_json.rs, session.rs, router.rs,
    websocket.rs and shm.rs, and the integration tests of distribution/tests/engine_tests.rs.  The test of the
    size and alignment of a slot is left out: memory layout is not modelled. *)

From Stdlib Require Import SpecFloat.
From S2P Require Import Prelude Bytes Text Testing Models Sbe Json Bitmap Topic Session Router WebSocket Topology Shm.

(** ** lib.rs *)

Definition test_topic_key_packing : test :=
  let topic := TopicKey_new 1 42 2 1 in
  assert_eq (topic_venue_id topic) 1 ;!
  assert_eq (topic_market_id topic) 42 ;!
  assert_eq (topic_stream_type topic) 2 ;!
  assert_eq (topic_flags topic) 1.

Definition test_lock_free_token_bucket : test :=
  let bucket := bucket_new 100 10 1000 in
  let (bucket, ok) := try_consume bucket 5 1000 in
  assert ok ;!
  let (bucket, ok) := try_consume bucket 5 1000 in
  assert ok ;!
  let (bucket, ok) := try_consume bucket 1 1000 in
  assert (negb ok) ;!
  let (bucket, ok) := try_consume bucket 5 1100 in
  assert ok.

(** ** bitmap.rs *)

Definition test_client_bitmap_insert_contains_remove : test :=
  let bitmap := bitmap_new in
  assert (negb (bitmap_contains bitmap 42)) ;!
  assert (bitmap_is_empty bitmap) ;!
  let (bitmap, ok) := bitmap_insert bitmap 42 in
  assert ok ;!
  assert (bitmap_contains bitmap 42) ;!
  let (bitmap, ok) := bitmap_insert bitmap 42 in
  assert (negb ok) ;!
  assert_eq (bitmap_count bitmap) 1 ;!
  let (bitmap, ok) := bitmap_insert bitmap 127 in
  assert ok ;!
  assert (bitmap_contains bitmap 127) ;!
  assert_eq (bitmap_count bitmap) 2 ;!
  let (bitmap, ok) := bitmap_remove bitmap 42 in
  assert ok ;!
  assert (negb (bitmap_contains bitmap 42)) ;!
  assert_eq (bitmap_count bitmap) 1 ;!
  let (bitmap, ok) := bitmap_remove bitmap 42 in
  assert (negb ok).

Definition inserted (ids : list Z) : ClientBitmap := fold_left (fun b id => (bitmap_insert b id).1) ids bitmap_new.

Definition test_client_bitmap_iteration : test :=
  let bitmap := inserted [3; 63; 64; 200] in
  assert_eq (bitmap_for_each (fun collected id => collected ++ [id]) bitmap []) [3; 63; 64; 200] ;!
  assert_eq (iter_collect 1025 (bitmap_iter bitmap)) [3; 63; 64; 200].

Definition test_client_bitmap_set_operations : test :=
  let b1 := inserted [1; 2] in
  let b2 := inserted [2; 3] in
  let intersection := bitmap_intersect b1 b2 in
  assert (negb (bitmap_contains intersection 1)) ;!
  assert (bitmap_contains intersection 2) ;!
  assert (negb (bitmap_contains intersection 3)) ;!
  let union := bitmap_union b1 b2 in
  assert (bitmap_contains union 1) ;!
  assert (bitmap_contains union 2) ;!
  assert (bitmap_contains union 3).

(** ** sbe.rs *)

(** Encodes into [size] bytes, decodes what was written, and gives both lengths' check and the record. *)
Definition sbe_through {A} (encode : bytes -> bytes * result nat SbeError) (decode : bytes -> result A SbeError) (size total : nat) :
    outcome A :=
  let (buf, r) := encode (replicate size 0) in
  let! written := unwrap r in
  assert_eq written total ;!
  unwrap (decode (take written buf)).

Definition test_sbe_bbo_roundtrip : test :=
  let bbo := mkBbo (mkTelemetry 1000000000 1000000100 1000000200 1000000300) 1001 1 1 424242
    6500000000000 150000000 6500100000000 200000000 1 1 in
  let! decoded := sbe_through (encode_bbo_sbe bbo) decode_bbo_sbe 128 TOTAL_SBE_BBO_LEN in
  assert_eq bbo decoded.

Definition test_sbe_trade_roundtrip : test :=
  let trade := mkTrade (mkTelemetry 500 600 700 800) 2002 2 42161 88888 999999 350000000000 1000000000 1 false in
  let! decoded := sbe_through (encode_trade_sbe trade) decode_trade_sbe 128 TOTAL_SBE_TRADE_LEN in
  assert_eq trade decoded.

Definition test_sbe_buffer_too_small : test := assert (negb (is_ok (encode_bbo_sbe Bbo_default (replicate 50 0)).2)).

(** ** fast_json.rs *)

(** Serializes into 512 bytes: the text, which must be valid UTF-8. *)
Definition json_through (serialize : bytes -> bytes * result nat JsonError) : outcome bytes :=
  let (buf, r) := serialize (replicate 512 0) in
  let! len := unwrap r in
  let json_str := take len buf in
  assert (utf8_valid json_str) ;! Done json_str.

Definition test_fast_json_bbo : test :=
  let bbo := mkBbo (mkTelemetry 1000 2000 3000 4000) 42 1 1 123456 6543210000000 150000000 6543300000000 200000000 2 1 in
  let! json_str := json_through (serialize_bbo_json bbo) in
  assert (is_prefix (jlit "{'type':'bbo','market_id':42") json_str) ;!
  assert_contains json_str [jlit "'bid_px':'65432.10000000'"; jlit "'ask_px':'65433.00000000'"; jlit "'spread_bps':2";
    jlit "'telemetry':{'t0':1000,'t1':2000,'t2':3000,'t3':4000}"].

Definition test_fast_json_trade : test :=
  let trade := mkTrade (mkTelemetry 10 20 30 40) 88 3 8453 777 99999 350050000000 500000000 2 true in
  let! json_str := json_through (serialize_trade_json trade) in
  assert (is_prefix (jlit "{'type':'trade','market_id':88") json_str) ;!
  assert_contains json_str [jlit "'price':'3500.50000000'"; jlit "'size':'5.00000000'"; jlit "'side':2"; jlit "'is_liquidation':true"].

Definition test_fast_json_writer_buffer_overflow : test :=
  assert (negb (is_ok (write_str (lit "12345678901") (writer_new (replicate 10 0))).2)).

(** ** session.rs *)

Definition test_client_session_lifecycle : test :=
  let session := ClientSession_new 1 ProtoSbe 1000 50 1000 in
  assert_eq (session_state session) Connected ;!
  assert (is_active session) ;!
  let session := set_state session Subscribed in
  assert_eq (session_state session) Subscribed ;!
  assert (is_active session) ;!
  let session := set_state session Closed in
  assert_eq (session_state session) Closed ;!
  assert (negb (is_active session)).

Definition test_client_session_heartbeat : test :=
  let session := ClientSession_new 1 ProtoJson 1000 50 1000 in
  let session := record_pong (record_ping session 1000000000) 1000000500 in
  assert (is_heartbeat_healthy session 1000001000 10000000) ;!
  assert (negb (is_heartbeat_healthy session 2000000000 10000000)).

Definition test_client_session_delivery_accounting : test :=
  let session := ClientSession_new 42 ProtoSbe 100 10 0 in
  let session := record_delivery (record_delivery session 92) 92 in
  assert_eq (messages_sent session) 2 ;!
  assert_eq (bytes_sent session) 184.

(** ** router.rs *)

(** [register_client(..).unwrap()] and [subscribe(..).unwrap()], for each of a list. *)
Definition register_all (router : InvertedTopicRouter) (sessions : list ClientSession) : outcome InvertedTopicRouter :=
  for_each (fun router s => let (router, r) := register_client router s in unwrap r ;! Done router) sessions router.
Definition subscribe_all (router : InvertedTopicRouter) (ids : list Z) (topic : Z) : outcome InvertedTopicRouter :=
  for_each (fun router id => let (router, r) := subscribe router id topic in unwrap r ;! Done router) ids router.

Definition test_inverted_router_bbo_dispatch : test :=
  let! router := register_all router_new [ClientSession_new 1 ProtoSbe 1000 10 0; ClientSession_new 2 ProtoJson 1000 10 0] in
  let! router := subscribe_all router [1; 2] (TopicKey_new 1 100 STREAM_TYPE_BBO 0) in
  let bbo := mkBbo Telemetry_default 100 1 1 1 5000000000000 100000000 5000100000000 100000000 2 0 in
  let '(router, metrics, sink) := dispatch_bbo router bbo 0 in
  let received := map (fun d => (d.1.1, d.1.2, length d.2)) sink in
  assert_eq (matched_clients metrics) 2 ;!
  assert_eq (delivered_clients metrics) 2 ;!
  assert_eq (filtered_clients metrics) 0 ;!
  assert_eq (length received) 2%nat ;!
  let! first := at_index received 0 in
  assert_eq first (1, ProtoSbe, TOTAL_SBE_BBO_LEN) ;!
  let! second := at_index received 1 in
  assert_eq second.1.1 2 ;!
  assert_eq second.1.2 ProtoJson.

(** Whole dollars as binary64. *)
Definition dollars (n : Z) : f64 := binary_normalize 53 1024 n 0 false.

Definition test_inverted_router_predicate_filtering : test :=
  let client1 := with_filter (ClientSession_new 1 ProtoJson 1000 10 0) (mkFilter (dollars 10000) 0 0 0) in
  let client2 := with_filter (ClientSession_new 2 ProtoJson 1000 10 0) (mkFilter (dollars 100) 0 0 0) in
  let! router := register_all router_new [client1; client2] in
  let! router := subscribe_all router [1; 2] (TopicKey_new 1 42 STREAM_TYPE_TRADE 0) in
  let trade := mkTrade Telemetry_default 42 1 0 0 0 200000000000 100000000 0 false in
  let '(router, metrics, sink) := dispatch_trade router trade (dollars 2000) 0 in
  let delivered := map (fun d => d.1.1) sink in
  assert_eq (matched_clients metrics) 2 ;!
  assert_eq (delivered_clients metrics) 1 ;!
  assert_eq (filtered_clients metrics) 1 ;!
  assert_eq delivered [2].

(** ** websocket.rs *)

Definition test_ws_frame_encode_decode : test :=
  let payload := lit "hello hft engine" in
  let (out, r) := encode_ws_frame OpText payload (replicate 64 0) in
  let! len := unwrap r in
  let! header := unwrap (decode_ws_frame_header (take len out)) in
  assert (fin header) ;!
  assert_eq (opcode header) OpText ;!
  assert (negb (masked header)) ;!
  assert_eq (payload_len header) (Z.of_nat (length payload)) ;!
  assert_eq (slice out (header_len header) len) payload.

(** [*b ^= mask[i % 4]], and the frame a client builds by hand, of less than 126 bytes. *)
Definition mask_by_hand (mask payload : bytes) : bytes :=
  imap (fun i b => Z.lxor b (nth (i mod 4) mask 0)) payload.
Definition frame_by_hand (first : Z) (mask payload : bytes) : bytes :=
  [first; Z.lor 128 (wrap U8 (Z.of_nat (length payload)))] ++ mask ++ mask_by_hand mask payload.

Definition test_ws_vectorized_unmasking : test :=
  let original := lit "Institutional HFT WebSocket Test Payload 1234567890!" in
  let mask := [170; 187; 204; 221] in
  assert_eq (unmask_payload (mask_by_hand mask original) mask) original.

(** [handle_inbound_frame(..).unwrap()]: the engine and the responses, joined. *)
Definition inbound (e : WebSocketServerEngine) (id : Z) (frame : bytes) (now_ms : Z) : outcome (WebSocketServerEngine * bytes) :=
  let! out := handle_inbound_frame e id frame now_ms in
  let '(e, responses, r) := out in
  unwrap r ;! Done (e, concat responses).
Definition connected (id : Z) (rate burst : Z) : outcome WebSocketServerEngine :=
  let (e, r) := handle_client_connect engine_new id ProtoJson rate burst 0 in
  unwrap r ;! Done e.

Definition test_ws_server_ping_pong : test :=
  let! engine := connected 1 1000 10 in
  let ping_payload := lit "ping-data" in
  let! out := inbound engine 1 (frame_by_hand 137 [18; 52; 86; 120] ping_payload) 1000 in
  let response := out.2 in
  assert (negb (length response =? 0)%nat) ;!
  let! resp_header := unwrap (decode_ws_frame_header response) in
  assert_eq (opcode resp_header) OpPong ;!
  assert_eq (slice response (header_len resp_header) (header_len resp_header + Z.to_nat (payload_len resp_header))) ping_payload.

Definition test_ws_client_subscribe_flow : test :=
  let! engine := connected 10 1000 10 in
  let sub_cmd := jlit "{'action':'subscribe','venue':1,'market_id':42,'stream_type':1,'flags':0}" in
  let! out := inbound engine 10 (frame_by_hand 129 [1; 2; 3; 4] sub_cmd) 1000 in
  let (engine, response) := out in
  let resp_str := drop 2 response in
  assert (utf8_valid resp_str) ;!
  assert_contains resp_str [jlit "{'type':'subscribed'"] ;!
  let bbo := mkBbo Telemetry_default 42 1 0 0 0 0 0 0 0 0 in
  let '(engine, metrics, frames) := broadcast_bbo engine bbo 1000 in
  assert_eq (matched_clients metrics) 1 ;!
  assert_eq (delivered_clients metrics) 1 ;!
  assert_eq (map fst frames) [10].

(** ** shm.rs *)

Definition test_shm_writer_reader_roundtrip : test :=
  let! ring := ring_new 1024 12345 in
  let bbo := mkBbo Telemetry_default 42 1 0 1 6500000000000 150000000 0 0 0 0 in
  let (ring, _) := ring_publish_bbo 1024 ring bbo 1000000 in
  let '(reader_cursor, out, status) := ring_try_read 1024 ring 0 Slot_default in
  assert_eq status ReadOk ;!
  assert_eq (sl_sequence out) 1 ;!
  assert_eq (sl_market_id out) 42 ;!
  assert_eq (sl_price out) 6500000000000 ;!
  assert_eq reader_cursor 1 ;!
  assert_eq (ring_try_read 1024 ring reader_cursor out).2 ReadEmpty.

Definition test_shm_overrun_detection : test :=
  let! ring := ring_new 8 1 in
  let ring := Nat.iter 20 (fun ring => (ring_publish_bbo 8 ring Bbo_default 0).1) ring in
  match (ring_try_read 8 ring 0 Slot_default).2 with ReadOverrun _ => Done tt | _ => Panic end.

Definition test_elastic_shm_config_tiers : test :=
  let c1 := for_tier Tier1MidRange in
  assert_eq (cfg_capacity c1) 4096 ;!
  assert (negb (enable_hugetlb c1)) ;!
  let c2 := for_tier Tier2CloudVirtualized in
  assert_eq (cfg_capacity c2) 16384 ;!
  assert_eq (preferred_path c2) (Some (lit "/dev/shm/cmp_market_data.shm")) ;!
  let c3 := for_tier Tier3EnterpriseBareMetal in
  assert_eq (cfg_capacity c3) 65536 ;!
  assert (enable_hugetlb c3).

(** On a host given by its directories and what opening a file gives. *)
Definition test_elastic_shm_ring_lifecycle_and_fallback (is_dir : bytes -> bool) (open_and_set_len : bytes -> Z -> bool)
    (tmp_path : bytes) : test :=
  let ring := create_or_fallback is_dir open_and_set_len tmp_path (for_tier Tier1MidRange) 9999 in
  assert_eq (capacity ring) 4096 ;!
  assert (match backend ring with HugeTLB 0 [] => false | _ => true end) ;!
  let bbo := mkBbo Telemetry_default 77 2 0 1 350000000000 1000000000 0 0 0 0 in
  let (ring, seq) := publish_bbo ring bbo 500 in
  assert_eq seq 1 ;!
  let '(reader_cursor, out, status) := try_read ring 0 Slot_default in
  assert_eq status ReadOk ;!
  assert_eq (sl_sequence out) 1 ;!
  assert_eq (sl_market_id out) 77 ;!
  assert_eq (sl_price out) 350000000000 ;!
  assert_eq reader_cursor 1 ;!
  let trade := mkTrade Telemetry_default 77 2 0 2 0 350100000000 200000000 1 false in
  let (ring, t_seq) := publish_trade ring trade 600 in
  assert_eq t_seq 2 ;!
  let '(reader_cursor, out, status2) := try_read ring reader_cursor out in
  assert_eq status2 ReadOk ;!
  assert_eq (sl_sequence out) 2 ;!
  assert_eq (sl_price out) 350100000000 ;!
  assert_eq (sl_kind out) (ShmMsgKind_code KindTrade).

(** ** tests/engine_tests.rs *)

Definition test_end_to_end_sbe_bbo_serialization_and_deserialization : test :=
  let bbo := mkBbo (mkTelemetry 1700000000000000000 1700000000000000100 1700000000000000250 1700000000000000300) 101 1 1 999999
    6550000000000 1250000000 6550100000000 1800000000 1 1 in
  let! decoded := sbe_through (encode_bbo_sbe bbo) decode_bbo_sbe 128 TOTAL_SBE_BBO_LEN in
  assert_eq (bbo_market_id bbo) (bbo_market_id decoded) ;!
  assert_eq (bbo_venue bbo) (bbo_venue decoded) ;!
  assert_eq (bbo_chain bbo) (bbo_chain decoded) ;!
  assert_eq (bbo_sequence bbo) (bbo_sequence decoded) ;!
  assert_eq (bid_price bbo) (bid_price decoded) ;!
  assert_eq (bid_qty bbo) (bid_qty decoded) ;!
  assert_eq (ask_price bbo) (ask_price decoded) ;!
  assert_eq (ask_qty bbo) (ask_qty decoded) ;!
  assert_eq (spread_bps bbo) (spread_bps decoded) ;!
  assert_eq (bbo_flags bbo) (bbo_flags decoded) ;!
  assert_eq (bbo_telemetry bbo) (bbo_telemetry decoded).

Definition test_end_to_end_sbe_trade_serialization_and_deserialization : test :=
  let trade := mkTrade (mkTelemetry 100 200 300 400) 202 102 42161 555555 1234567 320050000000 500000000 2 false in
  let! decoded := sbe_through (encode_trade_sbe trade) decode_trade_sbe 128 TOTAL_SBE_TRADE_LEN in
  assert_eq (tr_market_id trade) (tr_market_id decoded) ;!
  assert_eq (tr_venue trade) (tr_venue decoded) ;!
  assert_eq (tr_chain trade) (tr_chain decoded) ;!
  assert_eq (tr_sequence trade) (tr_sequence decoded) ;!
  assert_eq (tr_trade_id trade) (tr_trade_id decoded) ;!
  assert_eq (tr_price trade) (tr_price decoded) ;!
  assert_eq (tr_size trade) (tr_size decoded) ;!
  assert_eq (tr_side trade) (tr_side decoded) ;!
  assert_eq (tr_is_liquidation trade) (tr_is_liquidation decoded).

Definition test_fast_json_bbo_validation : test :=
  let bbo := mkBbo (mkTelemetry 1 2 3 4) 42 1 1 1001 1234567000000 1000000000 1234600000000 2500000000 3 0 in
  let! json_str := json_through (serialize_bbo_json bbo) in
  assert_contains json_str [jlit "'type':'bbo'"; jlit "'market_id':42"; jlit "'bid_px':'12345.67000000'"; jlit "'bid_qty':'10.00000000'";
    jlit "'ask_px':'12346.00000000'"; jlit "'ask_qty':'25.00000000'"].

Definition test_fast_json_trade_validation : test :=
  let trade := mkTrade Telemetry_default 77 3 8453 2002 8888 9999000000 125000000 1 true in
  let! json_str := json_through (serialize_trade_json trade) in
  assert_contains json_str [jlit "'type':'trade'"; jlit "'market_id':77"; jlit "'price':'99.99000000'"; jlit "'size':'1.25000000'";
    jlit "'side':1"; jlit "'is_liquidation':true"].

Definition test_inverted_topic_router_multi_client_fanout : test :=
  let! router := register_all router_new
    (map (fun i => ClientSession_new i ProtoSbe 10000 100 0) (seqZ 0 10) ++
     map (fun i => ClientSession_new i ProtoJson 10000 100 0) (seqZ 10 10)) in
  let! router := subscribe_all router (seqZ 0 20) (TopicKey_new 1 100 STREAM_TYPE_BBO 0) in
  let bbo := mkBbo Telemetry_default 100 1 1 1 6000000000000 100000000 6000100000000 100000000 1 0 in
  let '(router, metrics, sink) := dispatch_bbo router bbo 0 in
  let! delivered := for_each (fun counts d =>
    match d.1.2 with
    | ProtoSbe => assert_eq (length d.2) TOTAL_SBE_BBO_LEN ;! Done (counts.1 + 1, counts.2)
    | ProtoJson => assert (50 <? length d.2)%nat ;! Done (counts.1, counts.2 + 1)
    end) sink (0, 0) in
  assert_eq (matched_clients metrics) 20 ;!
  assert_eq (delivered_clients metrics) 20 ;!
  assert_eq delivered.1 10 ;!
  assert_eq delivered.2 10.

Definition test_predicate_filtering_min_notional_and_spread : test :=
  let client max_spread id := with_filter (ClientSession_new id ProtoJson 1000 10 0) (mkFilter (S754_zero false) max_spread 0 0) in
  let! router := register_all router_new [client 3 1; client 10 2] in
  let! router := subscribe_all router [1; 2] (TopicKey_new 2 50 STREAM_TYPE_BBO 0) in
  let bbo := mkBbo Telemetry_default 50 2 0 0 0 0 0 0 5 0 in
  let '(router, metrics, sink) := dispatch_bbo router bbo 0 in
  assert_eq (matched_clients metrics) 2 ;!
  assert_eq (delivered_clients metrics) 1 ;!
  assert_eq (filtered_clients metrics) 1 ;!
  assert_eq (map (fun d => d.1.1) sink) [2].

Definition test_ws_server_complete_flow : test :=
  let! ws_server := connected 100 1000 50 in
  let sub_cmd := jlit "{'action':'subscribe','venue':1,'market_id':500,'stream_type':1,'flags':0}" in
  let! out := inbound ws_server 100 (frame_by_hand 129 [17; 34; 51; 68] sub_cmd) 0 in
  let (ws_server, response_buf) := out in
  let! resp_hdr := unwrap (decode_ws_frame_header response_buf) in
  assert_eq (opcode resp_hdr) OpText ;!
  let bbo := mkBbo Telemetry_default 500 1 1 1 10000000000 100000000 10001000000 100000000 1 0 in
  let '(ws_server, metrics, sent_frames) := broadcast_bbo ws_server bbo 0 in
  assert_eq (matched_clients metrics) 1 ;!
  assert_eq (delivered_clients metrics) 1 ;!
  assert_eq (length sent_frames) 1%nat ;!
  let! first := at_index sent_frames 0 in
  assert_eq first.1 100 ;!
  let! header := unwrap (decode_ws_frame_header first.2) in
  assert_eq (opcode header) OpText.

(** On the smallest tier the cascade never asks for huge pages. *)
Lemma tier1_backend is_dir open_and_set_len tmp_path pid :
  exists b, match b with HugeTLB _ _ => False | _ => True end /\
    create_or_fallback is_dir open_and_set_len tmp_path (for_tier Tier1MidRange) pid = init_memory_backed b 4096 4095 pid.
Proof.
  unfold create_or_fallback.
  change (cfg_capacity (for_tier Tier1MidRange)) with 4096. change (is_power_of_two 4096) with true.
  change (enable_hugetlb (for_tier Tier1MidRange)) with false. cbv zeta. cbn [andb]. change (4096 -[USIZE] 1) with 4095.
  destruct (is_dir _ && _); [|destruct (open_and_set_len tmp_path _)]; (eexists; split; [|reflexivity]; exact I).
Qed.

Module DistributionTests.

(** The unit tests of the distribution crate pass on the model. *)
Theorem unit_tests_pass : Forall passes
  [test_topic_key_packing; test_lock_free_token_bucket; test_client_bitmap_insert_contains_remove; test_client_bitmap_iteration;
   test_client_bitmap_set_operations; test_sbe_bbo_roundtrip; test_sbe_trade_roundtrip; test_sbe_buffer_too_small;
   test_fast_json_bbo; test_fast_json_trade; test_fast_json_writer_buffer_overflow; test_client_session_lifecycle;
   test_client_session_heartbeat; test_client_session_delivery_accounting; test_inverted_router_bbo_dispatch;
   test_inverted_router_predicate_filtering; test_ws_frame_encode_decode; test_ws_vectorized_unmasking;
   test_ws_server_ping_pong; test_ws_client_subscribe_flow; test_shm_writer_reader_roundtrip; test_shm_overrun_detection;
   test_elastic_shm_config_tiers].
Proof. run_tests. Qed.

(** The life of the elastic ring passes on every host: whichever back end the cascade ends with. *)
Theorem elastic_ring_test_passes (is_dir : bytes -> bool) (open_and_set_len : bytes -> Z -> bool) (tmp_path : bytes) :
  passes (test_elastic_shm_ring_lifecycle_and_fallback is_dir open_and_set_len tmp_path).
Proof.
  destruct (tier1_backend is_dir open_and_set_len tmp_path 9999) as (b & Hb & E).
  unfold passes, test_elastic_shm_ring_lifecycle_and_fallback. rewrite E. destruct b; [done|vm_compute; reflexivity..].
Qed.

(** The integration tests of the crate pass on the model. *)
Theorem engine_tests_pass : Forall passes
  [test_end_to_end_sbe_bbo_serialization_and_deserialization; test_end_to_end_sbe_trade_serialization_and_deserialization;
   test_fast_json_bbo_validation; test_fast_json_trade_validation; test_inverted_topic_router_multi_client_fanout;
   test_predicate_filtering_min_notional_and_spread; test_ws_server_complete_flow].
Proof. run_tests. Qed.
End DistributionTests.
