(* ===== verification/IngestTests.v ===== *)
(** * The tests of the ingestion crates, run on the model

    The unit tests of cefi-ingest/src/lib.rs, of its transport/mod.rs and of onchain-ingest/src/lib.rs.  The raw
    file descriptor that one of them looks at is left out, and the loopback socket is a parameter: what its
    [bind] gives and what then arrives on it. *)

From S2P Require Import Prelude Bytes Text Testing Models Topology Amm JsonScan Iso8601 FeedParser SequenceTracker.
From S2P Require Import Onchain Transport SocketTransport.

(** ** cefi-ingest/src/lib.rs *)

Definition test_sequence_tracker : test :=
  let tracker := on_snapshot tracker_new 100 in
  assert_eq (status tracker) InSync ;!
  let (tracker, ok) := validate_sequence tracker 101 105 in
  assert ok ;!
  assert_eq (last_sequence tracker) 105 ;!
  let (tracker, ok) := validate_sequence tracker 108 110 in
  assert (negb ok) ;!
  assert (match status tracker with GapDetected _ _ => true | _ => false end).

Definition test_binance_bbo_parsing : test :=
  let raw := jlit "{'u':400900217,'s':'BNBUSDT','b':'25.3519','B':'31.21','a':'25.3652','A':'40.66','E':1672531199000}" in
  let! bbo := unwrap (parse_binance_bbo 1 raw 123456789) in
  assert_eq (bbo_venue bbo) (VenueId_code Binance) ;!
  assert_eq (bid_price bbo) 2535190000 ;!
  assert_eq (ask_price bbo) 2536520000 ;!
  assert_eq (bbo_sequence bbo) 400900217.

Definition test_find_subsequence : test :=
  assert_eq (find_subsequence (lit "abcabc") (lit "abc")) (Some 0%nat) ;!
  assert_eq (find_subsequence (lit "xxabc") (lit "abc")) (Some 2%nat) ;!
  assert_eq (find_subsequence (lit "ab") (lit "abc")) None ;!
  assert_eq (find_subsequence (lit "abd abx") (lit "abc")) None ;!
  assert_eq (find_subsequence (lit "abc") []) None ;!
  assert_eq (find_subsequence (jlit "'b':'1'") (jlit "'b':")) (Some 0%nat).

Definition test_iso8601_parsing : test :=
  assert_eq (parse_iso8601_utc_ns (lit "2023-01-01T00:00:00Z")) (Some 1672531200000000000) ;!
  assert_eq (parse_iso8601_utc_ns (lit "2023-01-01T00:00:01.041089Z")) (Some 1672531201041089000) ;!
  assert_eq (parse_iso8601_utc_ns (lit "2024-02-29T12:00:00Z")) (Some 1709208000000000000) ;!
  assert_eq (parse_iso8601_utc_ns (lit "not a time")) None ;!
  assert_eq (parse_iso8601_utc_ns (lit "2023-13-01T00:00:00Z")) None ;!
  assert_eq (parse_iso8601_utc_ns (lit "2023-01-01T00:00:00")) None.

Definition CB_TICKER : bytes := jlit "{'type':'ticker','sequence':138715980456,'product_id':'BTC-USD','price':'77328.57','open_24h':'77747.9','volume_24h':'7190.97519819','low_24h':'76238.54','high_24h':'77980.33','volume_30d':'159706.40974752','best_bid':'77328.56','best_bid_size':'0.00000069','best_ask':'77328.57','best_ask_size':'0.14181185','side':'buy','time':'2026-11-03T14:35:39.041089Z','trade_id':1114414143,'last_size':'0.00040846'}".

Definition test_coinbase_ticker_bbo_and_trade : test :=
  let! bbo := unwrap (parse_coinbase_ticker_bbo 7 CB_TICKER 5) in
  assert_eq (bbo_venue bbo) (VenueId_code Coinbase) ;!
  assert_eq (bbo_sequence bbo) 138715980456 ;!
  assert_eq (bid_price bbo) 7732856000000 ;!
  assert_eq (bid_qty bbo) 69 ;!
  assert_eq (ask_price bbo) 7732857000000 ;!
  assert_eq (ask_qty bbo) 14181185 ;!
  assert_eq (t0_exchange_ns (bbo_telemetry bbo) mod 1000000000) 41089000 ;!
  let! t := unwrap (parse_coinbase_ticker_trade 7 CB_TICKER 5) in
  assert_eq (tr_trade_id t) 1114414143 ;!
  assert_eq (tr_price t) 7732857000000 ;!
  assert_eq (tr_size t) 40846 ;!
  assert_eq (tr_side t) 1.

Definition test_coinbase_ticker_rejects_missing_fields : test :=
  assert (match parse_coinbase_ticker_bbo 1 (jlit "{'type':'ticker'}") 0 with Err _ => true | Ok _ => false end).

(** ** transport/mod.rs *)

Definition solarflare_packet (u bid bid_qty ask ask_qty e : string) : bytes :=
  jlit "{'u':" ++ lit u ++ jlit ",'s':'BTCUSDT','b':'" ++ lit bid ++ jlit "','B':'" ++ lit bid_qty ++ jlit "','a':'" ++
  lit ask ++ jlit "','A':'" ++ lit ask_qty ++ jlit "','E':" ++ lit e ++ lit "}".

Definition test_solarflare_ef_vi_transport_ingress (clock : nat -> Z) : test :=
  let! transport := solarflare_new (lit "sfc0") (lit "239.1.1.1:12345") in
  assert_eq (backend_kind transport) SolarflareEfViBackend ;!
  assert (transport_active transport) ;!
  let packet1 := solarflare_packet "100" "65000.50" "1.5" "65001.00" "2.0" "1672531199000" in
  let packet2 := solarflare_packet "101" "65001.00" "1.8" "65001.50" "1.2" "1672531200000" in
  let! r := solarflare_inject transport packet1 100000 in
  unwrap r.2 ;!
  let! r := solarflare_inject r.1 packet2 200000 in
  unwrap r.2 ;!
  let! r := poll_batch r.1 clock 10 in
  let '(transport, received, count) := r in
  let! count := unwrap count in
  assert_eq count 2%nat ;!
  assert_eq (length received) 2%nat ;!
  let! first := at_index received 0 in
  assert_eq first.2 100000 ;!
  let! second := at_index received 1 in
  assert_eq second.2 200000 ;!
  let stats := transport_stats transport in
  assert_eq (rx_packets stats) 2 ;!
  assert_eq (rx_bytes stats) (Z.of_nat (length packet1 + length packet2)) ;!
  assert_eq (poll_calls stats) 1 ;!
  assert_eq (st_empty_polls stats) 0 ;!
  let! r := poll_batch transport clock 10 in
  let! empty_count := unwrap r.2 in
  assert_eq empty_count 0%nat ;!
  assert_eq (st_empty_polls (transport_stats r.1.1)) 1.

(** The closure: the last quote that parses. *)
Definition capture (captured_bbo : option NormalizedBbo) (p : bytes * Z) : option NormalizedBbo :=
  match parse_binance_bbo 1 p.1 p.2 with Ok bbo => Some bbo | Err _ => captured_bbo end.

Definition test_io_uring_transport_ingress (os : Os) (clock : nat -> Z) : test :=
  let! r := io_uring_bind os (lit "mock") 128 in
  let! transport := unwrap r in
  assert_eq (backend_kind transport) IoUringBackend ;!
  assert (transport_active transport) ;!
  let payload := jlit "{'u':200,'s':'ETHUSDT','b':'3500.00','B':'10.0','a':'3500.50','A':'8.5','E':1672531201000}" in
  let! r := io_uring_inject transport payload 500000 in
  unwrap r.2 ;!
  let! r := poll_batch r.1 clock 10 in
  let '(transport, handled, count) := r in
  let captured_bbo := fold_left capture handled None in
  let! count := unwrap count in
  assert_eq count 1%nat ;!
  let! bbo := unwrap_some captured_bbo in
  assert_eq (bbo_venue bbo) (VenueId_code Binance) ;!
  assert_eq (bid_price bbo) 350000000000 ;!
  assert_eq (ask_price bbo) 350050000000 ;!
  assert_eq (t1_ingest_nic_ns (bbo_telemetry bbo)) 500000 ;!
  assert_eq (rx_packets (transport_stats transport)) 1.

Definition loopback_payload : bytes :=
  jlit "{'u':300,'s':'SOLUSDT','b':'150.25','B':'50.0','a':'150.30','A':'40.0','E':1672531202000}".

Definition test_standard_socket_transport_loopback (os : Os) (clock : nat -> Z) : test :=
  let! receiver := unwrap (standard_bind os (lit "127.0.0.1:0") false) in
  assert_eq (backend_kind receiver) StandardSocketBackend ;!
  let! r := poll_batch receiver clock 10 in
  let '(receiver, received, count) := r in
  let! count := unwrap count in
  assert (1 <=? count)%nat ;!
  let! first := at_index received 0 in
  assert_eq (take (length loopback_payload) first.1) loopback_payload ;!
  assert (0 <? first.2) ;!
  assert_eq (rx_packets (transport_stats receiver)) 1.

Definition test_mock_network_transport (clock : nat -> Z) : test :=
  assert_eq (backend_kind mock_new) MockBackend ;!
  let mock := push_packet mock_new (lit "TEST_PACKET_A") 100 in
  let mock := push_packet mock (lit "TEST_PACKET_B") 200 in
  assert_eq (mock_queue_len mock) 2%nat ;!
  let! r := poll_batch mock clock 5 in
  let '(mock, items, count) := r in
  let! count := unwrap count in
  assert_eq count 2%nat ;!
  let! first := at_index items 0 in
  assert_eq first.1 (lit "TEST_PACKET_A") ;!
  assert_eq first.2 100 ;!
  let! second := at_index items 1 in
  assert_eq second.1 (lit "TEST_PACKET_B") ;!
  assert_eq second.2 200 ;!
  assert_eq (mock_queue_len mock) 0%nat.

Definition factory_config (preferred_backend : option TransportBackendKind) : TransportConfig :=
  mkTransportConfig (lit "127.0.0.1:0") (lit "eth0") preferred_backend 32 false 512.

Definition test_transport_factory_tier_negotiation (os : Os) (env : bytes -> option bytes) : test :=
  let config := factory_config None in
  let! t3 := create_optimal_transport os env config new_tier3_bare_metal in
  let! t3 := unwrap t3 in
  assert_eq (backend_kind t3) SolarflareEfViBackend ;!
  let! t2 := create_optimal_transport os env config new_tier2_aws_nitro in
  let! t2 := unwrap t2 in
  assert (bool_decide (backend_kind t2 = IoUringBackend) || bool_decide (backend_kind t2 = StandardSocketBackend)) ;!
  let! t1 := create_optimal_transport os env config new_tier1_laptop in
  let! t1 := unwrap t1 in
  assert_eq (backend_kind t1) StandardSocketBackend ;!
  let! explicit := create_optimal_transport os env (factory_config (Some MockBackend)) new_tier3_bare_metal in
  let! explicit := unwrap explicit in
  assert_eq (backend_kind explicit) MockBackend.

(** ** onchain-ingest/src/lib.rs *)

Definition test_speculative_swap_simulation : test :=
  let pool := v2_new (1000 * 10 ^ 18) (2000000 * 10 ^ 6) 30 in
  let! spot_initial := v2_spot_price_scaled pool in
  let pending := mkTx (replicate 32 170) (ChainId_code Ethereum) (replicate 20 17) 45 true (100000 * 10 ^ 6) (40 * 10 ^ 18)
    12345678 in
  let! shift := simulate_pending_swap pending pool in
  let! shift := unwrap_some shift in
  assert (spot_initial <? predicted_spot_price shift) ;!
  assert (0 <? price_impact_bps shift).

Definition loopback_os : Os := mkOs (fun _ => Ok []) (fun _ => None) (fun _ => Ok (lit "127.0.0.1:9")).

Lemma negotiated_tiers :
  rp_tier (negotiate_profile new_tier3_bare_metal (fun _ => None) None) = Tier3EnterpriseBareMetal /\
  rp_tier (negotiate_profile new_tier2_aws_nitro (fun _ => None) None) = Tier2CloudVirtualized /\
  rp_tier (negotiate_profile new_tier1_laptop (fun _ => None) None) = Tier1MidRange.
Proof. repeat split; vm_compute; reflexivity. Qed.

Module IngestTests.

(** The unit tests of the parsers, the sequence tracker and the mempool simulator pass. *)
Theorem parser_tests_pass : Forall passes
  [test_sequence_tracker; test_binance_bbo_parsing; test_find_subsequence; test_iso8601_parsing;
   test_coinbase_ticker_bbo_and_trade; test_coinbase_ticker_rejects_missing_fields; test_speculative_swap_simulation].
Proof. run_tests. Qed.

(** The unit tests of the transports pass, whatever the clock reads and whatever the sockets do that they do not use. *)
Theorem transport_tests_pass (os : Os) (clock : nat -> Z) : Forall passes
  [test_solarflare_ef_vi_transport_ingress clock; test_io_uring_transport_ingress os clock; test_mock_network_transport clock].
Proof. run_tests. Qed.

(** The loopback test passes when the payload is what arrives and the clock is past the epoch. *)
Theorem loopback_test_passes (addr : bytes) (clock : nat -> Z) (Hclock : 0 < clock 0%nat) :
  passes (test_standard_socket_transport_loopback
    (mkOs (fun _ => Ok [Datagram loopback_payload]) (fun _ => None) (fun _ => Ok addr)) clock).
Proof.
  unfold passes. transitivity (assert (0 <? clock 0%nat) ;! Done tt); [vm_compute; reflexivity|].
  destruct (Z.ltb_spec 0 (clock 0%nat)); [done|lia].
Qed.

Lemma loopback_test_passes_witness :
  passes (test_standard_socket_transport_loopback
    (mkOs (fun _ => Ok [Datagram loopback_payload]) (fun _ => None) (fun _ => Ok (lit "127.0.0.1:9"))) (fun _ => 7)).
Proof. apply loopback_test_passes. reflexivity. Defined.

(** The factory's test passes whenever the operating system binds a socket and no variable forces another tier. *)
Theorem factory_test_passes (os : Os) (s : socket) (addr : bytes) (Hbind : udp_bind os (lit "127.0.0.1:0") = Ok s)
    (Hnb : set_nonblocking os s = None) (Haddr : local_addr_of os s = Ok addr) :
  passes (test_transport_factory_tier_negotiation os (fun _ => None)).
Proof.
  assert (E : socket_box os (factory_config None) =
    Done (Ok (BoxSocket (mkStandard s (replicate SOCKET_RX_BUFFER_SIZE 0) false TransportStats_default addr true)))).
  { unfold socket_box, standard_bind. cbn [factory_config tc_bind_addr]. rewrite Hbind. cbn [io_err result_bind].
    rewrite Hnb. cbn [io_err result_bind]. by rewrite Haddr. }
  assert (E2 : exists t, io_uring_bind os (lit "127.0.0.1:0") 512 = Done (Ok t)).
  { unfold io_uring_bind. rewrite Hbind. cbn [io_err result_bind]. rewrite Hnb. by eexists. }
  assert (E3 : exists t, solarflare_box (factory_config None) = Done (Ok (BoxSolarflare t))) 
    by (unfold solarflare_box; destruct (solarflare_new_ok (lit "eth0") (lit "127.0.0.1:0")) as (t & E3 & _); exists t;
      cbn [factory_config interface tc_bind_addr]; by rewrite E3).
  destruct E2 as [t2 E2], E3 as [t3 E3].
  unfold passes, test_transport_factory_tier_negotiation.
  unfold create_optimal_transport. cbn [preferred_backend factory_config].
  destruct negotiated_tiers as (-> & -> & ->).
  change (tc_ring_capacity (factory_config None)) with 512. change (tc_bind_addr (factory_config None)) with (lit "127.0.0.1:0").
  by rewrite E3, E2, E.
Qed.

Lemma factory_test_passes_witness : passes (test_transport_factory_tier_negotiation loopback_os (fun _ => None)).
Proof. apply (factory_test_passes loopback_os [] (lit "127.0.0.1:9")); reflexivity. Defined.
End IngestTests.
