(* ===== verification/PoolTests.v ===== *)
(** * The tests of the virtualized pools, run on the model

    The unit tests of amm-virtualizer/src: lib.rs, curve.rs and v4.rs. *)

From Stdlib Require Import SpecFloat.
From S2P Require Import Prelude Bytes Testing OrderBook Amm V4 Curve Calibrate Benchmarks.

(** [assert!(book.bbo_bid().is_some())] and the quantity of what it holds. *)
Definition assert_bid (book : ContiguousOrderBook) : test :=
  assert (is_some (bbo_bid book)) ;!
  let! level := unwrap_some (bbo_bid book) in
  assert (0 <? lv_quantity level).

(** ** lib.rs *)

Definition test_uniswap_v2_discretization : test :=
  let pool := v2_new (1000 * 10 ^ 18) (2000000 * 10 ^ 6) 30 in
  let! spot := v2_spot_price_scaled pool in
  assert_eq spot 200000000000 ;!
  let! book := v2_populate pool (book_new 200000000000) [10; 25; 50; 100] 1000 in
  assert_bid book.

(** ** curve.rs *)

Definition test_curve_3pool_dai_usdc_usdt_invariant : test :=
  let pool := new_3pool (10000000 * 10 ^ 18) (10000000 * 10 ^ 6) (10000000 * 10 ^ 6) 18 6 6 200 4 in
  let! xp := normalized_reserves pool in
  let! x0 := at_index xp 0 in
  assert_eq x0 (10000000 * 10 ^ 18) ;!
  let! x1 := at_index xp 1 in
  assert_eq x1 (10000000 * 10 ^ 18) ;!
  let! x2 := at_index xp 2 in
  assert_eq x2 (10000000 * 10 ^ 18) ;!
  let! d := get_d pool xp in
  let! d := unwrap_some d in
  assert_eq d (30000000 * 10 ^ 18) ;!
  let! spot := curve_spot_price_scaled pool 0 1 in
  assert ((99900000 <=? spot) && (spot <=? 100100000)) ;!
  let! dy := calculate_swap_output pool 0 1 (10000 * 10 ^ 18) in
  let! dy := unwrap_some dy in
  let dy_scaled := f64_div (f64_of_Z dy) (f64_of_Z 1000000) in
  assert (SFleb (f64_of_Z 9990) dy_scaled && SFleb dy_scaled (f64_of_Z 10000)).

Definition test_curve_2pool_steth_eth_discretization : test :=
  let pool := new_2pool (100000 * 10 ^ 18) (100000 * 10 ^ 18) 18 18 50 4 in
  let! book := curve_populate pool (book_new 100000000) 0 1 [1; 2; 5; 10] 1000 in
  assert_bid book.

(** ** v4.rs *)

Definition test_v4_hook_flags_and_dynamic_fee : test :=
  let hooks_addr := <[1%nat := 128]> (replicate 20 0) in
  let key := mkPoolKey (replicate 20 17) (replicate 20 34) (Z.lor DYNAMIC_FEE_FLAG 3000) 60 hooks_addr in
  assert (has_dynamic_fee key) ;!
  assert (has_hook key BEFORE_SWAP) ;!
  assert (negb (has_hook key AFTER_SWAP)) ;!
  let pool := v4_new key (2 ^ 96) 0 10000000000 in
  assert_eq (effective_fee_bps pool) 30 ;!
  let config := mkHookConfig (Some 12) 0 (-2) in
  assert_eq (effective_fee_bps (with_hook_config pool config)) 10.

Definition test_v4_order_book_discretization : test :=
  let key := mkPoolKey (replicate 20 170) (replicate 20 187) 500 10 (replicate 20 0) in
  let pool := v4_new key 3543191142285914205922034323210 100 50000000000000 in
  let ticks :=
    [mkTick 90 5000000000 (-5000000000); mkTick 100 10000000000 10000000000; mkTick 110 5000000000 (-5000000000)] in
  assert_bid (v4_populate pool (book_new 200000000000) ticks 1234567).

Module PoolTests.

(** The unit tests of the pools pass on the model. *)
Theorem pool_tests_pass : Forall passes
  [test_uniswap_v2_discretization; test_curve_3pool_dai_usdc_usdt_invariant; test_curve_2pool_steth_eth_discretization;
   test_v4_hook_flags_and_dynamic_fee; test_v4_order_book_discretization].
Proof. run_tests. Qed.
End PoolTests.
