(* ===== verification/EngineTests.v ===== *)
(** * The tests of core-engine's queues, simulator, rings and probes, run on the model

    The unit tests of core-engine/src: lib.rs, simulator.rs, kernel_bypass.rs and health.rs.  The clocks they
    read are parameters. *)

From S2P Require Import Prelude Bytes Text Testing Models FixedPoint Topology ConsumerQueue Spsc WaitStrategy.
From S2P Require Import KernelBypass Simulator Health.

(** ** lib.rs *)

Local Abbreviation spsc_push := (Spsc.try_push 1024).
Local Abbreviation spsc_pop := (Spsc.try_pop 1024).

Definition test_spsc_ring_buffer : test :=
  let! queue := spsc_new 1024 0 in
  let (queue, r) := spsc_push queue 42 in
  unwrap r ;!
  let (queue, r) := spsc_pop queue in
  assert_eq r (Some 42) ;!
  let (queue, r) := spsc_pop queue in
  assert_eq r None.

(** Nothing is pushed while a pop waits. *)
Definition no_arrivals (_ : nat) : list Z := [].

(** The first two parts: blocking pops. *)
Definition blocking_pops (wait_clock : nat -> Z) : outcome (SpscRingBuffer Z) :=
  let! queue := spsc_new 1024 0 in
  let busy := BusySpinStrategy_new in
  let (queue, r) := spsc_push queue 101 in
  unwrap r ;!
  let! r := unwrap_some (pop_blocking 1024 1 wait_clock no_arrivals 0 queue busy) in
  let '(queue, _, val, _) := r in
  assert_eq val 101 ;!
  let hybrid := hybrid_new 2 2 5 in
  let (queue, r) := spsc_push queue 202 in
  unwrap r ;!
  let! r := unwrap_some (pop_blocking 1024 1 wait_clock no_arrivals 0 queue hybrid) in
  let '(queue, _, val2, _) := r in
  assert_eq val2 202 ;!
  Done queue.

(** [fuel] bounds the turns of the pop that times out, which starts at [start]; [start2] is when the last pop starts. *)
Definition test_spsc_ring_buffer_wait_strategies (fuel : nat) (now start start2 : Z) (clock wait_clock : nat -> Z) : test :=
  let! queue := blocking_pops wait_clock in
  let dyn_power := wait_for_tier now Tier1MidRange in
  let! r := pop_timeout 1024 fuel start clock wait_clock no_arrivals (from_millis 5) queue dyn_power in
  let! r := unwrap_some r in
  let '(queue, dyn_power, timeout_res, _) := r in
  assert_eq timeout_res None ;!
  let (queue, r) := spsc_push queue 303 in
  unwrap r ;!
  let! r := pop_timeout 1024 fuel start2 clock wait_clock no_arrivals (from_millis 10) queue dyn_power in
  let! r := unwrap_some r in
  let '(_, _, timeout_hit, _) := r in
  assert_eq timeout_hit (Some 303).

Definition test_fixed_point_parser : test :=
  assert_eq (parse_fixed_point_8 (lit "123.45")) 12345000000 ;!
  assert_eq (parse_fixed_point_8 (lit "0.00000001")) 1 ;!
  assert_eq (parse_fixed_point_8 (lit "65000")) 6500000000000.

(** ** simulator.rs *)

(** A turn of the loop. *)
Definition compare_draws (prngs : FastPrng * FastPrng) (_ : nat) : outcome (FastPrng * FastPrng) :=
  let (x1, prng1) := next_u64 prngs.1 in
  let (x2, prng2) := next_u64 prngs.2 in
  assert_eq x1 x2 ;! Done (prng1, prng2).

Definition test_prng_deterministic : test :=
  let! _ := for_each compare_draws (seq 0 1000) (prng_new 42, prng_new 42) in
  Done tt.

Definition test_feed_generator_burst : test :=
  let config := burst_config_default in
  let sim := simulator_new 1337 config in
  let! r := generate_burst config (replicate 1000 event_default) 1700000000000000000 sim in
  let '((buf, generated), _) := r in
  assert_eq generated 1000%nat ;!
  let! first := at_index buf 0 in
  assert ((1001 <=? ev_market_id first) && (ev_market_id first <=? 1003)) ;!
  assert ((ev_venue_id first =? VenueId_code Binance) || (ev_venue_id first =? VenueId_code Okx)
          || (ev_venue_id first =? VenueId_code UniswapV3)).

(** [assert_eq!(queue.push_with_policy(item, policy), expected)], and the same of [try_pop], on a queue of four. *)
Definition push_expecting (policy : SaturationDropPolicy) (expected : PushResult) (q : IsolatedConsumerQueue Z) (item : Z) :
    outcome (IsolatedConsumerQueue Z) :=
  let (q, r) := push_with_policy 4 q item policy in
  assert_eq r (Some expected) ;! Done q.

Definition pop_expecting (q : IsolatedConsumerQueue Z) (expected : option Z) : outcome (IsolatedConsumerQueue Z) :=
  let (q, r) := ConsumerQueue.try_pop 4 q in
  assert_eq r (Some expected) ;! Done q.

Definition test_saturation_policy_drop_newest : test :=
  let! queue := queue_new 4 0 in
  let! queue := for_each (push_expecting DropNewest Enqueued) [1; 2; 3; 4] queue in
  let! queue := push_expecting DropNewest DroppedNewest queue 5 in
  assert_eq (total_dropped (q_metrics queue)) 1 ;!
  assert_eq (saturation_events (q_metrics queue)) 1 ;!
  let! _ := for_each pop_expecting [Some 1; Some 2; Some 3; Some 4; None] queue in
  Done tt.

Definition test_saturation_policy_drop_oldest : test :=
  let! queue := queue_new 4 0 in
  let! queue := for_each (push_expecting DropOldest Enqueued) [10; 20; 30; 40] queue in
  let! queue := push_expecting DropOldest EvictedOldest queue 50 in
  assert_eq (total_evicted (q_metrics queue)) 1 ;!
  let! queue := push_expecting DropOldest EvictedOldest queue 60 in
  assert_eq (total_evicted (q_metrics queue)) 2 ;!
  let! _ := for_each pop_expecting [Some 30; Some 40; Some 50; Some 60; None] queue in
  Done tt.

(** ** kernel_bypass.rs *)

(** [assert!(bridge.inject_packet(payload, ts).is_ok())]. *)
Definition injected (N : nat) (b : KernelBypassBridge) (p : bytes * Z) : outcome KernelBypassBridge :=
  let! r := inject_packet N b p.1 p.2 in
  unwrap r.2 ;! Done r.1.

Definition test_kernel_bypass_bridge_lifecycle : test :=
  let config := mkBypassConfig SolarflareEfVi 64 1 true false in
  let! bridge := bridge_new 64 config in
  assert (KernelBypass.is_active bridge) ;!
  let packets :=
    [(lit "BBO_BINANCE_BTC_USDT_65000", 1700000000000000100); (lit "BBO_OKX_ETH_USDT_3500", 1700000000000000200);
     (lit "TRADE_UNISWAP_V3_SOL_USDC_150", 1700000000000000300)] in
  let! bridge := for_each (injected 64) packets bridge in
  let! r := poll_rx_burst 64 bridge 10 in
  let '(bridge, received, polled) := r in
  assert_eq polled 3%nat ;!
  assert_eq (length received) 3%nat ;!
  assert_eq received packets ;!
  let! r := poll_rx_burst 64 bridge 10 in
  let '(bridge, _, empty_polled) := r in
  assert_eq empty_polled 0%nat ;!
  assert_eq (empty_polls (metrics bridge)) 1.

Definition test_rx_ring_saturation_handling : test :=
  let config := mkBypassConfig DpdkPmd 4 0 false false in
  let! bridge := bridge_new 4 config in
  let! bridge := for_each (injected 4) [(lit "PKT1", 10); (lit "PKT2", 20); (lit "PKT3", 30); (lit "PKT4", 40)] bridge in
  let! r := inject_packet 4 bridge (lit "PKT5") 50 in
  let (bridge, res) := r in
  assert (match res with Err _ => true | Ok _ => false end) ;!
  assert_eq (dma_errors (metrics bridge)) 1 ;!
  let! r := poll_rx_burst 4 bridge 2 in
  let '(bridge, drained, _) := r in
  assert_eq (length drained) 2%nat ;!
  let! _ := injected 4 bridge (lit "PKT6", 60) in
  Done tt.

(** ** health.rs *)

Definition get_request (path : string) : bytes :=
  lit "GET " ++ lit path ++ lit " HTTP/1.1" ++ crlf ++ lit "Host: localhost" ++ crlf ++ crlf.

Definition request (path : string) : accepted := Connection (Ok (get_request path)).

(** The answer the server's thread gave at turn [i]. *)
Definition response (server : HealthServer) (i : nat) : outcome bytes :=
  let! a := at_index (served server) i in
  match a with Respond r => Done r | _ => Panic end.

(** What the server sees: the status is marked ready between the second client and the third. *)
Definition probed_status (now : Z) (i : nat) : HealthStatus :=
  let status := inc_ticks (set_tier (health_new now) 2) 42000 in
  if (i <? 2)%nat then status else mark_ready status.

(** Four clients connect in turn; the thread takes two turns for each. *)
Definition test_health_server_endpoints (now : Z) (clock : nat -> Z) : test :=
  let clients := map request ["/healthz"; "/readyz"; "/readyz"; "/metrics"]%string in
  let! server := unwrap (@health_bind bytes (Ok tt) (Ok tt) (Ok tt) clients) in
  let server := server_run (probed_status now) clock (replicate 8 ThreadTurn) server in
  let! resp := response server 0 in
  assert (is_prefix (lit "HTTP/1.1 200 OK") resp) ;!
  assert (contains resp (lit "OK" ++ nl)) ;!
  let! resp := response server 1 in
  assert (is_prefix (lit "HTTP/1.1 503 Service Unavailable") resp) ;!
  let! resp := response server 2 in
  assert (is_prefix (lit "HTTP/1.1 200 OK") resp) ;!
  assert (contains resp (lit "READY" ++ nl)) ;!
  let! resp := response server 3 in
  assert (is_prefix (lit "HTTP/1.1 200 OK") resp) ;!
  assert (contains resp (lit "cmp_engine_ticks_processed_total 42000")) ;!
  assert (contains resp (lit "cmp_engine_active_tier 2")).

(** Generators in the same state draw the same, however often. *)
Lemma same_draws (turns : list nat) : forall prng, exists prng', for_each compare_draws turns (prng, prng) = Done (prng', prng').
Proof.
  induction turns as [|t turns IH]; intros prng; [by exists prng|]. cbn [for_each]. unfold compare_draws at 1. cbn [fst snd].
  destruct (next_u64 prng) as [x prng1]. unfold assert_eq. rewrite bool_decide_eq_true_2 by done. apply IH.
Qed.

(** A pop that finds nothing waits until a reading of the clock is past the deadline. *)
Lemma timeout_empty {W} `{WaitStrategy W} (r : SpscRingBuffer Z) (clock wait_clock : nat -> Z) (deadline : Z) (k : nat) :
  spsc_pop r = (r, None) -> forall i fuel (st : W), deadline <= clock (i + k)%nat -> (k < fuel)%nat ->
  exists st' acts, timeout_loop 1024 fuel clock wait_clock no_arrivals deadline i r st = Some (r, st', None, acts).
Proof.
  intros Hr. induction k as [|k IH]; intros i [|fuel] st Hd Hf; try lia; cbn [timeout_loop]; rewrite Hr.
  - rewrite Nat.add_0_r in Hd. rewrite (proj2 (Z.leb_le _ _) Hd). eauto.
  - destruct (deadline <=? clock i); [eauto|]. destruct (idle (wait_clock i) st) as [st1 a].
    rewrite Nat.add_succ_r in Hd. destruct (IH (S i) fuel st1 Hd ltac:(lia)) as (st' & acts & E).
    cbn [push_all no_arrivals fold_left] in E |- *. rewrite E. cbn [opt_bind]. eauto.
Qed.

(** The queue after the blocking pops: empty, and one push from a pop. *)
Lemma popped_queue wait_clock : exists q, blocking_pops wait_clock = Done q /\ spsc_pop q = (q, None) /\
  exists q1 q2, spsc_push q 303 = (q1, Ok tt) /\ spsc_pop q1 = (q2, Some 303).
Proof.
  exists (match blocking_pops (fun _ => 0) with Done q => q | Panic => spsc_empty 1024 0 end).
  set (q := match blocking_pops _ with Done q => q | Panic => _ end).
  split; [vm_compute; reflexivity|]. split; [vm_compute; reflexivity|].
  exists (spsc_push q 303).1, (spsc_pop (spsc_push q 303).1).1. split; vm_compute; reflexivity.
Qed.

Lemma contains_app_r (pat pre l : bytes) : contains l pat = true -> contains (pre ++ l) pat = true.
Proof.
  intros H. induction pre as [|b pre IH]; [exact H|]. cbn [app]. revert IH. unfold contains. cbn [str_find].
  destruct (is_prefix _ _); [done|]. by destruct (str_find pat (pre ++ l)).
Qed.

(** What the probes answer. *)
Lemma serve_request now s path : serve now s (request path) = Respond (handle_request now (take 1024 (get_request path)) s).
Proof. unfold serve, request. destruct (0 <? _)%nat eqn:E; [done|discriminate E]. Qed.

Lemma answers now s :
  serve now s (request "/healthz") = Respond (http_response (lit "200 OK") (lit "text/plain") (lit "OK" ++ nl)) /\
  serve now s (request "/readyz") =
    Respond (if is_ready s then http_response (lit "200 OK") (lit "text/plain") (lit "READY" ++ nl)
             else http_response (lit "503 Service Unavailable") (lit "text/plain") (lit "INITIALIZING" ++ nl)) /\
  serve now s (request "/metrics") = Respond (http_response (lit "200 OK") (lit "text/plain; version=0.0.4")
    (metrics_body (uptime_secs now s) (ticks_processed s) (tier_code s))).
Proof.
  rewrite !serve_request. unfold handle_request. set (line req := match lines (from_utf8_lossy req) with l :: _ => l | [] => [] end).
  change (line (take 1024 (get_request "/healthz"))) with (lit "GET /healthz HTTP/1.1").
  change (line (take 1024 (get_request "/readyz"))) with (lit "GET /readyz HTTP/1.1").
  change (line (take 1024 (get_request "/metrics"))) with (lit "GET /metrics HTTP/1.1"). done.
Qed.

Lemma four_served st clock c1 c2 c3 c4 :
  served (server_run st clock (replicate 8 ThreadTurn) (mkServer [c1; c2; c3; c4] false TTest OUse [])) =
  [serve (clock 0%nat) (st 0%nat) c1; serve (clock 1%nat) (st 1%nat) c2; serve (clock 2%nat) (st 2%nat) c3;
   serve (clock 3%nat) (st 3%nat) c4].
Proof. reflexivity. Qed.

Lemma metrics_text (uptime : Z) (header : bytes) :
  let resp := lit "HTTP/1.1 200 OK" ++ header ++ metrics_body uptime 42000 2 in
  is_prefix (lit "HTTP/1.1 200 OK") resp = true /\ contains resp (lit "cmp_engine_ticks_processed_total 42000") = true /\
  contains resp (lit "cmp_engine_active_tier 2") = true.
Proof.
  cbv zeta. split; [reflexivity|]. unfold metrics_body. split; do 11 simple apply contains_app_r; vm_compute; reflexivity.
Qed.

Lemma ok_response content_type body :
  exists header, http_response (lit "200 OK") content_type body = lit "HTTP/1.1 200 OK" ++ header ++ body.
Proof.
  exists (crlf ++ lit "Content-Type: " ++ content_type ++ crlf ++ lit "Content-Length: " ++
    show_u64 (Z.of_nat (length body)) ++ crlf ++ lit "Connection: close" ++ crlf ++ crlf).
  change (lit "HTTP/1.1 200 OK") with (lit "HTTP/1.1 " ++ lit "200 OK"). unfold http_response. by rewrite <- !app_assoc.
Qed.

(** Steps over an assertion that holds. *)
Ltac step_assert :=
  match goal with |- (assert ?b ;! _) = _ => replace b with true by (vm_compute; reflexivity); cbn [assert outcome_bind] end.

Module EngineTests.

(** The unit tests without a clock pass on the model. *)
Theorem queue_tests_pass : Forall passes
  [test_spsc_ring_buffer; test_fixed_point_parser; test_feed_generator_burst;
   test_saturation_policy_drop_newest; test_saturation_policy_drop_oldest; test_kernel_bypass_bridge_lifecycle;
   test_rx_ring_saturation_handling].
Proof. run_tests. Qed.

(** The test of the generator passes, without drawing. *)
Theorem prng_test_passes : passes test_prng_deterministic.
Proof.
  unfold passes, test_prng_deterministic. destruct (same_draws (seq 0 1000) (prng_new 42)) as [p E]. by rewrite E.
Qed.

(** The test of the blocking and timed pops passes whatever the clocks read, once a reading is five milliseconds
    past the start. *)
Theorem wait_strategies_test_passes (fuel k : nat) (now start start2 : Z) (clock wait_clock : nat -> Z)
    (Hend : start + from_millis 5 <= clock k) (Hfuel : (k < fuel)%nat)
    (Hfit : start + from_millis 5 < 2 ^ 63 * SECOND) (Hfit2 : start2 + from_millis 10 < 2 ^ 63 * SECOND) :
  passes (test_spsc_ring_buffer_wait_strategies fuel now start start2 clock wait_clock).
Proof.
  destruct (popped_queue wait_clock) as (q & Eb & Eq & q1 & q2 & E1 & E2).
  unfold passes, test_spsc_ring_buffer_wait_strategies. rewrite Eb. cbn [outcome_bind].
  destruct (timeout_empty q clock wait_clock (start + from_millis 5) k Eq 0 fuel (wait_for_tier now Tier1MidRange) Hend Hfuel)
    as (st & acts & E).
  unfold pop_timeout, instant_add. rewrite !(proj2 (Z.ltb_lt _ _)) by done. cbn [outcome_bind]. rewrite E. cbn [unwrap_some outcome_bind]. rewrite E1. cbn [unwrap outcome_bind].
  destruct fuel as [|fuel]; [lia|]. cbn [timeout_loop]. by rewrite E2.
Qed.

Lemma wait_strategies_test_passes_witness :
  passes (test_spsc_ring_buffer_wait_strategies 100 0 0 0 (fun i => Z.of_nat i * 100000) (fun _ => 0)).
Proof. apply (wait_strategies_test_passes 100 60); [vm_compute; congruence|lia|by_eval|by_eval]. Defined.

(** The test of the probes passes whatever the clock reads. *)
Theorem health_test_passes (now : Z) (clock : nat -> Z) : passes (test_health_server_endpoints now clock).
Proof.
  unfold passes, test_health_server_endpoints. cbn [unwrap health_bind result_bind outcome_bind map].
  unfold response. rewrite four_served.
  destruct (answers (clock 0%nat) (probed_status now 0)) as (-> & _), (answers (clock 1%nat) (probed_status now 1)) as (_ & -> & _),
    (answers (clock 2%nat) (probed_status now 2)) as (_ & -> & _), (answers (clock 3%nat) (probed_status now 3)) as (_ & _ & ->).
  change (is_ready (probed_status now 1)) with false. change (is_ready (probed_status now 2)) with true.
  change (ticks_processed (probed_status now 3)) with 42000. change (tier_code (probed_status now 3)) with 2.
  cbn [at_index lookup list_lookup unwrap_some outcome_bind]. do 5 step_assert.
  destruct (ok_response (lit "text/plain; version=0.0.4")
    (metrics_body (uptime_secs (clock 3%nat) (probed_status now 3)) 42000 2)) as (header & ->).
  destruct (metrics_text (uptime_secs (clock 3%nat) (probed_status now 3)) header) as (-> & -> & ->). done.
Qed.
End EngineTests.
