(* ===== verification/RuntimeTests.v ===== *)
(** * The tests of core-engine's scheduler, hardware probes and wait strategies, run on the model

    The unit tests of core-engine/src: scheduler/mod.rs, topology/mod.rs and sync/wait_strategy.rs.  The stop
    flag, the clocks, the host and its environment are parameters, and each theorem says what it needs of them. *)

From Stdlib Require Import SpecFloat.
From S2P Require Import Prelude Bytes Text Testing Topology WaitStrategy Scheduler.

(** ** scheduler/mod.rs *)

Record MockStage := mkStage {
  ms_role : WorkerRole;
  ms_active : bool;
  ms_work_items : nat;
  ms_steps_executed : nat;
}.

Definition stage_new (role : WorkerRole) (work_items : nat) : MockStage := mkStage role true work_items 0.

Definition stage_step (s : MockStage) : MockStage * StepResult :=
  let steps_executed := S (ms_steps_executed s) in
  match ms_work_items s with
  | S n => (mkStage (ms_role s) (ms_active s) n steps_executed, Continue)
  | O => (mkStage (ms_role s) (ms_active s) 0 steps_executed, Yield)
  end.

Definition stage_shutdown (s : MockStage) : MockStage :=
  mkStage (ms_role s) false (ms_work_items s) (ms_steps_executed s).

#[global] Instance mock_stage : PipelineStage MockStage := {
  role := ms_role;
  step := stage_step;
  stage_active := ms_active;
  shutdown := stage_shutdown;
}.

(** The literal [1.5]. *)
Definition quota_1_5 : spec_float := binary_normalize 53 1024 3 (-1) false.

Definition test_topology_planner_matrix : test :=
  let plan_t3 := compute_plan 16 true true None in
  assert (match plan_t3 with DedicatedPinned _ => true | _ => false end) ;!
  assert_eq (thread_count plan_t3) 6%nat ;!
  let plan_t2 := compute_plan 4 false true None in
  assert (match plan_t2 with GroupedAffinity _ => true | _ => false end) ;!
  assert_eq (thread_count plan_t2) 3%nat ;!
  let plan_t1_mac := compute_plan 8 false false None in
  assert (match plan_t1_mac with CooperativeMultiplexed _ => true | _ => false end) ;!
  assert_eq (thread_count plan_t1_mac) 2%nat ;!
  assert_eq (compute_plan 1 false false None) (CooperativeMultiplexed 1) ;!
  assert_eq (compute_plan 32 true true (Some quota_1_5)) (CooperativeMultiplexed 1).

(** [assert_eq!(ElasticScheduler::step_cooperative(&mut stages), expected)]. *)
Definition step_expecting (stages : list MockStage) (expected : StepResult) : outcome (list MockStage) :=
  let (stages, res) := step_cooperative stages in
  assert_eq res expected ;! Done stages.

Definition test_cooperative_step_processing : test :=
  let! _ := for_each step_expecting [Continue; Continue; Continue; Yield]
    [stage_new Ingestion 3; stage_new ParserNormalizer 2; stage_new SequencerOrderBook 0] in
  Done tt.

(** [stop i] is what the loop reads of the stop signal before cycle [i]; the test passes if the loop returns
    within [fuel] cycles. *)
Definition test_cooperative_loop_graceful_shutdown (fuel : nat) (stop : nat -> bool) : test :=
  let! _ := unwrap_some (run_cooperative_loop fuel stop [stage_new Ingestion 100; stage_new SequencerOrderBook 100]) in
  Done tt.

Definition test_thread_affinity_and_priority_fallback (sched_setscheduler : Z -> Z -> Z -> Z) : test :=
  unwrap (set_current_thread_affinity 0) ;!
  unwrap (set_realtime_priority sched_setscheduler 50).

(** ** topology/mod.rs *)

Definition test_mock_tier1_laptop_negotiation (env : bytes -> option bytes) : test :=
  let profile := negotiate_profile new_tier1_laptop env None in
  assert_eq (rp_tier profile) Tier1MidRange ;!
  assert (negb (is_virtualized (hypervisor profile))) ;!
  assert_eq (total_physical_cores (cpu profile)) 4 ;!
  assert (auto_detected profile).

Definition test_mock_tier2_aws_nitro_negotiation (env : bytes -> option bytes) : test :=
  let profile := negotiate_profile new_tier2_aws_nitro env None in
  assert_eq (rp_tier profile) Tier2CloudVirtualized ;!
  assert_eq (hypervisor profile) AwsNitro ;!
  assert (is_some (cgroup_cpu_quota_us (caps profile))).

Definition test_mock_tier3_bare_metal_negotiation (env : bytes -> option bytes) : test :=
  let profile := negotiate_profile new_tier3_bare_metal env None in
  assert_eq (rp_tier profile) Tier3EnterpriseBareMetal ;!
  assert (negb (is_virtualized (hypervisor profile))) ;!
  assert_eq (total_physical_cores (cpu profile)) 64 ;!
  assert (has_sched_fifo (caps profile)) ;!
  assert (has_hugetlb (caps profile)).

Definition test_explicit_operator_override (env : bytes -> option bytes) : test :=
  let profile := negotiate_profile new_tier1_laptop env (Some Tier3EnterpriseBareMetal) in
  assert_eq (rp_tier profile) Tier3EnterpriseBareMetal ;!
  assert (negb (auto_detected profile)) ;!
  assert (is_some (override_reason profile)).

Definition test_system_hardware_probe_live_execution (host : SystemHardwareProbe) : test :=
  let profile := negotiate_profile host (env_var host) None in
  assert (1 <=? total_logical_cores (cpu profile)).

(** ** sync/wait_strategy.rs *)

(** [for _ in 0..n { strategy.idle() }], the clock being read at [now]. *)
Definition idle_times {W} `{WaitStrategy W} (n : nat) (now : Z) (strategy : W) : W := Nat.iter n (fun s => (idle now s).1) strategy.

Definition test_busy_spin_strategy (now : Z) : test :=
  let strategy := BusySpinStrategy_new in
  assert_eq (kind now strategy) BusySpin ;!
  let strategy := reset now strategy in
  let _ := idle now strategy in
  Done tt.

Definition test_hybrid_adaptive_strategy_stages (now : Z) : test :=
  let strategy := hybrid_new 5 5 20 in
  assert_eq (kind now strategy) HybridAdaptive ;!
  let strategy := idle_times 5 now strategy in
  assert_eq (h_counter strategy) 5 ;!
  let strategy := idle_times 5 now strategy in
  assert_eq (h_counter strategy) 10 ;!
  let strategy := idle_times 1 now strategy in
  assert_eq (h_counter strategy) 11 ;!
  let strategy := reset now strategy in
  assert_eq (h_counter strategy) 0 ;!
  assert_eq (h_current_sleep_us strategy) 1.

Definition test_power_efficient_strategy (now : Z) : test :=
  let strategy := power_new 3 5 50 in
  assert_eq (kind now strategy) PowerEfficient ;!
  let strategy := idle_times 3 now strategy in
  let strategy := idle_times 1 now strategy in
  let strategy := reset now strategy in
  assert_eq (p_counter strategy) 0.

(** The clock's readings, in order: at [new], at [is_in_burst_mode], at the four ticks, and at the last two checks. *)
Definition test_adaptive_burst_promotion (clock : nat -> Z) : test :=
  let burst := burst_new (clock 0%nat) (hybrid_new 2 2 10) 3 (from_millis 50) (from_millis 100) in
  assert (negb (is_in_burst_mode (clock 1%nat) burst)) ;!
  let burst := record_tick (clock 2%nat) burst in
  let burst := record_tick (clock 3%nat) burst in
  let burst := record_tick (clock 4%nat) burst in
  let burst := record_tick (clock 5%nat) burst in
  assert (is_in_burst_mode (clock 6%nat) burst) ;!
  assert_eq (kind (clock 7%nat) burst) BusySpin.

Definition test_dynamic_wait_strategy_tiers (now : Z) : test :=
  assert_eq (kind now (wait_for_tier now Tier1MidRange)) PowerEfficient ;!
  assert (match wait_for_tier now Tier2CloudVirtualized with Burst _ => true | _ => false end) ;!
  assert_eq (kind now (wait_for_tier now Tier3EnterpriseBareMetal)) BusySpin.

Lemma loop_ends {St} `{PipelineStage St} (stop : nat -> bool) (d : nat) : forall i c fuel (stages : list St),
  stop (i + d)%nat = true -> (d < fuel)%nat -> is_Some (cooperative_loop fuel stop i c stages).
Proof.
  induction d as [|d IH]; intros i c [|fuel] stages Hs Hf; try lia; cbn [cooperative_loop].
  - rewrite Nat.add_0_r in Hs. rewrite Hs. eauto.
  - rewrite Nat.add_succ_r in Hs. destruct (stop i); [eauto|]. destruct (step_cooperative stages) as [st []].
    + destruct (IH (S i) 0 fuel st Hs ltac:(lia)) as [r ->]. cbn. eauto.
    + destruct (IH (S i) (c +[I32] 1) fuel st Hs ltac:(lia)) as [r ->]. cbn. eauto.
    + eauto.
Qed.

(** A tick at [now], by whether the window has elapsed. *)
Lemma tick_in_window {W} `{WaitStrategy W} (now : Z) (s : AdaptiveBurstWaitStrategy W) :
  duration_since now (window_start s) < window_duration s ->
  record_tick now s = mkBurst (reset now (b_inner s)) (burst_threshold_ticks s) (window_duration s) (burst_decay_duration s)
    (window_start s) (sat U32 (ticks_in_window s + 1)) (burst_until s).
Proof. intros Hd. unfold record_tick. by rewrite (proj2 (Z.leb_gt _ _) Hd). Qed.

Lemma tick_after_window {W} `{WaitStrategy W} (now : Z) (s : AdaptiveBurstWaitStrategy W) :
  window_duration s <= duration_since now (window_start s) ->
  record_tick now s = mkBurst (reset now (b_inner s)) (burst_threshold_ticks s) (window_duration s) (burst_decay_duration s)
    now 0 (if burst_threshold_ticks s <=? sat U32 (ticks_in_window s + 1) then Some (now + burst_decay_duration s) else burst_until s).
Proof. intros Hd. unfold record_tick. by rewrite (proj2 (Z.leb_le _ _) Hd). Qed.

(** A host, or the default of four, has a logical core. *)
Lemma logical_cores_positive (h : SystemHardwareProbe) : 1 <= total_logical_cores (system_detect_cpu_topology h).
Proof.
  unfold system_detect_cpu_topology. cbn [total_logical_cores]. destruct (read_to_string h _) as [b|]; [|done].
  destruct (Nat.ltb_spec 0 (length (List.filter (is_prefix (lit "processor")) (lines b)))); lia.
Qed.

Module RuntimeTests.

(** The tests of the scheduler pass whatever the operating system's scheduling call answers. *)
Theorem scheduler_tests_pass (sched_setscheduler : Z -> Z -> Z -> Z) : Forall passes
  [test_topology_planner_matrix; test_cooperative_step_processing; test_thread_affinity_and_priority_fallback sched_setscheduler].
Proof. run_tests. Qed.

(** The loop of the shutdown test returns, whenever the signal is read as set. *)
Theorem shutdown_test_passes (fuel k : nat) (stop : nat -> bool) (Hstop : stop k = true) (Hfuel : (k < fuel)%nat) :
  passes (test_cooperative_loop_graceful_shutdown fuel stop).
Proof.
  unfold passes, test_cooperative_loop_graceful_shutdown, run_cooperative_loop.
  by destruct (loop_ends stop k 0 0 fuel [stage_new Ingestion 100; stage_new SequencerOrderBook 100] Hstop Hfuel) as [r ->].
Qed.

Lemma shutdown_test_passes_witness : passes (test_cooperative_loop_graceful_shutdown 300 (fun i => (200 <=? i)%nat)).
Proof. apply (shutdown_test_passes 300 200); [reflexivity|lia]. Defined.

(** The tests of the negotiation pass in an environment that forces no tier. *)
Theorem negotiation_tests_pass (env : bytes -> option bytes) (Henv : env_override env = None) : Forall passes
  [test_mock_tier1_laptop_negotiation env; test_mock_tier2_aws_nitro_negotiation env; test_mock_tier3_bare_metal_negotiation env].
Proof.
  unfold test_mock_tier1_laptop_negotiation, test_mock_tier2_aws_nitro_negotiation, test_mock_tier3_bare_metal_negotiation, negotiate_profile.
  rewrite Henv. run_tests.
Qed.

Lemma negotiation_tests_pass_witness : Forall passes
  [test_mock_tier1_laptop_negotiation (fun _ => None); test_mock_tier2_aws_nitro_negotiation (fun _ => None);
   test_mock_tier3_bare_metal_negotiation (fun _ => None)].
Proof. apply negotiation_tests_pass. reflexivity. Defined.

(** The tests of the override and of the live probe pass on every host. *)
Theorem probe_tests_pass (env : bytes -> option bytes) (host : SystemHardwareProbe) : Forall passes
  [test_explicit_operator_override env; test_system_hardware_probe_live_execution host].
Proof.
  apply List.Forall_cons; [reflexivity|]. apply List.Forall_cons; [|apply List.Forall_nil].
  unfold passes, test_system_hardware_probe_live_execution.
  assert (cpu (negotiate_profile host (env_var host) None) = system_detect_cpu_topology host) as ->
    by (unfold negotiate_profile; by destruct (env_override (env_var host))).
  by rewrite (proj2 (Z.leb_le _ _) (logical_cores_positive host)).
Qed.

(** The tests of the strategies that do not depend on the time pass. *)
Theorem strategy_tests_pass (now : Z) : Forall passes
  [test_busy_spin_strategy now; test_hybrid_adaptive_strategy_stages now; test_power_efficient_strategy now;
   test_dynamic_wait_strategy_tiers now].
Proof. run_tests. Qed.

(** The burst test passes when the sleeps last what they should, the three ticks between them take less than a
    window, and the last checks less than the decay. *)
Theorem burst_test_passes (clock : nat -> Z) (Hsleep : clock 0%nat + from_millis 60 <= clock 2%nat)
    (Hticks : clock 2%nat <= clock 3%nat <= clock 4%nat) (Hwindow : clock 4%nat < clock 2%nat + from_millis 50)
    (Hsleep2 : clock 4%nat + from_millis 60 <= clock 5%nat) (Hend : clock 6%nat < clock 5%nat + from_millis 100)
    (Hend2 : clock 7%nat < clock 5%nat + from_millis 100) :
  passes (test_adaptive_burst_promotion clock).
Proof.
  unfold passes, test_adaptive_burst_promotion, from_millis in *.
  rewrite (tick_after_window (clock 2%nat)) by (cbn; unfold duration_since; lia).
  rewrite (tick_in_window (clock 3%nat)) by (cbn; unfold duration_since; lia).
  rewrite (tick_in_window (clock 4%nat)) by (cbn; unfold duration_since; lia).
  rewrite (tick_after_window (clock 5%nat)) by (cbn; unfold duration_since; lia).
  transitivity (assert (clock 6%nat <? clock 5%nat + 100 * 1000000) ;!
    assert_eq (if clock 7%nat <? clock 5%nat + 100 * 1000000 then BusySpin else HybridAdaptive) BusySpin); [reflexivity|].
  by rewrite (proj2 (Z.ltb_lt (clock 6%nat) _)), (proj2 (Z.ltb_lt (clock 7%nat) _)) by lia.
Qed.

Lemma burst_test_passes_witness :
  passes (test_adaptive_burst_promotion (fun i => nth i [0; 1; 60000000; 60000001; 60000002; 130000000; 130000001; 130000002] 0)).
Proof. apply burst_test_passes; vm_compute; repeat split; congruence. Defined.
End RuntimeTests.
