(* ===== verification/RecordedFeed.v ===== *)
(** * The recorded Coinbase feed

    live-feed/tests/fixtures/coinbase_ticker_btc_eth_recorded.jsonl, which the session's tests run on: twelve
    seconds of the public feed of two products, a message a line, with apostrophes for the quotation marks. *)

From S2P Require Import Prelude Bytes.

Definition RECORDED : list string := [
  "{'type':'subscriptions','channels':[{'name':'ticker','product_ids':['BTC-USD','ETH-USD'],'account_ids':null},{'name':'heartbeat','product_ids':['BTC-USD','ETH-USD'],'account_ids':null}]}";
  "{'type':'ticker','sequence':138715980456,'product_id':'BTC-USD','price':'77328.57','open_24h':'77747.9','volume_24h':'7190.97519819','low_24h':'76238.54','high_24h':'77980.33','volume_30d':'159706.40974752','best_bid':'77328.56','best_bid_size':'0.00000069','best_ask':'77328.57','best_ask_size':'0.14181185','side':'buy','time':'2026-11-03T14:35:39.041089Z','trade_id':1114414143,'last_size':'0.00040846'}";
  "{'type':'ticker','sequence':104604945766,'product_id':'ETH-USD','price':'2288.54','open_24h':'2287.73','volume_24h':'82819.80395210','low_24h':'2233.5','high_24h':'2304.62','volume_30d':'2686990.22239293','best_bid':'2288.43','best_bid_size':'3.15089300','best_ask':'2288.54','best_ask_size':'0.49045724','side':'buy','time':'2026-11-03T14:35:38.101513Z','trade_id':851833145,'last_size':'0.01'}";
  "{'type':'ticker','sequence':138715981753,'product_id':'BTC-USD','price':'77323.77','open_24h':'77747.9','volume_24h':'7190.97534539','low_24h':'76238.54','high_24h':'77980.33','volume_30d':'159706.40989472','best_bid':'77323.76','best_bid_size':'0.00648373','best_ask':'77323.77','best_ask_size':'0.02248510','side':'buy','time':'2026-11-03T14:35:39.807760Z','trade_id':1114414144,'last_size':'0.0001472'}";
  "{'type':'heartbeat','last_trade_id':851833145,'product_id':'ETH-USD','sequence':104604947111,'time':'2026-11-03T14:35:40.000000Z'}";
  "{'type':'heartbeat','last_trade_id':1114414144,'product_id':'BTC-USD','sequence':138715981915,'time':'2026-11-03T14:35:40.000000Z'}";
  "{'type':'ticker','sequence':138715982301,'product_id':'BTC-USD','price':'77325.04','open_24h':'77747.9','volume_24h':'7190.97547614','low_24h':'76238.54','high_24h':'77980.33','volume_30d':'159706.41002547','best_bid':'77325.04','best_bid_size':'0.03946925','best_ask':'77335.03','best_ask_size':'0.04000000','side':'sell','time':'2026-11-03T14:35:40.223781Z','trade_id':1114414145,'last_size':'0.00013075'}";
  "{'type':'ticker','sequence':138715982550,'product_id':'BTC-USD','price':'77324.63','open_24h':'77747.9','volume_24h':'7190.98194174','low_24h':'76238.54','high_24h':'77980.33','volume_30d':'159706.41649107','best_bid':'77324.63','best_bid_size':'0.00001994','best_ask':'77324.64','best_ask_size':'0.06223223','side':'sell','time':'2026-11-03T14:35:40.351507Z','trade_id':1114414146,'last_size':'0.0064656'}";
  "{'type':'ticker','sequence':138715982552,'product_id':'BTC-USD','price':'77324.63','open_24h':'77747.9','volume_24h':'7190.98196168','low_24h':'76238.54','high_24h':'77980.33','volume_30d':'159706.41651101','best_bid':'77323.76','best_bid_size':'0.00002677','best_ask':'77324.64','best_ask_size':'0.06223223','side':'sell','time':'2026-11-03T14:35:40.351507Z','trade_id':1114414147,'last_size':'0.00001994'}";
  "{'type':'ticker','sequence':138715982554,'product_id':'BTC-USD','price':'77323.76','open_24h':'77747.9','volume_24h':'7190.98198845','low_24h':'76238.54','high_24h':'77980.33','volume_30d':'159706.41653778','best_bid':'77322.54','best_bid_size':'0.00430454','best_ask':'77324.64','best_ask_size':'0.06223223','side':'sell','time':'2026-11-03T14:35:40.351507Z','trade_id':1114414148,'last_size':'0.00002677'}";
  "{'type':'ticker','sequence':104604947413,'product_id':'ETH-USD','price':'2288.05','open_24h':'2287.73','volume_24h':'82819.80402639','low_24h':'2233.5','high_24h':'2304.62','volume_30d':'2686990.22246722','best_bid':'2288.05','best_bid_size':'0.51070388','best_ask':'2288.06','best_ask_size':'4.26916240','side':'sell','time':'2026-11-03T14:35:40.451229Z','trade_id':851833146,'last_size':'0.00007429'}";
  "{'type':'ticker','sequence':104604947415,'product_id':'ETH-USD','price':'2288.05','open_24h':'2287.73','volume_24h':'82819.80409631','low_24h':'2233.5','high_24h':'2304.62','volume_30d':'2686990.22253714','best_bid':'2288.05','best_bid_size':'0.51063396','best_ask':'2288.06','best_ask_size':'4.26916240','side':'sell','time':'2026-11-03T14:35:40.451229Z','trade_id':851833147,'last_size':'0.00006992'}";
  "{'type':'ticker','sequence':104604947417,'product_id':'ETH-USD','price':'2288.05','open_24h':'2287.73','volume_24h':'82819.80417060','low_24h':'2233.5','high_24h':'2304.62','volume_30d':'2686990.22261143','best_bid':'2288.05','best_bid_size':'0.51055967','best_ask':'2288.06','best_ask_size':'4.26916240','side':'sell','time':'2026-11-03T14:35:40.451229Z','trade_id':851833148,'last_size':'0.00007429'}";
  "{'type':'ticker','sequence':104604947419,'product_id':'ETH-USD','price':'2288.05','open_24h':'2287.73','volume_24h':'82820.31473027','low_24h':'2233.5','high_24h':'2304.62','volume_30d':'2686990.73317110','best_bid':'2287.86','best_bid_size':'0.00100000','best_ask':'2288.06','best_ask_size':'4.26916240','side':'sell','time':'2026-11-03T14:35:40.451229Z','trade_id':851833149,'last_size':'0.51055967'}";
  "{'type':'ticker','sequence':138715982895,'product_id':'BTC-USD','price':'77317.96','open_24h':'77747.9','volume_24h':'7191.02278745','low_24h':'76238.54','high_24h':'77980.33','volume_30d':'159706.45733678','best_bid':'77317.96','best_bid_size':'0.00000052','best_ask':'77317.97','best_ask_size':'0.03960000','side':'sell','time':'2026-11-03T14:35:40.463623Z','trade_id':1114414149,'last_size':'0.040799'}";
  "{'type':'ticker','sequence':138715983263,'product_id':'BTC-USD','price':'77317.96','open_24h':'77747.9','volume_24h':'7191.02278797','low_24h':'76238.54','high_24h':'77980.33','volume_30d':'159706.45733730','best_bid':'77307.10','best_bid_size':'0.00000026','best_ask':'77317.97','best_ask_size':'0.22461747','side':'sell','time':'2026-11-03T14:35:40.569901Z','trade_id':1114414150,'last_size':'0.00000052'}";
  "{'type':'ticker','sequence':138715983507,'product_id':'BTC-USD','price':'77307.1','open_24h':'77747.9','volume_24h':'7191.02278823','low_24h':'76238.54','high_24h':'77980.33','volume_30d':'159706.45733756','best_bid':'77307.00','best_bid_size':'0.04647315','best_ask':'77309.07','best_ask_size':'0.02263660','side':'sell','time':'2026-11-03T14:35:40.616706Z','trade_id':1114414151,'last_size':'0.00000026'}";
  "{'type':'ticker','sequence':138715983509,'product_id':'BTC-USD','price':'77307','open_24h':'77747.9','volume_24h':'7191.02504908','low_24h':'76238.54','high_24h':'77980.33','volume_30d':'159706.45959841','best_bid':'77307.00','best_bid_size':'0.04421230','best_ask':'77309.07','best_ask_size':'0.02263660','side':'sell','time':'2026-11-03T14:35:40.616706Z','trade_id':1114414152,'last_size':'0.00226085'}";
  "{'type':'ticker','sequence':138715983542,'product_id':'BTC-USD','price':'77307','open_24h':'77747.9','volume_24h':'7191.02504920','low_24h':'76238.54','high_24h':'77980.33','volume_30d':'159706.45959853','best_bid':'77307.00','best_bid_size':'0.04421218','best_ask':'77308.07','best_ask_size':'0.03960000','side':'sell','time':'2026-11-03T14:35:40.626820Z','trade_id':1114414153,'last_size':'0.00000012'}";
  "{'type':'ticker','sequence':104604947809,'product_id':'ETH-USD','price':'2287.86','open_24h':'2287.73','volume_24h':'82820.31573027','low_24h':'2233.5','high_24h':'2304.62','volume_30d':'2686990.73417110','best_bid':'2287.47','best_bid_size':'0.33366065','best_ask':'2287.87','best_ask_size':'4.01107495','side':'sell','time':'2026-11-03T14:35:40.734753Z','trade_id':851833150,'last_size':'0.001'}";
  "{'type':'ticker','sequence':138715984486,'product_id':'BTC-USD','price':'77306.45','open_24h':'77747.9','volume_24h':'7191.06641693','low_24h':'76238.54','high_24h':'77980.33','volume_30d':'159706.50096626','best_bid':'77306.00','best_bid_size':'0.03960000','best_ask':'77308.06','best_ask_size':'0.01703535','side':'buy','time':'2026-11-03T14:35:40.968938Z','trade_id':1114414154,'last_size':'0.04136773'}";
  "{'type':'ticker','sequence':138715984558,'product_id':'BTC-USD','price':'77310','open_24h':'77747.9','volume_24h':'7191.07159106','low_24h':'76238.54','high_24h':'77980.33','volume_30d':'159706.50614039','best_bid':'77308.05','best_bid_size':'0.15265000','best_ask':'77313.60','best_ask_size':'0.00646763','side':'buy','time':'2026-11-03T14:35:40.974050Z','trade_id':1114414155,'last_size':'0.00517413'}";
  "{'type':'heartbeat','last_trade_id':851833150,'product_id':'ETH-USD','sequence':104604948323,'time':'2026-11-03T14:35:41.000000Z'}";
  "{'type':'heartbeat','last_trade_id':1114414155,'product_id':'BTC-USD','sequence':138715984954,'time':'2026-11-03T14:35:41.000000Z'}";
  "{'type':'ticker','sequence':104604949089,'product_id':'ETH-USD','price':'2287.5','open_24h':'2287.73','volume_24h':'82734.35011201','low_24h':'2233.5','high_24h':'2304.62','volume_30d':'2686904.76855284','best_bid':'2287.49','best_bid_size':'1.70469000','best_ask':'2287.50','best_ask_size':'0.17062303','side':'buy','time':'2026-11-03T14:35:41.762833Z','trade_id':851833151,'last_size':'0.32937697'}";
  "{'type':'ticker','sequence':104604949119,'product_id':'ETH-USD','price':'2287.5','open_24h':'2287.73','volume_24h':'82734.52073504','low_24h':'2233.5','high_24h':'2304.62','volume_30d':'2686904.93917587','best_bid':'2287.49','best_bid_size':'2.20469000','best_ask':'2287.52','best_ask_size':'0.50000000','side':'buy','time':'2026-11-03T14:35:41.782866Z','trade_id':851833152,'last_size':'0.17062303'}";
  "{'type':'ticker','sequence':104604949123,'product_id':'ETH-USD','price':'2287.52','open_24h':'2287.73','volume_24h':'82735.02073504','low_24h':'2233.5','high_24h':'2304.62','volume_30d':'2686905.43917587','best_bid':'2287.49','best_bid_size':'2.20469000','best_ask':'2287.78','best_ask_size':'0.03011064','side':'buy','time':'2026-11-03T14:35:41.783023Z','trade_id':851833153,'last_size':'0.5'}";
  "{'type':'ticker','sequence':104604949223,'product_id':'ETH-USD','price':'2287.76','open_24h':'2287.73','volume_24h':'82735.55354537','low_24h':'2233.5','high_24h':'2304.62','volume_30d':'2686905.97198620','best_bid':'2287.75','best_bid_size':'4.33669000','best_ask':'2288.00','best_ask_size':'10.00000000','side':'buy','time':'2026-11-03T14:35:41.819864Z','trade_id':851833154,'last_size':'0.53281033'}";
  "{'type':'heartbeat','last_trade_id':851833154,'product_id':'ETH-USD','sequence':104604949615,'time':'2026-11-03T14:35:42.000000Z'}";
  "{'type':'heartbeat','last_trade_id':1114414155,'product_id':'BTC-USD','sequence':138715987751,'time':'2026-11-03T14:35:42.000000Z'}";
  "{'type':'ticker','sequence':104604950103,'product_id':'ETH-USD','price':'2287.72','open_24h':'2287.73','volume_24h':'82736.06221061','low_24h':'2233.5','high_24h':'2304.62','volume_30d':'2686906.48065144','best_bid':'2287.47','best_bid_size':'0.33366065','best_ask':'2287.73','best_ask_size':'6.56603067','side':'sell','time':'2026-11-03T14:35:42.535741Z','trade_id':851833155,'last_size':'0.50866524'}";
  "{'type':'ticker','sequence':138715990001,'product_id':'BTC-USD','price':'77313.58','open_24h':'77747.9','volume_24h':'7179.44172096','low_24h':'76238.54','high_24h':'77980.33','volume_30d':'159694.87627029','best_bid':'77313.58','best_bid_size':'0.00000089','best_ask':'77313.59','best_ask_size':'0.01531042','side':'sell','time':'2026-11-03T14:35:42.923983Z','trade_id':1114414156,'last_size':'0.022634'}";
  "{'type':'ticker','sequence':104604950559,'product_id':'ETH-USD','price':'2287.48','open_24h':'2287.73','volume_24h':'82736.56221061','low_24h':'2233.5','high_24h':'2304.62','volume_30d':'2686906.98065144','best_bid':'2287.47','best_bid_size':'3.37401360','best_ask':'2287.50','best_ask_size':'0.50000000','side':'buy','time':'2026-11-03T14:35:42.947383Z','trade_id':851833156,'last_size':'0.5'}";
  "{'type':'ticker','sequence':104604950570,'product_id':'ETH-USD','price':'2287.5','open_24h':'2287.73','volume_24h':'82737.06221061','low_24h':'2233.5','high_24h':'2304.62','volume_30d':'2686907.48065144','best_bid':'2287.49','best_bid_size':'2.63200000','best_ask':'2287.68','best_ask_size':'0.57306880','side':'buy','time':'2026-11-03T14:35:42.948810Z','trade_id':851833157,'last_size':'0.5'}";
  "{'type':'ticker','sequence':138715990099,'product_id':'BTC-USD','price':'77313.58','open_24h':'77747.9','volume_24h':'7179.48132096','low_24h':'76238.54','high_24h':'77980.33','volume_30d':'159694.91587029','best_bid':'77313.58','best_bid_size':'0.02000000','best_ask':'77313.59','best_ask_size':'0.01531042','side':'sell','time':'2026-11-03T14:35:42.963588Z','trade_id':1114414157,'last_size':'0.0396'}";
  "{'type':'heartbeat','last_trade_id':1114414157,'product_id':'BTC-USD','sequence':138715990167,'time':'2026-11-03T14:35:43.000000Z'}";
  "{'type':'heartbeat','last_trade_id':851833157,'product_id':'ETH-USD','sequence':104604950706,'time':'2026-11-03T14:35:43.000000Z'}";
  "{'type':'ticker','sequence':138715990169,'product_id':'BTC-USD','price':'77313.58','open_24h':'77747.9','volume_24h':'7179.52092096','low_24h':'76238.54','high_24h':'77980.33','volume_30d':'159694.95547029','best_bid':'77313.58','best_bid_size':'0.02000000','best_ask':'77313.59','best_ask_size':'0.01531042','side':'sell','time':'2026-11-03T14:35:43.000698Z','trade_id':1114414158,'last_size':'0.0396'}";
  "{'type':'ticker','sequence':138715990171,'product_id':'BTC-USD','price':'77313.58','open_24h':'77747.9','volume_24h':'7179.54092096','low_24h':'76238.54','high_24h':'77980.33','volume_30d':'159694.97547029','best_bid':'77312.60','best_bid_size':'0.10347601','best_ask':'77313.59','best_ask_size':'0.01531042','side':'sell','time':'2026-11-03T14:35:43.000698Z','trade_id':1114414159,'last_size':'0.02'}";
  "{'type':'ticker','sequence':138715990446,'product_id':'BTC-USD','price':'77315.53','open_24h':'77747.9','volume_24h':'7179.54609487','low_24h':'76238.54','high_24h':'77980.33','volume_30d':'159694.98064420','best_bid':'77315.52','best_bid_size':'0.14306284','best_ask':'77318.14','best_ask_size':'0.00646739','side':'buy','time':'2026-11-03T14:35:43.323373Z','trade_id':1114414160,'last_size':'0.00517391'}";
  "{'type':'ticker','sequence':104604950988,'product_id':'ETH-USD','price':'2287.78','open_24h':'2287.73','volume_24h':'82737.56221061','low_24h':'2233.5','high_24h':'2304.62','volume_30d':'2686907.98065144','best_bid':'2287.77','best_bid_size':'5.62702368','best_ask':'2287.80','best_ask_size':'0.50000000','side':'buy','time':'2026-11-03T14:35:43.324441Z','trade_id':851833158,'last_size':'0.5'}";
  "{'type':'ticker','sequence':138715990462,'product_id':'BTC-USD','price':'77320.16','open_24h':'77747.9','volume_24h':'7179.57959487','low_24h':'76238.54','high_24h':'77980.33','volume_30d':'159695.01414420','best_bid':'77320.15','best_bid_size':'0.03960000','best_ask':'77320.16','best_ask_size':'0.00650000','side':'buy','time':'2026-11-03T14:35:43.324443Z','trade_id':1114414161,'last_size':'0.0335'}";
  "{'type':'ticker','sequence':104604951009,'product_id':'ETH-USD','price':'2287.8','open_24h':'2287.73','volume_24h':'82738.06221061','low_24h':'2233.5','high_24h':'2304.62','volume_30d':'2686908.48065144','best_bid':'2287.79','best_bid_size':'2.63200000','best_ask':'2287.93','best_ask_size':'0.56321324','side':'buy','time':'2026-11-03T14:35:43.327443Z','trade_id':851833159,'last_size':'0.5'}";
  "{'type':'ticker','sequence':138715990491,'product_id':'BTC-USD','price':'77320.16','open_24h':'77747.9','volume_24h':'7179.58609487','low_24h':'76238.54','high_24h':'77980.33','volume_30d':'159695.02064420','best_bid':'77320.15','best_bid_size':'0.03960000','best_ask':'77325.55','best_ask_size':'0.10345869','side':'buy','time':'2026-11-03T14:35:43.326025Z','trade_id':1114414162,'last_size':'0.0065'}";
  "{'type':'ticker','sequence':104604951025,'product_id':'ETH-USD','price':'2287.93','open_24h':'2287.73','volume_24h':'82738.62521061','low_24h':'2233.5','high_24h':'2304.62','volume_30d':'2686909.04365144','best_bid':'2287.92','best_bid_size':'1.44500000','best_ask':'2287.93','best_ask_size':'0.00021324','side':'buy','time':'2026-11-03T14:35:43.329219Z','trade_id':851833160,'last_size':'0.563'}";
  "{'type':'ticker','sequence':104604951131,'product_id':'ETH-USD','price':'2287.92','open_24h':'2287.73','volume_24h':'82738.64573761','low_24h':'2233.5','high_24h':'2304.62','volume_30d':'2686909.06417844','best_bid':'2287.92','best_bid_size':'2.55150643','best_ask':'2287.93','best_ask_size':'0.00021324','side':'sell','time':'2026-11-03T14:35:43.451579Z','trade_id':851833161,'last_size':'0.020527'}";
  "{'type':'ticker','sequence':104604951199,'product_id':'ETH-USD','price':'2287.93','open_24h':'2287.73','volume_24h':'82738.65063115','low_24h':'2233.5','high_24h':'2304.62','volume_30d':'2686909.06907198','best_bid':'2287.92','best_bid_size':'2.55150643','best_ask':'2287.93','best_ask_size':'0.23410646','side':'buy','time':'2026-11-03T14:35:43.556013Z','trade_id':851833162,'last_size':'0.00489354'}";
  "{'type':'ticker','sequence':138715991591,'product_id':'BTC-USD','price':'77322.94','open_24h':'77747.9','volume_24h':'7179.58609496','low_24h':'76238.54','high_24h':'77980.33','volume_30d':'159695.02064429','best_bid':'77322.94','best_bid_size':'0.03959991','best_ask':'77324.93','best_ask_size':'0.02263173','side':'sell','time':'2026-11-03T14:35:43.976227Z','trade_id':1114414163,'last_size':'0.00000009'}";
  "{'type':'ticker','sequence':138715991595,'product_id':'BTC-USD','price':'77321.94','open_24h':'77747.9','volume_24h':'7179.58609503','low_24h':'76238.54','high_24h':'77980.33','volume_30d':'159695.02064436','best_bid':'77321.94','best_bid_size':'0.10346343','best_ask':'77324.93','best_ask_size':'0.02263173','side':'sell','time':'2026-11-03T14:35:43.979253Z','trade_id':1114414164,'last_size':'0.00000007'}";
  "{'type':'heartbeat','last_trade_id':851833162,'product_id':'ETH-USD','sequence':104604951281,'time':'2026-11-03T14:35:44.000000Z'}";
  "{'type':'heartbeat','last_trade_id':1114414164,'product_id':'BTC-USD','sequence':138715991645,'time':'2026-11-03T14:35:44.000000Z'}";
  "{'type':'ticker','sequence':138715991694,'product_id':'BTC-USD','price':'77322.29','open_24h':'77747.9','volume_24h':'7179.58609514','low_24h':'76238.54','high_24h':'77980.33','volume_30d':'159695.02064447','best_bid':'77322.29','best_bid_size':'0.00013482','best_ask':'77322.30','best_ask_size':'0.03960000','side':'sell','time':'2026-11-03T14:35:44.036826Z','trade_id':1114414165,'last_size':'0.00000011'}";
  "{'type':'ticker','sequence':104604951334,'product_id':'ETH-USD','price':'2287.94','open_24h':'2287.73','volume_24h':'82739.15063115','low_24h':'2233.5','high_24h':'2304.62','volume_30d':'2686909.56907198','best_bid':'2287.93','best_bid_size':'2.65225685','best_ask':'2287.94','best_ask_size':'4.17967231','side':'buy','time':'2026-11-03T14:35:44.200591Z','trade_id':851833163,'last_size':'0.5'}";
  "{'type':'ticker','sequence':104604951336,'product_id':'ETH-USD','price':'2287.94','open_24h':'2287.73','volume_24h':'82739.23424244','low_24h':'2233.5','high_24h':'2304.62','volume_30d':'2686909.65268327','best_bid':'2287.93','best_bid_size':'2.65225685','best_ask':'2287.94','best_ask_size':'4.09606102','side':'buy','time':'2026-11-03T14:35:44.200591Z','trade_id':851833164,'last_size':'0.08361129'}";
  "{'type':'ticker','sequence':104604951343,'product_id':'ETH-USD','price':'2287.94','open_24h':'2287.73','volume_24h':'82740.75250111','low_24h':'2233.5','high_24h':'2304.62','volume_30d':'2686911.17094194','best_bid':'2287.93','best_bid_size':'2.65225685','best_ask':'2287.94','best_ask_size':'2.57780235','side':'buy','time':'2026-11-03T14:35:44.200893Z','trade_id':851833165,'last_size':'1.51825867'}";
  "{'type':'ticker','sequence':104604951350,'product_id':'ETH-USD','price':'2287.94','open_24h':'2287.73','volume_24h':'82742.56703720','low_24h':'2233.5','high_24h':'2304.62','volume_30d':'2686912.98547803','best_bid':'2287.93','best_bid_size':'2.65225685','best_ask':'2287.94','best_ask_size':'0.76326626','side':'buy','time':'2026-11-03T14:35:44.201224Z','trade_id':851833166,'last_size':'1.81453609'}";
  "{'type':'ticker','sequence':104604951398,'product_id':'ETH-USD','price':'2287.94','open_24h':'2287.73','volume_24h':'82742.69038363','low_24h':'2233.5','high_24h':'2304.62','volume_30d':'2686913.10882446','best_bid':'2287.93','best_bid_size':'2.65225685','best_ask':'2287.94','best_ask_size':'0.12334643','side':'buy','time':'2026-11-03T14:35:44.209954Z','trade_id':851833167,'last_size':'0.12334643'}";
  "{'type':'ticker','sequence':104604951402,'product_id':'ETH-USD','price':'2287.94','open_24h':'2287.73','volume_24h':'82742.81303720','low_24h':'2233.5','high_24h':'2304.62','volume_30d':'2686913.23147803','best_bid':'2287.93','best_bid_size':'2.65225685','best_ask':'2287.94','best_ask_size':'0.00069286','side':'buy','time':'2026-11-03T14:35:44.210302Z','trade_id':851833168,'last_size':'0.12265357'}";
  "{'type':'ticker','sequence':104604951404,'product_id':'ETH-USD','price':'2287.94','open_24h':'2287.73','volume_24h':'82742.81327282','low_24h':'2233.5','high_24h':'2304.62','volume_30d':'2686913.23171365','best_bid':'2287.93','best_bid_size':'2.65225685','best_ask':'2287.94','best_ask_size':'0.00045724','side':'buy','time':'2026-11-03T14:35:44.210302Z','trade_id':851833169,'last_size':'0.00023562'}";
  "{'type':'ticker','sequence':104604951406,'product_id':'ETH-USD','price':'2287.94','open_24h':'2287.73','volume_24h':'82742.81373006','low_24h':'2233.5','high_24h':'2304.62','volume_30d':'2686913.23217089','best_bid':'2287.93','best_bid_size':'2.65225685','best_ask':'2287.96','best_ask_size':'0.50000000','side':'buy','time':'2026-11-03T14:35:44.210302Z','trade_id':851833170,'last_size':'0.00045724'}";
  "{'type':'ticker','sequence':104604951434,'product_id':'ETH-USD','price':'2287.96','open_24h':'2287.73','volume_24h':'82743.06373006','low_24h':'2233.5','high_24h':'2304.62','volume_30d':'2686913.48217089','best_bid':'2287.95','best_bid_size':'4.83749735','best_ask':'2287.96','best_ask_size':'0.25000000','side':'buy','time':'2026-11-03T14:35:44.213622Z','trade_id':851833171,'last_size':'0.25'}";
  "{'type':'ticker','sequence':104604951437,'product_id':'ETH-USD','price':'2287.96','open_24h':'2287.73','volume_24h':'82743.31373006','low_24h':'2233.5','high_24h':'2304.62','volume_30d':'2686913.73217089','best_bid':'2287.95','best_bid_size':'4.83749735','best_ask':'2288.17','best_ask_size':'0.51395185','side':'buy','time':'2026-11-03T14:35:44.213776Z','trade_id':851833172,'last_size':'0.25'}";
  "{'type':'ticker','sequence':138715992484,'product_id':'BTC-USD','price':'77326.58','open_24h':'77747.9','volume_24h':'7179.64608900','low_24h':'76238.54','high_24h':'77980.33','volume_30d':'159695.08063833','best_bid':'77323.61','best_bid_size':'0.10346127','best_ask':'77326.59','best_ask_size':'0.06223115','side':'sell','time':'2026-11-03T14:35:44.571316Z','trade_id':1114414166,'last_size':'0.05999386'}";
  "{'type':'ticker','sequence':138715992486,'product_id':'BTC-USD','price':'77323.61','open_24h':'77747.9','volume_24h':'7179.74955027','low_24h':'76238.54','high_24h':'77980.33','volume_30d':'159695.18409960','best_bid':'77322.50','best_bid_size':'0.07409130','best_ask':'77326.59','best_ask_size':'0.06223115','side':'sell','time':'2026-11-03T14:35:44.571316Z','trade_id':1114414167,'last_size':'0.10346127'}";
  "{'type':'ticker','sequence':104604952105,'product_id':'ETH-USD','price':'2288.16','open_24h':'2287.73','volume_24h':'82744.02987240','low_24h':'2233.5','high_24h':'2304.62','volume_30d':'2686914.44831323','best_bid':'2288.15','best_bid_size':'2.63200000','best_ask':'2288.16','best_ask_size':'3.21714903','side':'buy','time':'2026-11-03T14:35:44.991655Z','trade_id':851833173,'last_size':'0.71614234'}";
  "{'type':'ticker','sequence':104604952108,'product_id':'ETH-USD','price':'2288.16','open_24h':'2287.73','volume_24h':'82747.05682380','low_24h':'2233.5','high_24h':'2304.62','volume_30d':'2686917.47526463','best_bid':'2288.15','best_bid_size':'2.63200000','best_ask':'2288.16','best_ask_size':'0.19019763','side':'buy','time':'2026-11-03T14:35:44.991706Z','trade_id':851833174,'last_size':'3.0269514'}";
  "{'type':'ticker','sequence':104604952113,'product_id':'ETH-USD','price':'2288.16','open_24h':'2287.73','volume_24h':'82747.24702143','low_24h':'2233.5','high_24h':'2304.62','volume_30d':'2686917.66546226','best_bid':'2288.15','best_bid_size':'2.63200000','best_ask':'2288.17','best_ask_size':'0.00080328','side':'buy','time':'2026-11-03T14:35:44.991844Z','trade_id':851833175,'last_size':'0.19019763'}";
  "{'type':'ticker','sequence':104604952140,'product_id':'ETH-USD','price':'2288.17','open_24h':'2287.73','volume_24h':'82747.24755174','low_24h':'2233.5','high_24h':'2304.62','volume_30d':'2686917.66599257','best_bid':'2288.15','best_bid_size':'3.13200000','best_ask':'2288.17','best_ask_size':'0.00027297','side':'buy','time':'2026-11-03T14:35:44.995473Z','trade_id':851833176,'last_size':'0.00053031'}";
  "{'type':'ticker','sequence':104604952142,'product_id':'ETH-USD','price':'2288.17','open_24h':'2287.73','volume_24h':'82747.24782471','low_24h':'2233.5','high_24h':'2304.62','volume_30d':'2686917.66626554','best_bid':'2288.15','best_bid_size':'3.13200000','best_ask':'2288.18','best_ask_size':'0.00104704','side':'buy','time':'2026-11-03T14:35:44.995473Z','trade_id':851833177,'last_size':'0.00027297'}";
  "{'type':'heartbeat','last_trade_id':851833177,'product_id':'ETH-USD','sequence':104604952183,'time':'2026-11-03T14:35:45.000001Z'}";
  "{'type':'heartbeat','last_trade_id':1114414167,'product_id':'BTC-USD','sequence':138715993321,'time':'2026-11-03T14:35:45.000001Z'}";
  "{'type':'ticker','sequence':104604952268,'product_id':'ETH-USD','price':'2288.18','open_24h':'2287.73','volume_24h':'82747.24887175','low_24h':'2233.5','high_24h':'2304.62','volume_30d':'2686917.66731258','best_bid':'2288.17','best_bid_size':'5.57575234','best_ask':'2288.36','best_ask_size':'0.30000000','side':'buy','time':'2026-11-03T14:35:45.066565Z','trade_id':851833178,'last_size':'0.00104704'}";
  "{'type':'ticker','sequence':104604952270,'product_id':'ETH-USD','price':'2288.36','open_24h':'2287.73','volume_24h':'82747.29758772','low_24h':'2233.5','high_24h':'2304.62','volume_30d':'2686917.71602855','best_bid':'2288.17','best_bid_size':'5.57575234','best_ask':'2288.36','best_ask_size':'0.25128403','side':'buy','time':'2026-11-03T14:35:45.066565Z','trade_id':851833179,'last_size':'0.04871597'}";
  "{'type':'ticker','sequence':138715993788,'product_id':'BTC-USD','price':'77335.83','open_24h':'77747.9','volume_24h':'7179.74955037','low_24h':'76238.54','high_24h':'77980.33','volume_30d':'159695.18409970','best_bid':'77335.83','best_bid_size':'0.03959990','best_ask':'77339.50','best_ask_size':'0.02262793','side':'sell','time':'2026-11-03T14:35:45.175778Z','trade_id':1114414168,'last_size':'0.0000001'}";
  "{'type':'ticker','sequence':138715993990,'product_id':'BTC-USD','price':'77336.11','open_24h':'77747.9','volume_24h':'7179.78915037','low_24h':'76238.54','high_24h':'77980.33','volume_30d':'159695.22369970','best_bid':'77336.11','best_bid_size':'0.24202383','best_ask':'77341.94','best_ask_size':'0.00847392','side':'sell','time':'2026-11-03T14:35:45.267363Z','trade_id':1114414169,'last_size':'0.0396'}";
  "{'type':'ticker','sequence':138715994482,'product_id':'BTC-USD','price':'77336.12','open_24h':'77747.9','volume_24h':'7179.79432237','low_24h':'76238.54','high_24h':'77980.33','volume_30d':'159695.22887170','best_bid':'77336.12','best_bid_size':'0.00000003','best_ask':'77336.67','best_ask_size':'0.02262826','side':'sell','time':'2026-11-03T14:35:45.586895Z','trade_id':1114414170,'last_size':'0.005172'}";
  "{'type':'ticker','sequence':138715994503,'product_id':'BTC-USD','price':'77336.13','open_24h':'77747.9','volume_24h':'7179.79949437','low_24h':'76238.54','high_24h':'77980.33','volume_30d':'159695.23404370','best_bid':'77336.13','best_bid_size':'0.00000020','best_ask':'77340.51','best_ask_size':'0.03960000','side':'sell','time':'2026-11-03T14:35:45.616595Z','trade_id':1114414171,'last_size':'0.005172'}";
  "{'type':'ticker','sequence':138715994601,'product_id':'BTC-USD','price':'77336.14','open_24h':'77747.9','volume_24h':'7179.80466637','low_24h':'76238.54','high_24h':'77980.33','volume_30d':'159695.23921570','best_bid':'77336.14','best_bid_size':'0.00000008','best_ask':'77336.15','best_ask_size':'0.06222846','side':'sell','time':'2026-11-03T14:35:45.696522Z','trade_id':1114414172,'last_size':'0.005172'}";
  "{'type':'heartbeat','last_trade_id':851833179,'product_id':'ETH-USD','sequence':104604952835,'time':'2026-11-03T14:35:46.000000Z'}";
  "{'type':'heartbeat','last_trade_id':1114414172,'product_id':'BTC-USD','sequence':138715994916,'time':'2026-11-03T14:35:46.000000Z'}";
  "{'type':'ticker','sequence':138715994995,'product_id':'BTC-USD','price':'77336.28','open_24h':'77747.9','volume_24h':'7179.80466645','low_24h':'76238.54','high_24h':'77980.33','volume_30d':'159695.23921578','best_bid':'77336.28','best_bid_size':'0.00018861','best_ask':'77338.28','best_ask_size':'0.02262799','side':'sell','time':'2026-11-03T14:35:46.120922Z','trade_id':1114414173,'last_size':'0.00000008'}";
  "{'type':'ticker','sequence':138715995086,'product_id':'BTC-USD','price':'77336.62','open_24h':'77747.9','volume_24h':'7179.80466659','low_24h':'76238.54','high_24h':'77980.33','volume_30d':'159695.23921592','best_bid':'77336.62','best_bid_size':'0.00002168','best_ask':'77338.28','best_ask_size':'0.02262799','side':'sell','time':'2026-11-03T14:35:46.180234Z','trade_id':1114414174,'last_size':'0.00000014'}";
  "{'type':'ticker','sequence':138715995144,'product_id':'BTC-USD','price':'77336.63','open_24h':'77747.9','volume_24h':'7179.80983859','low_24h':'76238.54','high_24h':'77980.33','volume_30d':'159695.24438792','best_bid':'77336.63','best_bid_size':'0.00000013','best_ask':'77336.64','best_ask_size':'0.03960000','side':'sell','time':'2026-11-03T14:35:46.271010Z','trade_id':1114414175,'last_size':'0.005172'}";
  "{'type':'ticker','sequence':138715995223,'product_id':'BTC-USD','price':'77336.63','open_24h':'77747.9','volume_24h':'7179.80983864','low_24h':'76238.54','high_24h':'77980.33','volume_30d':'159695.24438797','best_bid':'77336.63','best_bid_size':'0.00000008','best_ask':'77336.64','best_ask_size':'0.06222865','side':'sell','time':'2026-11-03T14:35:46.363521Z','trade_id':1114414176,'last_size':'0.00000005'}";
  "{'type':'ticker','sequence':138715995278,'product_id':'BTC-USD','price':'77336.63','open_24h':'77747.9','volume_24h':'7179.80983872','low_24h':'76238.54','high_24h':'77980.33','volume_30d':'159695.24438805','best_bid':'77336.63','best_bid_size':'0.00020202','best_ask':'77336.64','best_ask_size':'0.02262865','side':'sell','time':'2026-11-03T14:35:46.426053Z','trade_id':1114414177,'last_size':'0.00000008'}";
  "{'type':'ticker','sequence':138715995280,'product_id':'BTC-USD','price':'77336.63','open_24h':'77747.9','volume_24h':'7179.81004064','low_24h':'76238.54','high_24h':'77980.33','volume_30d':'159695.24458997','best_bid':'77336.63','best_bid_size':'0.00000010','best_ask':'77336.64','best_ask_size':'0.02262865','side':'sell','time':'2026-11-03T14:35:46.426053Z','trade_id':1114414178,'last_size':'0.00020192'}";
  "{'type':'ticker','sequence':138715995306,'product_id':'BTC-USD','price':'77336.63','open_24h':'77747.9','volume_24h':'7179.81004074','low_24h':'76238.54','high_24h':'77980.33','volume_30d':'159695.24459007','best_bid':'77336.63','best_bid_size':'0.00517219','best_ask':'77336.64','best_ask_size':'0.02262865','side':'sell','time':'2026-11-03T14:35:46.501559Z','trade_id':1114414179,'last_size':'0.00000010'}";
  "{'type':'ticker','sequence':138715995308,'product_id':'BTC-USD','price':'77336.63','open_24h':'77747.9','volume_24h':'7179.81521264','low_24h':'76238.54','high_24h':'77980.33','volume_30d':'159695.24976197','best_bid':'77336.63','best_bid_size':'0.00000029','best_ask':'77336.64','best_ask_size':'0.02262865','side':'sell','time':'2026-11-03T14:35:46.501559Z','trade_id':1114414180,'last_size':'0.00517190'}";
  "{'type':'ticker','sequence':138715995383,'product_id':'BTC-USD','price':'77336.63','open_24h':'77747.9','volume_24h':'7179.81521293','low_24h':'76238.54','high_24h':'77980.33','volume_30d':'159695.24976226','best_bid':'77336.63','best_bid_size':'0.06492085','best_ask':'77336.64','best_ask_size':'0.02262865','side':'sell','time':'2026-11-03T14:35:46.600212Z','trade_id':1114414181,'last_size':'0.00000029'}";
  "{'type':'ticker','sequence':138715995385,'product_id':'BTC-USD','price':'77336.63','open_24h':'77747.9','volume_24h':'7179.88013364','low_24h':'76238.54','high_24h':'77980.33','volume_30d':'159695.31468297','best_bid':'77336.63','best_bid_size':'0.00000014','best_ask':'77336.64','best_ask_size':'0.02262865','side':'sell','time':'2026-11-03T14:35:46.600212Z','trade_id':1114414182,'last_size':'0.06492071'}";
  "{'type':'ticker','sequence':138715995478,'product_id':'BTC-USD','price':'77336.63','open_24h':'77747.9','volume_24h':'7179.88013378','low_24h':'76238.54','high_24h':'77980.33','volume_30d':'159695.31468311','best_bid':'77336.63','best_bid_size':'0.00519570','best_ask':'77336.64','best_ask_size':'0.02262865','side':'sell','time':'2026-11-03T14:35:46.633780Z','trade_id':1114414183,'last_size':'0.00000014'}";
  "{'type':'ticker','sequence':138715995480,'product_id':'BTC-USD','price':'77336.63','open_24h':'77747.9','volume_24h':'7179.88530597','low_24h':'76238.54','high_24h':'77980.33','volume_30d':'159695.31985530','best_bid':'77336.63','best_bid_size':'0.00002351','best_ask':'77336.64','best_ask_size':'0.02262865','side':'sell','time':'2026-11-03T14:35:46.633780Z','trade_id':1114414184,'last_size':'0.00517219'}";
  "{'type':'ticker','sequence':138715995482,'product_id':'BTC-USD','price':'77336.63','open_24h':'77747.9','volume_24h':'7179.88532864','low_24h':'76238.54','high_24h':'77980.33','volume_30d':'159695.31987797','best_bid':'77336.63','best_bid_size':'0.00000084','best_ask':'77336.64','best_ask_size':'0.02262865','side':'sell','time':'2026-11-03T14:35:46.633780Z','trade_id':1114414185,'last_size':'0.00002267'}";
  "{'type':'ticker','sequence':138715995528,'product_id':'BTC-USD','price':'77336.63','open_24h':'77747.9','volume_24h':'7179.89050064','low_24h':'76238.54','high_24h':'77980.33','volume_30d':'159695.32504997','best_bid':'77336.63','best_bid_size':'0.00000019','best_ask':'77336.64','best_ask_size':'0.02262865','side':'sell','time':'2026-11-03T14:35:46.666012Z','trade_id':1114414186,'last_size':'0.005172'}";
  "{'type':'ticker','sequence':138715995655,'product_id':'BTC-USD','price':'77336.63','open_24h':'77747.9','volume_24h':'7179.89050083','low_24h':'76238.54','high_24h':'77980.33','volume_30d':'159695.32505016','best_bid':'77334.69','best_bid_size':'0.00517213','best_ask':'77336.64','best_ask_size':'0.02262865','side':'sell','time':'2026-11-03T14:35:46.801928Z','trade_id':1114414187,'last_size':'0.00000019'}";
  "{'type':'ticker','sequence':138715995657,'product_id':'BTC-USD','price':'77334.69','open_24h':'77747.9','volume_24h':'7179.89567296','low_24h':'76238.54','high_24h':'77980.33','volume_30d':'159695.33022229','best_bid':'77334.22','best_bid_size':'0.11218851','best_ask':'77336.64','best_ask_size':'0.02262865','side':'sell','time':'2026-11-03T14:35:46.801928Z','trade_id':1114414188,'last_size':'0.00517213'}";
  "{'type':'ticker','sequence':138715995659,'product_id':'BTC-USD','price':'77334.22','open_24h':'77747.9','volume_24h':'7179.90095200','low_24h':'76238.54','high_24h':'77980.33','volume_30d':'159695.33550133','best_bid':'77334.22','best_bid_size':'0.10690947','best_ask':'77336.64','best_ask_size':'0.02262865','side':'sell','time':'2026-11-03T14:35:46.801928Z','trade_id':1114414189,'last_size':'0.00527904'}";
  "{'type':'ticker','sequence':138715995719,'product_id':'BTC-USD','price':'77334.23','open_24h':'77747.9','volume_24h':'7179.90612400','low_24h':'76238.54','high_24h':'77980.33','volume_30d':'159695.34067333','best_bid':'77334.23','best_bid_size':'0.00000027','best_ask':'77334.24','best_ask_size':'0.03960000','side':'sell','time':'2026-11-03T14:35:46.841027Z','trade_id':1114414190,'last_size':'0.005172'}";
  "{'type':'ticker','sequence':138715995799,'product_id':'BTC-USD','price':'77334.23','open_24h':'77747.9','volume_24h':'7179.90612427','low_24h':'76238.54','high_24h':'77980.33','volume_30d':'159695.34067360','best_bid':'77334.22','best_bid_size':'0.04656916','best_ask':'77338.92','best_ask_size':'0.10344081','side':'sell','time':'2026-11-03T14:35:46.964117Z','trade_id':1114414191,'last_size':'0.00000027'}";
  "{'type':'ticker','sequence':138715995801,'product_id':'BTC-USD','price':'77334.22','open_24h':'77747.9','volume_24h':'7179.90778278','low_24h':'76238.54','high_24h':'77980.33','volume_30d':'159695.34233211','best_bid':'77334.22','best_bid_size':'0.04491065','best_ask':'77338.92','best_ask_size':'0.10344081','side':'sell','time':'2026-11-03T14:35:46.964117Z','trade_id':1114414192,'last_size':'0.00165851'}";
  "{'type':'heartbeat','last_trade_id':851833179,'product_id':'ETH-USD','sequence':104604953196,'time':'2026-11-03T14:35:47.000001Z'}";
  "{'type':'heartbeat','last_trade_id':1114414192,'product_id':'BTC-USD','sequence':138715995862,'time':'2026-11-03T14:35:47.000001Z'}";
  "{'type':'ticker','sequence':138715995908,'product_id':'BTC-USD','price':'77334.23','open_24h':'77747.9','volume_24h':'7179.91295478','low_24h':'76238.54','high_24h':'77980.33','volume_30d':'159695.34750411','best_bid':'77334.23','best_bid_size':'0.00000035','best_ask':'77334.24','best_ask_size':'0.03960000','side':'sell','time':'2026-11-03T14:35:47.103891Z','trade_id':1114414193,'last_size':'0.005172'}";
  "{'type':'ticker','sequence':104604953235,'product_id':'ETH-USD','price':'2288.27','open_24h':'2287.73','volume_24h':'82747.36322935','low_24h':'2233.5','high_24h':'2304.62','volume_30d':'2686917.78167018','best_bid':'2288.27','best_bid_size':'2.56635837','best_ask':'2288.30','best_ask_size':'4.20705721','side':'sell','time':'2026-11-03T14:35:47.284816Z','trade_id':851833180,'last_size':'0.06564163'}";
  "{'type':'ticker','sequence':138715996099,'product_id':'BTC-USD','price':'77334.34','open_24h':'77747.9','volume_24h':'7179.91295489','low_24h':'76238.54','high_24h':'77980.33','volume_30d':'159695.34750422','best_bid':'77334.34','best_bid_size':'0.03959989','best_ask':'77339.99','best_ask_size':'0.06681223','side':'sell','time':'2026-11-03T14:35:47.355632Z','trade_id':1114414194,'last_size':'0.00000011'}";
  "{'type':'ticker','sequence':138715996283,'product_id':'BTC-USD','price':'77339.17','open_24h':'77747.9','volume_24h':'7179.91421162','low_24h':'76238.54','high_24h':'77980.33','volume_30d':'159695.34876095','best_bid':'77334.35','best_bid_size':'0.00517215','best_ask':'77339.17','best_ask_size':'0.02137109','side':'buy','time':'2026-11-03T14:35:47.467658Z','trade_id':1114414195,'last_size':'0.00125673'}";
  "{'type':'ticker','sequence':138715996556,'product_id':'BTC-USD','price':'77334.37','open_24h':'77747.9','volume_24h':'7179.91421165','low_24h':'76238.54','high_24h':'77980.33','volume_30d':'159695.34876098','best_bid':'77334.37','best_bid_size':'0.01076937','best_ask':'77336.17','best_ask_size':'0.02262849','side':'sell','time':'2026-11-03T14:35:47.815677Z','trade_id':1114414196,'last_size':'0.00000003'}";
  "{'type':'ticker','sequence':138715996730,'product_id':'BTC-USD','price':'77334.38','open_24h':'77747.9','volume_24h':'7179.91938365','low_24h':'76238.54','high_24h':'77980.33','volume_30d':'159695.35393298','best_bid':'77334.38','best_bid_size':'0.00000028','best_ask':'77334.39','best_ask_size':'0.06222892','side':'sell','time':'2026-11-03T14:35:47.981704Z','trade_id':1114414197,'last_size':'0.005172'}";
  "{'type':'heartbeat','last_trade_id':851833180,'product_id':'ETH-USD','sequence':104604953595,'time':'2026-11-03T14:35:48.000000Z'}";
  "{'type':'heartbeat','last_trade_id':1114414197,'product_id':'BTC-USD','sequence':138715996735,'time':'2026-11-03T14:35:48.000000Z'}";
  "{'type':'ticker','sequence':104604953644,'product_id':'ETH-USD','price':'2288.24','open_24h':'2287.73','volume_24h':'82747.36323826','low_24h':'2233.5','high_24h':'2304.62','volume_30d':'2686917.78167909','best_bid':'2288.24','best_bid_size':'2.63256520','best_ask':'2288.25','best_ask_size':'3.93313676','side':'sell','time':'2026-11-03T14:35:48.118653Z','trade_id':851833181,'last_size':'0.00000891'}";
  "{'type':'ticker','sequence':138715996788,'product_id':'BTC-USD','price':'77334.39','open_24h':'77747.9','volume_24h':'7179.91938390','low_24h':'76238.54','high_24h':'77980.33','volume_30d':'159695.35393323','best_bid':'77334.38','best_bid_size':'0.00000028','best_ask':'77334.39','best_ask_size':'0.06222867','side':'buy','time':'2026-11-03T14:35:48.124844Z','trade_id':1114414198,'last_size':'0.00000025'}";
  "{'type':'ticker','sequence':138715996861,'product_id':'BTC-USD','price':'77334.38','open_24h':'77747.9','volume_24h':'7179.91938418','low_24h':'76238.54','high_24h':'77980.33','volume_30d':'159695.35393351','best_bid':'77334.38','best_bid_size':'0.00646573','best_ask':'77334.39','best_ask_size':'0.13594465','side':'sell','time':'2026-11-03T14:35:48.148397Z','trade_id':1114414199,'last_size':'0.00000028'}";
  "{'type':'ticker','sequence':138715996863,'product_id':'BTC-USD','price':'77334.38','open_24h':'77747.9','volume_24h':'7179.92584990','low_24h':'76238.54','high_24h':'77980.33','volume_30d':'159695.36039923','best_bid':'77334.38','best_bid_size':'0.00000001','best_ask':'77334.39','best_ask_size':'0.13594465','side':'sell','time':'2026-11-03T14:35:48.148397Z','trade_id':1114414200,'last_size':'0.00646572'}";
  "{'type':'ticker','sequence':138715996897,'product_id':'BTC-USD','price':'77334.38','open_24h':'77747.9','volume_24h':'7179.92584991','low_24h':'76238.54','high_24h':'77980.33','volume_30d':'159695.36039924','best_bid':'77334.38','best_bid_size':'0.00517234','best_ask':'77334.39','best_ask_size':'0.06222867','side':'sell','time':'2026-11-03T14:35:48.175363Z','trade_id':1114414201,'last_size':'0.00000001'}";
  "{'type':'ticker','sequence':138715996899,'product_id':'BTC-USD','price':'77334.38','open_24h':'77747.9','volume_24h':'7179.93102190','low_24h':'76238.54','high_24h':'77980.33','volume_30d':'159695.36557123','best_bid':'77334.38','best_bid_size':'0.00000035','best_ask':'77334.39','best_ask_size':'0.06222867','side':'sell','time':'2026-11-03T14:35:48.175363Z','trade_id':1114414202,'last_size':'0.00517199'}";
  "{'type':'ticker','sequence':138715997051,'product_id':'BTC-USD','price':'77334.38','open_24h':'77747.9','volume_24h':'7179.93102225','low_24h':'76238.54','high_24h':'77980.33','volume_30d':'159695.36557158','best_bid':'77334.38','best_bid_size':'0.07991083','best_ask':'77334.39','best_ask_size':'0.02262892','side':'sell','time':'2026-11-03T14:35:48.428541Z','trade_id':1114414203,'last_size':'0.00000035'}";
  "{'type':'ticker','sequence':138715997053,'product_id':'BTC-USD','price':'77334.38','open_24h':'77747.9','volume_24h':'7180.01093290','low_24h':'76238.54','high_24h':'77980.33','volume_30d':'159695.44548223','best_bid':'77334.38','best_bid_size':'0.00000018','best_ask':'77334.39','best_ask_size':'0.02262892','side':'sell','time':'2026-11-03T14:35:48.428541Z','trade_id':1114414204,'last_size':'0.07991065'}";
  "{'type':'ticker','sequence':138715997124,'product_id':'BTC-USD','price':'77334.38','open_24h':'77747.9','volume_24h':'7180.01093308','low_24h':'76238.54','high_24h':'77980.33','volume_30d':'159695.44548241','best_bid':'77334.38','best_bid_size':'0.00517234','best_ask':'77334.39','best_ask_size':'0.03960000','side':'sell','time':'2026-11-03T14:35:48.456433Z','trade_id':1114414205,'last_size':'0.00000018'}";
  "{'type':'ticker','sequence':138715997126,'product_id':'BTC-USD','price':'77334.38','open_24h':'77747.9','volume_24h':'7180.01610490','low_24h':'76238.54','high_24h':'77980.33','volume_30d':'159695.45065423','best_bid':'77334.38','best_bid_size':'0.00000052','best_ask':'77334.39','best_ask_size':'0.03960000','side':'sell','time':'2026-11-03T14:35:48.456433Z','trade_id':1114414206,'last_size':'0.00517182'}";
  "{'type':'ticker','sequence':138715997199,'product_id':'BTC-USD','price':'77334.39','open_24h':'77747.9','volume_24h':'7180.01671811','low_24h':'76238.54','high_24h':'77980.33','volume_30d':'159695.45126744','best_bid':'77334.38','best_bid_size':'0.00000052','best_ask':'77334.39','best_ask_size':'0.03898679','side':'buy','time':'2026-11-03T14:35:48.596589Z','trade_id':1114414207,'last_size':'0.00061321'}";
  "{'type':'ticker','sequence':138715997229,'product_id':'BTC-USD','price':'77334.38','open_24h':'77747.9','volume_24h':'7180.01671819','low_24h':'76238.54','high_24h':'77980.33','volume_30d':'159695.45126752','best_bid':'77334.38','best_bid_size':'0.00000044','best_ask':'77334.39','best_ask_size':'0.03898679','side':'sell','time':'2026-11-03T14:35:48.647870Z','trade_id':1114414208,'last_size':'0.00000008'}";
  "{'type':'ticker','sequence':138715997407,'product_id':'BTC-USD','price':'77334.38','open_24h':'77747.9','volume_24h':'7180.01671838','low_24h':'76238.54','high_24h':'77980.33','volume_30d':'159695.45126771','best_bid':'77334.38','best_bid_size':'0.00000025','best_ask':'77334.39','best_ask_size':'0.21927636','side':'sell','time':'2026-11-03T14:35:48.822070Z','trade_id':1114414209,'last_size':'0.00000019'}";
  "{'type':'ticker','sequence':138715997569,'product_id':'BTC-USD','price':'77334.38','open_24h':'77747.9','volume_24h':'7180.01671849','low_24h':'76238.54','high_24h':'77980.33','volume_30d':'159695.45126782','best_bid':'77334.38','best_bid_size':'0.00000014','best_ask':'77334.39','best_ask_size':'0.13953009','side':'sell','time':'2026-11-03T14:35:48.961215Z','trade_id':1114414210,'last_size':'0.00000011'}";
  "{'type':'heartbeat','last_trade_id':851833181,'product_id':'ETH-USD','sequence':104604954463,'time':'2026-11-03T14:35:49.000000Z'}";
  "{'type':'heartbeat','last_trade_id':1114414210,'product_id':'BTC-USD','sequence':138715997619,'time':'2026-11-03T14:35:49.000000Z'}";
  "{'type':'ticker','sequence':138715998295,'product_id':'BTC-USD','price':'77334.38','open_24h':'77747.9','volume_24h':'7180.01671851','low_24h':'76238.54','high_24h':'77980.33','volume_30d':'159695.45126784','best_bid':'77334.38','best_bid_size':'0.00000012','best_ask':'77334.39','best_ask_size':'0.02274485','side':'sell','time':'2026-11-03T14:35:49.838307Z','trade_id':1114414211,'last_size':'0.00000002'}";
  "{'type':'ticker','sequence':104604955175,'product_id':'ETH-USD','price':'2288.23','open_24h':'2287.73','volume_24h':'82751.14723826','low_24h':'2233.5','high_24h':'2304.62','volume_30d':'2686921.56567909','best_bid':'2288.22','best_bid_size':'3.88760280','best_ask':'2288.23','best_ask_size':'0.14981339','side':'buy','time':'2026-11-03T14:35:49.910983Z','trade_id':851833182,'last_size':'3.784'}";
  "{'type':'ticker','sequence':104604955182,'product_id':'ETH-USD','price':'2288.23','open_24h':'2287.73','volume_24h':'82751.14765753','low_24h':'2233.5','high_24h':'2304.62','volume_30d':'2686921.56609836','best_bid':'2288.22','best_bid_size':'3.88760280','best_ask':'2288.23','best_ask_size':'0.00021593','side':'buy','time':'2026-11-03T14:35:49.912727Z','trade_id':851833183,'last_size':'0.00041927'}";
  "{'type':'ticker','sequence':104604955184,'product_id':'ETH-USD','price':'2288.23','open_24h':'2287.73','volume_24h':'82751.14787346','low_24h':'2233.5','high_24h':'2304.62','volume_30d':'2686921.56631429','best_bid':'2288.22','best_bid_size':'3.88760280','best_ask':'2288.54','best_ask_size':'9.17619565','side':'buy','time':'2026-11-03T14:35:49.912727Z','trade_id':851833184,'last_size':'0.00021593'}";
  "{'type':'ticker','sequence':138715998330,'product_id':'BTC-USD','price':'77334.38','open_24h':'77747.9','volume_24h':'7180.01671863','low_24h':'76238.54','high_24h':'77980.33','volume_30d':'159695.45126796','best_bid':'77334.38','best_bid_size':'0.03960000','best_ask':'77334.39','best_ask_size':'0.02274485','side':'sell','time':'2026-11-03T14:35:49.915315Z','trade_id':1114414212,'last_size':'0.00000012'}";
  "{'type':'ticker','sequence':138715998332,'product_id':'BTC-USD','price':'77334.38','open_24h':'77747.9','volume_24h':'7180.05631851','low_24h':'76238.54','high_24h':'77980.33','volume_30d':'159695.49086784','best_bid':'77334.38','best_bid_size':'0.00000012','best_ask':'77334.39','best_ask_size':'0.02274485','side':'sell','time':'2026-11-03T14:35:49.915315Z','trade_id':1114414213,'last_size':'0.03959988'}";
  "{'type':'ticker','sequence':138715998411,'product_id':'BTC-USD','price':'77334.38','open_24h':'77747.9','volume_24h':'7180.05631863','low_24h':'76238.54','high_24h':'77980.33','volume_30d':'159695.49086796','best_bid':'77334.38','best_bid_size':'0.04467234','best_ask':'77334.39','best_ask_size':'0.00011574','side':'sell','time':'2026-11-03T14:35:49.955492Z','trade_id':1114414214,'last_size':'0.00000012'}";
  "{'type':'ticker','sequence':138715998413,'product_id':'BTC-USD','price':'77334.38','open_24h':'77747.9','volume_24h':'7180.06149097','low_24h':'76238.54','high_24h':'77980.33','volume_30d':'159695.49604030','best_bid':'77334.38','best_bid_size':'0.03950000','best_ask':'77334.39','best_ask_size':'0.00011574','side':'sell','time':'2026-11-03T14:35:49.955492Z','trade_id':1114414215,'last_size':'0.00517234'}";
  "{'type':'ticker','sequence':138715998415,'product_id':'BTC-USD','price':'77334.38','open_24h':'77747.9','volume_24h':'7180.10099051','low_24h':'76238.54','high_24h':'77980.33','volume_30d':'159695.53553984','best_bid':'77334.38','best_bid_size':'0.00000046','best_ask':'77334.39','best_ask_size':'0.00011574','side':'sell','time':'2026-11-03T14:35:49.955492Z','trade_id':1114414216,'last_size':'0.03949954'}";
  "{'type':'ticker','sequence':138715998429,'product_id':'BTC-USD','price':'77334.38','open_24h':'77747.9','volume_24h':'7180.10099067','low_24h':'76238.54','high_24h':'77980.33','volume_30d':'159695.53554000','best_bid':'77334.38','best_bid_size':'0.00517264','best_ask':'77334.39','best_ask_size':'0.00011574','side':'sell','time':'2026-11-03T14:35:49.970578Z','trade_id':1114414217,'last_size':'0.00000016'}";
  "{'type':'ticker','sequence':138715998484,'product_id':'BTC-USD','price':'77334.39','open_24h':'77747.9','volume_24h':'7180.10110641','low_24h':'76238.54','high_24h':'77980.33','volume_30d':'159695.53565574','best_bid':'77334.38','best_bid_size':'0.00517264','best_ask':'77336.17','best_ask_size':'0.00005055','side':'buy','time':'2026-11-03T14:35:49.998673Z','trade_id':1114414218,'last_size':'0.00011574'}";
  "{'type':'ticker','sequence':138715998486,'product_id':'BTC-USD','price':'77336.17','open_24h':'77747.9','volume_24h':'7180.10115696','low_24h':'76238.54','high_24h':'77980.33','volume_30d':'159695.53570629','best_bid':'77334.38','best_bid_size':'0.00517264','best_ask':'77341.94','best_ask_size':'0.00847392','side':'buy','time':'2026-11-03T14:35:49.998673Z','trade_id':1114414219,'last_size':'0.00005055'}";
  "{'type':'heartbeat','last_trade_id':851833184,'product_id':'ETH-USD','sequence':104604955374,'time':'2026-11-03T14:35:50.000000Z'}";
  "{'type':'heartbeat','last_trade_id':1114414219,'product_id':'BTC-USD','sequence':138715998492,'time':'2026-11-03T14:35:50.000000Z'}";
  "{'type':'ticker','sequence':104604955453,'product_id':'ETH-USD','price':'2288.38','open_24h':'2287.73','volume_24h':'82751.36887346','low_24h':'2233.5','high_24h':'2304.62','volume_30d':'2686921.78731429','best_bid':'2288.37','best_bid_size':'4.33669000','best_ask':'2288.66','best_ask_size':'0.02986069','side':'buy','time':'2026-11-03T14:35:50.066521Z','trade_id':851833185,'last_size':'0.221'}";
  "{'type':'ticker','sequence':138715998688,'product_id':'BTC-USD','price':'77337.76','open_24h':'77747.9','volume_24h':'7180.10115712','low_24h':'76238.54','high_24h':'77980.33','volume_30d':'159695.53570645','best_bid':'77337.76','best_bid_size':'0.00079984','best_ask':'77340.11','best_ask_size':'0.02262757','side':'sell','time':'2026-11-03T14:35:50.076242Z','trade_id':1114414220,'last_size':'0.00000016'}";
  "{'type':'ticker','sequence':138715999020,'product_id':'BTC-USD','price':'77341.93','open_24h':'77747.9','volume_24h':'7180.12378399','low_24h':'76238.54','high_24h':'77980.33','volume_30d':'159695.55833332','best_bid':'77340.90','best_bid_size':'0.00080000','best_ask':'77341.94','best_ask_size':'0.00847392','side':'buy','time':'2026-11-03T14:35:50.489915Z','trade_id':1114414221,'last_size':'0.02262687'}";
  "{'type':'ticker','sequence':138715999022,'product_id':'BTC-USD','price':'77341.94','open_24h':'77747.9','volume_24h':'7180.12389973','low_24h':'76238.54','high_24h':'77980.33','volume_30d':'159695.55844906','best_bid':'77340.90','best_bid_size':'0.00080000','best_ask':'77341.94','best_ask_size':'0.00835818','side':'buy','time':'2026-11-03T14:35:50.489915Z','trade_id':1114414222,'last_size':'0.00011574'}";
  "{'type':'ticker','sequence':138715999024,'product_id':'BTC-USD','price':'77341.94','open_24h':'77747.9','volume_24h':'7180.12997877','low_24h':'76238.54','high_24h':'77980.33','volume_30d':'159695.56452810','best_bid':'77340.90','best_bid_size':'0.00080000','best_ask':'77341.94','best_ask_size':'0.00227914','side':'buy','time':'2026-11-03T14:35:50.489915Z','trade_id':1114414223,'last_size':'0.00607904'}";
  "{'type':'ticker','sequence':138715999026,'product_id':'BTC-USD','price':'77341.94','open_24h':'77747.9','volume_24h':'7180.13225791','low_24h':'76238.54','high_24h':'77980.33','volume_30d':'159695.56680724','best_bid':'77340.90','best_bid_size':'0.00080000','best_ask':'77343.48','best_ask_size':'0.07521258','side':'buy','time':'2026-11-03T14:35:50.489915Z','trade_id':1114414224,'last_size':'0.00227914'}";
  "{'type':'ticker','sequence':138715999312,'product_id':'BTC-USD','price':'77347.93','open_24h':'77747.9','volume_24h':'7180.13305791','low_24h':'76238.54','high_24h':'77980.33','volume_30d':'159695.56760724','best_bid':'77346.11','best_bid_size':'0.26676421','best_ask':'77347.94','best_ask_size':'0.00380471','side':'sell','time':'2026-11-03T14:35:50.517873Z','trade_id':1114414225,'last_size':'0.0008'}";
  "{'type':'ticker','sequence':138715999419,'product_id':'BTC-USD','price':'77347.93','open_24h':'77747.9','volume_24h':'7180.15568291','low_24h':'76238.54','high_24h':'77980.33','volume_30d':'159695.59023224','best_bid':'77347.93','best_bid_size':'0.00000001','best_ask':'77347.94','best_ask_size':'0.00380471','side':'sell','time':'2026-11-03T14:35:50.548772Z','trade_id':1114414226,'last_size':'0.022625'}";
  "{'type':'ticker','sequence':104604956052,'product_id':'ETH-USD','price':'2288.88','open_24h':'2287.73','volume_24h':'82751.36987346','low_24h':'2233.5','high_24h':'2304.62','volume_30d':'2686921.78831429','best_bid':'2288.85','best_bid_size':'0.00065593','best_ask':'2289.10','best_ask_size':'0.29999403','side':'buy','time':'2026-11-03T14:35:50.581756Z','trade_id':851833186,'last_size':'0.001'}";
  "{'type':'ticker','sequence':104604956054,'product_id':'ETH-USD','price':'2289.1','open_24h':'2287.73','volume_24h':'82751.37736587','low_24h':'2233.5','high_24h':'2304.62','volume_30d':'2686921.79580670','best_bid':'2288.85','best_bid_size':'0.00065593','best_ask':'2289.10','best_ask_size':'0.29250162','side':'buy','time':'2026-11-03T14:35:50.581756Z','trade_id':851833187,'last_size':'0.00749241'}";
  "{'type':'ticker','sequence':138715999486,'product_id':'BTC-USD','price':'77347.93','open_24h':'77747.9','volume_24h':'7180.16085391','low_24h':'76238.54','high_24h':'77980.33','volume_30d':'159695.59540324','best_bid':'77347.93','best_bid_size':'0.00000043','best_ask':'77347.94','best_ask_size':'0.00380471','side':'sell','time':'2026-11-03T14:35:50.582165Z','trade_id':1114414227,'last_size':'0.005171'}";
  "{'type':'ticker','sequence':138715999773,'product_id':'BTC-USD','price':'77347.94','open_24h':'77747.9','volume_24h':'7180.16465862','low_24h':'76238.54','high_24h':'77980.33','volume_30d':'159695.59920795','best_bid':'77347.93','best_bid_size':'0.11092141','best_ask':'77347.94','best_ask_size':'0.00001920','side':'buy','time':'2026-11-03T14:35:50.663576Z','trade_id':1114414228,'last_size':'0.00380471'}";
  "{'type':'ticker','sequence':138715999775,'product_id':'BTC-USD','price':'77347.94','open_24h':'77747.9','volume_24h':'7180.16467782','low_24h':'76238.54','high_24h':'77980.33','volume_30d':'159695.59922715','best_bid':'77347.93','best_bid_size':'0.11092141','best_ask':'77350.00','best_ask_size':'0.50000000','side':'buy','time':'2026-11-03T14:35:50.663576Z','trade_id':1114414229,'last_size':'0.0000192'}";
  "{'type':'ticker','sequence':138715999777,'product_id':'BTC-USD','price':'77350','open_24h':'77747.9','volume_24h':'7180.22127489','low_24h':'76238.54','high_24h':'77980.33','volume_30d':'159695.65582422','best_bid':'77347.93','best_bid_size':'0.11092141','best_ask':'77350.00','best_ask_size':'0.44340293','side':'buy','time':'2026-11-03T14:35:50.663576Z','trade_id':1114414230,'last_size':'0.05659707'}";
  "{'type':'ticker','sequence':138715999780,'product_id':'BTC-USD','price':'77350','open_24h':'77747.9','volume_24h':'7180.28552341','low_24h':'76238.54','high_24h':'77980.33','volume_30d':'159695.72007274','best_bid':'77347.93','best_bid_size':'0.11092141','best_ask':'77350.00','best_ask_size':'0.37915441','side':'buy','time':'2026-11-03T14:35:50.663676Z','trade_id':1114414231,'last_size':'0.06424852'}";
  "{'type':'ticker','sequence':138715999783,'product_id':'BTC-USD','price':'77350','open_24h':'77747.9','volume_24h':'7180.36739183','low_24h':'76238.54','high_24h':'77980.33','volume_30d':'159695.80194116','best_bid':'77347.93','best_bid_size':'0.11092141','best_ask':'77350.00','best_ask_size':'0.29728599','side':'buy','time':'2026-11-03T14:35:50.663782Z','trade_id':1114414232,'last_size':'0.08186842'}";
  "{'type':'ticker','sequence':138715999823,'product_id':'BTC-USD','price':'77350','open_24h':'77747.9','volume_24h':'7180.54335913','low_24h':'76238.54','high_24h':'77980.33','volume_30d':'159695.97790846','best_bid':'77347.93','best_bid_size':'0.11092098','best_ask':'77350.00','best_ask_size':'0.12131869','side':'buy','time':'2026-11-03T14:35:50.667610Z','trade_id':1114414233,'last_size':'0.1759673'}";
  "{'type':'ticker','sequence':138715999840,'product_id':'BTC-USD','price':'77350','open_24h':'77747.9','volume_24h':'7180.66467782','low_24h':'76238.54','high_24h':'77980.33','volume_30d':'159696.09922715','best_bid':'77349.99','best_bid_size':'0.01649000','best_ask':'77359.03','best_ask_size':'0.01487200','side':'buy','time':'2026-11-03T14:35:50.671771Z','trade_id':1114414234,'last_size':'0.12131869'}"
]%string.

(** The messages. *)
Definition recorded_lines : list bytes := map jlit RECORDED.
