(* ===== verification/SessionTests.v ===== *)
(** * The tests of the live session, run on the model

    live-feed/tests/session_fixtures.rs, on the recording of RecordedFeed.v: the session sees a clean stream as clean,
    and every way the tests tamper with it is noticed. *)

From Stdlib Require Import FunctionalExtensionality.
From S2P Require Import Prelude Bytes Text Testing Models JsonScan FeedParser LiveSession RecordedFeed.

(** [RECORDED.lines()] without the blank ones. *)
Definition fixture_lines : list bytes := List.filter (fun l => negb (bool_decide (trim l = []))) recorded_lines.

(** The [i]-th message of a run arrives at [1000 + i] ns, [i] ms. *)
Definition feed_message (st : Session * list Event * list Action) (im : nat * bytes) : outcome (Session * list Event * list Action) :=
  let '(s, events, actions) := st in
  let! r := on_message s im.2 (1000 + Z.of_nat im.1) (Z.of_nat im.1) events in
  let '(s, events, a) := r in
  Done (s, events, actions ++ match a with Some a => [a] | None => [] end).

Definition feed (session : Session) (msgs : list bytes) : outcome (Session * list Event * list Action) :=
  for_each feed_message (imap (fun i m => (i, m)) msgs) (session, [], []).

Definition session : Session := on_connected (session_new [lit "BTC-USD"; lit "ETH-USD"] 10000) 0.

Definition emitted_bbo (e : Event) : bool := match e with EvBbo _ => true | _ => false end.
Definition emitted_trade (e : Event) : bool := match e with EvTrade _ => true | _ => false end.
Definition is_btc (m : bytes) : bool := contains m (jlit "'BTC-USD'").
Definition is_btc_ticker (m : bytes) : bool := contains m (jlit "'type':'ticker'") && is_btc m.
Definition is_btc_heartbeat (m : bytes) : bool := is_btc m && contains m (jlit "'type':'heartbeat'").

(** [Vec::remove] and [Vec::insert]. *)
Definition removed {A} (l : list A) (i : nat) : list A := take i l ++ drop (S i) l.
Definition inserted_at {A} (l : list A) (i : nat) (a : A) : list A := take i l ++ a :: drop i l.

Definition recorded_stream_is_clean : test :=
  let! r := feed session fixture_lines in
  let '(s, events, actions) := r in
  assert (length actions =? 0)%nat ;!
  assert_eq (malformed (stats s)) 0 ;!
  assert_eq (unknown_product (stats s)) 0 ;!
  assert (100 <? tickers (stats s)) ;!
  assert (10 <? heartbeats (stats s)) ;!
  let bbos := length (List.filter emitted_bbo events) in
  let trades := length (List.filter emitted_trade events) in
  assert_eq (Z.of_nat bbos) (tickers (stats s)) ;!
  assert_eq trades bbos.

Definition events_carry_sane_values : test :=
  let! r := feed session fixture_lines in
  let '(s, events, _) := r in
  for_each (fun (_ : unit) e =>
      match e with
      | EvBbo b =>
          assert ((0 <? bid_price b) && (bid_price b <=? ask_price b)) ;!
          assert (1700000000000000000 <? t0_exchange_ns (bbo_telemetry b)) ;!
          assert ((bbo_market_id b =? 1) || (bbo_market_id b =? 2))
      | EvTrade _ => Done tt
      end) events tt.

(** The index of the [n]-th message that satisfies [p]. *)
Fixpoint nth_where {A} (p : A -> bool) (n i : nat) (l : list A) : option nat :=
  match l with
  | [] => None
  | x :: l => if p x then match n with O => Some i | S n => nth_where p n (S i) l end else nth_where p n (S i) l
  end.

Definition dropped_ticker_triggers_trade_id_gap : test :=
  let msgs := fixture_lines in
  let! victim := unwrap_some (nth_where is_btc_ticker 20 0 msgs) in
  let! r := feed session (removed msgs victim) in
  let '(s, _, actions) := r in
  assert (existsb (fun a => match a with Resubscribe (TradeIdGap _ _) => true | _ => false end) actions) ;!
  assert_eq (trade_id_gaps (stats s)) 1.

Definition duplicated_ticker_triggers_sequence_regression : test :=
  let msgs := fixture_lines in
  let! idx := unwrap_some (position is_btc_ticker msgs) in
  let idx := (idx + 5)%nat in
  let! idx := unwrap_some ((fun i => (idx + i)%nat) <$> position is_btc_ticker (drop idx msgs)) in
  let! m := at_index msgs idx in
  let! r := feed session (inserted_at msgs (S idx) m) in
  assert (existsb (fun a => match a with Resubscribe (SequenceRegression _ _) => true | _ => false end) r.2).

(** The loop that looks for the cut, from message [i] on. *)
Fixpoint find_cut (half i : nat) (last_ticker cut : option nat) (msgs : list bytes) : option nat :=
  match msgs with
  | [] => cut
  | m :: msgs =>
      let last_ticker := if is_btc_ticker m then Some i else last_ticker in
      if is_btc_heartbeat m && is_some last_ticker then
        if (half <? i)%nat then last_ticker else find_cut half (S i) last_ticker last_ticker msgs
      else find_cut half (S i) last_ticker cut msgs
  end.

Definition heartbeat_ahead_of_ticker_detects_lost_tail : test :=
  let msgs := fixture_lines in
  let! cut := unwrap_some (find_cut (length msgs / 2) 0 None None msgs) in
  let! r := feed session (removed msgs cut) in
  assert (negb (length r.2 =? 0)%nat).

Definition snapshot_after_resubscribe_is_not_a_gap_and_not_a_duplicate_trade : test :=
  let msgs := fixture_lines in
  let! first_btc := unwrap_some (position is_btc_ticker msgs) in
  let! m := at_index msgs first_btc in
  let! r := on_message session m 1 1 [] in
  let '(s, events, a) := r in
  assert (negb (is_some a)) ;!
  let before := length events in
  let s := note_action_taken s (Resubscribe Stale) in
  let! r := on_message s m 2 2 events in
  let '(s, events, a) := r in
  assert (negb (is_some a)) ;!
  assert_eq (length events) (S before) ;!
  assert (match list.last events with Some (EvBbo _) => true | _ => false end) ;!
  assert_eq (resubscribes (stats s)) 1.

Definition silence_triggers_reconnect : test :=
  assert (negb (is_some (on_tick session 5000))) ;!
  assert (match on_tick session 10001 with Some (Reconnect Stale) => true | _ => false end).

Definition malformed_and_unknown_messages_do_not_panic_or_act : test :=
  let! r := for_each (fun '(s, ev) m =>
      let! r := on_message s m 1 1 ev in
      let '(s, ev, a) := r in
      assert (negb (is_some a)) ;! Done (s, ev))
    [[]; lit "not json"; lit "{}"; jlit "{'type':'ticker'}"; jlit "{'type':'ticker','product_id':'DOGE-USD','sequence':1}";
     jlit "{'type':'subscriptions','channels':[]}"] (session, []) in
  let (s, ev) := r in
  assert (length ev =? 0)%nat ;!
  assert (2 <=? malformed (stats s)) ;!
  assert_eq (unknown_product (stats s)) 1.

Definition server_error_requests_reconnect : test :=
  let! r := on_message session (jlit "{'type':'error','message':'Failed to subscribe'}") 1 1 [] in
  assert (match r.2 with Some (Reconnect ServerError) => true | _ => false end).

(** ** The search in linear time

    The search of the source compares at indices, which is quadratic on lists; to run the tests it is replaced by
    the search along the list, which is the same function. *)

Lemma str_find_short needle hay : (length hay < length needle)%nat -> str_find needle hay = None.
Proof.
  intros H. pose proof (after_key_short needle hay H) as Ha. revert Ha. clear H.
  induction hay as [|b hay IH]; cbn [after_key str_find]; destruct (is_prefix _ _); [done..|]. intros Ha. by rewrite (IH Ha).
Qed.

Lemma find_loop_str_find fuel hay needle s : needle <> [] -> (fuel + s + length needle = length hay + 1)%nat ->
  find_loop fuel hay needle s = (fun i => s + i)%nat <$> str_find needle (drop s hay).
Proof.
  intros Hne. assert (0 < length needle)%nat by (destruct needle; [done|cbn; lia]).
  revert s. induction fuel as [|fuel IH]; intros s Hf; cbn [find_loop].
  - rewrite str_find_short; [done|]. rewrite length_drop. lia.
  - cbv zeta. rewrite find_test by (done || lia).
    destruct (drop s hay) as [|b l] eqn:Ed; [apply (f_equal length) in Ed; rewrite length_drop in Ed; cbn in Ed; lia|].
    cbn [str_find]. destruct (is_prefix needle (b :: l)); [by cbn; rewrite Nat.add_0_r|].
    rewrite IH by lia. rewrite <- Nat.add_1_r, <- drop_drop, Ed. change (drop 1 (b :: l)) with (drop 0 l). rewrite drop_0.
    destruct (str_find needle l); cbn; [apply (f_equal Some); lia|done].
Qed.

Definition scan_subsequence (hay needle : bytes) : option nat :=
  match needle with [] => None | _ => str_find needle hay end.

Lemma find_is_scan : find_subsequence = scan_subsequence.
Proof.
  extensionality hay. extensionality needle. unfold find_subsequence, scan_subsequence.
  destruct needle as [|c needle]; [done|]. change (length (c :: needle) =? 0)%nat with false. cbn [orb].
  destruct (Nat.ltb_spec (length hay) (length (c :: needle))) as [Hlt|Hge]; [by rewrite str_find_short|].
  rewrite find_loop_str_find by (done || lia). rewrite drop_0. by destruct (str_find _ _).
Qed.

(** Exposes the searches of a session. *)
Ltac expose_searches := cbv delta [
  recorded_stream_is_clean events_carry_sane_values dropped_ticker_triggers_trade_id_gap
  duplicated_ticker_triggers_sequence_regression heartbeat_ahead_of_ticker_detects_lost_tail
  snapshot_after_resubscribe_is_not_a_gap_and_not_a_duplicate_trade malformed_and_unknown_messages_do_not_panic_or_act
  server_error_requests_reconnect feed feed_message on_message on_ticker on_heartbeat product_index coinbase_message_type
  coinbase_trade_id coinbase_sequence coinbase_product_id parse_coinbase_ticker_bbo parse_coinbase_ticker_trade
  extract_json_str_field extract_json_int_field].

Module SessionTests.

(** The tests of the session pass on the model, on the recorded feed. *)
Theorem session_tests_pass : Forall passes
  [recorded_stream_is_clean; events_carry_sane_values; dropped_ticker_triggers_trade_id_gap;
   duplicated_ticker_triggers_sequence_regression; heartbeat_ahead_of_ticker_detects_lost_tail;
   snapshot_after_resubscribe_is_not_a_gap_and_not_a_duplicate_trade; silence_triggers_reconnect;
   malformed_and_unknown_messages_do_not_panic_or_act; server_error_requests_reconnect].
Proof. expose_searches. rewrite find_is_scan. run_tests. Qed.
End SessionTests.
